(* ===== verification/_CoqProject ===== *)
-Q . S2P
Prelude.v
F64.v
Metrics.v
FromStr.v
Failure.v
Message.v
Shutdown.v
Runner.v
Dlq.v
OffsetTracker.v
OffsetProofs.v
Retry.v
Commit.v
Queue.v
Dispatcher.v
Execution.v
PoolState.v
Worker.v
Batch.v
BatchSteps.v
Letters.v
Observe.v
Snapshot.v
FanOut.v
FanOutSlots.v
Pool.v
Context.v
Config.v
Builder.v
PyConfig.v
UnitTests.v
Producer.v
Logging.v
Handlers.v
Task.v
Pipeline.v
PipelineProofs.v
PipelineRuntime.v
PipelineLetters.v
PipelineOrder.v
PipelineCommit.v
PipelineShutdown.v
PipelineSafe.v
PipelineLive.v
PipelineDrain.v
Hooks.v
