(* ===== verification/Prelude.v ===== *)
(** * KafPy: verification library of the Rust consumer core

    KafPy is a Kafka consumer framework for Python whose core is written in
    Rust (src/).  This library models that core and proves what it does to a
    message from the broker to the committed offset, in the places where it does
    what it is meant to do and in those where it does not.

    ** The program

    - [Consumer] (consumer/runtime.rs) collects handlers and fan-out groups;
      [RuntimeBuilder::build] (runtime/builder.rs) turns them and the
      configuration (config.rs, consumer/config.rs, bindings.rs) into a runtime.
    - The consumer runner (consumer/runner.rs) receives messages from rdkafka and
      passes owned copies (consumer/message.rs) to the dispatcher; its context
      (consumer/context.rs) reacts to rebalances.
    - The consumer dispatcher (dispatcher/consumer_dispatcher.rs) puts each
      message in the bounded queue of its topic (dispatcher/mod.rs,
      queue_manager.rs) and pauses the topic under backpressure.
    - A worker per topic (worker_pool/pool.rs) invokes the Python handler
      (execution/callback.rs, middleware/), one message at a time (worker.rs) or
      in batches (batch_loop.rs, accumulator.rs, execution/batch.rs), and settles
      each result: acknowledgement, retry (retry/) or dead letter (dlq/), by the
      class of the failure (failure/).  A handler may fan a message out to sinks
      (worker_pool/fan_out.rs, execution/fan_out.rs).
    - The offset tracker (offset/offset_tracker.rs) turns acknowledgements into
      commit cursors; the committer (offset/commit_task.rs) stores and commits
      them; the shutdown coordinator (shutdown/shutdown.rs) orders the end.
    - Beside this path: what the workers publish (observability/), through
      Prometheus metrics and through the snapshot Python reads; the bridge from
      the log macros to Python's logging (log.rs); the producer
      (producer/runtime.rs), a client of its own for messages to Kafka.

    ** The files

    - Prelude: panics ([outcome]), Rust's [Result], machine integers with their
      wrap-around, time, the iteration order of hash maps ([HashOrder]), strings;
      the shared lemmas, the hint database [kafpy].  F64: binary64 arithmetic.
      FromStr: parsing of numbers and booleans, trimming.
    - Metrics: labels, the interface [MetricsSink], the Prometheus sink, and the
      recorders.  PoolState: the statuses of the workers.
    - Failure, Message, Shutdown, Runner, Dlq: the parts of these names.  Runner
      records the calls made on the broker client in a trace; an [async fn] that
      is not awaited makes none.
    - OffsetTracker: the tracker and the interface [OffsetCoordinator] through
      which the workers use it.  OffsetProofs: histories of a tracker, its
      invariant, and the instance of the interface's laws.
    - Retry, Commit, Queue, Dispatcher, Execution: the parts of these names.
    - Worker: results, failures, the loop of a worker, and a pool of workers that
      share one environment, turn by turn in any interleaving.
    - Batch, BatchSteps: the batch worker, turn by turn and in the steps between
      which it waits for the callable.
    - Letters: what each step of a worker sends to the dead-letter channel.
    - FanOut, FanOutSlots: one fan-out as an interleaving of its branches and the
      waiting task, with the report of that task; the slots of a tracker taken and
      given back by tasks that race, and its callback registry.
    - Observe: what workers publish against what they do.  Snapshot: the polling
      tasks, the globals through which Python reads them, and the dictionary.
    - Pool: assignment of topics to workers, per-handler permits, and the shutdown
      of the runtime as a transition system ([rt_step]).
    - Context: rebalances.  Config, Builder: the core's configuration and the
      assembly.  PyConfig: the configuration classes of the Python API, their
      environment readers and their builders.  Handlers: the builders of handlers
      and the registration of fan-out groups.
    - Producer: its methods, threads and channels.  Logging: filters, logger
      cache, channel and worker thread of the log bridge.
    - Task: the receiving task of [ConsumerRunner::run] and [ConsumerTask], with
      the channel between them and the stop signal.  Hooks: what middleware does.
    - Pipeline: the running runtime as one system: the receiving task, the
      dispatcher, the workers of both kinds, the committer, the rebalance
      callbacks, the dead-letter producer, the signal task, [Consumer.stop] and the
      main task, over the channel of the stream, the queues, the offset tracker, the
      dead-letter channel, the coordinator and the worker token, in any
      interleaving.  PipelineProofs: its invariant.
      PipelineRuntime: the start of the system from a runtime that [build] made.
    - PipelineLetters: the fate of every message and the origin of every dead
      letter.  PipelineOrder: the order of the calls of a partition.  PipelineCommit:
      what is handled gets committed.
    - PipelineShutdown: every step of the system is one of the shutdown protocol of
      Pool.  PipelineSafe: no step panics.  PipelineLive: every state can end.
      PipelineDrain: every backlog can be settled.
    - UnitTests: the tests of the repository (the test modules under src/src and
      src/tests), run on the model.

    Definitions keep the names of the source; where two parts share a name a
    prefix tells them apart ([ps_ack] of a partition, [tracker_ack] of the
    tracker, [queue_ack] of a queue).  State is passed explicitly, a definition
    whose code can panic returns an [outcome], and a hash map is a [gmap] whose
    iteration order is a parameter.

    ** What the theorems show

    - At-least-once processing: a committed offset covers handled messages only,
      for the tracker alone (OffsetProofs), for the committer beside any history
      (Commit), for rebalances (Context), for a pool of workers with retries,
      dead letters and cancellations (Worker), and for the running runtime, from
      the broker to the committed offset (PipelineRuntime); the cursor does
      reach the end of an acknowledged prefix (OffsetProofs), and in a running
      runtime two turns of the committer commit what it reached (PipelineCommit).
    - Conservation and order: the receiving task, queues, the dispatcher, the
      batch worker, the dead-letter channel and the producer lose, duplicate and
      reorder nothing they accepted (Task, Queue, Dispatcher, Batch, Dlq,
      Producer); in a running runtime every received message is in exactly one
      place (PipelineRuntime), and the messages of a partition are called for one
      after the other in the order of the broker, with the retries of one before the
      next (PipelineOrder).
    - Settling of a message: exactly one of retry and dead letter on a failure,
      within the attempts of the policy (Worker, Retry, Batch).  In a running runtime
      a message that a worker is done with succeeded or has a letter with its content,
      every letter is that of a failed call (PipelineLetters), and the workers can
      always go on until nothing received is left, whatever the callable does
      (PipelineDrain).
    - Invocation: the result of a call with its timeout, and every effect of its
      middleware (Execution, Hooks).
    - The end: the phases have one path, after a signal every interleaving of the
      tasks ends with the runtime returned, and a stopped receiving task ends
      within a bounded number of steps (Shutdown, Pool, Task).  The running runtime
      refines this protocol (PipelineShutdown), none of its tasks panics
      (PipelineSafe), and from each of its states the tasks can go on until it has
      returned (PipelineLive).
    - Shared objects under races: slots are bounded and one of the racing tasks gets
      one, a callback is called at most once (FanOutSlots).
    - What is seen from outside: the statuses, the counters and the snapshot
      dictionary say what the workers do (Observe, Snapshot), and the log bridge
      delivers exactly the records that the filters and Python's levels let
      through (Logging).
    - Round trips and assembly: message copies, trace context, letter headers
      (Message, Dlq); configurations written to and read from the environment, by
      constructors and by builders, with their types (PyConfig, Handlers); which
      handler and which settings a runtime gets (Config, Builder).
    - The repository's own tests evaluate on the model, and [unit_tests_of_the_core]
      says which of them the code does not pass (UnitTests).
    - Where the code falls short of its purpose a theorem says so for every
      history: lost failures, leaked permits, dropped messages, topics that stay
      paused, a final commit that is skipped, starved partitions, a window that
      never opens again, misreported sinks, fan-outs that never dispatch, stops
      that never return or are lost, callbacks that are never called.

    ** Bounds and fuel

    The cursor loop of [ps_ack] has the size of the pending set plus one as fuel,
    which [advance_next] and [advance_fuel] show to be enough; the loop of
    [filter_for] has the length of the target plus one, and [filter_for_eq] is
    about its complete result.  The other loops of the program run on lists of
    events (messages, ticks, turns), so a theorem about every list is one about
    every execution; termination is a theorem of its own
    ([message_settles_within_max_attempts], [worker_drains_its_channel],
    [sigterm_shutdown_completes], [consumer_task_stops]), and
    [runtime_can_always_end] and [backlog_can_be_settled] give the steps that are
    left.  Offsets are bounded by 2^63 and counters by their width, and the fan-out
    theorems are for at most 255 sinks, the range of the byte that counts them.

    ** What is a parameter, and what is not modelled

    The answers of rdkafka, the Python calls (what they do and how long they
    take), Python's logging, the clock, the random draws, the formatting of dates
    and the metric objects of the Prometheus client (a history of calls each) are
    arguments.  Left out: the log lines inside the core other than those of the
    logging middleware, the registration of the Python module (lib.rs), the texts
    of __repr__ of the configuration classes, Debug instances, and the Python
    package.  The system of Pipeline has the Unix signal task; the Windows one is
    [rt_step_windows] of Pool.  One step of a worker lasts until its next wait, and
    within it the dead-letter producer takes nothing from its channel.  The snapshot
    task, which only reads, and the branches of a fan-out, which only take what they
    are handed, are modelled on their own (Snapshot, FanOut) and not as tasks of the
    system. *)

From Stdlib Require Import Ascii.
From stdpp Require Import base gmap sets list strings pretty sorting.

Declare Scope kafpy_scope.
Delimit Scope kafpy_scope with kafpy.
Open Scope kafpy_scope.
Open Scope Z_scope.

(** ** Panics

    The release profile is built with [panic = "abort"], so a panic ends the
    process.  A definition whose code can panic returns an [outcome]. *)

Inductive outcome (A : Type) : Type :=
| Ret (a : A)
| Panic.
Arguments Ret {A} a.
Arguments Panic {A}.

Definition obind {A B : Type} (x : outcome A) (f : A → outcome B) : outcome B :=
  match x with
  | Ret a => f a
  | Panic => Panic
  end.

Definition omap_out {A B : Type} (f : A → B) (x : outcome A) : outcome B :=
  obind x (λ a, Ret (f a)).

Notation "'let?' x ':=' m 'in' k" := (obind m (λ x, k))
  (at level 10, x pattern, m at level 100, k at level 200) : kafpy_scope.

Definition is_ret {A : Type} (x : outcome A) : bool :=
  match x with Ret _ => true | Panic => false end.

(** A loop whose body may panic. *)
Fixpoint ofold {A B : Type} (f : A → B → outcome A) (a : A) (l : list B) : outcome A :=
  match l with
  | [] => Ret a
  | x :: l => let? a' := f a x in ofold f a' l
  end.

(** ** Rust's [Result] *)

Inductive result (T E : Type) : Type :=
| Ok (t : T)
| Err (e : E).
Arguments Ok {T E} t.
Arguments Err {T E} e.

Definition is_ok_result {T E : Type} (r : result T E) : bool :=
  match r with Ok _ => true | Err _ => false end.

(** ** Machine integers

    An integer of width [w] is a [Z] kept in range by the wrap-around of its
    type; release builds do not check for overflow. *)

Definition i64_wrap (z : Z) : Z := (z + 2 ^ 63) `mod` 2 ^ 64 - 2 ^ 63.
Definition usize_wrap (z : Z) : Z := z `mod` 2 ^ 64.
Definition u64_wrap (z : Z) : Z := z `mod` 2 ^ 64.
Definition u32_wrap (z : Z) : Z := z `mod` 2 ^ 32.
Definition u8_wrap (z : Z) : Z := z `mod` 2 ^ 8.

Definition i64_range (z : Z) : Prop := - 2 ^ 63 ≤ z < 2 ^ 63.
Definition usize_range (z : Z) : Prop := 0 ≤ z < 2 ^ 64.
Definition u8_range (z : Z) : Prop := 0 ≤ z < 2 ^ 8.

(** [usize::saturating_sub]. *)
Definition saturating_sub (a b : Z) : Z := Z.max 0 (a - b).

(** ** Time

    A [Duration] or an [Instant] is a number of nanoseconds. *)

Definition from_millis (ms : Z) : Z := ms * 1000000.
Definition from_secs (s : Z) : Z := s * 1000000000.
Definition as_millis (d : Z) : Z := d `div` 1000000.

(** ** [HashMap] iteration

    The iteration order of a [HashMap] is unspecified: definitions that
    iterate over one are parametric in the order. *)

Class HashOrder (K : Type) `{Countable K} := {
  hash_iter : ∀ {A : Type}, gmap K A → list (K * A);
  hash_iter_perm : ∀ {A : Type} (m : gmap K A), hash_iter m ≡ₚ map_to_list m
}.

(** One possible order, used by the concrete evaluations. *)
Definition hash_order_canonical (K : Type) `{Countable K} : HashOrder K :=
  {| hash_iter := λ A m, map_to_list m; hash_iter_perm := λ A m, Permutation_refl _ |}.

Definition hash_keys {K : Type} `{HashOrder K} {A : Type} (m : gmap K A) : list K :=
  (hash_iter m).*1.

(** ** Ordered sets

    [BTreeSet] iteration is in ascending order. *)

Definition btree_iter (X : gset Z) : list Z := merge_sort Z.le (elements X).

(** ** Strings *)

(** [str::contains]. *)
Fixpoint str_contains (needle s : string) : bool :=
  String.prefix needle s ||
  match s with
  | EmptyString => false
  | String _ s' => str_contains needle s'
  end.

(** [str::split] on one character. *)
Fixpoint str_split (c : Ascii.ascii) (s : string) : list string :=
  match s with
  | EmptyString => [EmptyString]
  | String a s' =>
      match str_split c s' with
      | [] => [String a EmptyString]
      | w :: ws =>
          if Ascii.eqb a c then EmptyString :: w :: ws else String a w :: ws
      end
  end.

Definition char_free (c : Ascii.ascii) (s : string) : Prop :=
  str_split c s = [s].

(** ** Generic lemmas *)

Lemma i64_wrap_id (z : Z) : i64_range z → i64_wrap z = z.
Proof. unfold i64_range, i64_wrap. intros. rewrite Z.mod_small; lia. Qed.

Lemma i64_wrap_max_succ : i64_wrap (2 ^ 63 - 1 + 1) = - 2 ^ 63.
Proof. reflexivity. Qed.

Lemma usize_wrap_id (z : Z) : usize_range z → usize_wrap z = z.
Proof. unfold usize_range, usize_wrap. intros. apply Z.mod_small; lia. Qed.

Lemma u8_wrap_id (z : Z) : u8_range z → u8_wrap z = z.
Proof. unfold u8_range, u8_wrap. intros. apply Z.mod_small; lia. Qed.

Lemma saturating_sub_nonneg (a b : Z) : 0 ≤ saturating_sub a b.
Proof. unfold saturating_sub. lia. Qed.

Lemma elem_of_btree_iter (X : gset Z) (z : Z) : z ∈ btree_iter X ↔ z ∈ X.
Proof. unfold btree_iter. rewrite merge_sort_Permutation. apply elem_of_elements. Qed.

Lemma btree_iter_sorted (X : gset Z) : Sorted Z.le (btree_iter X).
Proof. apply Sorted_merge_sort, _. Qed.

Lemma btree_iter_nodup (X : gset Z) : NoDup (btree_iter X).
Proof. unfold btree_iter. rewrite merge_sort_Permutation. apply NoDup_elements. Qed.

Lemma btree_iter_nil (X : gset Z) : btree_iter X = [] ↔ X = ∅.
Proof.
  split.
  - intros Hn. apply set_eq. intros z. rewrite <- elem_of_btree_iter, Hn. set_solver.
  - intros ->. reflexivity.
Qed.

Lemma elem_of_hash_iter {K : Type} `{HashOrder K} {A : Type} (m : gmap K A) (k : K) (a : A) :
  (k, a) ∈ hash_iter m ↔ m !! k = Some a.
Proof. rewrite hash_iter_perm. apply elem_of_map_to_list. Qed.

Lemma elem_of_hash_keys {K : Type} `{HashOrder K} {A : Type} (m : gmap K A) (k : K) :
  k ∈ hash_keys m ↔ is_Some (m !! k).
Proof.
  unfold hash_keys. rewrite list_elem_of_fmap. split.
  - intros ([k' a] & -> & Hin). apply elem_of_hash_iter in Hin. eauto.
  - intros [a Ha]. exists (k, a). split; [done|]. by apply elem_of_hash_iter.
Qed.

Lemma hash_keys_nodup {K : Type} `{HashOrder K} {A : Type} (m : gmap K A) :
  NoDup (hash_keys m).
Proof. unfold hash_keys. rewrite hash_iter_perm. apply NoDup_fst_map_to_list. Qed.

Lemma str_split_not_nil (c : Ascii.ascii) (s : string) : str_split c s ≠ [].
Proof.
  induction s as [|a s IH]; simpl; [done|].
  destruct (str_split c s); [done|]. by destruct (Ascii.eqb a c).
Qed.

(** Splitting a string at the first separator. *)
Lemma str_split_app (c : Ascii.ascii) (w s : string) :
  char_free c w → str_split c (w +:+ String c s) = w :: str_split c s.
Proof.
  unfold char_free. induction w as [|a w IH]; simpl; intros Hw.
  - rewrite Ascii.eqb_refl.
    destruct (str_split c s) eqn:E; [by destruct (str_split_not_nil c s)|done].
  - destruct (str_split c w) as [|x xs] eqn:E; [by destruct (str_split_not_nil c w)|].
    destruct (Ascii.eqb a c); [discriminate|]. injection Hw as -> ->.
    by rewrite IH.
Qed.

Lemma str_split_sep (c : Ascii.ascii) (w s : string) :
  char_free c w → str_split c (w +:+ String c EmptyString +:+ s) = w :: str_split c s.
Proof. apply str_split_app. Qed.

Lemma foldl_snoc_map {A B : Type} (f : A → B) (l : list A) (acc : list B) :
  foldl (λ tr x, tr ++ [f x]) acc l = acc ++ (f <$> l).
Proof.
  revert acc. induction l as [|x l IH]; intros acc; simpl; [by rewrite app_nil_r|].
  by rewrite IH, <- app_assoc.
Qed.

Lemma enumerate_snd {A} (l : list A) : (imap pair l).*2 = l.
Proof.
  apply list_eq. intros i. rewrite list_lookup_fmap, list_lookup_imap. by destruct (l !! i).
Qed.

Lemma enumerate_fst {A} (l : list A) : (imap pair l).*1 = seq 0 (length l).
Proof.
  apply list_eq. intros i. rewrite list_lookup_fmap, list_lookup_imap.
  destruct (l !! i) eqn:E; simpl.
  - rewrite lookup_seq_lt; [done|]. by eapply lookup_lt_Some.
  - apply lookup_ge_None in E. by rewrite lookup_seq_ge.
Qed.

(** What every iteration of a loop preserves. *)
Lemma ofold_inv {A B : Type} (P : A → Prop) (f : A → B → outcome A) (l : list B) :
  (∀ a x a', x ∈ l → P a → f a x = Ret a' → P a') →
  ∀ a a', P a → ofold f a l = Ret a' → P a'.
Proof.
  induction l as [|x l IH]; intros Hf a a' Ha Hr; simpl in Hr; [by simplify_eq|].
  destruct (f a x) as [a1|] eqn:E; [|done]. simpl in Hr.
  eapply IH; [|eapply Hf; [left|exact Ha|exact E]|exact Hr].
  intros ? ? ? Hin. apply Hf. by right.
Qed.

(** ** Tactics and hints *)

(** Case analysis on every [match] and [if] of the goal, then simplification. *)
Ltac cases := repeat case_match; simplify_eq/=; try done.

(** Unfold the record projections and close arithmetic and set goals. *)
Ltac solve_rec := simplify_map_eq; try done; try lia; try set_solver.

Create HintDb kafpy.
Create Rewrite HintDb kafpy.
#[export] Hint Resolve saturating_sub_nonneg btree_iter_sorted btree_iter_nodup
  hash_keys_nodup : kafpy.
#[export] Hint Rewrite @elem_of_btree_iter @btree_iter_nil : kafpy.
