(* ===== verification/F64.v ===== *)
(** * Double-precision arithmetic

    [f64] is the binary64 format of the Standard Library's executable IEEE 754
    specification: every operation is rounded as the hardware does. *)

From Stdlib Require Import ZArith SpecFloat.
From stdpp Require Import base numbers.
From S2P Require Import Prelude.

Abbreviation f64 := spec_float.

Definition f64_of_Z (n : Z) : f64 := binary_normalize 53 1024 n 0 false.
Definition f64_mul : f64 → f64 → f64 := SFmul 53 1024.
Definition f64_add : f64 → f64 → f64 := SFadd 53 1024.
Definition f64_sub : f64 → f64 → f64 := SFsub 53 1024.
Definition f64_div : f64 → f64 → f64 := SFdiv 53 1024.

Definition f64_zero : f64 := S754_zero false.
Definition f64_one : f64 := f64_of_Z 1.
Definition f64_two : f64 := f64_of_Z 2.
Definition f64_half : f64 := S754_finite false 4503599627370496 (-53).
Definition f64_three_quarters : f64 := S754_finite false 6755399441055744 (-53).
(** The double nearest to 0.1. *)
Definition f64_tenth : f64 := S754_finite false 7205759403792794 (-56).

Definition f64_is_nan (x : f64) : bool := match x with S754_nan => true | _ => false end.

(** [f64::min]: a NaN argument is ignored. *)
Definition f64_min (a b : f64) : f64 :=
  if f64_is_nan a then b
  else if f64_is_nan b then a
  else if SFltb b a then b else a.

(** [2_f64.powf(n as f64)] for an unsigned [n]: exact up to 1023, then infinite. *)
Definition f64_pow2 (n : Z) : f64 :=
  if n <=? 1023 then S754_finite false 4503599627370496 (n - 52) else S754_infinity false.

(** [num / den] rounded to the nearest integer, ties to even. *)
Definition round_half_even (num den : Z) : Z :=
  let q := num / den in
  match Z.compare (2 * (num mod den)) den with
  | Lt => q
  | Gt => q + 1
  | Eq => if Z.even q then q else q + 1
  end.

(** [Duration::as_secs_f64]. *)
Definition as_secs_f64 (d : Z) : f64 :=
  f64_add (f64_of_Z (d / 1000000000))
          (f64_div (f64_of_Z (d mod 1000000000)) (f64_of_Z 1000000000)).

(** [Duration::from_secs_f64]: panics on a negative, too large or undefined
    number of seconds; otherwise rounds to the nearest nanosecond. *)
Definition from_secs_f64 (x : f64) : outcome Z :=
  match x with
  | S754_zero _ => Ret 0
  | S754_finite false m e =>
      if 64 <? e + Zpos (digits2_pos m) then Panic
      else Ret (if 0 <=? e then Zpos m * 2 ^ e * 1000000000
                else round_half_even (Zpos m * 1000000000) (2 ^ (- e)))
  | _ => Panic
  end.

(** A truncating cast [x as usize]: saturating, 0 for a NaN. *)
Definition f64_to_usize (x : f64) : Z :=
  match x with
  | S754_finite false m e =>
      Z.min (2 ^ 64 - 1) (if 0 <=? e then Zpos m * 2 ^ e else Zpos m / 2 ^ (- e))
  | S754_infinity false => 2 ^ 64 - 1
  | _ => 0
  end.

(** ** Lemmas *)

(** Unless an argument is a NaN, the minimum is below both. *)
Lemma f64_min_le_r (a b : f64) :
  f64_is_nan b = false → SFltb b (f64_min a b) = false.
Proof.
  intros Hb. unfold f64_min. rewrite Hb.
  destruct (f64_is_nan a) eqn:Ha.
  - unfold SFltb. destruct b as [[]|[]| |s m e]; try done. simpl.
    destruct s; by rewrite Z.compare_refl, Pos.compare_cont_refl.
  - destruct (SFltb b a) eqn:E; [|done].
    unfold SFltb. destruct b as [[]|[]| |s m e]; try done. simpl.
    destruct s; by rewrite Z.compare_refl, Pos.compare_cont_refl.
Qed.
