(* ===== verification/Metrics.v ===== *)
(** * Metrics (src/observability/metrics.rs)

    Labels, the sink interface, the Prometheus sink and the recorders.  The
    metric objects are those of the Prometheus client, so a metric is the
    history of the calls made on it. *)

From stdpp Require Import base gmap sets list strings pretty sorting.
From S2P Require Import Prelude F64.

(** ** [MetricsSink] *)

Abbreviation LabelSlice := (list (string * string)) (only parsing).

Class MetricsSink (S : Type) := {
  record_counter : string → LabelSlice → S → S;
  record_histogram : string → f64 → LabelSlice → S → S;
  record_gauge : string → f64 → LabelSlice → S → S
}.

(** ** [MetricLabels] *)

Record MetricLabels := { labels : list (string * string) }.

Definition labels_new : MetricLabels := {| labels := [] |}.

(** One insertion of the stable sort: after the elements whose key is not greater. *)
Fixpoint insert_by_key (kv : string * string) (l : list (string * string)) : list (string * string) :=
  match l with
  | [] => [kv]
  | x :: l' => if decide (String.le x.1 kv.1) then x :: insert_by_key kv l' else kv :: l
  end.

(** [Vec::sort_by_key], a stable sort. *)
Definition sort_by_key (l : list (string * string)) : list (string * string) :=
  foldl (λ acc kv, insert_by_key kv acc) [] l.

Definition insert_label (kv : string * string) (m : MetricLabels) : MetricLabels :=
  {| labels := sort_by_key (labels m ++ [kv]) |}.

Definition as_slice (m : MetricLabels) : LabelSlice := labels m.

(** A chain of [insert] from [MetricLabels::new]. *)
Definition labels_of (l : list (string * string)) : MetricLabels :=
  foldl (λ m kv, insert_label kv m) labels_new l.

(** ** [PrometheusSink] *)

Inductive MetricKind := KCounter | KHistogram | KGauge.
#[export] Instance metric_kind_eq_dec : EqDecision MetricKind.
Proof. solve_decision. Defined.

(** [x as i64]: truncates, saturates, and maps a NaN to 0. *)
Definition f64_to_i64 (x : f64) : Z :=
  match x with
  | SpecFloat.S754_finite s m e =>
      let n := if 0 <=? e then Zpos m * 2 ^ e else Zpos m / 2 ^ (- e) in
      if s then Z.max (- 2 ^ 63) (- n) else Z.min (2 ^ 63 - 1) n
  | SpecFloat.S754_infinity s => if s then - 2 ^ 63 else 2 ^ 63 - 1
  | _ => 0
  end.

(** A counter by its increments, a histogram by the values observed, a gauge by
    the values set.  [registry] are the registrations, in order. *)
Record PrometheusSink := {
  registry : list (MetricKind * string * string);
  counters : gmap string nat;
  histograms : gmap string (list f64);
  gauges : gmap string (list Z)
}.

Definition sink_new : PrometheusSink :=
  {| registry := []; counters := ∅; histograms := ∅; gauges := ∅ |}.

Definition register_counter (name help : string) (s : PrometheusSink) : PrometheusSink :=
  match counters s !! name with
  | Some _ => s
  | None =>
      {| registry := registry s ++ [(KCounter, name, help)]; counters := <[name := 0%nat]> (counters s);
         histograms := histograms s; gauges := gauges s |}
  end.

Definition register_histogram (name help : string) (s : PrometheusSink) : PrometheusSink :=
  match histograms s !! name with
  | Some _ => s
  | None =>
      {| registry := registry s ++ [(KHistogram, name, help)]; counters := counters s;
         histograms := <[name := []]> (histograms s); gauges := gauges s |}
  end.

Definition register_gauge (name help : string) (s : PrometheusSink) : PrometheusSink :=
  match gauges s !! name with
  | Some _ => s
  | None =>
      {| registry := registry s ++ [(KGauge, name, help)]; counters := counters s;
         histograms := histograms s; gauges := <[name := []]> (gauges s) |}
  end.

(** Recording looks the metric up by its name; the labels are not used. *)
#[export] Instance prometheus_sink : MetricsSink PrometheusSink := {|
  record_counter name _ s :=
    {| registry := registry s; counters := alter S name (counters s);
       histograms := histograms s; gauges := gauges s |};
  record_histogram name value _ s :=
    {| registry := registry s; counters := counters s;
       histograms := alter (λ l, l ++ [value]) name (histograms s); gauges := gauges s |};
  record_gauge name value _ s :=
    {| registry := registry s; counters := counters s; histograms := histograms s;
       gauges := alter (λ l, l ++ [f64_to_i64 value]) name (gauges s) |}
|}.

(** [SharedPrometheusSink::new]: every handle shares the one sink behind the
    mutex, which is the sink threaded through the model. *)
Definition shared_sink_new : PrometheusSink :=
  let s := sink_new in
  let s := register_counter "kafpy.message.throughput" "Messages delivered per second" s in
  let s := register_histogram "kafpy.handler.latency" "Handler processing time in seconds" s in
  let s := register_histogram "kafpy.handler.batch_size" "Batch size distribution" s in
  let s := register_counter "kafpy.handler.invocation" "Handler invocation count" s in
  let s := register_counter "kafpy.handler.error" "Handler error count" s in
  let s := register_gauge "kafpy.queue.depth" "Current queue depth per handler" s in
  let s := register_gauge "kafpy.consumer.lag" "Consumer lag per partition" s in
  let s := register_counter "kafpy.dlq.messages" "Messages produced to DLQ" s in
  let s := register_counter "kafpy.handler.timeout_total" "Handler timeout count" s in
  let s := register_counter "kafpy.python.call_total" "Python callback invocation count" s in
  let s := register_histogram "kafpy.python.call_duration_seconds" "Python callback duration in seconds" s in
  let s := register_histogram "kafpy.python.queue_wait_seconds"
             "Wait time before Python callback execution in seconds" s in
  let s := register_histogram "kafpy.python.batch_size" "Python callback batch size distribution" s in
  let s := register_counter "kafpy.python.backpressure_total"
             "Python callback backpressure/saturation count" s in
  let s := register_histogram "kafpy.fanout.branch_duration_seconds"
             "Fan-out branch processing time in seconds" s in
  register_counter "kafpy.fanout.branch_total" "Fan-out branch completion count" s.

(** ** Recorders *)

Section recorders.
Context {S : Type} `{MetricsSink S}.

Definition record_invocation (l : MetricLabels) : S → S :=
  record_counter "kafpy.handler.invocation" (as_slice l).

Definition record_latency (l : MetricLabels) (elapsed : Z) : S → S :=
  record_histogram "kafpy.handler.latency" (as_secs_f64 elapsed) (as_slice l).

Definition record_error (l : MetricLabels) : S → S :=
  record_counter "kafpy.handler.error" (as_slice l).

Definition record_batch_size (l : MetricLabels) (size : Z) : S → S :=
  record_histogram "kafpy.handler.batch_size" (f64_of_Z size) (as_slice l).

Definition record_throughput (topic handler_id mode : string) : S → S :=
  record_counter "kafpy.message.throughput"
    (as_slice (labels_of [("topic", topic); ("handler_id", handler_id); ("mode", mode)])).

Definition record_lag (topic : string) (partition lag : Z) : S → S :=
  record_gauge "kafpy.consumer.lag" (f64_of_Z lag)
    (as_slice (labels_of [("topic", topic); ("partition", pretty partition)])).

Definition record_queue_depth (handler_id : string) (depth : Z) : S → S :=
  record_gauge "kafpy.queue.depth" (f64_of_Z depth) (as_slice (labels_of [("handler_id", handler_id)])).

Definition record_dlq_message (dlq_topic original_topic : string) : S → S :=
  record_counter "kafpy.dlq.messages"
    (as_slice (labels_of [("dlq_topic", dlq_topic); ("original_topic", original_topic)])).

Definition record_branch_completion (fan_out_id : Z) (branch_name branch_outcome : string) : S → S :=
  record_counter "kafpy.fanout.branch_total"
    (as_slice (labels_of [("fan_out_id", pretty fan_out_id); ("branch_name", branch_name);
                          ("branch_outcome", branch_outcome)])).

Definition record_timeout (topic handler_name : string) : S → S :=
  record_counter "kafpy.handler.timeout_total"
    (as_slice (labels_of [("topic", topic); ("handler_name", handler_name)])).

Definition record_call (path mode : string) (elapsed batch_size : Z) (s : S) : S :=
  let l := as_slice (labels_of [("mode", mode); ("path", path)]) in
  let s := record_counter "kafpy.python.call_total" l s in
  let s := record_histogram "kafpy.python.call_duration_seconds" (as_secs_f64 elapsed) l s in
  record_histogram "kafpy.python.batch_size" (f64_of_Z batch_size) l s.

Definition record_queue_wait (path mode : string) (elapsed : Z) : S → S :=
  record_histogram "kafpy.python.queue_wait_seconds" (as_secs_f64 elapsed)
    (as_slice (labels_of [("mode", mode); ("path", path)])).

End recorders.

(** The value of a counter, and the values given to a histogram or a gauge. *)
Definition counter_value (name : string) (s : PrometheusSink) : nat := default 0%nat (counters s !! name).
Definition histogram_values (name : string) (s : PrometheusSink) : list f64 := default [] (histograms s !! name).
Definition gauge_values (name : string) (s : PrometheusSink) : list Z := default [] (gauges s !! name).

(** ** Lemmas *)

Lemma filter_none {A : Type} (P : A → Prop) `{∀ x, Decision (P x)} l : Forall (λ x, ¬ P x) l → filter P l = [].
Proof. induction 1 as [|x l Hx Hl IH]; [done|]. by rewrite filter_cons, decide_False. Qed.

Lemma insert_by_key_perm kv l : insert_by_key kv l ≡ₚ kv :: l.
Proof.
  induction l as [|x l IH]; simpl; [done|]. destruct (decide _); [|done].
  rewrite IH. by constructor.
Qed.

Definition key_le (x y : string * string) : Prop := String.le x.1 y.1.

#[local] Instance key_le_trans : Transitive key_le.
Proof. intros x y z. unfold key_le. by etransitivity. Qed.

Lemma insert_by_key_sorted kv l : StronglySorted key_le l → StronglySorted key_le (insert_by_key kv l).
Proof.
  induction 1 as [|x l Hl IH Hx]; simpl; [by repeat constructor|].
  destruct (decide (String.le x.1 kv.1)) as [Hk|Hk].
  - constructor; [done|]. rewrite insert_by_key_perm. by constructor.
  - assert (key_le kv x) by (destruct (total String.le x.1 kv.1); done).
    constructor; [by constructor|]. constructor; [done|].
    eapply Forall_impl; [exact Hx|]. intros y Hy. by etransitivity.
Qed.

(** Equal keys keep their order. *)
Lemma insert_by_key_stable kv l k : StronglySorted key_le l →
  filter (λ x, x.1 = k) (insert_by_key kv l) = filter (λ x, x.1 = k) (l ++ [kv]).
Proof.
  induction 1 as [|x l Hl IH Hx]; simpl; [done|].
  destruct (decide (String.le x.1 kv.1)) as [Hk|Hk]; [by rewrite !filter_cons, IH|].
  rewrite (filter_cons _ kv). destruct (decide (kv.1 = k)) as [<-|Hne].
  - assert (filter (λ y, y.1 = kv.1) (x :: l) = []) as Hn.
    { apply filter_none. constructor.
      - intros E. apply Hk. by rewrite E.
      - eapply Forall_impl; [exact Hx|]. intros y Hy E. apply Hk. unfold key_le in Hy. by rewrite E in Hy. }
    change (x :: l ++ [kv]) with ((x :: l) ++ [kv]).
    by rewrite filter_app, Hn, filter_cons, decide_True.
  - change (x :: l ++ [kv]) with ((x :: l) ++ [kv]).
    by rewrite filter_app, (filter_cons _ kv), decide_False, filter_nil, app_nil_r.
Qed.

Lemma sort_by_key_spec l : StronglySorted key_le (sort_by_key l) ∧ sort_by_key l ≡ₚ l ∧
  ∀ k, filter (λ x, x.1 = k) (sort_by_key l) = filter (λ x, x.1 = k) l.
Proof.
  unfold sort_by_key. induction l as [|kv l (IHs & IHp & IHf)] using rev_ind; [by repeat constructor|].
  rewrite foldl_snoc. split_and!.
  - by apply insert_by_key_sorted.
  - by rewrite insert_by_key_perm, IHp, Permutation_cons_append.
  - intros k. rewrite insert_by_key_stable by done. by rewrite !filter_app, IHf.
Qed.

Lemma labels_of_spec l : StronglySorted key_le (as_slice (labels_of l)) ∧ as_slice (labels_of l) ≡ₚ l ∧
  ∀ k, filter (λ x, x.1 = k) (as_slice (labels_of l)) = filter (λ x, x.1 = k) l.
Proof.
  unfold labels_of, as_slice. induction l as [|kv l (IHs & IHp & IHf)] using rev_ind.
  { by repeat constructor. }
  rewrite foldl_snoc. simpl. destruct (sort_by_key_spec (labels (foldl (λ m kv, insert_label kv m) labels_new l) ++ [kv]))
    as (Hs & Hp & Hf).
  split_and!; [done|by rewrite Hp, IHp|]. intros k. by rewrite Hf, !filter_app, IHf.
Qed.
