(* ===== verification/FromStr.v ===== *)
(** * Values read from strings

    [str::parse] of the standard library for unsigned integers and flags, and
    [str::trim]: what the configuration reads its settings with. *)

From Stdlib Require Import Ascii String.
From stdpp Require Import base gmap sets list strings pretty.
From S2P Require Import Prelude.

(** ** Sequencing of [Result]: the operator [?] *)

Definition rbind {A B E : Type} (x : result A E) (f : A → result B E) : result B E :=
  match x with Ok a => f a | Err e => Err e end.

Notation "'let!' x ':=' m 'in' k" := (rbind m (λ x, k))
  (at level 10, x pattern, m at level 100, k at level 200) : kafpy_scope.

(** [Result::ok] and [Result::map_err]. *)
Definition result_ok {A E : Type} (x : result A E) : option A :=
  match x with Ok a => Some a | Err _ => None end.

Definition map_err {A E F : Type} (f : E → F) (x : result A E) : result A F :=
  match x with Ok a => Ok a | Err e => Err (f e) end.

(** ** [u32], [u64] and [usize] *)

Inductive ParseIntError := IntEmpty | IntInvalidDigit | IntPosOverflow.

(** One digit in base ten. *)
Definition digit_of (a : ascii) : option Z :=
  let d := Z.of_N (N_of_ascii a) - 48 in
  if (0 <=? d) && (d <=? 9) then Some d else None.

(** The digits from left to right: at each one, a wrong character is found
    before an overflow. *)
Fixpoint parse_digits (max acc : Z) (s : string) : result Z ParseIntError :=
  match s with
  | EmptyString => Ok acc
  | String a s =>
      match digit_of a with
      | None => Err IntInvalidDigit
      | Some d =>
          if max <? acc * 10 + d then Err IntPosOverflow else parse_digits max (acc * 10 + d) s
      end
  end.

(** A leading plus is skipped unless it is the whole string. *)
Definition parse_uint (max : Z) (s : string) : result Z ParseIntError :=
  match s with
  | "" => Err IntEmpty
  | String "+" "" => Err IntInvalidDigit
  | String "+" s => parse_digits max 0 s
  | _ => parse_digits max 0 s
  end.

Definition u32_max : Z := 2 ^ 32 - 1.
Definition u64_max : Z := 2 ^ 64 - 1.

Definition parse_u32 : string → result Z ParseIntError := parse_uint u32_max.
Definition parse_u64 : string → result Z ParseIntError := parse_uint u64_max.
Definition parse_usize : string → result Z ParseIntError := parse_uint u64_max.

(** ** [bool] *)

Inductive ParseBoolError := NotABool.

Definition parse_bool (s : string) : result bool ParseBoolError :=
  match s with
  | "true" => Ok true
  | "false" => Ok false
  | _ => Err NotABool
  end.

(** [bool::to_string]. *)
Definition bool_to_string (b : bool) : string := if b then "true" else "false".

(** ** [str::trim]

    The characters of the Unicode property White_Space, in UTF-8. *)

Definition utf8_chars (l : list (list N)) : list (list ascii) :=
  map (map ascii_of_N) l.

Definition white_space : list (list ascii) := utf8_chars
  [[9]; [10]; [11]; [12]; [13]; [32]; [194; 133]; [194; 160]; [225; 154; 128];
   [226; 128; 128]; [226; 128; 129]; [226; 128; 130]; [226; 128; 131]; [226; 128; 132];
   [226; 128; 133]; [226; 128; 134]; [226; 128; 135]; [226; 128; 136]; [226; 128; 137];
   [226; 128; 138]; [226; 128; 168]; [226; 128; 169]; [226; 128; 175]; [226; 129; 159];
   [227; 128; 128]]%N.

(** What follows the first of the given characters, if the text starts with one. *)
Fixpoint strip_prefix (p s : list ascii) : option (list ascii) :=
  match p, s with
  | [], _ => Some s
  | a :: p, b :: s => if Ascii.eqb a b then strip_prefix p s else None
  | _, [] => None
  end.

Fixpoint strip_any (ps : list (list ascii)) (s : list ascii) : option (list ascii) :=
  match ps with
  | [] => None
  | p :: ps => match strip_prefix p s with Some r => Some r | None => strip_any ps s end
  end.

(** Every round removes at least one byte, so the length is enough fuel. *)
Fixpoint trim_start (fuel : nat) (ps : list (list ascii)) (s : list ascii) : list ascii :=
  match fuel with
  | O => s
  | S fuel => match strip_any ps s with Some r => trim_start fuel ps r | None => s end
  end.

(** The end of a text is the start of its reversal. *)
Definition trim_bytes (s : list ascii) : list ascii :=
  let s := trim_start (length s) white_space s in
  rev (trim_start (length s) (map (@rev ascii) white_space) (rev s)).

Definition trim (s : string) : string :=
  string_of_list_ascii (trim_bytes (list_ascii_of_string s)).

(** ** Lemmas *)

Lemma rbind_Ok {A B E : Type} (x : result A E) (f : A → result B E) b :
  rbind x f = Ok b ↔ ∃ a, x = Ok a ∧ f a = Ok b.
Proof. destruct x; simpl; naive_solver. Qed.

Lemma rbind_Err {A B E : Type} (x : result A E) (f : A → result B E) e :
  rbind x f = Err e ↔ x = Err e ∨ ∃ a, x = Ok a ∧ f a = Err e.
Proof. destruct x; simpl; naive_solver. Qed.

Lemma parse_digits_range max acc s n :
  0 ≤ acc ≤ max → parse_digits max acc s = Ok n → 0 ≤ n ≤ max.
Proof.
  revert acc. induction s as [|a s IH]; intros acc Ha; simpl; [by intros [= <-]|].
  unfold digit_of. destruct (_ && _) eqn:E; [|done].
  apply andb_prop in E as [E1%Z.leb_le E2%Z.leb_le].
  destruct (Z.ltb_spec max (acc * 10 + (Z.of_N (N_of_ascii a) - 48))); [done|]. apply IH. lia.
Qed.

(** Only numbers of the type are returned. *)
Lemma parse_uint_range max s n : 0 ≤ max → parse_uint max s = Ok n → 0 ≤ n ≤ max.
Proof.
  intros Hm. unfold parse_uint. intros H.
  assert (∀ s', parse_digits max 0 s' = Ok n → 0 ≤ n ≤ max) as Hd
    by (intros s' H'; eapply parse_digits_range, H'; lia).
  repeat (case_match; simplify_eq; eauto).
Qed.

(** A decimal digit is read back as itself. *)
Lemma digit_of_pretty (x : N) : (x < 10)%N → digit_of (pretty_N_char x) = Some (Z.of_N x).
Proof.
  intros H. assert (x = 0 ∨ x = 1 ∨ x = 2 ∨ x = 3 ∨ x = 4 ∨ x = 5 ∨ x = 6 ∨ x = 7 ∨ x = 8 ∨ x = 9)%N
    as Hx by lia.
  by repeat destruct Hx as [->|Hx]; subst.
Qed.

(** The printed digits of [x], before those of [s]: reading them first reads [x]. *)
Lemma parse_pretty_go max (x : N) s :
  Z.of_N x ≤ max → parse_digits max 0 (pretty_N_go x s) = parse_digits max (Z.of_N x) s.
Proof.
  revert s. induction (N.lt_wf_0 x) as [x _ IH]; intros s Hx.
  destruct (decide (x = 0)%N) as [->|Hn]; [done|].
  pose proof (N.div_mod x 10 ltac:(lia)) as Hdm. pose proof (N.mod_lt x 10 ltac:(lia)) as Hlt.
  pose proof (N.div_lt x 10 ltac:(lia) ltac:(lia)) as Hq.
  rewrite pretty_N_go_step by lia.
  set (q := (x `div` 10)%N) in *. set (r := (x `mod` 10)%N) in *. clearbody q r.
  rewrite IH by lia. cbn [parse_digits]. rewrite digit_of_pretty by done.
  assert (Z.of_N q * 10 + Z.of_N r = Z.of_N x) as -> by lia.
  destruct (Z.ltb_spec max (Z.of_N x)); [lia|done].
Qed.

Lemma pretty_N_go_head (x : N) s :
  ∃ d r, (d < 10)%N ∧ (pretty_N_go x s = String (pretty_N_char d) r ∨ x = 0%N).
Proof.
  destruct (decide (x = 0)%N) as [->|Hn]; [exists 0%N, s; split; [lia|by right]|].
  revert s. induction (N.lt_wf_0 x) as [x _ IH]; intros s.
  rewrite pretty_N_go_step by lia.
  destruct (decide (x `div` 10 = 0)%N) as [->|Hd].
  - exists (x `mod` 10)%N, s. split; [apply N.mod_lt; lia|by left].
  - destruct (IH (x `div` 10)%N) with (s := String (pretty_N_char (x `mod` 10)) s)
      as (d & r & Hlt & [->|?]); [apply N.div_lt; lia|done| |done]. exists d, r. eauto.
Qed.

(** No digit is a plus, so the sign branch is not taken. *)
Lemma parse_uint_digit max d r :
  (d < 10)%N → parse_uint max (String (pretty_N_char d) r) =
               parse_digits max 0 (String (pretty_N_char d) r).
Proof.
  intros H. assert (d = 0 ∨ d = 1 ∨ d = 2 ∨ d = 3 ∨ d = 4 ∨ d = 5 ∨ d = 6 ∨ d = 7 ∨ d = 8 ∨ d = 9)%N
    as Hd by lia.
  by repeat destruct Hd as [->|Hd]; subst.
Qed.

(** What a number prints is read back as the number. *)
Lemma parse_uint_pretty max n : 0 ≤ n ≤ max → parse_uint max (pretty n) = Ok n.
Proof.
  intros [Hn Hm]. destruct n as [|p|p]; [|change (pretty (Z.pos p)) with (pretty (N.pos p))|lia].
  { change (pretty 0) with "0". change (parse_uint max "0") with (parse_digits max 0 "0").
    cbn [parse_digits]. change (digit_of "0") with (Some 0). cbv iota. change (0 * 10 + 0) with 0.
    destruct (Z.ltb_spec max 0); [lia|done]. }
  unfold pretty, pretty_N. rewrite decide_False by lia.
  destruct (pretty_N_go_head (N.pos p) "") as (d & r & Hd & [E|?]); [|lia].
  rewrite E, (parse_uint_digit max d r Hd), <- E. by rewrite parse_pretty_go.
Qed.

Lemma parse_bool_to_string b : parse_bool (bool_to_string b) = Ok b.
Proof. by destruct b. Qed.
