(* ===== verification/Failure.v ===== *)
(** * Failure taxonomy (src/failure)

    [FailureReason] and its kinds, their display strings, the default
    classifier of Python exceptions and the log level of a failure. *)

From stdpp Require Import base gmap sets list strings pretty.
From S2P Require Import Prelude.

Inductive FailureCategory := Retryable | Terminal | NonRetryable.

Inductive RetryableKind := NetworkTimeout | BrokerUnavailable | TransientPartitionError.

Inductive TerminalKind := PoisonMessage | DeserializationFailed | HandlerPanic.

Inductive NonRetryableKind := Validation | BusinessLogic | Configuration.

Inductive FailureReason :=
| ReasonRetryable (k : RetryableKind)
| ReasonTerminal (k : TerminalKind)
| ReasonNonRetryable (k : NonRetryableKind).

#[export] Instance FailureCategory_eq_dec : EqDecision FailureCategory.
Proof. solve_decision. Defined.
#[export] Instance RetryableKind_eq_dec : EqDecision RetryableKind.
Proof. solve_decision. Defined.
#[export] Instance TerminalKind_eq_dec : EqDecision TerminalKind.
Proof. solve_decision. Defined.
#[export] Instance NonRetryableKind_eq_dec : EqDecision NonRetryableKind.
Proof. solve_decision. Defined.
#[export] Instance FailureReason_eq_dec : EqDecision FailureReason.
Proof. solve_decision. Defined.

(** [FailureReason::category]. *)
Definition category (r : FailureReason) : FailureCategory :=
  match r with
  | ReasonRetryable _ => Retryable
  | ReasonTerminal _ => Terminal
  | ReasonNonRetryable _ => NonRetryable
  end.

Definition retryable_str (k : RetryableKind) : string :=
  match k with
  | NetworkTimeout => "network timeout"
  | BrokerUnavailable => "broker unavailable"
  | TransientPartitionError => "transient partition error"
  end.

Definition terminal_str (k : TerminalKind) : string :=
  match k with
  | PoisonMessage => "poison message detected"
  | DeserializationFailed => "deserialization failed"
  | HandlerPanic => "handler panic"
  end.

Definition nonretryable_str (k : NonRetryableKind) : string :=
  match k with
  | Validation => "validation error"
  | BusinessLogic => "business logic error"
  | Configuration => "configuration error"
  end.

(** [Display for FailureReason]. *)
Definition reason_to_string (r : FailureReason) : string :=
  match r with
  | ReasonRetryable k => "Retryable: " +:+ retryable_str k
  | ReasonTerminal k => "Terminal: " +:+ terminal_str k
  | ReasonNonRetryable k => "NonRetryable: " +:+ nonretryable_str k
  end.

(** What the classifier reads of a [PyErr]: its [Debug] and its [Display]
    rendering, both produced by PyO3. *)
Record PyErr := { py_debug : string; py_display : string }.

(** [DefaultFailureClassifier::classify]. *)
Definition classify (error : PyErr) : FailureReason :=
  let error_repr := py_debug error in
  let traceback := py_display error in
  let repr n := str_contains n error_repr in
  let tb n := str_contains n traceback in
  if repr "TimeoutError" || tb "timeout" then ReasonRetryable NetworkTimeout
  else if repr "KafkaError" || repr "BrokerTransport" then ReasonRetryable BrokerUnavailable
  else if repr "PartitionError" then ReasonRetryable TransientPartitionError
  else if repr "PoisonError" || tb "poison" then ReasonTerminal PoisonMessage
  else if repr "DeserializationError" || repr "DecodeError" then ReasonTerminal DeserializationFailed
  else if repr "PanicException" || repr "SystemExit" then ReasonTerminal HandlerPanic
  else if repr "ValidationError" || repr "ValueError" then ReasonNonRetryable Validation
  else if repr "BusinessLogicError" || repr "DomainException" then ReasonNonRetryable BusinessLogic
  else if repr "ConfigError" || repr "ConfigurationError" then ReasonNonRetryable Configuration
  else ReasonNonRetryable BusinessLogic.

(** The log level chosen by [log_failure]. *)
Definition failure_level (r : FailureReason) : string :=
  match category r with
  | Retryable => "WARNING"
  | Terminal => "ERROR"
  | NonRetryable => "INFO"
  end.

(** ** Lemmas *)

Lemma reason_to_string_inj (r1 r2 : FailureReason) :
  reason_to_string r1 = reason_to_string r2 → r1 = r2.
Proof. destruct r1 as [[]|[]|[]], r2 as [[]|[]|[]]; done. Qed.
