(* ===== verification/Message.v ===== *)
(** * Messages and trace context

    The owned message envelope (src/consumer/message.rs), its Python-facing
    copy (src/kafka_message.rs) and the extraction of the W3C trace context
    from message headers (src/observability/tracing.rs). *)

From Stdlib Require Import Ascii String Strings.Byte.
From stdpp Require Import base gmap sets list strings pretty.
From S2P Require Import Prelude.

(** ** UTF-8

    A Rust [String] is its UTF-8 byte sequence.  [String::from_utf8_lossy]
    keeps the valid sequences and replaces each maximal invalid subpart by
    U+FFFD. *)

Definition byte_in (lo hi : Z) (b : byte) : bool :=
  let n := Z.of_N (Byte.to_N b) in (lo <=? n) && (n <=? hi).

Definition utf8_cont (b : byte) : bool := byte_in 128 191 b.

Definition utf8_second3 (a b : byte) : bool :=
  (byte_in 224 224 a && byte_in 160 191 b) || (byte_in 225 236 a && utf8_cont b) ||
  (byte_in 237 237 a && byte_in 128 159 b) || (byte_in 238 239 a && utf8_cont b).

Definition utf8_second4 (a b : byte) : bool :=
  (byte_in 240 240 a && byte_in 144 191 b) || (byte_in 241 243 a && utf8_cont b) ||
  (byte_in 244 244 a && byte_in 128 143 b).

Definition replacement : list byte := [xef; xbf; xbd].

(** One sequence at the head of the input: [Some n] for a valid one of [n]
    bytes, [None] with the number of bytes to skip otherwise. *)
Definition utf8_head (a : byte) (rest : list byte) : bool * nat :=
  if byte_in 0 127 a then (true, 1%nat)
  else if byte_in 194 223 a then
    match rest with
    | b :: _ => if utf8_cont b then (true, 2%nat) else (false, 1%nat)
    | [] => (false, 1%nat)
    end
  else if byte_in 224 239 a then
    match rest with
    | b :: rest' =>
        if utf8_second3 a b then
          match rest' with
          | c :: _ => if utf8_cont c then (true, 3%nat) else (false, 2%nat)
          | [] => (false, 2%nat)
          end
        else (false, 1%nat)
    | [] => (false, 1%nat)
    end
  else if byte_in 240 244 a then
    match rest with
    | b :: rest' =>
        if utf8_second4 a b then
          match rest' with
          | c :: rest'' =>
              if utf8_cont c then
                match rest'' with
                | d :: _ => if utf8_cont d then (true, 4%nat) else (false, 3%nat)
                | [] => (false, 3%nat)
                end
              else (false, 2%nat)
          | [] => (false, 2%nat)
          end
        else (false, 1%nat)
    | [] => (false, 1%nat)
    end
  else (false, 1%nat).

Fixpoint utf8_lossy (fuel : nat) (l : list byte) : list byte :=
  match fuel, l with
  | S fuel, a :: rest =>
      let '(valid, n) := utf8_head a rest in
      (if valid then take n l else replacement) ++ utf8_lossy fuel (drop n l)
  | _, _ => []
  end.

Fixpoint utf8_valid (fuel : nat) (l : list byte) : bool :=
  match fuel, l with
  | S fuel, a :: rest =>
      let '(valid, n) := utf8_head a rest in valid && utf8_valid fuel (drop n l)
  | _, _ => true
  end.

Definition string_of_bytes (l : list byte) : string := String.string_of_list_byte l.
Definition bytes_of_string (s : string) : list byte := String.list_byte_of_string s.

Definition from_utf8_lossy (l : list byte) : string :=
  string_of_bytes (utf8_lossy (length l) l).

Definition from_utf8 (l : list byte) : option string :=
  if utf8_valid (length l) l then Some (string_of_bytes l) else None.

(** ** [MessageTimestamp] and [OwnedMessage] *)

(** rdkafka's [Timestamp]. *)
Inductive Timestamp :=
| TsNotAvailable
| TsCreateTime (ms : Z)
| TsLogAppendTime (ms : Z).

Inductive MessageTimestamp :=
| CreateTime (ms : Z)
| LogAppendTime (ms : Z)
| NotAvailable.

Definition from_kafka (ts : Timestamp) : MessageTimestamp :=
  match ts with
  | TsCreateTime ms => CreateTime ms
  | TsLogAppendTime ms => LogAppendTime ms
  | TsNotAvailable => NotAvailable
  end.

(** [MessageTimestamp::as_millis]. *)
Definition ts_as_millis (ts : MessageTimestamp) : option Z :=
  match ts with
  | CreateTime ms | LogAppendTime ms => Some ms
  | NotAvailable => None
  end.

(** [MessageTimestamp::as_system_time], in milliseconds after the epoch. *)
Definition as_system_time (ts : MessageTimestamp) : option Z :=
  (λ ms, u64_wrap ms) <$> ts_as_millis ts.

(** A time before the epoch is taken for one far in the future. *)
Lemma as_system_time_before_epoch ms :
  - 2 ^ 63 ≤ ms < 0 → as_system_time (CreateTime ms) = Some (2 ^ 64 + ms).
Proof.
  intros H. unfold as_system_time, u64_wrap. cbn [ts_as_millis fmap option_fmap option_map]. f_equal.
  rewrite <- (Z_mod_plus_full ms 1), Z.mod_small by lia. lia.
Qed.

Record OwnedMessage := {
  topic : string;
  partition : Z;
  offset : Z;
  key : option (list byte);
  payload : option (list byte);
  timestamp : MessageTimestamp;
  headers : list (string * option (list byte))
}.

(** What rdkafka's [BorrowedMessage] exposes: [header_at i] is
    [Headers::try_get], [None] past the end. *)
Record BorrowedMessage := {
  b_topic : string;
  b_partition : Z;
  b_offset : Z;
  b_key : option (list byte);
  b_payload : option (list byte);
  b_timestamp : Timestamp;
  b_headers : option (list (string * option (list byte)))
}.

(** [OwnedMessage::from_borrowed]: the header loop over [0..count]. *)
Definition from_borrowed (msg : BorrowedMessage) : OwnedMessage :=
  {| topic := b_topic msg;
     partition := b_partition msg;
     offset := b_offset msg;
     key := b_key msg;
     payload := b_payload msg;
     timestamp := from_kafka (b_timestamp msg);
     headers :=
       match b_headers msg with
       | Some h => omap (λ i, h !! i) (seq 0 (length h))
       | None => []
       end |}.

Definition payload_str (m : OwnedMessage) : option string :=
  match payload m with Some b => from_utf8 b | None => None end.

Definition key_str (m : OwnedMessage) : option string :=
  match key m with Some b => from_utf8 b | None => None end.

(** [OwnedMessage::size_bytes]. *)
Definition size_bytes (m : OwnedMessage) : Z :=
  default 0 ((λ p, Z.of_nat (length p)) <$> payload m) +
  default 0 ((λ k, Z.of_nat (length k)) <$> key m).

(** [KafkaMessage] and its conversion from an [OwnedMessage]. *)
Record KafkaMessage := {
  km_topic : string;
  km_partition : Z;
  km_offset : Z;
  km_key : option (list byte);
  km_payload : option (list byte);
  km_timestamp_millis : option Z;
  km_headers : list (string * option (list byte))
}.

Definition kafka_message_from (msg : OwnedMessage) : KafkaMessage :=
  {| km_topic := topic msg;
     km_partition := partition msg;
     km_offset := offset msg;
     km_key := key msg;
     km_payload := payload msg;
     km_timestamp_millis := ts_as_millis (timestamp msg);
     km_headers := headers msg |}.

(** [KafkaMessage::new], its getters and its text. *)
Definition kafka_message_new (topic : string) (partition offset : Z) (key payload : option (list byte))
    (timestamp_millis : option Z) (headers : list (string * option (list byte))) : KafkaMessage :=
  {| km_topic := topic; km_partition := partition; km_offset := offset; km_key := key;
     km_payload := payload; km_timestamp_millis := timestamp_millis; km_headers := headers |}.

Definition get_headers (m : KafkaMessage) : list (string * option (list byte)) := km_headers m.
Definition get_timestamp_millis (m : KafkaMessage) : option Z := km_timestamp_millis m.

Definition kafka_message_repr (m : KafkaMessage) : string :=
  "KafkaMessage(topic=" +:+ km_topic m +:+ ", partition=" +:+ pretty (km_partition m) +:+
  ", offset=" +:+ pretty (km_offset m) +:+ ")".

(** [MessageRef] and [OwnedMessage::as_ref]. *)
Record MessageRef := { mr_topic : string; mr_partition : Z; mr_offset : Z; mr_key : option (list byte) }.

Definition as_ref (m : OwnedMessage) : MessageRef :=
  {| mr_topic := topic m; mr_partition := partition m; mr_offset := offset m; mr_key := key m |}.

(** ** Trace context *)

Record TraceContext := {
  trace_id : option string;
  span_id : option string;
  trace_flags : option string
}.

Definition trace_default : TraceContext :=
  {| trace_id := None; span_id := None; trace_flags := None |}.

(** The header map collected before every invocation: headers without a value
    are skipped, and a later header overrides an earlier one of its name. *)
Definition header_map (hs : list (string * option (list byte))) : gmap string string :=
  foldl (λ m '(k, v),
    match v with
    | Some b => <[k := from_utf8_lossy b]> m
    | None => m
    end) ∅ hs.

(** [inject_trace_context]. *)
Definition inject_trace_context (hdrs out : gmap string string) : gmap string string :=
  let out :=
    match hdrs !! "traceparent" with
    | Some traceparent =>
        match str_split "-"%char traceparent with
        | [_; tid; sid; flags] =>
            <["trace_flags" := flags]> (<["span_id" := sid]> (<["trace_id" := tid]> out))
        | _ => out
        end
    | None => out
    end in
  match hdrs !! "tracestate" with
  | Some tracestate => <["tracestate" := tracestate]> out
  | None => out
  end.

(** The trace fields the worker loop reads from the map. *)
Definition message_trace (msg : OwnedMessage) : TraceContext :=
  let m := inject_trace_context (header_map (headers msg)) ∅ in
  {| trace_id := m !! "trace_id";
     span_id := m !! "span_id";
     trace_flags := m !! "trace_flags" |}.

(** ** Lemmas *)

Lemma from_borrowed_headers (msg : BorrowedMessage) :
  headers (from_borrowed msg) = default [] (b_headers msg).
Proof.
  destruct msg as [? ? ? ? ? ? [h|]]; [|done]. simpl.
  cut (∀ pre l : list (string * option (list byte)),
         omap (λ i, (pre ++ l) !! i) (seq (length pre) (length l)) = l).
  { intros help. apply (help []). }
  intros pre l. revert pre. induction l as [|x l IH]; intros pre; [done|].
  change (seq (length pre) (length (x :: l)))
    with (length pre :: seq (S (length pre)) (length l)).
  cbn [omap list_omap]. rewrite list_lookup_middle by done. f_equal.
  specialize (IH (pre ++ [x])). rewrite length_app in IH. simpl in IH.
  rewrite Nat.add_1_r in IH. rewrite <- app_assoc in IH. exact IH.
Qed.

(** A well-formed header yields its three fields whatever the version is. *)
Lemma split_traceparent (v tid sid flags : string) :
  char_free "-" v → char_free "-" tid → char_free "-" sid → char_free "-" flags →
  str_split "-" (v +:+ "-" +:+ tid +:+ "-" +:+ sid +:+ "-" +:+ flags) = [v; tid; sid; flags].
Proof.
  intros Hv Ht Hs Hf. rewrite !str_split_sep by done. by rewrite Hf.
Qed.

(** The header map keeps the last value of each name. *)
Lemma header_map_last hs k v hs' :
  Forall (λ h, h.1 ≠ k) hs' → header_map (hs ++ (k, Some v) :: hs') !! k = Some (from_utf8_lossy v).
Proof.
  unfold header_map. rewrite foldl_app. cbn [foldl].
  generalize (foldl (λ (m : gmap string string) '(k0, v0),
    match v0 with Some b => <[k0:=from_utf8_lossy b]> m | None => m end) ∅ hs).
  intros m Hf.
  cut (∀ m', m' !! k = Some (from_utf8_lossy v) →
    foldl (λ (m : gmap string string) '(k0, v0),
      match v0 with Some b => <[k0:=from_utf8_lossy b]> m | None => m end) m' hs' !! k =
    Some (from_utf8_lossy v)).
  { intros help. apply help. by rewrite lookup_insert_eq. }
  induction Hf as [|[k' [b|]] hs' Hne _ IH]; intros m' Hm'; [done| |]; simpl in *; apply IH; [|done].
  by rewrite lookup_insert_ne.
Qed.

Lemma inject_trace_fields hdrs tp :
  hdrs !! "traceparent" = Some tp →
  let m := inject_trace_context hdrs ∅ in
  (m !! "trace_id", m !! "span_id", m !! "trace_flags") =
  match str_split "-" tp with
  | [_; tid; sid; flags] => (Some tid, Some sid, Some flags)
  | _ => (None, None, None)
  end.
Proof.
  intros Htp. unfold inject_trace_context. rewrite Htp.
  assert (Hlk : ∀ (m : gmap string string) k, k ≠ "tracestate" →
    match hdrs !! "tracestate" with Some ts => <["tracestate" := ts]> m | None => m end !! k = m !! k).
  { intros m k Hk. destruct (hdrs !! "tracestate"); [by rewrite lookup_insert_ne|done]. }
  cbv zeta. rewrite !Hlk by done.
  destruct (str_split "-" tp) as [|v [|tid [|sid [|flags [|]]]]]; try done.
Qed.

(** C38: the trace context of a message is read back from its [traceparent]
    header as it was written: with the last such header made of a version and
    three fields joined by dashes, the handler's context gets the three fields,
    whatever they contain; with any other number of parts it gets none. *)
Theorem trace_context_roundtrip msg hs hs' b :
  headers msg = hs ++ ("traceparent", Some b) :: hs' →
  Forall (λ h, h.1 ≠ "traceparent") hs' →
  (∀ v tid sid flags,
     char_free "-" v → char_free "-" tid → char_free "-" sid → char_free "-" flags →
     from_utf8_lossy b = v +:+ "-" +:+ tid +:+ "-" +:+ sid +:+ "-" +:+ flags →
     message_trace msg = {| trace_id := Some tid; span_id := Some sid; trace_flags := Some flags |}) ∧
  (length (str_split "-" (from_utf8_lossy b)) ≠ 4%nat → message_trace msg = trace_default).
Proof.
  intros Hh Hf.
  pose proof (inject_trace_fields (header_map (headers msg)) (from_utf8_lossy b)) as Hi.
  rewrite Hh in Hi at 1. specialize (Hi (header_map_last hs _ b hs' Hf)). cbv zeta in Hi.
  unfold message_trace. split.
  - intros v tid sid flags Hv Ht Hs Hfl Hb. rewrite Hb, split_traceparent in Hi by done.
    injection Hi as -> -> ->. done.
  - intros Hlen.
    destruct (str_split "-" (from_utf8_lossy b)) as [|? [|? [|? [|? [|]]]]]; try done;
      injection Hi as -> -> ->; done.
Qed.

(** the owned copy of a message is faithful: every field and every header,
    in order, repeated names and missing values included, is the one of the
    borrowed message, and the Python-facing copy keeps them (of the timestamp
    only the milliseconds). *)
Theorem owned_message_faithful msg :
  let m := from_borrowed msg in
  let k := kafka_message_from m in
  (topic m, partition m, offset m, key m, payload m) =
    (b_topic msg, b_partition msg, b_offset msg, b_key msg, b_payload msg) ∧
  headers m = default [] (b_headers msg) ∧
  (km_topic k, km_partition k, km_offset k, km_key k, km_payload k) =
    (b_topic msg, b_partition msg, b_offset msg, b_key msg, b_payload msg) ∧
  km_headers k = default [] (b_headers msg) ∧
  km_timestamp_millis k =
    match b_timestamp msg with
    | TsNotAvailable => None
    | TsCreateTime t | TsLogAppendTime t => Some t
    end.
Proof.
  intros m k. split_and!; [done|apply from_borrowed_headers|done|apply from_borrowed_headers|].
  subst k m. destruct msg as [? ? ? ? ? [] ?]; done.
Qed.

(** ** Witness *)

Definition traced_message : OwnedMessage :=
  {| topic := "t"; partition := 0; offset := 1; key := None; payload := None;
     timestamp := NotAvailable;
     headers := [("a", None); ("traceparent", Some (bytes_of_string "00-4bf9-00f0-01")); ("b", None)] |}.

Lemma trace_context_roundtrip_witness :
  message_trace traced_message =
    {| trace_id := Some "4bf9"; span_id := Some "00f0"; trace_flags := Some "01" |}.
Proof.
  eapply (trace_context_roundtrip traced_message [("a", None)] [("b", None)]
            (bytes_of_string "00-4bf9-00f0-01")) with (v := "00");
    [reflexivity|repeat constructor; discriminate|vm_compute; reflexivity..].
Defined.
