(* ===== verification/Shutdown.v ===== *)
(** * Shutdown coordinator (src/shutdown/shutdown.rs)

    The four-phase lifecycle Running, Draining, Finalizing, Done.  An invalid
    transition panics. *)

From stdpp Require Import base gmap sets list strings pretty relations.
From S2P Require Import Prelude.

Inductive ShutdownPhase := Running | Draining | Finalizing | Done.

#[export] Instance ShutdownPhase_eq_dec : EqDecision ShutdownPhase.
Proof. solve_decision. Defined.

Definition phase_display (p : ShutdownPhase) : string :=
  match p with
  | Running => "Running"
  | Draining => "Draining"
  | Finalizing => "Finalizing"
  | Done => "Done"
  end.

(** [ShutdownCoordinator]: the three tokens are cancellation flags. *)
Record ShutdownCoordinator := {
  phase : ShutdownPhase;
  drain_timeout : Z;
  dispatcher_cancel : bool;
  worker_cancel : bool;
  committer_cancel : bool
}.

Definition coordinator_new (drain_timeout_secs : Z) : ShutdownCoordinator :=
  {| phase := Running;
     drain_timeout := from_secs drain_timeout_secs;
     dispatcher_cancel := false;
     worker_cancel := false;
     committer_cancel := false |}.

Definition set_phase (c : ShutdownCoordinator) (p : ShutdownPhase) : ShutdownCoordinator :=
  {| phase := p;
     drain_timeout := drain_timeout c;
     dispatcher_cancel := dispatcher_cancel c;
     worker_cancel := worker_cancel c;
     committer_cancel := committer_cancel c |}.

(** [begin_draining]: hands out the three tokens without cancelling them. *)
Definition begin_draining (c : ShutdownCoordinator)
    : outcome (ShutdownCoordinator * (bool * bool * bool)) :=
  if decide (phase c = Running) then
    Ret (set_phase c Draining, (dispatcher_cancel c, worker_cancel c, committer_cancel c))
  else Panic.

Definition begin_finalizing (c : ShutdownCoordinator) : outcome ShutdownCoordinator :=
  if decide (phase c = Draining) then Ret (set_phase c Finalizing) else Panic.

Definition set_done (c : ShutdownCoordinator) : outcome ShutdownCoordinator :=
  if decide (phase c = Finalizing) then Ret (set_phase c Done) else Panic.

Definition is_done (c : ShutdownCoordinator) : bool := bool_decide (phase c = Done).

(** ** Transitions as a relation *)

Inductive coord_call := CBeginDraining | CBeginFinalizing | CSetDone.

Definition coord_apply (k : coord_call) (c : ShutdownCoordinator) : outcome ShutdownCoordinator :=
  match k with
  | CBeginDraining => omap_out fst (begin_draining c)
  | CBeginFinalizing => begin_finalizing c
  | CSetDone => set_done c
  end.

Inductive phase_step : ShutdownPhase → ShutdownPhase → Prop :=
| ps_drain : phase_step Running Draining
| ps_finalize : phase_step Draining Finalizing
| ps_done : phase_step Finalizing Done.

(** The calls of a history, in order; a panic ends it. *)
Fixpoint coord_run (ks : list coord_call) (c : ShutdownCoordinator) : outcome ShutdownCoordinator :=
  match ks with
  | [] => Ret c
  | k :: ks => let? c' := coord_apply k c in coord_run ks c'
  end.

Definition phase_rank (p : ShutdownPhase) : nat :=
  match p with Running => 0 | Draining => 1 | Finalizing => 2 | Done => 3 end.

Lemma coord_apply_step k c c' :
  coord_apply k c = Ret c' → phase_step (phase c) (phase c') ∧ drain_timeout c' = drain_timeout c.
Proof.
  destruct k; simpl; unfold begin_draining, begin_finalizing, set_done, omap_out;
    case_decide as E; simpl; intros; simplify_eq; rewrite E; split; try done; constructor.
Qed.

Lemma phase_step_rank p q : phase_step p q → phase_rank q = S (phase_rank p).
Proof. by destruct 1. Qed.

Lemma coord_run_rank ks c c' :
  coord_run ks c = Ret c' → phase_rank (phase c') = (phase_rank (phase c) + length ks)%nat.
Proof.
  revert c. induction ks as [|k ks IH]; simpl; intros c Hr; [simplify_eq; lia|].
  destruct (coord_apply k c) as [c1|] eqn:E; [|done]. simpl in Hr.
  apply coord_apply_step in E as [E%phase_step_rank _]. apply IH in Hr. lia.
Qed.

Lemma coord_run_tokens ks : ∀ c c',
  coord_run ks c = Ret c' →
  (dispatcher_cancel c', worker_cancel c', committer_cancel c') =
  (dispatcher_cancel c, worker_cancel c, committer_cancel c).
Proof.
  induction ks as [|k ks IH]; simpl; intros c c' Hr; [by simplify_eq|].
  destruct (coord_apply k c) as [c1|] eqn:E; [|done]. simpl in Hr. rewrite (IH _ _ Hr).
  destruct k; simpl in E; unfold begin_draining, begin_finalizing, set_done, omap_out in E;
    case_decide; simplify_eq/=; done.
Qed.

(** The call that each phase admits. *)
Lemma coord_apply_rank k c c' :
  coord_apply k c = Ret c' →
  [CBeginDraining; CBeginFinalizing; CSetDone] !! phase_rank (phase c) = Some k.
Proof.
  destruct k; simpl; unfold begin_draining, begin_finalizing, set_done, omap_out;
    case_decide as E; simpl; intros; simplify_eq; by rewrite E.
Qed.

Lemma coord_run_calls ks : ∀ c c',
  coord_run ks c = Ret c' →
  ks `prefix_of` drop (phase_rank (phase c)) [CBeginDraining; CBeginFinalizing; CSetDone].
Proof.
  induction ks as [|k ks IH]; intros c c' Hr; [apply prefix_nil|]. simpl in Hr.
  destruct (coord_apply k c) as [c1|] eqn:E; [|done]. simpl in Hr.
  pose proof (coord_apply_rank _ _ _ E) as Hk. apply coord_apply_step in E as [E%phase_step_rank _].
  apply IH in Hr. rewrite E in Hr.
  rewrite (drop_S _ _ _ Hk). by apply prefix_cons.
Qed.

(** the shutdown sequence has a single path.  From a new coordinator a
    sequence of phase calls succeeds exactly when it is an initial part of
    draining, finalizing, done; a repeated or early call panics.  The phase
    counts the calls made, and no call ever cancels a token it hands out. *)
Theorem shutdown_single_path ks d :
  match coord_run ks (coordinator_new d) with
  | Ret c => ks `prefix_of` [CBeginDraining; CBeginFinalizing; CSetDone] ∧
             phase_rank (phase c) = length ks ∧
             (dispatcher_cancel c, worker_cancel c, committer_cancel c) = (false, false, false)
  | Panic => ¬ ks `prefix_of` [CBeginDraining; CBeginFinalizing; CSetDone]
  end.
Proof.
  destruct (coord_run ks (coordinator_new d)) as [c|] eqn:E.
  - split_and!; [by apply (coord_run_calls _ _ _ E)|by apply (coord_run_rank _ _ _ E)|
                 by apply (coord_run_tokens _ _ _ E)].
  - intros [l Hl].
    destruct ks as [|k1 [|k2 [|k3 [|k4 ks]]]]; simpl in Hl; simplify_eq; done.
Qed.
