(* ===== verification/Runner.v ===== *)
(** * Consumer runner (src/consumer/runner.rs)

    The wrapper around rdkafka's [StreamConsumer].  The broker client is not
    part of the repository: its calls are recorded in a trace, and whether a
    call succeeds is a parameter [rd]. *)

From stdpp Require Import base gmap sets list strings pretty.
From S2P Require Import Prelude Message Shutdown.

(** Calls made on the rdkafka consumer. *)
Inductive CommitMode := Async | Sync.

Inductive RdCall :=
| RdStoreOffset (topic : string) (partition offset : Z)
| RdCommitState (mode : CommitMode)
| RdPause (tps : list (string * Z))
| RdResume (tps : list (string * Z))
| RdSeek (topic : string) (partition offset : Z).

#[export] Instance CommitMode_eq_dec : EqDecision CommitMode.
Proof. solve_decision. Defined.
#[export] Instance RdCall_eq_dec : EqDecision RdCall.
Proof. solve_decision. Defined.

Abbreviation rd_trace := (list RdCall).

(** An [async fn] returns a future: its body runs when it is awaited and never
    when it is dropped. *)
Record Future := { fut_calls : rd_trace; fut_ok : bool }.

Definition await (f : Future) (tr : rd_trace) : bool * rd_trace := (fut_ok f, tr ++ fut_calls f).
Definition drop_future (f : Future) (tr : rd_trace) : rd_trace := tr.

Section runner.
Context (rd : RdCall → bool).

(** [ConsumerRunner::commit]: synchronous, enqueues an asynchronous commit. *)
Definition commit (tr : rd_trace) : bool * rd_trace :=
  (rd (RdCommitState Async), tr ++ [RdCommitState Async]).

(** [ConsumerRunner::store_offset]: an [async fn]. *)
Definition store_offset (t : string) (p o : Z) : Future :=
  {| fut_calls := [RdStoreOffset t p o]; fut_ok := rd (RdStoreOffset t p o) |}.

Definition pause (tpl : list (string * Z)) (tr : rd_trace) : bool * rd_trace :=
  (rd (RdPause tpl), tr ++ [RdPause tpl]).

Definition resume (tpl : list (string * Z)) (tr : rd_trace) : bool * rd_trace :=
  (rd (RdResume tpl), tr ++ [RdResume tpl]).

Definition pause_key (t : string) (p : Z) : string := t +:+ "-" +:+ pretty p.

(** [pause_partition] / [resume_partition] with the pause state they keep. *)
Definition runner_pause_partition (t : string) (p : Z) (ps : gmap string bool) (tr : rd_trace)
    : bool * gmap string bool * rd_trace :=
  let '(ok, tr) := pause [(t, p)] tr in
  if ok then (true, <[pause_key t p := true]> ps, tr) else (false, ps, tr).

Definition runner_resume_partition (t : string) (p : Z) (ps : gmap string bool) (tr : rd_trace)
    : bool * gmap string bool * rd_trace :=
  let '(ok, tr) := resume [(t, p)] tr in
  if ok then (true, delete (pause_key t p) ps, tr) else (false, ps, tr).

End runner.

(** ** Stopping *)

(** [ConsumerRunner::stop]: with a coordinator the draining phase starts first;
    the broadcast is sent in both cases. *)
Definition runner_stop (coordinator : option ShutdownCoordinator)
    : outcome (option ShutdownCoordinator * bool) :=
  match coordinator with
  | Some coord =>
      let? r := begin_draining coord in Ret (Some (fst r), true)
  | None => Ret (None, true)
  end.
