(* ===== verification/Dlq.v ===== *)
(** * Dead-letter queue (src/dlq)

    The metadata envelope, the default router, and the fire-and-forget producer
    with its bounded channel. *)

From Stdlib Require Import String Strings.Byte.
From stdpp Require Import base gmap sets list strings pretty.
From S2P Require Import Prelude Message.

(** ** Metadata (src/dlq/metadata.rs)

    A [DateTime<Utc>] is a number of nanoseconds since the epoch. *)

Record OriginalMessage := { om_topic : string; om_partition : Z; om_offset : Z }.

Record DlqMetadata := {
  original : OriginalMessage;
  failure_reason : string;
  attempt_count : Z;
  first_failure_timestamp : Z;
  last_failure_timestamp : Z;
  timeout_duration : option Z;
  last_processed_offset : option Z;
  branch_id : option Z;
  fan_out_id : option Z
}.

Definition dlq_metadata_new (t : string) (p o : Z) (reason : string) (attempts first last : Z)
    (timeout last_processed branch fan_out : option Z) : DlqMetadata :=
  {| original := {| om_topic := t; om_partition := p; om_offset := o |};
     failure_reason := reason;
     attempt_count := attempts;
     first_failure_timestamp := first;
     last_failure_timestamp := last;
     timeout_duration := timeout;
     last_processed_offset := last_processed;
     branch_id := branch;
     fan_out_id := fan_out |}.

(** ** Routing (src/dlq/router.rs) *)

Record DlqTopicPartition := { tp_topic : string; tp_partition : Z }.

(** The [DlqRouter] trait. *)
Class DlqRouter (R : Type) := route : R → DlqMetadata → DlqTopicPartition.

Record DefaultDlqRouter := { dlq_topic_prefix : string }.

#[export] Instance default_route : DlqRouter DefaultDlqRouter := λ r m,
  {| tp_topic := dlq_topic_prefix r +:+ om_topic (original m);
     tp_partition := om_partition (original m) |}.

Definition with_default_prefix : DefaultDlqRouter := {| dlq_topic_prefix := "dlq." |}.

(** ** Producer (src/dlq/produce.rs) *)

Definition DLQ_CHANNEL_CAPACITY : nat := 100.

Record DLQMessage := {
  dm_topic : string;
  dm_original_topic : string;
  dm_partition : Z;
  dm_payload : list byte;
  dm_key : option (list byte);
  dm_headers : list (string * list byte)
}.

(** The record handed to rdkafka's [FutureProducer]. *)
Record DlqRecord := {
  dr_topic : string;
  dr_payload : list byte;
  dr_partition : Z;
  dr_headers : list (string * list byte);
  dr_key : option (list byte)
}.

(** The producer's channel and what its background task has done with the
    messages taken from it: the records sent to the broker, and the
    (dlq topic, original topic) labels of the delivered ones. *)
Record SharedDlqProducer := {
  send_chan : list DLQMessage;
  chan_closed : bool;
  broker_records : list DlqRecord;
  dlq_metric : list (string * string)
}.

Definition dlq_producer_new : SharedDlqProducer :=
  {| send_chan := []; chan_closed := false; broker_records := []; dlq_metric := [] |}.

Section producer.
(** [DateTime::to_rfc3339] of chrono. *)
Context (to_rfc3339 : Z → string).

Definition metadata_to_headers (m : DlqMetadata) : list (string * list byte) :=
  [("dlq.original_topic", bytes_of_string (om_topic (original m)));
   ("dlq.partition", bytes_of_string (pretty (om_partition (original m))));
   ("dlq.offset", bytes_of_string (pretty (om_offset (original m))));
   ("dlq.reason", bytes_of_string (failure_reason m));
   ("dlq.attempts", bytes_of_string (pretty (attempt_count m)));
   ("dlq.first_failure", bytes_of_string (to_rfc3339 (first_failure_timestamp m)));
   ("dlq.last_failure", bytes_of_string (to_rfc3339 (last_failure_timestamp m)))].

(** [produce_async]: [try_send]; the message is dropped when the channel is
    full (or its receiver is gone).  The boolean says whether it was kept. *)
Definition produce_async (t : string) (p : Z) (pl : list byte) (k : option (list byte))
    (m : DlqMetadata) (s : SharedDlqProducer) : SharedDlqProducer * bool :=
  let msg :=
    {| dm_topic := t; dm_original_topic := om_topic (original m); dm_partition := p;
       dm_payload := pl; dm_key := k; dm_headers := metadata_to_headers m |} in
  if chan_closed s || (DLQ_CHANNEL_CAPACITY <=? length (send_chan s))%nat then (s, false)
  else
    ({| send_chan := send_chan s ++ [msg]; chan_closed := chan_closed s;
        broker_records := broker_records s; dlq_metric := dlq_metric s |}, true).

End producer.

Definition build_record (msg : DLQMessage) : DlqRecord :=
  {| dr_topic := dm_topic msg;
     dr_payload := dm_payload msg;
     dr_partition := dm_partition msg;
     dr_headers := dm_headers msg;
     dr_key := dm_key msg |}.

(** One turn of the background task: take the oldest message and send it;
    [delivered] is the broker's answer. *)
Definition do_produce (delivered : bool) (s : SharedDlqProducer) : SharedDlqProducer :=
  match send_chan s with
  | [] => s
  | msg :: rest =>
      {| send_chan := rest;
         chan_closed := chan_closed s;
         broker_records := broker_records s ++ [build_record msg];
         dlq_metric :=
           if delivered then dlq_metric s ++ [(dm_topic msg, dm_original_topic msg)]
           else dlq_metric s |}
  end.

(** [create_producer]: the rdkafka settings, with the optional security ones. *)
Definition dlq_client_config (brokers : string)
    (security_protocol sasl_mechanism sasl_username sasl_password : option string)
    : list (string * string) :=
  [("bootstrap.servers", brokers); ("message.timeout.ms", "5000");
   ("queue.buffering.max.messages", "100000"); ("queue.buffering.max.kbytes", "65536");
   ("request.timeout.ms", "5000"); ("retry.backoff.ms", "100"); ("retries", "2")] ++
  option_list ((λ v, ("security.protocol", v)) <$> security_protocol) ++
  option_list ((λ v, ("sasl.mechanism", v)) <$> sasl_mechanism) ++
  option_list ((λ v, ("sasl.username", v)) <$> sasl_username) ++
  option_list ((λ v, ("sasl.password", v)) <$> sasl_password).

(** ** Lemmas *)

Lemma bytes_of_string_inj (s1 s2 : string) : bytes_of_string s1 = bytes_of_string s2 → s1 = s2.
Proof.
  unfold bytes_of_string. intros H.
  rewrite <- (String.string_of_list_byte_of_string s1).
  rewrite <- (String.string_of_list_byte_of_string s2). by rewrite H.
Qed.

Lemma string_app_inj_l (p s1 s2 : string) : p +:+ s1 = p +:+ s2 → s1 = s2.
Proof. apply (inj (String.append p)). Qed.

(** Operations on the channel: the worker side and the background task. *)
Inductive dlq_op :=
| OpProduce (t : string) (p : Z) (pl : list byte) (k : option (list byte)) (m : DlqMetadata)
| OpDrain (delivered : bool).

Section channel_runs.
Context (to_rfc3339 : Z → string).

(** The state after a sequence of operations, with the records of the messages
    that were accepted, in order. *)
Fixpoint dlq_run (ops : list dlq_op) (s : SharedDlqProducer) (acc : list DlqRecord)
    : SharedDlqProducer * list DlqRecord :=
  match ops with
  | [] => (s, acc)
  | OpProduce t p pl k m :: ops =>
      let '(s', kept) := produce_async to_rfc3339 t p pl k m s in
      let r := {| dr_topic := t; dr_payload := pl; dr_partition := p;
                  dr_headers := metadata_to_headers to_rfc3339 m; dr_key := k |} in
      dlq_run ops s' (if kept then acc ++ [r] else acc)
  | OpDrain d :: ops => dlq_run ops (do_produce d s) acc
  end.

Definition dlq_inv (s : SharedDlqProducer) (acc : list DlqRecord) : Prop :=
  broker_records s ++ (build_record <$> send_chan s) = acc ∧
  (length (send_chan s) ≤ DLQ_CHANNEL_CAPACITY)%nat.

Lemma produce_async_inv t p pl k m s acc :
  dlq_inv s acc →
  let '(s', kept) := produce_async to_rfc3339 t p pl k m s in
  dlq_inv s' (if kept then acc ++ [{| dr_topic := t; dr_payload := pl; dr_partition := p;
                  dr_headers := metadata_to_headers to_rfc3339 m; dr_key := k |}] else acc).
Proof.
  intros [Hacc Hlen]. unfold produce_async.
  destruct (chan_closed s || (DLQ_CHANNEL_CAPACITY <=? length (send_chan s))%nat) eqn:E; [by split|].
  apply orb_false_iff in E as [_ E%Nat.leb_gt]. split.
  - cbn [broker_records send_chan]. by rewrite fmap_app, app_assoc, Hacc.
  - cbn [send_chan]. rewrite length_app. cbn [length]. lia.
Qed.

Lemma do_produce_inv d s acc : dlq_inv s acc → dlq_inv (do_produce d s) acc.
Proof.
  intros [Hacc Hlen]. unfold do_produce, dlq_inv in *.
  destruct (send_chan s) as [|m rest] eqn:E; simpl; [by rewrite E|].
  rewrite <- Hacc. simpl in *. split; [by rewrite <- app_assoc|lia].
Qed.

Lemma dlq_run_inv ops : ∀ s acc,
  dlq_inv s acc → dlq_inv (dlq_run ops s acc).1 (dlq_run ops s acc).2.
Proof.
  induction ops as [|[t p pl k m|d] ops IH]; intros s acc Hinv; [done| |].
  - simpl. pose proof (produce_async_inv t p pl k m s acc Hinv) as Hp.
    destruct (produce_async to_rfc3339 t p pl k m s). by apply IH.
  - simpl. by apply IH, do_produce_inv.
Qed.

End channel_runs.

(** ** The properties *)

(** What a production puts in the channel. *)
Definition letter_message (to_rfc3339 : Z → string) (t : string) (p : Z) (pl : list byte)
    (k : option (list byte)) (m : DlqMetadata) : DLQMessage :=
  {| dm_topic := t; dm_original_topic := om_topic (original m); dm_partition := p;
     dm_payload := pl; dm_key := k; dm_headers := metadata_to_headers to_rfc3339 m |}.

(** The channel is open and within its capacity. *)
Definition chan_ok (s : SharedDlqProducer) : Prop :=
  chan_closed s = false ∧ (length (send_chan s) ≤ DLQ_CHANNEL_CAPACITY)%nat.

(** A step that offers [x] to the channel. *)
Definition offers (x : DLQMessage) (f : SharedDlqProducer → SharedDlqProducer) : Prop :=
  ∀ s, chan_ok s → chan_ok (f s) ∧
    send_chan (f s) = take DLQ_CHANNEL_CAPACITY (send_chan s ++ [x]).

Lemma produce_async_offers to_rfc3339 t p pl k m :
  offers (letter_message to_rfc3339 t p pl k m) (λ s, (produce_async to_rfc3339 t p pl k m s).1).
Proof.
  intros s [Hc Hl]. unfold produce_async, chan_ok. rewrite Hc, orb_false_l.
  destruct (DLQ_CHANNEL_CAPACITY <=? length (send_chan s))%nat eqn:E; cbn [fst chan_closed send_chan].
  - apply Nat.leb_le in E. split; [done|]. rewrite take_app_le by lia. by rewrite take_ge by lia.
  - apply Nat.leb_gt in E. rewrite length_app. cbn [length]. split; [split; [done|lia]|].
    symmetry. apply take_ge. rewrite length_app. cbn [length]. lia.
Qed.

(** Offering a list, one after the other: what fits is kept, in order. *)
Lemma offers_all {A : Type} (g : A → DLQMessage) (f : SharedDlqProducer → A → SharedDlqProducer) l :
  (∀ a, offers (g a) (λ s, f s a)) → ∀ s, chan_ok s →
  chan_ok (foldl f s l) ∧ send_chan (foldl f s l) = take DLQ_CHANNEL_CAPACITY (send_chan s ++ (g <$> l)).
Proof.
  intros Hf. induction l as [|a l IH]; intros s Hs; cbn [foldl fmap list_fmap].
  { split; [done|]. rewrite app_nil_r, take_ge; [done|]. apply Hs. }
  destruct (Hf a s Hs) as [Hok Hsend]. destruct (IH _ Hok) as [Hok' ->]. split; [done|].
  rewrite Hsend. change (g a :: (g <$> l)) with ([g a] ++ (g <$> l)). rewrite app_assoc.
  destruct Hs as [_ Hl]. destruct (decide (length (send_chan s) < DLQ_CHANNEL_CAPACITY)%nat).
  - rewrite (take_ge (send_chan s ++ [g a])); [done|]. rewrite length_app. cbn [length]. lia.
  - rewrite (take_app_le (send_chan s)) by lia. rewrite (take_ge (send_chan s)) by lia.
    rewrite <- app_assoc. rewrite !take_app_le by lia. done.
Qed.

(** C18: the dead-letter channel is a bounded FIFO that delivers at most once.
    In every sequence of productions and of turns of the background task, the
    records handed to the broker followed by those still in the channel are the
    accepted messages, in the order of acceptance; the channel never holds more
    than its capacity; and a message produced while it is full is discarded
    without an error for the caller. *)
Theorem dlq_channel_fifo (to_rfc3339 : Z → string) ops :
  let r := dlq_run to_rfc3339 ops dlq_producer_new [] in
  broker_records r.1 ++ (build_record <$> send_chan r.1) = r.2 ∧
  (length (send_chan r.1) ≤ DLQ_CHANNEL_CAPACITY)%nat ∧
  (length (send_chan r.1) = DLQ_CHANNEL_CAPACITY →
   ∀ t p pl k m, produce_async to_rfc3339 t p pl k m r.1 = (r.1, false)).
Proof.
  intros r.
  assert (Hinv : dlq_inv r.1 r.2).
  { apply dlq_run_inv. split; [done|]. simpl. lia. }
  destruct Hinv as [Hacc Hlen]. split_and!; [done|done|].
  intros Hfull t p pl k m. unfold produce_async. rewrite Hfull, Nat.leb_refl, orb_true_r. done.
Qed.

(** what a dead-letter record says of its message.  The headers determine
    the original topic, partition, offset, the reason and the attempts, and the
    default router separates the messages of different topics and keeps their
    partition; but the timeout, the last processed offset and the fan-out
    identifiers of the metadata are in no header: two metadata that differ in
    them only give the same record. *)
Theorem dlq_headers_identify_message (to_rfc3339 : Z → string) (r : DefaultDlqRouter) m1 m2 :
  (metadata_to_headers to_rfc3339 m1 = metadata_to_headers to_rfc3339 m2 →
   original m1 = original m2 ∧ failure_reason m1 = failure_reason m2 ∧
   attempt_count m1 = attempt_count m2) ∧
  (route r m1 = route r m2 →
   om_topic (original m1) = om_topic (original m2) ∧
   om_partition (original m1) = om_partition (original m2)) ∧
  (original m1 = original m2 ∧ failure_reason m1 = failure_reason m2 ∧
   attempt_count m1 = attempt_count m2 ∧
   first_failure_timestamp m1 = first_failure_timestamp m2 ∧
   last_failure_timestamp m1 = last_failure_timestamp m2 →
   metadata_to_headers to_rfc3339 m1 = metadata_to_headers to_rfc3339 m2).
Proof.
  split_and!.
  - unfold metadata_to_headers. intros H.
    injection H as H1%bytes_of_string_inj H2%bytes_of_string_inj%pretty_Z_inj
      H3%bytes_of_string_inj%pretty_Z_inj H4%bytes_of_string_inj H5%bytes_of_string_inj%pretty_Z_inj _ _.
    split_and!; [|done..]. destruct (original m1), (original m2); simpl in *; congruence.
  - unfold route, default_route. intros [= H1%string_app_inj_l H2]. done.
  - unfold metadata_to_headers. intros (-> & -> & -> & -> & ->). done.
Qed.
