(* ===== verification/OffsetTracker.v ===== *)
(** * Offset tracker (src/offset/offset_tracker.rs, offset_coordinator.rs)

    Per-partition acknowledgement state with out-of-order buffering, the
    tracker over all partitions, and the interface the worker pool uses. *)

From stdpp Require Import base gmap sets list strings pretty.
From S2P Require Import Prelude Failure Message Shutdown Runner Dlq.

(** ** [PartitionState] *)

Record PartitionState := {
  committed_offset : Z;
  pending_offsets : gset Z;
  failed_offsets : gset Z;
  last_failure_reason : option FailureReason;
  has_terminal : bool
}.

Definition partition_state_new : PartitionState :=
  {| committed_offset := -1;
     pending_offsets := ∅;
     failed_offsets := ∅;
     last_failure_reason := None;
     has_terminal := false |}.

(** The cursor loop of [ack]: every turn takes one offset out of the pending
    set, so a fuel of its size plus one is enough ([advance_next]). *)
Fixpoint advance (fuel : nat) (committed : Z) (pending : gset Z) : Z * gset Z :=
  match fuel with
  | O => (committed, pending)
  | S fuel =>
      let next := i64_wrap (committed + 1) in
      if decide (next ∈ pending) then advance fuel next (pending ∖ {[next]})
      else (committed, pending)
  end.

(** [PartitionState::ack]. *)
Definition ps_ack (offset : Z) (s : PartitionState) : PartitionState :=
  let base :=
    if decide (committed_offset s = -1) then i64_wrap (offset - 1) else committed_offset s in
  let pending := {[offset]} ∪ pending_offsets s in
  let r := advance (S (size pending)) base pending in
  {| committed_offset := r.1;
     pending_offsets := r.2;
     failed_offsets := failed_offsets s ∖ {[offset]};
     last_failure_reason := last_failure_reason s;
     has_terminal := has_terminal s |}.

(** [PartitionState::mark_failed]. *)
Definition ps_mark_failed (offset : Z) (s : PartitionState) : PartitionState :=
  {| committed_offset := committed_offset s;
     pending_offsets := pending_offsets s ∖ {[offset]};
     failed_offsets := {[offset]} ∪ failed_offsets s;
     last_failure_reason := last_failure_reason s;
     has_terminal := has_terminal s |}.

(** The part of the trait's [mark_failed] done under the partition lock. *)
Definition ps_mark_failed_reason (offset : Z) (reason : FailureReason) (s : PartitionState)
    : PartitionState :=
  let s := ps_mark_failed offset s in
  {| committed_offset := committed_offset s;
     pending_offsets := pending_offsets s;
     failed_offsets := failed_offsets s;
     last_failure_reason := Some reason;
     has_terminal :=
       if decide (category reason = Terminal) then true else has_terminal s |}.

(** The test of [should_commit] on one partition. *)
Definition ps_should_commit (s : PartitionState) : bool :=
  if has_terminal s then false
  else bool_decide (pending_offsets s ≠ ∅) || (0 <=? committed_offset s).

(** ** [OffsetTracker] *)

Abbreviation TopicPartitionKey := (string * Z)%type.

(** The sending half of the commit signal: tokio's [watch] channel keeps only
    the last value, with a version. *)
Record WatchChannel := { w_value : TopicPartitionKey; w_version : nat }.

Definition watch_send (v : TopicPartitionKey) (w : WatchChannel) : WatchChannel :=
  {| w_value := v; w_version := S (w_version w) |}.

Record OffsetTracker := {
  partitions : gmap TopicPartitionKey PartitionState;
  runner : bool;                     (* a ConsumerRunner has been set *)
  commit_tx : option WatchChannel
}.

Definition offset_tracker_new : OffsetTracker :=
  {| partitions := ∅; runner := false; commit_tx := None |}.

Definition set_commit_sender (w : WatchChannel) (t : OffsetTracker) : OffsetTracker :=
  {| partitions := partitions t; runner := runner t; commit_tx := Some w |}.

Definition set_runner (t : OffsetTracker) : OffsetTracker :=
  {| partitions := partitions t; runner := true; commit_tx := commit_tx t |}.

Definition with_partitions (m : gmap TopicPartitionKey PartitionState) (t : OffsetTracker)
    : OffsetTracker :=
  {| partitions := m; runner := runner t; commit_tx := commit_tx t |}.

(** [entry(key).or_default()]. *)
Definition entry_or_default (k : TopicPartitionKey) (t : OffsetTracker) : PartitionState :=
  default partition_state_new (partitions t !! k).

(** [OffsetTracker::ack]: asserts that the offset is not negative. *)
Definition tracker_ack (tp : string) (p o : Z) (t : OffsetTracker) : outcome OffsetTracker :=
  if decide (0 ≤ o) then
    let k := (tp, p) in
    Ret {| partitions := <[k := ps_ack o (entry_or_default k t)]> (partitions t);
           runner := runner t;
           commit_tx := watch_send k <$> commit_tx t |}
  else Panic.

Definition highest_contiguous (tp : string) (p : Z) (t : OffsetTracker) : option Z :=
  committed_offset <$> partitions t !! (tp, p).

Definition should_commit (tp : string) (p : Z) (t : OffsetTracker) : bool :=
  match partitions t !! (tp, p) with
  | Some s => ps_should_commit s
  | None => false
  end.

(** [OffsetTracker::mark_failed] (the inherent method, without a reason). *)
Definition tracker_mark_failed (tp : string) (p o : Z) (t : OffsetTracker) : OffsetTracker :=
  with_partitions (alter (ps_mark_failed o) (tp, p) (partitions t)) t.

Definition tracker_committed_offset (tp : string) (p : Z) (t : OffsetTracker) : Z :=
  default (-1) (committed_offset <$> partitions t !! (tp, p)).

(** The trait's [mark_failed]. *)
Definition mark_failed_reason (tp : string) (p o : Z) (reason : FailureReason)
    (t : OffsetTracker) : OffsetTracker :=
  with_partitions (alter (ps_mark_failed_reason o reason) (tp, p) (partitions t)) t.

Section iteration.
Context {HO : HashOrder TopicPartitionKey}.

Definition all_partitions (t : OffsetTracker) : list TopicPartitionKey := hash_keys (partitions t).

Definition offset_snapshots (t : OffsetTracker) : gmap TopicPartitionKey Z :=
  list_to_map ((λ '(k, s), (k, committed_offset s)) <$> hash_iter (partitions t)).

Section graceful.
Context (rd : RdCall → bool).

(** The body of the loop of [graceful_shutdown]: [store_offset] returns a
    future that is dropped. *)
Definition graceful_partition (t : OffsetTracker) (k : TopicPartitionKey) (tr : rd_trace)
    : rd_trace :=
  if negb (should_commit k.1 k.2 t) then tr
  else match highest_contiguous k.1 k.2 t with
  | Some o =>
      if runner t then
        let tr := drop_future (store_offset rd k.1 k.2 o) tr in
        (commit rd tr).2
      else tr
  | None => tr
  end.

Definition tracker_graceful_shutdown (t : OffsetTracker) (tr : rd_trace) : rd_trace :=
  foldl (λ tr k, graceful_partition t k tr) tr (all_partitions t).

End graceful.

Section flush.
Context {R : Type} `{DlqRouter R} (to_rfc3339 : Z → string).

Definition flush_metadata (k : TopicPartitionKey) (reason : string) (now o : Z) : DlqMetadata :=
  dlq_metadata_new k.1 k.2 o reason 1 now now None None None None.

(** One failed offset: an empty payload and no key. *)
Definition flush_offset (r : R) (k : TopicPartitionKey) (reason : string) (now : Z)
    (prod : SharedDlqProducer) (o : Z) : SharedDlqProducer :=
  let m := flush_metadata k reason now o in
  let tp := route r m in
  (produce_async to_rfc3339 (tp_topic tp) (tp_partition tp) [] None m prod).1.

Definition flush_partition_failed (r : R) (now : Z) (t : OffsetTracker)
    (prod : SharedDlqProducer) (k : TopicPartitionKey) : SharedDlqProducer :=
  match partitions t !! k with
  | None => prod
  | Some s =>
      let reason := default "unknown" (reason_to_string <$> last_failure_reason s) in
      foldl (flush_offset r k reason now) prod (btree_iter (failed_offsets s))
  end.

Definition tracker_flush_failed_to_dlq (r : R) (now : Z) (t : OffsetTracker)
    (prod : SharedDlqProducer) : SharedDlqProducer :=
  foldl (flush_partition_failed r now t) prod (all_partitions t).

End flush.
End iteration.

(** ** [OffsetCoordinator]: what the worker pool asks of an offset tracker

    The laws are what the worker-pool theorems use of an implementation. *)
Class OffsetCoordinator (T : Type) := {
  record_ack : string → Z → Z → T → outcome T;
  mark_failed : string → Z → Z → FailureReason → T → T;
  oc_committed : string → Z → T → Z
}.

Class OffsetCoordinatorLaws (T : Type) `{OffsetCoordinator T} := {
  record_ack_defined : ∀ tp p o t, 0 ≤ o → is_ret (record_ack tp p o t) = true;
  record_ack_frame : ∀ tp p o t t' tp' p',
    record_ack tp p o t = Ret t' → (tp', p') ≠ (tp, p) →
    oc_committed tp' p' t' = oc_committed tp' p' t;
  mark_failed_committed : ∀ tp p o r t tp' p',
    oc_committed tp' p' (mark_failed tp p o r t) = oc_committed tp' p' t
}.

#[export] Instance tracker_coordinator : OffsetCoordinator OffsetTracker := {|
  record_ack := tracker_ack;
  mark_failed := mark_failed_reason;
  oc_committed := tracker_committed_offset
|}.
