(* ===== verification/OffsetProofs.v ===== *)
(** * Offset tracker: histories, safety and progress

    A partition is driven by a history of acknowledgements and failures.  The
    file characterises the committed offset by the history, and relates the
    tracker over all partitions to the histories of the single ones. *)

From stdpp Require Import base gmap sets list strings pretty.
From S2P Require Import Prelude Failure Message Shutdown Runner Dlq OffsetTracker.

(** ** The cursor loop *)

Definition offsets_in_range (p : gset Z) : Prop := ∀ o, o ∈ p → 0 ≤ o < 2 ^ 63.

Lemma next_in_pending c p :
  -1 ≤ c < 2 ^ 63 → offsets_in_range p → i64_wrap (c + 1) ∈ p → i64_wrap (c + 1) = c + 1.
Proof.
  intros Hc Hp Hin%Hp. destruct (decide (c = 2 ^ 63 - 1)) as [->|].
  - rewrite i64_wrap_max_succ in Hin. lia.
  - apply i64_wrap_id. unfold i64_range. lia.
Qed.

Lemma advance_spec fuel : ∀ c p,
  -1 ≤ c < 2 ^ 63 → offsets_in_range p →
  let r := advance fuel c p in
  c ≤ r.1 < 2 ^ 63 ∧
  (∀ o, c < o ≤ r.1 → o ∈ p) ∧
  (∀ o, o ∈ r.2 ↔ o ∈ p ∧ ¬ (c < o ≤ r.1)).
Proof.
  induction fuel as [|fuel IH]; intros c p Hc Hp; simpl.
  { split; [lia|]. split; [lia|]. intros o. split; [|by intros [? _]]. intros; split; [done|lia]. }
  case_decide as Hin; simpl.
  2: { split; [lia|]. split; [lia|]. intros o. split; [|by intros [? _]]. intros; split; [done|lia]. }
  pose proof (next_in_pending c p Hc Hp Hin) as En. rewrite En in *. pose proof (Hp _ Hin) as Hr.
  destruct (IH (c + 1) (p ∖ {[c + 1]})) as (H1 & H2 & H3); [lia|intros o ?; apply Hp; set_solver|].
  split; [lia|]. split.
  - intros o Ho. destruct (decide (o = c + 1)) as [->|]; [done|].
    assert (o ∈ p ∖ {[c + 1]}) by (apply H2; lia). set_solver.
  - intros o. rewrite H3, elem_of_difference, elem_of_singleton. split.
    + intros [[? ?] ?]. split; [done|lia].
    + intros [? ?]. split; [split; [done|]|]; lia.
Qed.

(** With a fuel above the size of the pending set the loop ends because the
    next offset is missing. *)
Lemma advance_next fuel : ∀ c p,
  (size p < fuel)%nat → i64_wrap ((advance fuel c p).1 + 1) ∉ (advance fuel c p).2.
Proof.
  induction fuel as [|fuel IH]; intros c p Hsz; [lia|]. simpl.
  case_decide as Hin; [|done]. apply IH.
  rewrite size_difference by set_solver. rewrite size_singleton.
  assert (size p ≠ 0%nat); [|lia]. intros Hz%size_empty_inv. set_solver.
Qed.

(** More fuel changes nothing. *)
Lemma advance_fuel fuel : ∀ c p,
  (size p < fuel)%nat → ∀ fuel', (size p < fuel')%nat → advance fuel c p = advance fuel' c p.
Proof.
  induction fuel as [|fuel IH]; intros c p Hsz [|fuel'] Hsz'; [lia..|]. simpl.
  case_decide as Hin; [|done].
  assert (size (p ∖ {[i64_wrap (c + 1)]}) < fuel ∧ size (p ∖ {[i64_wrap (c + 1)]}) < fuel')%nat as [? ?].
  { rewrite size_difference by set_solver. rewrite size_singleton.
    assert (size p ≠ 0%nat); [|lia]. intros Hz%size_empty_inv. set_solver. }
  by apply IH.
Qed.

(** ** Well-formed partition states *)

Record ps_wf (s : PartitionState) : Prop := {
  wf_committed : -1 ≤ committed_offset s < 2 ^ 63;
  wf_pending : offsets_in_range (pending_offsets s);
  wf_next : committed_offset s + 1 ∉ pending_offsets s;
  wf_fresh : committed_offset s = -1 → pending_offsets s = ∅
}.

Lemma partition_state_new_wf : ps_wf partition_state_new.
Proof. split; simpl; try set_solver; lia. Qed.

(** The offset the cursor starts from when [o] is acknowledged. *)
Definition ack_base (o : Z) (s : PartitionState) : Z :=
  if decide (committed_offset s = -1) then o - 1 else committed_offset s.

(** What [ack] computes, with the loop and the wrap-around gone. *)
Lemma ps_ack_spec o s :
  ps_wf s → 0 ≤ o < 2 ^ 63 →
  let s' := ps_ack o s in
  let c := ack_base o s in
  ps_wf s' ∧
  c ≤ committed_offset s' ∧
  (∀ x, c < x ≤ committed_offset s' → x = o ∨ x ∈ pending_offsets s) ∧
  (∀ x, x ∈ pending_offsets s' ↔
        (x = o ∨ x ∈ pending_offsets s) ∧ ¬ (c < x ≤ committed_offset s')).
Proof.
  intros [Hc Hp Hn Hf] Ho. unfold ps_ack, ack_base.
  set (pend := {[o]} ∪ pending_offsets s).
  assert (Hpend : offsets_in_range pend).
  { intros x. unfold pend. rewrite elem_of_union, elem_of_singleton. intros [->|?]; auto. }
  replace (if decide (committed_offset s = -1) then i64_wrap (o - 1) else committed_offset s)
    with (if decide (committed_offset s = -1) then o - 1 else committed_offset s).
  2: { case_decide; [|done]. symmetry. apply i64_wrap_id. unfold i64_range. lia. }
  set (c := if decide (committed_offset s = -1) then o - 1 else committed_offset s).
  assert (Hc' : -1 ≤ c < 2 ^ 63) by (unfold c; case_decide; lia).
  destruct (advance_spec (S (size pend)) c pend) as (H1 & H2 & H3); [done..|].
  pose proof (advance_next (S (size pend)) c pend ltac:(lia)) as H4.
  destruct (advance (S (size pend)) c pend) as [c' p'] eqn:E. simpl in *.
  assert (Hrange : offsets_in_range p') by (intros x [Hx _]%H3; auto).
  assert (Hmem : ∀ x, x ∈ pend ↔ x = o ∨ x ∈ pending_offsets s)
    by (intros x; unfold pend; set_solver).
  split; [split; simpl|split; [lia|split]].
  - lia.
  - done.
  - intros Hin. apply H4. rewrite i64_wrap_id; [done|].
    pose proof (Hrange _ Hin). unfold i64_range. lia.
  - intros ->. apply set_eq. intros x. split; [|set_solver].
    intros Hx. exfalso. assert (c = -1) as Hcm by lia. unfold c in Hcm.
    destruct (decide (committed_offset s = -1)) as [E'|]; [|lia].
    assert (o = 0) as -> by lia.
    apply H4. rewrite H3. change (i64_wrap (-1 + 1)) with 0. split; [|lia].
    apply Hmem. by left.
  - intros x Hx. by apply Hmem, H2.
  - intros x. rewrite H3, Hmem. done.
Qed.

Lemma ps_mark_failed_wf o s : ps_wf s → ps_wf (ps_mark_failed o s).
Proof.
  intros [Hc Hp Hn Hf]. split; simpl; [done| | |].
  - intros x ?. apply Hp. set_solver.
  - set_solver.
  - intros E. rewrite Hf by done. set_solver.
Qed.

Lemma ps_mark_failed_reason_wf o r s : ps_wf s → ps_wf (ps_mark_failed_reason o r s).
Proof. intros H%(ps_mark_failed_wf o). destruct H. by split. Qed.

#[export] Hint Resolve partition_state_new_wf ps_mark_failed_wf ps_mark_failed_reason_wf : kafpy.

(** ** Histories of one partition *)

(** A failure carries the reason when it comes through the coordinator trait. *)
Inductive ps_event :=
| PAck (o : Z)
| PFail (o : Z) (reason : option FailureReason).

Definition ps_step (s : PartitionState) (e : ps_event) : PartitionState :=
  match e with
  | PAck o => ps_ack o s
  | PFail o None => ps_mark_failed o s
  | PFail o (Some r) => ps_mark_failed_reason o r s
  end.

Definition ps_run (evs : list ps_event) : PartitionState :=
  foldl ps_step partition_state_new evs.

(** Acknowledged offsets are Kafka offsets. *)
Definition event_ok (e : ps_event) : Prop :=
  match e with PAck o => 0 ≤ o < 2 ^ 63 | PFail _ _ => True end.

(** The first acknowledged offset: the base the cursor is seeded from. *)
Fixpoint first_ack (evs : list ps_event) : option Z :=
  match evs with
  | [] => None
  | PAck o :: _ => Some o
  | PFail _ _ :: evs => first_ack evs
  end.

(** Whether the last event on [o] is an acknowledgement. *)
Definition ack_last_step (o : Z) (b : bool) (e : ps_event) : bool :=
  match e with
  | PAck o' => if decide (o' = o) then true else b
  | PFail o' _ => if decide (o' = o) then false else b
  end.

Definition ack_last (o : Z) (evs : list ps_event) : bool :=
  foldl (ack_last_step o) false evs.

Lemma first_ack_snoc evs e :
  first_ack (evs ++ [e]) =
  match first_ack evs with
  | Some b => Some b
  | None => match e with PAck o => Some o | PFail _ _ => None end
  end.
Proof.
  induction evs as [|[o|o r] evs IH]; simpl; [|done|done]. by destruct e.
Qed.

(** The invariant that ties a state to the history that led to it. *)
Record hist_inv (evs : list ps_event) (s : PartitionState) : Prop := {
  hi_wf : ps_wf s;
  hi_none : first_ack evs = None → committed_offset s = -1;
  hi_base : ∀ b, first_ack evs = Some b → 0 ≤ b ≤ committed_offset s;
  hi_safe : ∀ b o, first_ack evs = Some b → b ≤ o ≤ committed_offset s → PAck o ∈ evs;
  hi_pend : ∀ o, o ∈ pending_offsets s → PAck o ∈ evs;
  hi_live : ∀ b o, first_ack evs = Some b → b ≤ o → ack_last o evs = true →
            o ≤ committed_offset s ∨ o ∈ pending_offsets s
}.

Lemma hist_inv_nil : hist_inv [] partition_state_new.
Proof. split; auto with kafpy; simpl; try discriminate; set_solver. Qed.

(** A failure keeps the cursor; it only shrinks the pending set. *)
Lemma hist_inv_fail evs s o r s' :
  hist_inv evs s → ps_wf s' → committed_offset s' = committed_offset s →
  pending_offsets s' = pending_offsets s ∖ {[o]} →
  hist_inv (evs ++ [PFail o r]) s'.
Proof.
  intros [W N B S P L] W' Hc Hp.
  assert (Hf : first_ack (evs ++ [PFail o r]) = first_ack evs)
    by (rewrite first_ack_snoc; by destruct (first_ack evs)).
  split; rewrite ?Hf, ?Hc, ?Hp; [done..| | |].
  - intros b x Hb Hx. apply elem_of_app. left. by eapply S.
  - intros x Hx. apply elem_of_app. left. apply P. set_solver.
  - intros b x Hb Hx. unfold ack_last. rewrite foldl_app. simpl.
    case_decide as E; [done|]. intros Hl. destruct (L b x Hb Hx Hl); [by left|].
    right. set_solver.
Qed.

Lemma ack_from_unseeded evs s o :
  hist_inv evs s → 0 ≤ o < 2 ^ 63 → first_ack evs = None → o ≤ committed_offset (ps_ack o s).
Proof.
  intros [W N B S P L] Ho Hn.
  destruct (ps_ack_spec o s W Ho) as ([_ _ Wn _] & H1 & H2 & H3).
  specialize (N Hn). unfold ack_base in *. rewrite decide_True in * by done.
  destruct (decide (o ≤ committed_offset (ps_ack o s))); [done|].
  exfalso. apply Wn. apply H3. split; [left|]; lia.
Qed.

Lemma hist_inv_ack evs s o :
  hist_inv evs s → 0 ≤ o < 2 ^ 63 → hist_inv (evs ++ [PAck o]) (ps_ack o s).
Proof.
  intros I Ho. pose proof (ack_from_unseeded evs s o I Ho) as Hun.
  destruct I as [W N B S P L].
  destruct (ps_ack_spec o s W Ho) as (W' & H1 & H2 & H3).
  assert (Hbase : ∀ b, first_ack (evs ++ [PAck o]) = Some b →
     (first_ack evs = Some b ∧ ack_base o s = committed_offset s) ∨
     (first_ack evs = None ∧ b = o ∧ ack_base o s = o - 1)).
  { intros b. rewrite first_ack_snoc. unfold ack_base. destruct (first_ack evs) as [b'|] eqn:E.
    - intros [= ->]. left. split; [done|]. rewrite decide_False; [done|].
      pose proof (B b eq_refl). lia.
    - intros [= ->]. right. rewrite decide_True by auto. done. }
  assert (Hin : ∀ x, x = o ∨ x ∈ pending_offsets s → PAck x ∈ evs ++ [PAck o]).
  { intros x [->|Hx]; apply elem_of_app; [right; set_solver|left; auto]. }
  split; [done| | | | |].
  - rewrite first_ack_snoc. by destruct (first_ack evs).
  - intros b Hb. destruct (Hbase b Hb) as [[Hb' Hc]|(Hb' & -> & Hc)].
    + pose proof (B b Hb'). lia.
    + specialize (Hun Hb'). lia.
  - intros b x Hb Hx. destruct (Hbase b Hb) as [[Hb' Hc]|(Hb' & -> & Hc)].
    + destruct (decide (x ≤ committed_offset s)).
      * apply elem_of_app. left. eapply S; [done|lia].
      * apply Hin, H2. lia.
    + apply Hin, H2. lia.
  - intros x [Hx _]%H3. by apply Hin.
  - intros b x Hb Hx Hl.
    destruct (decide (x ≤ committed_offset (ps_ack o s))); [by left|right].
    apply H3. split; [|lia].
    unfold ack_last in Hl. rewrite foldl_app in Hl. simpl in Hl. case_decide; [by left|right].
    destruct (Hbase b Hb) as [[Hb' Hc]|(Hb' & -> & Hc)].
    + destruct (L b x Hb' Hx Hl); [lia|done].
    + exfalso. clear -Hl Hb'. induction evs as [|[]] using rev_ind; simpl in *; [done| |].
      * rewrite first_ack_snoc in Hb'. by destruct (first_ack evs).
      * rewrite first_ack_snoc in Hb'. destruct (first_ack evs) eqn:E; [done|].
        rewrite foldl_app in Hl. simpl in Hl. case_decide; [done|]. by apply IHevs.
Qed.

Lemma hist_inv_step evs s e :
  hist_inv evs s → event_ok e → hist_inv (evs ++ [e]) (ps_step s e).
Proof.
  intros I He. pose proof (hi_wf _ _ I). destruct e as [o|o [r|]]; simpl.
  - by apply hist_inv_ack.
  - eapply hist_inv_fail; eauto with kafpy.
  - eapply hist_inv_fail; eauto with kafpy.
Qed.

Lemma hist_inv_run evs : Forall event_ok evs → hist_inv evs (ps_run evs).
Proof.
  induction evs as [|e evs IH] using rev_ind; [intros _; apply hist_inv_nil|].
  intros [Hs He]%Forall_app. unfold ps_run. rewrite foldl_app. simpl.
  apply hist_inv_step; [by apply IH|]. by inversion He.
Qed.

(** The committed offset reaches every prefix whose offsets are all
    acknowledged. *)
Lemma run_progress evs b n :
  Forall event_ok evs → first_ack evs = Some b →
  (∀ o, b ≤ o ≤ n → ack_last o evs = true) → n ≤ committed_offset (ps_run evs).
Proof.
  intros Hok Hb Hall. destruct (hist_inv_run evs Hok) as [W N B S P L].
  destruct (decide (n ≤ committed_offset (ps_run evs))); [done|exfalso].
  pose proof (B b Hb). apply (wf_next _ W).
  destruct (L b (committed_offset (ps_run evs) + 1) Hb); [lia| |lia|done].
  apply Hall. lia.
Qed.

(** ** Histories of the tracker *)

Inductive tracker_op :=
| TAck (tp : string) (p o : Z)
| TFail (tp : string) (p o : Z)
| TFailReason (tp : string) (p o : Z) (r : FailureReason).

Definition tracker_step (op : tracker_op) (t : OffsetTracker) : outcome OffsetTracker :=
  match op with
  | TAck tp p o => tracker_ack tp p o t
  | TFail tp p o => Ret (tracker_mark_failed tp p o t)
  | TFailReason tp p o r => Ret (mark_failed_reason tp p o r t)
  end.

Fixpoint tracker_run (ops : list tracker_op) (t : OffsetTracker) : outcome OffsetTracker :=
  match ops with
  | [] => Ret t
  | op :: ops => let? t' := tracker_step op t in tracker_run ops t'
  end.

(** The events of one partition in a history of the tracker. *)
Definition op_event (k : TopicPartitionKey) (op : tracker_op) : option ps_event :=
  match op with
  | TAck tp p o => if decide ((tp, p) = k) then Some (PAck o) else None
  | TFail tp p o => if decide ((tp, p) = k) then Some (PFail o None) else None
  | TFailReason tp p o r => if decide ((tp, p) = k) then Some (PFail o (Some r)) else None
  end.

Definition events_of (k : TopicPartitionKey) (ops : list tracker_op) : list ps_event :=
  omap (op_event k) ops.

(** A failure on a partition that has no acknowledgement yet is dropped. *)
Fixpoint drop_fails (evs : list ps_event) : list ps_event :=
  match evs with
  | PFail _ _ :: evs => drop_fails evs
  | _ => evs
  end.

(** The state a history leaves for one partition. *)
Definition partition_after (evs : list ps_event) : option PartitionState :=
  match drop_fails evs with
  | [] => None
  | evs' => Some (ps_run evs')
  end.

Definition op_ok (op : tracker_op) : Prop :=
  match op with TAck _ _ o => 0 ≤ o < 2 ^ 63 | _ => True end.

Lemma drop_fails_snoc evs e :
  drop_fails (evs ++ [e]) =
  match drop_fails evs with [] => drop_fails [e] | evs' => evs' ++ [e] end.
Proof. induction evs as [|[o|o r] evs IH]; simpl; done. Qed.

Lemma partition_after_snoc evs e :
  partition_after (evs ++ [e]) =
  match partition_after evs, e with
  | Some s, _ => Some (ps_step s e)
  | None, PAck o => Some (ps_ack o partition_state_new)
  | None, PFail _ _ => None
  end.
Proof.
  unfold partition_after. rewrite drop_fails_snoc.
  destruct (drop_fails evs) as [|e' evs']; simpl; [by destruct e|].
  unfold ps_run. simpl. by rewrite foldl_app.
Qed.

Lemma events_of_snoc k ops op :
  events_of k (ops ++ [op]) =
  events_of k ops ++ match op_event k op with Some e => [e] | None => [] end.
Proof. unfold events_of. rewrite omap_app. simpl. by destruct (op_event k op). Qed.

Lemma tracker_run_snoc ops op t :
  tracker_run (ops ++ [op]) t = obind (tracker_run ops t) (tracker_step op).
Proof.
  revert t. induction ops as [|o ops IH]; intros t; simpl.
  - by destruct (tracker_step op t).
  - destruct (tracker_step o t); simpl; [apply IH|done].
Qed.

(** One operation of the tracker, seen from one partition. *)
Lemma tracker_step_lookup op t t' k :
  tracker_step op t = Ret t' →
  partitions t' !! k =
  match op_event k op with
  | None => partitions t !! k
  | Some (PAck o) => Some (ps_ack o (entry_or_default k t))
  | Some e => flip ps_step e <$> partitions t !! k
  end.
Proof.
  destruct op as [tp p o|tp p o|tp p o r]; simpl; unfold tracker_ack, tracker_mark_failed,
    mark_failed_reason, with_partitions.
  - case_decide; [|done]. intros [= <-]. simpl. destruct (decide ((tp, p) = k)) as [<-|].
    + by rewrite lookup_insert_eq.
    + by rewrite lookup_insert_ne.
  - intros [= <-]. simpl. destruct (decide ((tp, p) = k)) as [<-|].
    + by rewrite lookup_alter_eq.
    + by rewrite lookup_alter_ne.
  - intros [= <-]. simpl. destruct (decide ((tp, p) = k)) as [<-|].
    + by rewrite lookup_alter_eq.
    + by rewrite lookup_alter_ne.
Qed.

(** Every partition of the tracker is the state its own history leads to. *)
Lemma tracker_run_partition ops t k :
  tracker_run ops offset_tracker_new = Ret t →
  partitions t !! k = partition_after (events_of k ops).
Proof.
  revert t. induction ops as [|op ops IH] using rev_ind; intros t Hr.
  { simpl in Hr. simplify_eq. simpl. by rewrite lookup_empty. }
  rewrite tracker_run_snoc in Hr.
  destruct (tracker_run ops offset_tracker_new) as [t0|]; [|done]. simpl in Hr.
  rewrite (tracker_step_lookup _ _ _ k Hr), events_of_snoc.
  rewrite (IH t0 eq_refl). destruct (op_event k op) as [e|]; [|by rewrite app_nil_r].
  rewrite partition_after_snoc. unfold entry_or_default. rewrite (IH t0 eq_refl).
  destruct (partition_after (events_of k ops)); by destruct e.
Qed.

Lemma events_of_ok k ops : Forall op_ok ops → Forall event_ok (events_of k ops).
Proof.
  intros Hok. induction Hok as [|op ops Hop Hok IH]; simpl; [constructor|].
  destruct op as [tp p o|tp p o|tp p o r]; simpl in *; case_decide; simpl;
    solve [exact IH | constructor; [done|exact IH]].
Qed.

Lemma drop_fails_ok evs : Forall event_ok evs → Forall event_ok (drop_fails evs).
Proof. induction 1 as [|[] ? ? ? IH]; simpl; by try constructor. Qed.

Lemma first_ack_drop evs : first_ack (drop_fails evs) = first_ack evs.
Proof. induction evs as [|[] evs IH]; simpl; done. Qed.

Lemma ack_last_drop o evs : ack_last o (drop_fails evs) = ack_last o evs.
Proof.
  induction evs as [|[o'|o' r] evs IH]; simpl; [done..|].
  rewrite IH. unfold ack_last. simpl. by case_decide.
Qed.

Lemma elem_of_drop_fails evs o : PAck o ∈ drop_fails evs → PAck o ∈ evs.
Proof. induction evs as [|[] evs IH]; simpl; auto; intros; right; auto. Qed.

Lemma elem_of_events_ack k ops o :
  PAck o ∈ events_of k ops → TAck k.1 k.2 o ∈ ops.
Proof.
  unfold events_of. rewrite list_elem_of_omap. intros (op & Hin & He).
  destruct op as [tp p o'|tp p o'|tp p o' r]; simpl in He; case_decide; simplify_eq/=; done.
Qed.

(** The invariant of a registered partition over the tracker's history. *)
Lemma tracker_partition_inv ops t k s :
  Forall op_ok ops → tracker_run ops offset_tracker_new = Ret t →
  partitions t !! k = Some s →
  hist_inv (drop_fails (events_of k ops)) s ∧ is_Some (first_ack (events_of k ops)).
Proof.
  intros Hok Hr Hs. rewrite (tracker_run_partition _ _ k Hr) in Hs.
  unfold partition_after in Hs.
  destruct (drop_fails (events_of k ops)) as [|e evs] eqn:E; [done|]. injection Hs as <-.
  assert (Hev : Forall event_ok (e :: evs)) by (rewrite <- E; by apply drop_fails_ok, events_of_ok).
  split; [by apply hist_inv_run|].
  rewrite <- first_ack_drop, E. destruct e as [o|o r]; simpl; [eauto|].
  exfalso. clear -E. induction (events_of k ops) as [|[] l IH]; simpl in E; simplify_eq; auto.
Qed.

(** ** The properties *)

Lemma first_ack_app evs evs' b : first_ack evs = Some b → first_ack (evs ++ evs') = Some b.
Proof. induction evs as [|[] evs IH]; simpl; auto; done. Qed.

(** Only the partitions matter to a history of the tracker. *)
Lemma tracker_run_same ops : ∀ t1 t2 t1',
  tracker_run ops t1 = Ret t1' → partitions t1 = partitions t2 →
  ∃ t2', tracker_run ops t2 = Ret t2' ∧ partitions t2' = partitions t1'.
Proof.
  induction ops as [|op ops IH]; intros t1 t2 t1' Hr Hp; simpl in Hr; [simplify_eq; by exists t2|].
  destruct (tracker_step op t1) as [t1a|] eqn:E; [|done]. simpl in Hr.
  assert (∃ t2a, tracker_step op t2 = Ret t2a ∧ partitions t1a = partitions t2a) as (t2a & Ha & Hpa).
  { destruct op as [tp p o|tp p o|tp p o r]; simpl in *.
    - unfold tracker_ack, entry_or_default in *. case_decide; simplify_eq/=.
      eexists. split; [done|]. simpl. by rewrite Hp.
    - simplify_eq/=. eexists. split; [done|]. simpl. by rewrite Hp.
    - simplify_eq/=. eexists. split; [done|]. simpl. by rewrite Hp. }
  simpl. rewrite Ha. simpl. exact (IH _ _ _ Hr Hpa).
Qed.

(** C8: at-least-once safety of the commit cursor.  In every history of the
    tracker (acknowledgements and failures of any partitions, in any order),
    the committed offset of a partition covers no offset, from the first
    acknowledged one on, that was not acknowledged: a message that was never
    acknowledged is never committed. *)
Theorem committed_only_acked ops t tp p c b o :
  Forall op_ok ops →
  tracker_run ops offset_tracker_new = Ret t →
  highest_contiguous tp p t = Some c →
  first_ack (events_of (tp, p) ops) = Some b →
  b ≤ o ≤ c →
  TAck tp p o ∈ ops.
Proof.
  unfold highest_contiguous. intros Hok Hr Hc Hb Ho.
  destruct (partitions t !! (tp, p)) as [s|] eqn:Hs; [|done]. simplify_eq/=.
  destruct (tracker_partition_inv _ _ _ _ Hok Hr Hs) as [I _].
  apply (elem_of_events_ack (tp, p)), elem_of_drop_fails.
  eapply (hi_safe _ _ I); [by rewrite first_ack_drop|done].
Qed.

Lemma committed_only_acked_witness :
  TAck "t" 0 11 ∈ [TAck "t" 0 10; TAck "t" 0 12; TFailReason "t" 0 13 (ReasonTerminal PoisonMessage);
                   TAck "t" 0 11].
Proof.
  eapply (committed_only_acked _ _ "t" 0 12 10 11);
    [repeat constructor; simpl; lia|reflexivity|vm_compute; reflexivity|reflexivity|lia].
Defined.

(** When every offset from the first acknowledged one up to [n] has an
    acknowledgement as its last event, the cursor is there. *)
Lemma acked_prefix_state ops t0 t tp p b n :
  Forall op_ok ops → partitions t0 = ∅ →
  tracker_run ops t0 = Ret t →
  first_ack (events_of (tp, p) ops) = Some b →
  (∀ o, b ≤ o ≤ n → ack_last o (events_of (tp, p) ops) = true) →
  let s := ps_run (drop_fails (events_of (tp, p) ops)) in
  partitions t !! (tp, p) = Some s ∧ n ≤ committed_offset s ∧ 0 ≤ committed_offset s.
Proof.
  intros Hok He Hr Hb Hall s. destruct (tracker_run_same _ _ offset_tracker_new _ Hr He) as (t' & Ht' & Hp').
  rewrite <- Hp', (tracker_run_partition _ _ _ Ht'). unfold partition_after.
  assert (Forall event_ok (drop_fails (events_of (tp, p) ops))) as Hev by (by apply drop_fails_ok, events_of_ok).
  rewrite <- first_ack_drop in Hb. split_and!.
  - destruct (drop_fails (events_of (tp, p) ops)); [done|]. done.
  - apply (run_progress _ b); [done|done|]. intros o Ho. rewrite ack_last_drop. by apply Hall.
  - pose proof (hi_base _ _ (hist_inv_run _ Hev) b Hb). unfold s. lia.
Qed.

(** C9: progress of the commit cursor.  When every offset from the first
    acknowledged one up to [n] has an acknowledgement as its last event, the
    committed offset is at least [n], in whatever order the acknowledgements
    and failures arrived. *)
Theorem committed_reaches_acked_prefix ops t tp p b n :
  Forall op_ok ops →
  tracker_run ops offset_tracker_new = Ret t →
  first_ack (events_of (tp, p) ops) = Some b →
  b ≤ n →
  (∀ o, b ≤ o ≤ n → ack_last o (events_of (tp, p) ops) = true) →
  ∃ c, highest_contiguous tp p t = Some c ∧ n ≤ c.
Proof.
  intros Hok Hr Hb _ Hall. destruct (acked_prefix_state _ offset_tracker_new _ _ _ _ _ Hok eq_refl Hr Hb Hall) as (Hs & Hn & _).
  eexists. unfold highest_contiguous. by rewrite Hs.
Qed.

Lemma committed_reaches_acked_prefix_witness :
  ∃ c, highest_contiguous "t" 0
         (match tracker_run [TAck "t" 0 10; TAck "t" 0 12; TAck "u" 0 3; TFail "t" 0 12;
                             TAck "t" 0 11; TAck "t" 0 12] offset_tracker_new with
          | Ret t => t | Panic => offset_tracker_new end) = Some c ∧ 12 ≤ c.
Proof.
  eapply (committed_reaches_acked_prefix
            [TAck "t" 0 10; TAck "t" 0 12; TAck "u" 0 3; TFail "t" 0 12; TAck "t" 0 11; TAck "t" 0 12]
            _ "t" 0 10 12); [repeat constructor; simpl; lia|reflexivity|reflexivity|lia|].
  intros o Ho. assert (o = 10 ∨ o = 11 ∨ o = 12) as [->|[->| ->]] by lia; reflexivity.
Defined.

(** ** Terminal failures *)

Lemma ps_step_terminal s e : has_terminal s = true → has_terminal (ps_step s e) = true.
Proof. destruct e as [o|o [r|]]; simpl; [done| |done]. by case_decide. Qed.

(** A partition is marked terminal by a terminal failure only. *)
Lemma run_not_terminal evs :
  (∀ o r, PFail o (Some r) ∈ evs → category r ≠ Terminal) → has_terminal (ps_run evs) = false.
Proof.
  unfold ps_run. induction evs as [|e evs IH] using rev_ind; intros Hr; [done|].
  rewrite foldl_app. cbn [foldl]. assert (has_terminal (foldl ps_step partition_state_new evs) = false) as Hf.
  { apply IH. intros o r Hin. apply (Hr o). apply elem_of_app. by left. }
  destruct e as [o|o [r|]]; cbn [ps_step ps_ack ps_mark_failed ps_mark_failed_reason has_terminal]; try done.
  rewrite decide_False; [done|]. apply (Hr o). apply elem_of_app. right. by apply list_elem_of_singleton.
Qed.

Lemma tracker_step_registered op t t' k s :
  tracker_step op t = Ret t' → partitions t !! k = Some s →
  partitions t' !! k = Some (match op_event k op with Some e => ps_step s e | None => s end).
Proof.
  intros Hr Hs. rewrite (tracker_step_lookup _ _ _ k Hr). unfold entry_or_default.
  destruct (op_event k op) as [[|]|]; by rewrite Hs.
Qed.

Lemma tracker_run_terminal ops : ∀ t t' k s,
  tracker_run ops t = Ret t' → partitions t !! k = Some s → has_terminal s = true →
  ∃ s', partitions t' !! k = Some s' ∧ has_terminal s' = true.
Proof.
  induction ops as [|op ops IH]; intros t t' k s Hr Hs Ht; simpl in Hr; [simplify_eq; eauto|].
  destruct (tracker_step op t) as [t1|] eqn:E; [|done]. simpl in Hr.
  pose proof (tracker_step_registered _ _ _ _ _ E Hs) as Hs1.
  eapply IH; [done|done|]. destruct (op_event k op); [by apply ps_step_terminal|done].
Qed.

(** commit gating.  Once a terminal failure is recorded on a registered
    partition, no later history makes the partition committable again, and the
    recording changes no other partition. *)
Theorem terminal_blocks_commit_forever ops t t' tp p o r :
  is_Some (highest_contiguous tp p t) →
  category r = Terminal →
  tracker_run ops (mark_failed_reason tp p o r t) = Ret t' →
  should_commit tp p t' = false ∧
  (∀ k, k ≠ (tp, p) → partitions (mark_failed_reason tp p o r t) !! k = partitions t !! k).
Proof.
  intros [c Hc] Hr Hrun. unfold highest_contiguous in Hc.
  destruct (partitions t !! (tp, p)) as [s|] eqn:Hs; [|done].
  assert (Hm : partitions (mark_failed_reason tp p o r t) !! (tp, p) =
               Some (ps_mark_failed_reason o r s)).
  { unfold mark_failed_reason. simpl. by rewrite lookup_alter_eq, Hs. }
  split.
  - destruct (tracker_run_terminal ops _ _ _ _ Hrun Hm) as (s' & Hs' & Ht').
    { simpl. by rewrite decide_True. }
    unfold should_commit, ps_should_commit. by rewrite Hs', Ht'.
  - intros k Hk. unfold mark_failed_reason. simpl. by rewrite lookup_alter_ne by done.
Qed.

Lemma terminal_blocks_commit_forever_witness :
  ∃ t', tracker_run [TAck "t" 0 11; TAck "t" 0 12]
          (mark_failed_reason "t" 0 11 (ReasonTerminal PoisonMessage)
             (match tracker_ack "t" 0 10 offset_tracker_new with
              | Ret t => t | Panic => offset_tracker_new end)) = Ret t' ∧
        should_commit "t" 0 t' = false.
Proof.
  eexists. split; [vm_compute; reflexivity|].
  apply (terminal_blocks_commit_forever
           [TAck "t" 0 11; TAck "t" 0 12]
           (match tracker_ack "t" 0 10 offset_tracker_new with
            | Ret t => t | Panic => offset_tracker_new end)
           _ "t" 0 11 (ReasonTerminal PoisonMessage)).
  - vm_compute. eauto.
  - reflexivity.
  - vm_compute. reflexivity.
Defined.

(** a failure that precedes the first acknowledgement of its partition is
    lost.  The partition has no entry yet, so a terminal failure leaves no
    trace: the first acknowledgement that follows makes the partition
    committable, with the failed offset at or below the committed one when it
    is the smaller, and without any failed offset to flush. *)
Theorem failure_before_first_ack_is_lost t t' tp p o r o' :
  partitions t !! (tp, p) = None →
  0 ≤ o' < 2 ^ 63 →
  tracker_ack tp p o' (mark_failed_reason tp p o r t) = Ret t' →
  should_commit tp p t' = true ∧
  (∃ s, partitions t' !! (tp, p) = Some s ∧ failed_offsets s = ∅ ∧ has_terminal s = false ∧
        o' ≤ committed_offset s).
Proof.
  intros Hn Ho Ha. unfold tracker_ack in Ha. rewrite decide_True in Ha by lia.
  injection Ha as <-. unfold should_commit. simpl. rewrite lookup_insert_eq.
  unfold entry_or_default. simpl. rewrite lookup_alter_eq, Hn. simpl.
  pose proof (ack_from_unseeded [] partition_state_new o' hist_inv_nil Ho eq_refl) as Hc.
  split.
  - unfold ps_should_commit. change (has_terminal (ps_ack o' partition_state_new)) with false.
    cbv iota. apply orb_true_iff. right. apply Z.leb_le. lia.
  - eexists. split; [done|]. split; [|split; [done|lia]]. simpl. set_solver.
Qed.

Lemma failure_before_first_ack_is_lost_witness :
  should_commit "t" 0
    (match tracker_ack "t" 0 6 (mark_failed_reason "t" 0 5 (ReasonTerminal PoisonMessage)
                                  offset_tracker_new) with
     | Ret t => t | Panic => offset_tracker_new end) = true.
Proof.
  eapply (failure_before_first_ack_is_lost offset_tracker_new _ "t" 0 5
            (ReasonTerminal PoisonMessage) 6); [reflexivity|lia|reflexivity].
Defined.

(** ** The documented invariant on pending offsets *)

Lemma ps_step_keeps_late s e o :
  ps_wf s → event_ok e → (∀ r, e ≠ PFail o r) → committed_offset s ≠ -1 →
  o ≤ committed_offset s → o ∈ pending_offsets s →
  ps_wf (ps_step s e) ∧ committed_offset s ≤ committed_offset (ps_step s e) ∧
  o ∈ pending_offsets (ps_step s e).
Proof.
  intros W He Hne Hc Ho Hin. destruct e as [o'|o' [r|]]; cbn [ps_step event_ok] in *.
  - destruct (ps_ack_spec o' s W He) as (W' & H1 & H2 & H3).
    unfold ack_base in *. rewrite decide_False in * by done.
    split; [done|]. split; [lia|]. apply H3. split; [by right|lia].
  - split; [auto with kafpy|]. split; [simpl; lia|].
    destruct (decide (o' = o)) as [->|]; [|simpl; set_solver].
    by destruct (Hne (Some r)).
  - split; [auto with kafpy|]. split; [simpl; lia|].
    destruct (decide (o' = o)) as [->|]; [|simpl; set_solver].
    by destruct (Hne None).
Qed.

(** every pending offset is above the committed one as long as
    acknowledgements are; an acknowledgement at or below the committed offset
    breaks this for good: the offset stays in the pending set through every
    history that does not fail it, and keeps the partition committable. *)
Theorem pending_above_committed s o evs :
  ps_wf s → 0 ≤ o < 2 ^ 63 → committed_offset s ≠ -1 →
  (committed_offset s < o →
     (∀ x, x ∈ pending_offsets s → committed_offset s < x) →
     ∀ x, x ∈ pending_offsets (ps_ack o s) → committed_offset (ps_ack o s) < x) ∧
  (o ≤ committed_offset s → Forall event_ok evs → (∀ r, PFail o r ∉ evs) →
     let s' := foldl ps_step (ps_ack o s) evs in
     o ∈ pending_offsets s' ∧ o ≤ committed_offset s').
Proof.
  intros W Ho Hc. destruct (ps_ack_spec o s W Ho) as (W' & H1 & H2 & H3).
  unfold ack_base in *. rewrite decide_False in * by done. split.
  - intros Hlt Hall x [Hx Hnx]%H3. destruct Hx as [->|Hx]; [lia|]. specialize (Hall _ Hx). lia.
  - cbv zeta. intros Hle Hok Hnf.
    assert (Hin : o ∈ pending_offsets (ps_ack o s)) by (apply H3; split; [by left|lia]).
    assert (Hle' : o ≤ committed_offset (ps_ack o s)) by lia.
    assert (Hc' : committed_offset (ps_ack o s) ≠ -1) by (pose proof (wf_committed _ W); lia).
    clear H1 H2 H3 Hle. revert Hin Hle' Hc' W'. generalize (ps_ack o s).
    induction Hok as [|e evs He Hok IH]; intros s1 Hin Hle Hc1 W1; simpl; [done|].
    destruct (ps_step_keeps_late s1 e o) as (W2 & Hm & Hin2); [done|done| |done..|].
    { intros r ->. apply (Hnf r). set_solver. }
    apply IH; [|done|lia|pose proof (wf_committed _ W1); lia|done].
    intros r Hr. apply (Hnf r). set_solver.
Qed.

Lemma pending_above_committed_witness :
  let s := ps_ack 10 (ps_ack 12 partition_state_new) in
  10 ∈ pending_offsets s ∧ 10 ≤ committed_offset s.
Proof.
  assert (W : ps_wf (ps_ack 12 partition_state_new))
    by (apply (ps_ack_spec 12 partition_state_new); [apply partition_state_new_wf|lia]).
  assert (Hc : committed_offset (ps_ack 12 partition_state_new) ≠ -1) by (vm_compute; lia).
  destruct (pending_above_committed (ps_ack 12 partition_state_new) 10 [] W ltac:(lia) Hc) as [_ H].
  apply H; [vm_compute; discriminate|constructor|intros r Hr; inversion Hr].
Defined.

(** ** Shutdown of the tracker *)

Section shutdown.
Context {HO : HashOrder TopicPartitionKey}.

Lemma graceful_partition_trace rd t k tr :
  graceful_partition rd t k tr =
  tr ++ (if should_commit k.1 k.2 t && runner t then [RdCommitState Async] else []).
Proof.
  unfold graceful_partition, highest_contiguous, should_commit.
  destruct (partitions t !! (k.1, k.2)) as [s|]; simpl; [|by rewrite app_nil_r].
  destruct (ps_should_commit s), (runner t); simpl; by rewrite ?app_nil_r.
Qed.

(** [graceful_shutdown] stores no offset.  Its [store_offset] futures are
    dropped without being awaited, so the calls that reach the broker are
    commits only, one per committable partition; the offsets acknowledged since
    the last store of the committer are not part of them. *)
Theorem graceful_shutdown_never_stores rd t tr :
  tracker_graceful_shutdown rd t tr =
  tr ++ replicate
          (if runner t
           then length (filter (λ k, should_commit k.1 k.2 t = true) (all_partitions t))
           else 0) (RdCommitState Async).
Proof.
  unfold tracker_graceful_shutdown. generalize (all_partitions t). intros ks.
  revert tr. induction ks as [|k ks IH]; intros tr; simpl.
  { destruct (runner t); by rewrite app_nil_r. }
  rewrite IH, graceful_partition_trace. rewrite filter_cons, <- app_assoc. f_equal.
  destruct (runner t); [|by rewrite andb_false_r].
  rewrite andb_true_r. case_decide as E; [by rewrite E|].
  by destruct (should_commit k.1 k.2 t).
Qed.

Section flush.
Context {R : Type} `{DlqRouter R} (to_rfc3339 : Z → string).

Definition flush_reason (s : PartitionState) : string :=
  default "unknown" (reason_to_string <$> last_failure_reason s).

(** The failed offsets in the order they are flushed. *)
Definition flush_requests (t : OffsetTracker) : list (TopicPartitionKey * Z) :=
  all_partitions t ≫= λ k,
    match partitions t !! k with
    | Some s => (k,.) <$> btree_iter (failed_offsets s)
    | None => []
    end.

(** The message of one of them. *)
Definition flush_message (r : R) (now : Z) (t : OffsetTracker) (q : TopicPartitionKey * Z)
    : DLQMessage :=
  let reason := match partitions t !! q.1 with Some s => flush_reason s | None => "unknown" end in
  let m := flush_metadata q.1 reason now q.2 in
  {| dm_topic := tp_topic (route r m);
     dm_original_topic := q.1.1;
     dm_partition := tp_partition (route r m);
     dm_payload := [];
     dm_key := None;
     dm_headers := metadata_to_headers to_rfc3339 m |}.

Lemma elem_of_flush_requests t k o :
  (k, o) ∈ flush_requests t ↔ ∃ s, partitions t !! k = Some s ∧ o ∈ failed_offsets s.
Proof.
  unfold flush_requests. rewrite list_elem_of_bind. split.
  - intros (k' & Hin & _). destruct (partitions t !! k') as [s|] eqn:E; [|by inversion Hin].
    apply list_elem_of_fmap in Hin as (o' & [= -> ->] & Ho).
    apply elem_of_btree_iter in Ho. eauto.
  - intros (s & Hs & Ho). exists k. rewrite Hs. split.
    + apply list_elem_of_fmap. exists o. split; [done|]. by apply elem_of_btree_iter.
    + apply elem_of_hash_keys. eauto.
Qed.

Lemma flush_requests_nodup t : NoDup (flush_requests t).
Proof.
  unfold flush_requests. apply NoDup_bind.
  - intros k1 k2 [k o] _ _ H1 H2.
    destruct (partitions t !! k1) as [s1|]; [|by inversion H1].
    destruct (partitions t !! k2) as [s2|]; [|by inversion H2].
    apply list_elem_of_fmap in H1 as (? & ? & ?). apply list_elem_of_fmap in H2 as (? & ? & ?).
    congruence.
  - intros k _. destruct (partitions t !! k); [|constructor].
    apply (NoDup_fmap_2 _), btree_iter_nodup.
  - apply hash_keys_nodup.
Qed.

(** The flush is one pass over the requests. *)
Lemma flush_as_requests r now t prod :
  tracker_flush_failed_to_dlq to_rfc3339 r now t prod =
  foldl (λ prod q,
    flush_offset to_rfc3339 r q.1
      (match partitions t !! q.1 with Some s => flush_reason s | None => "unknown" end)
      now prod q.2) prod (flush_requests t).
Proof.
  unfold tracker_flush_failed_to_dlq, flush_requests. generalize (all_partitions t). intros ks.
  revert prod. induction ks as [|k ks IH]; intros prod; [done|].
  cbn [foldl]. rewrite IH. cbn [mbind list_bind]. rewrite foldl_app. f_equal.
  unfold flush_partition_failed. destruct (partitions t !! k) as [s|] eqn:E; [|done].
  generalize (btree_iter (failed_offsets s)). intros os. revert prod.
  induction os as [|o os IHo]; intros prod; simpl; [done|]. rewrite E. apply IHo.
Qed.

(** C36: flushing before shutdown.  Every failed offset of every partition is
    sent to the dead-letter channel exactly once, with an empty payload and its
    partition's last failure reason, as long as the channel of 100 has room;
    past the capacity the remaining ones are dropped. *)
Theorem flush_sends_each_failed_once r now t prod :
  chan_closed prod = false →
  (length (send_chan prod) ≤ DLQ_CHANNEL_CAPACITY)%nat →
  NoDup (flush_requests t) ∧
  (∀ k o, (k, o) ∈ flush_requests t ↔ ∃ s, partitions t !! k = Some s ∧ o ∈ failed_offsets s) ∧
  send_chan (tracker_flush_failed_to_dlq to_rfc3339 r now t prod) =
    take DLQ_CHANNEL_CAPACITY
      (send_chan prod ++ (flush_message r now t <$> flush_requests t)).
Proof.
  intros Hc Hl. split; [apply flush_requests_nodup|].
  split; [intros; apply elem_of_flush_requests|].
  rewrite flush_as_requests.
  apply (offers_all (flush_message r now t) _ (flush_requests t)); [|by split].
  intros q. apply produce_async_offers.
Qed.

End flush.
End shutdown.

Lemma flush_sends_each_failed_once_witness :
  length (send_chan (tracker_flush_failed_to_dlq (HO := hash_order_canonical _) (λ _, "now")
    with_default_prefix 0
    (mark_failed_reason "t" 0 12 (ReasonTerminal PoisonMessage)
       (mark_failed_reason "t" 0 11 (ReasonRetryable NetworkTimeout)
       (match tracker_ack "t" 0 10 offset_tracker_new with
        | Ret t => t | Panic => offset_tracker_new end))) dlq_producer_new)) = 2%nat.
Proof.
  destruct (flush_sends_each_failed_once (HO := hash_order_canonical _) (λ _, "now")
    with_default_prefix 0
    (mark_failed_reason "t" 0 12 (ReasonTerminal PoisonMessage)
       (mark_failed_reason "t" 0 11 (ReasonRetryable NetworkTimeout)
       (match tracker_ack "t" 0 10 offset_tracker_new with
        | Ret t => t | Panic => offset_tracker_new end))) dlq_producer_new) as (_ & _ & H).
  - reflexivity.
  - vm_compute. lia.
  - rewrite H. vm_compute. reflexivity.
Defined.

(** ** The interface of the worker pool *)

#[export] Instance tracker_coordinator_laws : OffsetCoordinatorLaws OffsetTracker.
Proof.
  split.
  - intros tp p o t Ho. simpl. unfold tracker_ack. by rewrite decide_True.
  - intros tp p o t t' tp' p' Ha Hne. simpl in *. unfold tracker_ack in Ha.
    case_decide; simplify_eq. unfold tracker_committed_offset. simpl.
    by rewrite lookup_insert_ne.
  - intros tp p o r t tp' p'. simpl. unfold tracker_committed_offset, mark_failed_reason. simpl.
    destruct (decide ((tp', p') = (tp, p))) as [->|Hne].
    + rewrite lookup_alter_eq. by destruct (partitions t !! (tp, p)).
    + by rewrite lookup_alter_ne.
Qed.
