(* ===== verification/Retry.v ===== *)
(** * Retry policy and retry coordinator (src/retry)

    The backoff schedule and the per-message attempt counters. *)

From Stdlib Require Import SpecFloat.
From stdpp Require Import base gmap sets list strings pretty.
From S2P Require Import Prelude F64 Failure.

(** ** Policy (src/retry/policy.rs) *)

Record RetryPolicy := {
  max_attempts : Z;
  base_delay : Z;
  max_delay : Z;
  jitter_factor : f64
}.

Definition retry_policy_default : RetryPolicy :=
  {| max_attempts := 3;
     base_delay := from_millis 100;
     max_delay := from_secs 30;
     jitter_factor := f64_tenth |}.

Definition retry_policy_new (attempts base max : Z) (jitter : f64) : RetryPolicy :=
  {| max_attempts := attempts; base_delay := base; max_delay := max; jitter_factor := jitter |}.

Record RetrySchedule := {
  rs_base_delay : Z;
  rs_max_delay : Z;
  rs_jitter_factor : f64
}.

Definition schedule (p : RetryPolicy) : RetrySchedule :=
  {| rs_base_delay := base_delay p;
     rs_max_delay := max_delay p;
     rs_jitter_factor := jitter_factor p |}.

(** [min(base * 2^attempt, max)], in seconds. *)
Definition capped_delay (s : RetrySchedule) (attempt : Z) : f64 :=
  let base_ms := as_secs_f64 (rs_base_delay s) in
  let max_ms := as_secs_f64 (rs_max_delay s) in
  f64_min (f64_mul base_ms (f64_pow2 attempt)) max_ms.

Definition jitter_multiplier (s : RetrySchedule) (jitter : f64) : f64 :=
  f64_add (f64_sub f64_one (rs_jitter_factor s))
          (f64_mul (f64_mul jitter (rs_jitter_factor s)) f64_two).

(** [RetrySchedule::next_delay]; [jitter] is the value drawn by
    [rand::random]. *)
Definition next_delay (s : RetrySchedule) (attempt : Z) (jitter : f64) : outcome Z :=
  from_secs_f64 (f64_mul (capped_delay s attempt) (jitter_multiplier s jitter)).

(** ** Coordinator (src/retry/retry_coordinator.rs) *)

Inductive RetryState :=
| Retrying (attempt : Z)
| Exhausted.

Definition rs_attempt (s : RetryState) : Z :=
  match s with Retrying a => a | Exhausted => 0 end.

Abbreviation RetryKey := (string * Z * Z)%type.

Record RetryCoordinator := {
  rc_state : gmap RetryKey RetryState;
  default_policy : RetryPolicy
}.

Definition retry_coordinator_new (p : RetryPolicy) : RetryCoordinator :=
  {| rc_state := ∅; default_policy := p |}.

Definition rc_insert (k : RetryKey) (s : RetryState) (rc : RetryCoordinator) : RetryCoordinator :=
  {| rc_state := <[k := s]> (rc_state rc); default_policy := default_policy rc |}.

(** (should_retry, should_dlq, delay) *)
Abbreviation RetryDecision := (bool * bool * option Z)%type.

Definition to_dlq : RetryDecision := (false, true, None).

(** [RetryCoordinator::record_failure]. *)
Definition record_failure (k : RetryKey) (reason : FailureReason) (jitter : f64)
    (rc : RetryCoordinator) : outcome (RetryDecision * RetryCoordinator) :=
  if negb (bool_decide (category reason = Retryable)) then Ret (to_dlq, rc)
  else match rc_state rc !! k with
  | Some Exhausted => Ret (to_dlq, rc)
  | Some (Retrying attempt) =>
      let new_attempt := usize_wrap (attempt + 1) in
      if max_attempts (default_policy rc) <=? new_attempt then
        Ret (to_dlq, rc_insert k Exhausted rc)
      else
        let? delay := next_delay (schedule (default_policy rc)) (usize_wrap (new_attempt - 1)) jitter in
        Ret ((true, false, Some delay), rc_insert k (Retrying new_attempt) rc)
  | None =>
      if max_attempts (default_policy rc) <=? 1 then Ret (to_dlq, rc_insert k Exhausted rc)
      else
        let? delay := next_delay (schedule (default_policy rc)) 0 jitter in
        Ret ((true, false, Some delay), rc_insert k (Retrying 1) rc)
  end.

Definition record_success (k : RetryKey) (rc : RetryCoordinator) : RetryCoordinator :=
  {| rc_state := delete k (rc_state rc); default_policy := default_policy rc |}.

Definition attempt_count (k : RetryKey) (rc : RetryCoordinator) : Z :=
  default 0 (rs_attempt <$> rc_state rc !! k).

(** ** Lemmas *)

(** The two flags are never both set or both clear, and a delay comes with a
    retry. *)
Lemma record_failure_decision k reason jitter rc d rc' :
  record_failure k reason jitter rc = Ret (d, rc') →
  d = to_dlq ∨ (∃ delay, d = (true, false, Some delay) ∧ category reason = Retryable).
Proof.
  unfold record_failure. case_bool_decide as Hc; simpl; [|intros [= <- <-]; by left].
  destruct (rc_state rc !! k) as [[a|]|]; repeat case_match; simpl;
    try (intros [= <- <-]; by left);
    destruct (next_delay _ _ _) as [delay|]; simpl; intros; simplify_eq; right; eauto.
Qed.

Lemma record_failure_other k k' reason jitter rc d rc' :
  record_failure k reason jitter rc = Ret (d, rc') → k ≠ k' →
  rc_state rc' !! k' = rc_state rc !! k' ∧ default_policy rc' = default_policy rc.
Proof.
  unfold record_failure. case_bool_decide as Hc; simpl; [|by intros [= <- <-]].
  intros Hr Hk. destruct (rc_state rc !! k) as [[a|]|]; repeat case_match; simpl in Hr;
    try destruct (next_delay _ _ _) as [delay|]; simplify_eq/=; by rewrite ?lookup_insert_ne.
Qed.

(** The state of a message after [n] consecutive retryable failures. *)
Definition state_after (M : Z) (n : nat) : option RetryState :=
  match n with
  | O => None
  | _ => if Z.of_nat n <? M then Some (Retrying (Z.of_nat n)) else Some Exhausted
  end.

Lemma record_failure_step k reason jitter rc n :
  category reason = Retryable →
  0 ≤ max_attempts (default_policy rc) < 2 ^ 64 →
  rc_state rc !! k = state_after (max_attempts (default_policy rc)) n →
  (Z.of_nat n + 1 < max_attempts (default_policy rc) →
     is_ret (next_delay (schedule (default_policy rc)) (Z.of_nat n) jitter) = true) →
  ∃ d rc', record_failure k reason jitter rc = Ret (d, rc') ∧
    default_policy rc' = default_policy rc ∧
    rc_state rc' !! k = state_after (max_attempts (default_policy rc)) (S n) ∧
    (if Z.of_nat n + 1 <? max_attempts (default_policy rc)
     then ∃ delay, next_delay (schedule (default_policy rc)) (Z.of_nat n) jitter = Ret delay ∧
                   d = (true, false, Some delay)
     else d = to_dlq).
Proof.
  intros Hc HM Hs Hd. unfold record_failure. rewrite bool_decide_true by done. simpl negb. cbv iota.
  set (M := max_attempts (default_policy rc)) in *.
  assert (Hins : ∀ s, rc_state (rc_insert k s rc) !! k = Some s)
    by (intros; simpl; by rewrite lookup_insert_eq).
  rewrite Hs. unfold state_after at 1. destruct n as [|n].
  - destruct (Z.leb_spec M 1).
    + eexists _, _. split; [done|]. split; [done|]. rewrite Hins. unfold state_after.
      destruct (Z.ltb_spec (Z.of_nat 1) M), (Z.ltb_spec (Z.of_nat 0 + 1) M); try lia. done.
    + destruct (next_delay _ _ jitter) as [delay|] eqn:E; [|discriminate Hd; lia].
      simpl. eexists _, _. split; [done|]. split; [done|]. rewrite Hins. unfold state_after.
      destruct (Z.ltb_spec (Z.of_nat 1) M), (Z.ltb_spec (Z.of_nat 0 + 1) M); try lia.
      split; [done|]. by exists delay.
  - destruct (Z.ltb_spec (Z.of_nat (S n)) M).
    + rewrite (usize_wrap_id (Z.of_nat (S n) + 1)) by (unfold usize_range; lia).
      rewrite (usize_wrap_id (Z.of_nat (S n) + 1 - 1)) by (unfold usize_range; lia).
      replace (Z.of_nat (S n) + 1 - 1) with (Z.of_nat (S n)) by lia.
      destruct (Z.leb_spec M (Z.of_nat (S n) + 1)).
      * eexists _, _. split; [done|]. split; [done|]. rewrite Hins. unfold state_after.
        destruct (Z.ltb_spec (Z.of_nat (S (S n))) M), (Z.ltb_spec (Z.of_nat (S n) + 1) M); try lia. done.
      * destruct (next_delay _ _ jitter) as [delay|] eqn:E; [|discriminate Hd; lia].
        simpl. eexists _, _. split; [done|]. split; [done|]. rewrite Hins. unfold state_after.
        destruct (Z.ltb_spec (Z.of_nat (S (S n))) M), (Z.ltb_spec (Z.of_nat (S n) + 1) M); try lia.
        split; [repeat f_equal; lia|]. by exists delay.
    + eexists _, _. split; [done|]. split; [done|]. rewrite Hs. unfold state_after.
      destruct (Z.ltb_spec (Z.of_nat (S n)) M), (Z.ltb_spec (Z.of_nat (S (S n))) M),
        (Z.ltb_spec (Z.of_nat (S n) + 1) M); try lia. done.
Qed.

(** Consecutive failures of one message; [jitters] are the random draws. *)
Fixpoint fail_run (k : RetryKey) (reason : FailureReason) (jitters : list f64)
    (rc : RetryCoordinator) : outcome (list RetryDecision * RetryCoordinator) :=
  match jitters with
  | [] => Ret ([], rc)
  | j :: js =>
      let? r := record_failure k reason j rc in
      let? rs := fail_run k reason js r.2 in
      Ret (r.1 :: rs.1, rs.2)
  end.

Lemma fail_run_other k reason jitters : ∀ rc ds rc' k',
  fail_run k reason jitters rc = Ret (ds, rc') → k' ≠ k → rc_state rc' !! k' = rc_state rc !! k'.
Proof.
  induction jitters as [|j js IH]; intros rc ds rc' k' Hr Hk; simpl in Hr; [by simplify_eq|].
  destruct (record_failure k reason j rc) as [[d rc1]|] eqn:E; [|done]. simpl in Hr.
  destruct (fail_run k reason js rc1) as [[ds1 rc2]|] eqn:E2; simplify_eq/=.
  rewrite (IH _ _ _ _ E2 Hk). by apply (record_failure_other _ k' _ _ _ _ _ E).
Qed.

(** The decision expected of the [n]-th failure, counted from 0. *)
Definition expected_decision (p : RetryPolicy) (n : nat) (jitter : f64) : RetryDecision :=
  if Z.of_nat n + 1 <? max_attempts p then
    match next_delay (schedule p) (Z.of_nat n) jitter with
    | Ret delay => (true, false, Some delay)
    | Panic => to_dlq
    end
  else to_dlq.

Definition delays_defined (p : RetryPolicy) (n : nat) (jitters : list f64) : Prop :=
  ∀ i j, jitters !! i = Some j → Z.of_nat (n + i) + 1 < max_attempts p →
         is_ret (next_delay (schedule p) (Z.of_nat (n + i)) j) = true.

Lemma fail_run_from k reason jitters : ∀ rc n,
  category reason = Retryable →
  0 ≤ max_attempts (default_policy rc) < 2 ^ 64 →
  rc_state rc !! k = state_after (max_attempts (default_policy rc)) n →
  delays_defined (default_policy rc) n jitters →
  ∃ rc', fail_run k reason jitters rc =
           Ret (imap (λ i j, expected_decision (default_policy rc) (n + i) j) jitters, rc') ∧
         default_policy rc' = default_policy rc ∧
         rc_state rc' !! k = state_after (max_attempts (default_policy rc)) (n + length jitters).
Proof.
  induction jitters as [|j js IH]; intros rc n Hc HM Hs Hd.
  { exists rc. simpl. by rewrite Nat.add_0_r. }
  destruct (record_failure_step k reason j rc n Hc HM Hs) as (d & rc1 & Hr & Hp & Hs1 & Hdec).
  { intros. pose proof (Hd 0%nat j eq_refl) as Hd0. rewrite Nat.add_0_r in Hd0. by apply Hd0. }
  destruct (IH rc1 (S n)) as (rc' & Hr' & Hp' & Hs'); rewrite ?Hp; [done..| |].
  { intros i j' Hi. rewrite Nat.add_succ_comm. by apply (Hd (S i)). }
  exists rc'. simpl fail_run. rewrite Hr. simpl obind. rewrite Hr'. simpl.
  rewrite Hp', Hs', Hp. split; [|split; [done|f_equal; lia]].
  do 3 f_equal.
  - unfold expected_decision. rewrite Nat.add_0_r.
    destruct (Z.of_nat n + 1 <? max_attempts (default_policy rc)); [|done].
    destruct Hdec as (delay & E & ->). by rewrite E.
  - apply imap_ext. intros i x _. simpl. f_equal. lia.
Qed.

(** A retryable failure is sent to the dead-letter queue only once its message
    is exhausted, and an exhausted message counts no attempt. *)
Lemma record_failure_exhausted k reason jitter rc rc' :
  category reason = Retryable → record_failure k reason jitter rc = Ret (to_dlq, rc') →
  attempt_count k rc' = 0.
Proof.
  intros Hc. unfold record_failure, attempt_count. rewrite bool_decide_true by done.
  simpl negb. cbv iota. unfold to_dlq.
  destruct (rc_state rc !! k) as [[a|]|] eqn:E; repeat case_match; simpl; intros Hr;
    try destruct (next_delay _ _ _) as [delay|]; simplify_eq/=;
    rewrite ?lookup_insert_eq, ?E; done.
Qed.

(** ** The properties *)

(** C13: the life of a message under the retry coordinator.  Starting fresh or
    after a success, its consecutive retryable failures get exactly the
    decisions of the policy, in order: failure number n (from 1) is retried
    after the delay of attempt n-1 while n is below [max_attempts], and goes to
    the dead-letter queue from then on; so there are [max_attempts - 1] retries.
    No other message's state changes, and the attempt count reported afterwards
    is the number of failures, or 0 once exhausted. *)
Theorem retry_decisions_follow_policy k reason jitters rc0 :
  category reason = Retryable →
  0 ≤ max_attempts (default_policy rc0) < 2 ^ 64 →
  delays_defined (default_policy rc0) 0 jitters →
  let rc := record_success k rc0 in
  let n := Z.of_nat (length jitters) in
  ∃ rc', fail_run k reason jitters rc =
           Ret (imap (expected_decision (default_policy rc0)) jitters, rc') ∧
    (jitters ≠ [] →
     attempt_count k rc' = if n <? max_attempts (default_policy rc0) then n else 0) ∧
    (∀ k', k' ≠ k → rc_state rc' !! k' = rc_state rc0 !! k').
Proof.
  intros Hc HM Hd rc n.
  destruct (fail_run_from k reason jitters rc 0 Hc HM) as (rc' & Hr & Hp & Hs); [|done|].
  { simpl. by rewrite lookup_delete_eq. }
  exists rc'. split; [exact Hr|]. split.
  - intros Hne. unfold attempt_count. rewrite Hs. unfold state_after.
    destruct jitters as [|j js]; [done|]. subst n. simpl default_policy. cbn [length plus].
    by case_match.
  - intros k' Hk. rewrite (fail_run_other _ _ _ _ _ _ _ Hr) by done.
    subst rc. simpl. by rewrite lookup_delete_ne.
Qed.


(** ** Witness *)

Lemma retry_decisions_follow_policy_witness :
  let rc := record_success ("t", 0, 7) (retry_coordinator_new retry_policy_default) in
  ∃ rc', fail_run ("t", 0, 7) (ReasonRetryable NetworkTimeout) [f64_half; f64_half; f64_half; f64_half] rc =
         Ret ([(true, false, Some (from_millis 100)); (true, false, Some (from_millis 200));
               to_dlq; to_dlq], rc') ∧
         attempt_count ("t", 0, 7) rc' = 0.
Proof.
  cbv zeta.
  edestruct (retry_decisions_follow_policy ("t", 0, 7) (ReasonRetryable NetworkTimeout)
    [f64_half; f64_half; f64_half; f64_half] (retry_coordinator_new retry_policy_default))
    as (rc' & Hr & Ha & _).
  - reflexivity.
  - simpl. lia.
  - intros i j Hi Hlt. simpl in Hlt.
    destruct i as [|[|i]]; simpl in Hi; simplify_eq; [vm_compute; reflexivity..|lia].
  - exists rc'. split; [|apply Ha; done]. rewrite Hr. vm_compute. reflexivity.
Defined.
