(* ===== verification/Commit.v ===== *)
(** * Offset committer (src/offset/commit_task.rs)

    The background task that turns the tracker's cursors into broker commits,
    throttled by an interval.  The clock is part of the world, and the three
    branches of its biased [select!] are taken in the order of the source. *)

From stdpp Require Import base gmap sets list strings pretty.
From S2P Require Import Prelude Failure Message Shutdown Runner Dlq OffsetTracker OffsetProofs.

Record CommitConfig := { commit_interval_ms : Z; commit_max_messages : Z }.

Definition commit_config_default : CommitConfig :=
  {| commit_interval_ms := 100; commit_max_messages := 100 |}.

Record CommitterState := { last_commit : option Z; message_count : Z }.

Definition committer_state_new : CommitterState := {| last_commit := None; message_count := 0 |}.

(** [CommitterState::should_commit] at the instant [now]. *)
Definition cs_should_commit (config : CommitConfig) (now : Z) (s : CommitterState) : bool :=
  let interval_ready :=
    match last_commit s with
    | Some last => from_millis (commit_interval_ms config) <=? saturating_sub now last
    | None => true
    end in
  let batch_ready := commit_max_messages config <=? message_count s in
  interval_ready || batch_ready.

Definition cs_reset (now : Z) (s : CommitterState) : CommitterState :=
  {| last_commit := Some now; message_count := 0 |}.

Section committer.
Context {HO : HashOrder TopicPartitionKey} (rd : RdCall → bool) (config : CommitConfig).

(** [commit_partition]: nothing is committed when the store fails. *)
Definition commit_partition (k : TopicPartitionKey) (o : Z) (tr : rd_trace) : rd_trace :=
  let '(ok, tr) := await (store_offset rd k.1 k.2 o) tr in
  if ok then (commit rd tr).2 else tr.

(** [process_partition]: [now] is read by the throttle test and [after] by the
    reset at the end of the cycle. *)
Definition process_partition (now after : Z) (t : OffsetTracker) (k : TopicPartitionKey)
    (s : CommitterState) (tr : rd_trace) : CommitterState * rd_trace :=
  if negb (cs_should_commit config now s) then (s, tr)
  else
    let tr :=
      if should_commit k.1 k.2 t then
        match highest_contiguous k.1 k.2 t with
        | Some o => commit_partition k o tr
        | None => tr
        end
      else tr in
    (cs_reset after s, tr).

Definition ready_partitions (t : OffsetTracker) : list (TopicPartitionKey * Z) :=
  omap (λ k, if should_commit k.1 k.2 t then
               match highest_contiguous k.1 k.2 t with
               | Some o => Some (k, o)
               | None => None
               end
             else None) (all_partitions t).

Definition process_ready_partitions (now after : Z) (t : OffsetTracker)
    (s : CommitterState) (tr : rd_trace) : CommitterState * rd_trace :=
  if negb (cs_should_commit config now s) then (s, tr)
  else
    let tr := foldl (λ tr c, commit_partition c.1 c.2 tr) tr (ready_partitions t) in
    (cs_reset after s, tr).

(** The committer beside what it shares with the rest of the program.
    [cw_seen] is the version of the watch channel its receiver has seen. *)
Record committer_world := {
  cw_tracker : OffsetTracker;
  cw_coord : ShutdownCoordinator;
  cw_state : CommitterState;
  cw_seen : nat;
  cw_exited : bool;
  cw_clock : Z;
  cw_trace : rd_trace
}.

Definition signal_pending (w : committer_world) : option WatchChannel :=
  match commit_tx (cw_tracker w) with
  | Some c => if (cw_seen w <? w_version c)%nat then Some c else None
  | None => None
  end.

Definition after_cycle (w : committer_world) (seen : nat) (exited : bool) (clock : Z)
    (r : CommitterState * rd_trace) : committer_world :=
  {| cw_tracker := cw_tracker w; cw_coord := cw_coord w; cw_state := r.1; cw_seen := seen;
     cw_exited := exited; cw_clock := clock; cw_trace := r.2 |}.

(** One turn of the loop of [run]: a ready branch is taken in source order;
    [tick] says whether the interval timer is due, and the cycle takes [d]
    nanoseconds. *)
Definition committer_turn (tick : bool) (d : N) (w : committer_world) : committer_world :=
  let now := cw_clock w in
  let after := now + Z.of_N d in
  if cw_exited w then w
  else if is_done (cw_coord w) then
    after_cycle w (cw_seen w) true after
      (process_ready_partitions now after (cw_tracker w) (cw_state w) (cw_trace w))
  else match signal_pending w with
  | Some c =>
      after_cycle w (w_version c) false after
        (process_partition now after (cw_tracker w) (w_value c) (cw_state w) (cw_trace w))
  | None =>
      if tick then
        after_cycle w (cw_seen w) false after
          (process_ready_partitions now after (cw_tracker w) (cw_state w) (cw_trace w))
      else w
  end.

(** What happens around the committer, and its turns. *)
Inductive cw_op :=
| CwTracker (op : tracker_op)
| CwCoord (k : coord_call)
| CwWait (d : N)
| CwTurn (tick : bool) (d : N).

Definition cw_with_tracker (t : OffsetTracker) (w : committer_world) : committer_world :=
  {| cw_tracker := t; cw_coord := cw_coord w; cw_state := cw_state w; cw_seen := cw_seen w;
     cw_exited := cw_exited w; cw_clock := cw_clock w; cw_trace := cw_trace w |}.

Definition cw_with_coord (c : ShutdownCoordinator) (w : committer_world) : committer_world :=
  {| cw_tracker := cw_tracker w; cw_coord := c; cw_state := cw_state w; cw_seen := cw_seen w;
     cw_exited := cw_exited w; cw_clock := cw_clock w; cw_trace := cw_trace w |}.

Definition cw_wait (d : N) (w : committer_world) : committer_world :=
  {| cw_tracker := cw_tracker w; cw_coord := cw_coord w; cw_state := cw_state w;
     cw_seen := cw_seen w; cw_exited := cw_exited w; cw_clock := cw_clock w + Z.of_N d;
     cw_trace := cw_trace w |}.

Definition cw_step (op : cw_op) (w : committer_world) : outcome committer_world :=
  match op with
  | CwTracker op => let? t := tracker_step op (cw_tracker w) in Ret (cw_with_tracker t w)
  | CwCoord k => let? c := coord_apply k (cw_coord w) in Ret (cw_with_coord c w)
  | CwWait d => Ret (cw_wait d w)
  | CwTurn tick d => Ret (committer_turn tick d w)
  end.

Fixpoint cw_run (ops : list cw_op) (w : committer_world) : outcome committer_world :=
  match ops with
  | [] => Ret w
  | op :: ops => let? w' := cw_step op w in cw_run ops w'
  end.

(** [OffsetCommitter::new], at the instant [clock]. *)
Definition offset_committer_new (tracker : OffsetTracker) (coordinator : ShutdownCoordinator) (clock : Z)
    : committer_world :=
  {| cw_tracker := tracker; cw_coord := coordinator; cw_state := committer_state_new; cw_seen := 0;
     cw_exited := false; cw_clock := clock; cw_trace := [] |}.

(** The world [RuntimeBuilder::build] starts the committer in: an empty tracker
    with the sender of the watch channel, at version 0. *)
Definition cw_init (clock : Z) : committer_world :=
  {| cw_tracker := set_commit_sender {| w_value := ("", 0); w_version := 0 |}
                     (set_runner offset_tracker_new);
     cw_coord := coordinator_new 30;
     cw_state := committer_state_new;
     cw_seen := 0;
     cw_exited := false;
     cw_clock := clock;
     cw_trace := [] |}.

Definition tracker_ops (ops : list cw_op) : list tracker_op :=
  omap (λ op, match op with CwTracker op => Some op | _ => None end) ops.

(** One round in which partition [k] is acknowledged, time passes, and the
    committer takes a turn with its timer possibly due. *)
Definition busy_round (k : TopicPartitionKey) (r : Z * N * bool * N) : list cw_op :=
  let '(o, d, tick, d') := r in
  [CwTracker (TAck k.1 k.2 o); CwWait d; CwTurn tick d'].

(** ** Lemmas *)

Lemma cw_run_app ops1 ops2 w :
  cw_run (ops1 ++ ops2) w = obind (cw_run ops1 w) (cw_run ops2).
Proof.
  revert w. induction ops1 as [|op ops1 IH]; intros w; simpl; [done|].
  destruct (cw_step op w); simpl; [apply IH|done].
Qed.

(** Everything a turn can do: nothing, one throttled-out cycle, or one cycle
    that the throttle allows and that stamps its end. *)
Lemma committer_turn_cases tick d w :
  let w' := committer_turn tick d w in
  w' = w ∨
  (cw_tracker w' = cw_tracker w ∧ cw_coord w' = cw_coord w ∧
   cw_clock w' = cw_clock w + Z.of_N d ∧
   ((cs_should_commit config (cw_clock w) (cw_state w) = false ∧
     cw_state w' = cw_state w ∧ cw_trace w' = cw_trace w) ∨
    (cs_should_commit config (cw_clock w) (cw_state w) = true ∧
     cw_state w' = cs_reset (cw_clock w') (cw_state w)))).
Proof.
  unfold committer_turn, process_ready_partitions, process_partition.
  destruct (cw_exited w); [by left|].
  destruct (cs_should_commit config (cw_clock w) (cw_state w)) eqn:E; simpl;
    destruct (is_done (cw_coord w)), (signal_pending w), tick; simpl;
    try (by left); right; eauto 10.
Qed.

(** The throttle state of a running committer: no message is ever counted, and
    the last cycle ended in the past. *)
Definition throttle_inv (w : committer_world) : Prop :=
  message_count (cw_state w) = 0 ∧
  ∀ l, last_commit (cw_state w) = Some l → l ≤ cw_clock w.

Lemma cw_step_throttle op w w' :
  cw_step op w = Ret w' → throttle_inv w →
  throttle_inv w' ∧ cw_clock w ≤ cw_clock w' ∧
  (∀ l, last_commit (cw_state w) = Some l → ∃ l', last_commit (cw_state w') = Some l' ∧ l ≤ l').
Proof.
  intros Hs [Hm Hl]. unfold throttle_inv.
  destruct op as [o|k|d|tick d]; simpl in Hs.
  - destruct (tracker_step o _); simplify_eq/=. split_and!; eauto using Z.le_refl; lia.
  - destruct (coord_apply k _); simplify_eq/=. split_and!; eauto using Z.le_refl; lia.
  - simplify_eq/=. split_and!; eauto using Z.le_refl; try lia. intros l Hl'. specialize (Hl l Hl'). lia.
  - simplify_eq. destruct (committer_turn_cases tick d w) as [->|(_ & _ & Hc & [(_ & -> & _)|(_ & ->)])].
    + split_and!; eauto using Z.le_refl; lia.
    + rewrite Hc. split_and!; eauto using Z.le_refl; try lia. intros l Hl'. specialize (Hl l Hl'). lia.
    + simpl. split_and!; try done; try lia.
      * intros l [= <-]. lia.
      * intros l Hl'. specialize (Hl l Hl'). eexists. split; [done|lia].
Qed.

Lemma cw_run_throttle ops : ∀ w w',
  cw_run ops w = Ret w' → throttle_inv w →
  throttle_inv w' ∧ cw_clock w ≤ cw_clock w' ∧
  (∀ l, last_commit (cw_state w) = Some l → ∃ l', last_commit (cw_state w') = Some l' ∧ l ≤ l').
Proof.
  induction ops as [|op ops IH]; intros w w' Hr Hi; simpl in Hr; [simplify_eq; split_and!; eauto using Z.le_refl; lia|].
  destruct (cw_step op w) as [w1|] eqn:E; [|done]. simpl in Hr.
  destruct (cw_step_throttle _ _ _ E Hi) as (Hi1 & Hc1 & Hl1).
  destruct (IH _ _ Hr Hi1) as (Hi2 & Hc2 & Hl2). split_and!; [done|lia|].
  intros l Hl. destruct (Hl1 l Hl) as (l1 & Hl1' & ?). destruct (Hl2 l1 Hl1') as (l2 & ? & ?).
  exists l2. split; [done|lia].
Qed.

Lemma cw_init_throttle clock : throttle_inv (cw_init clock).
Proof. by split. Qed.

(** With no message counted, only the interval opens the throttle. *)
Lemma should_commit_interval now s l :
  0 < commit_max_messages config → message_count s = 0 → last_commit s = Some l → l ≤ now →
  cs_should_commit config now s = true → l + from_millis (commit_interval_ms config) ≤ now.
Proof.
  intros Hmax Hm Hl Hle. unfold cs_should_commit. rewrite Hl, Hm. unfold saturating_sub.
  intros [H%Z.leb_le|H%Z.leb_le]%orb_true_iff; lia.
Qed.

(** What the calls of one cycle store. *)
Lemma commit_partition_stores k o tr c :
  c ∈ commit_partition k o tr → c ∈ tr ∨ c = RdStoreOffset k.1 k.2 o ∨ c = RdCommitState Async.
Proof.
  unfold commit_partition, commit. simpl. destruct (rd _); simpl; set_solver.
Qed.

Definition stores_only (t : OffsetTracker) (tr tr' : rd_trace) : Prop :=
  ∀ tp p o, RdStoreOffset tp p o ∈ tr' →
    RdStoreOffset tp p o ∈ tr ∨ (should_commit tp p t = true ∧ highest_contiguous tp p t = Some o).

Lemma process_partition_stores now after t k s tr :
  stores_only t tr (process_partition now after t k s tr).2.
Proof.
  intros tp p o. unfold process_partition. repeat case_match; simpl; auto.
  intros [H'|[H'|H']]%commit_partition_stores; [auto| |done]. simplify_eq. right.
  by destruct k.
Qed.

(** Every store of [tr'] that is not of [tr] is of partition [k]. *)
Definition stores_of_key (k : TopicPartitionKey) (tr tr' : rd_trace) : Prop :=
  ∀ tp p o, RdStoreOffset tp p o ∈ tr' → RdStoreOffset tp p o ∈ tr ∨ (tp, p) = k.

Lemma process_partition_stores_key now after t k s tr :
  stores_of_key k tr (process_partition now after t k s tr).2.
Proof.
  intros tp p o. unfold process_partition. repeat case_match; simpl; auto.
  intros [H'|[H'|H']]%commit_partition_stores; [auto| |done]. simplify_eq. right. by destruct k.
Qed.

Lemma commit_all_stores l tr tp p o :
  RdStoreOffset tp p o ∈ foldl (λ tr c, commit_partition c.1 c.2 tr) tr l →
  RdStoreOffset tp p o ∈ tr ∨ (tp, p, o) ∈ l.
Proof.
  revert tr. induction l as [|[[tp' p'] o'] l IH]; intros tr; cbn [foldl]; [auto|].
  intros [[H|[H|H]]%commit_partition_stores|H]%IH; [auto| |done|right; by right].
  simplify_eq/=. right. by left.
Qed.

Lemma process_ready_stores now after t s tr :
  stores_only t tr (process_ready_partitions now after t s tr).2.
Proof.
  intros tp p o. unfold process_ready_partitions. case_match; cbn [snd]; [auto|].
  intros [H'|H']%commit_all_stores; [auto|right].
  unfold ready_partitions in H'. apply list_elem_of_omap in H' as ([tp' p'] & _ & Hk).
  repeat case_match; simplify_eq/=; done.
Qed.

Lemma committer_turn_stores tick d w :
  stores_only (cw_tracker w) (cw_trace w) (cw_trace (committer_turn tick d w)).
Proof.
  unfold committer_turn. repeat case_match; simpl;
    first [apply process_ready_stores | apply process_partition_stores | by intros ????; left].
Qed.

(** The tracker inside a run is driven by the tracker operations alone. *)
Lemma cw_run_tracker ops : ∀ w w',
  cw_run ops w = Ret w' → tracker_run (tracker_ops ops) (cw_tracker w) = Ret (cw_tracker w').
Proof.
  induction ops as [|op ops IH]; intros w w' Hr; simpl in Hr; [by simplify_eq|].
  destruct (cw_step op w) as [w1|] eqn:E; [|done]. simpl in Hr. apply IH in Hr.
  destruct op as [o|k|d|tick d]; simpl in E |- *.
  - by destruct (tracker_step o (cw_tracker w)) as [t|]; simplify_eq/=.
  - by destruct (coord_apply k (cw_coord w)); simplify_eq/=.
  - by simplify_eq.
  - injection E as <-.
    destruct (committer_turn_cases tick d w) as [Hn|(Hn & _)]; rewrite Hn in Hr; exact Hr.
Qed.

(** An exited committer stays so and makes no call. *)
Lemma cw_run_exited ops : ∀ w w',
  cw_run ops w = Ret w' → cw_exited w = true → cw_exited w' = true ∧ cw_trace w' = cw_trace w.
Proof.
  induction ops as [|op ops IH]; intros w w' Hr He; simpl in Hr; [by simplify_eq|].
  destruct (cw_step op w) as [w1|] eqn:E; [|done]. simpl in Hr.
  assert (cw_exited w1 = true ∧ cw_trace w1 = cw_trace w) as [He1 Ht1].
  { destruct op as [o|k|d|tick d]; simpl in E;
      try (destruct (tracker_step _ _)); try (destruct (coord_apply _ _)); simplify_eq/=; try done.
    unfold committer_turn. by rewrite He. }
  destruct (IH _ _ Hr He1). split; [done|]. by rewrite <- Ht1.
Qed.

Lemma busy_round_effect k r w w1 c :
  commit_tx (cw_tracker w) = Some c → is_done (cw_coord w) = false →
  (cw_seen w ≤ w_version c)%nat →
  cw_run (busy_round k r) w = Ret w1 →
  is_Some (commit_tx (cw_tracker w1)) ∧
  (∀ c', commit_tx (cw_tracker w1) = Some c' → (cw_seen w1 ≤ w_version c')%nat) ∧
  is_done (cw_coord w1) = false ∧
  stores_of_key k (cw_trace w) (cw_trace w1).
Proof.
  intros Hc Hd Hseen. destruct r as [[[o d] tick] d']. unfold busy_round, cw_run, cw_step.
  simpl tracker_step. unfold tracker_ack. case_decide; [|done]. simpl.
  intros [= <-]. unfold committer_turn, cw_wait, cw_with_tracker, signal_pending.
  cbn [cw_tracker cw_coord cw_state cw_seen cw_exited cw_clock cw_trace commit_tx].
  rewrite Hc. cbn [fmap option_fmap option_map]. destruct (cw_exited w) eqn:He.
  - simpl. rewrite ?Hc. split_and!; eauto; [|by intros ????; left].
    intros c' Hc'. simplify_eq/=. lia.
  - rewrite Hd. assert (Hlt : (cw_seen w <? S (w_version c))%nat = true) by (apply Nat.ltb_lt; lia).
    cbn [watch_send w_version]. rewrite Hlt. simpl. split_and!; eauto.
    + intros c' Hc'. simplify_eq/=. lia.
    + intros tp p x Hx.
      destruct (process_partition_stores_key _ _ _ _ _ _ _ _ _ Hx); [auto|right; by destruct k].
Qed.

(** What a run has stored was the cursor of a committable partition at some
    point of the tracker's history. *)
Lemma cw_run_stores clock ops w tp p o :
  cw_run ops (cw_init clock) = Ret w → RdStoreOffset tp p o ∈ cw_trace w →
  ∃ ops1 ops2 t, tracker_ops ops = ops1 ++ ops2 ∧
    tracker_run ops1 (cw_tracker (cw_init clock)) = Ret t ∧
    should_commit tp p t = true ∧ highest_contiguous tp p t = Some o.
Proof.
  revert w. induction ops as [|op ops IH] using rev_ind; intros w Hr Hin.
  { simpl in Hr. simplify_eq/=. inversion Hin. }
  rewrite cw_run_app in Hr. destruct (cw_run ops _) as [w1|] eqn:E; [|done]. simpl in Hr.
  assert (Hold : RdStoreOffset tp p o ∈ cw_trace w1 →
    ∃ ops1 ops2 t, tracker_ops (ops ++ [op]) = ops1 ++ ops2 ∧
    tracker_run ops1 (cw_tracker (cw_init clock)) = Ret t ∧
    should_commit tp p t = true ∧ highest_contiguous tp p t = Some o).
  { intros H. destruct (IH _ eq_refl H) as (o1 & o2 & t & Ho & Ht).
    eexists o1, _, t. split; [|done]. unfold tracker_ops in *.
    rewrite omap_app, Ho, <- app_assoc. done. }
  destruct op as [o'|k|d|tick d]; simpl in Hr.
  - destruct (tracker_step o' _); simplify_eq/=. auto.
  - destruct (coord_apply k _); simplify_eq/=. auto.
  - simplify_eq/=. auto.
  - simplify_eq. destruct (committer_turn_stores _ _ _ _ _ _ Hin) as [H|[Hs Hc]]; [auto|].
    exists (tracker_ops ops), [], (cw_tracker w1). unfold tracker_ops at 1. rewrite omap_app.
    split; [done|]. split; [|done]. by apply (cw_run_tracker _ _ _ E).
Qed.

(** the committer never spaces two committing cycles by less than the
    interval.  The batch throttle plays no part: the number of messages is
    never counted. *)
Theorem commit_cycles_spaced clock ops0 w tick1 d1 ops w2 tick2 d2 :
  0 < commit_max_messages config →
  cw_run ops0 (cw_init clock) = Ret w →
  cw_trace (committer_turn tick1 d1 w) ≠ cw_trace w →
  cw_run ops (committer_turn tick1 d1 w) = Ret w2 →
  cw_trace (committer_turn tick2 d2 w2) ≠ cw_trace w2 →
  cw_clock (committer_turn tick1 d1 w) + from_millis (commit_interval_ms config) ≤ cw_clock w2.
Proof.
  intros Hmax Hr0 Hg1 Hr Hg2.
  destruct (cw_run_throttle _ _ _ Hr0 (cw_init_throttle clock)) as (Hi & _).
  assert (Hs : cw_step (CwTurn tick1 d1) w = Ret (committer_turn tick1 d1 w)) by done.
  destruct (cw_step_throttle _ _ _ Hs Hi) as (Hi1 & _ & _).
  destruct (committer_turn_cases tick1 d1 w) as [Hn|(_ & _ & _ & [(_ & _ & Hn)|(_ & Hst)])];
    [by rewrite Hn in Hg1|done|].
  destruct (cw_run_throttle _ _ _ Hr Hi1) as ([Hm2 Hle2] & _ & Hl2).
  destruct (Hl2 (cw_clock (committer_turn tick1 d1 w))) as (l & Hl & ?); [by rewrite Hst|].
  destruct (committer_turn_cases tick2 d2 w2) as [Hn|(_ & _ & _ & [(_ & _ & Hn)|(Hsc & _)])];
    [by rewrite Hn in Hg2|done|].
  pose proof (should_commit_interval _ _ _ Hmax Hm2 Hl (Hle2 l Hl) Hsc). lia.
Qed.

(** C14: end-to-end at-least-once safety of the committer.  In every run of the
    committer beside any history of acknowledgements, failures and shutdown
    calls, an offset handed to the broker client covers acknowledged messages
    only: every offset of its partition from the first acknowledged one up to
    it was acknowledged. *)
Theorem stored_offsets_were_acked clock ops w tp p o :
  Forall op_ok (tracker_ops ops) →
  cw_run ops (cw_init clock) = Ret w →
  RdStoreOffset tp p o ∈ cw_trace w →
  ∃ b, first_ack (events_of (tp, p) (tracker_ops ops)) = Some b ∧ b ≤ o ∧
       ∀ x, b ≤ x ≤ o → TAck tp p x ∈ tracker_ops ops.
Proof.
  intros Hok Hr Hin.
  destruct (cw_run_stores _ _ _ _ _ _ Hr Hin) as (ops1 & ops2 & t & Hops & Ht & Hsc & Hh).
  rewrite Hops in *. apply Forall_app in Hok as [Hok _].
  destruct (tracker_run_same _ _ offset_tracker_new _ Ht) as (t' & Ht' & Hp); [done|].
  unfold highest_contiguous in Hh. rewrite <- Hp in Hh.
  destruct (partitions t' !! (tp, p)) as [s|] eqn:E; simplify_eq/=.
  destruct (tracker_partition_inv _ _ _ _ Hok Ht' E) as [I [b Hb]].
  exists b. unfold events_of. rewrite omap_app. fold (events_of (tp, p) ops1).
  rewrite (first_ack_app _ _ _ Hb). split; [done|].
  rewrite <- first_ack_drop in Hb. split; [by apply (hi_base _ _ I)|].
  intros x Hx. apply elem_of_app. left.
  apply (elem_of_events_ack (tp, p)), elem_of_drop_fails, (hi_safe _ _ I b); done.
Qed.

(** the final commit of a shutdown goes through the throttle.  When the
    coordinator is done within the interval of the last cycle, the committer
    exits without a call to the broker client, and nothing after it makes one:
    cursors that moved since the last cycle are never committed. *)
Theorem final_commit_throttled clock ops0 w l tick d ops w' :
  0 < commit_max_messages config →
  cw_run ops0 (cw_init clock) = Ret w →
  is_done (cw_coord w) = true →
  cw_exited w = false →
  last_commit (cw_state w) = Some l →
  cw_clock w < l + from_millis (commit_interval_ms config) →
  cw_run ops (committer_turn tick d w) = Ret w' →
  cw_exited w' = true ∧ cw_trace w' = cw_trace w.
Proof.
  intros Hmax Hr0 Hd He Hl Hlt Hr.
  destruct (cw_run_throttle _ _ _ Hr0 (cw_init_throttle clock)) as ([Hm Hle] & _).
  destruct (cs_should_commit config (cw_clock w) (cw_state w)) eqn:Hsc.
  { pose proof (should_commit_interval _ _ _ Hmax Hm Hl (Hle l Hl) Hsc). lia. }
  eapply cw_run_exited in Hr as [? ->].
  - split; [done|]. unfold committer_turn, process_ready_partitions. by rewrite He, Hd, Hsc.
  - unfold committer_turn. by rewrite He, Hd.
Qed.

(** a busy partition starves the others.  The signal branch of the biased
    [select!] comes before the timer and serves only the signalled partition;
    while one partition is acknowledged before every turn, whatever the time
    between turns, no other partition is ever stored. *)
Theorem busy_partition_starves_others k rounds w w' tp p o :
  is_Some (commit_tx (cw_tracker w)) →
  (∀ c, commit_tx (cw_tracker w) = Some c → (cw_seen w ≤ w_version c)%nat) →
  is_done (cw_coord w) = false →
  cw_run (mjoin (busy_round k <$> rounds)) w = Ret w' →
  RdStoreOffset tp p o ∈ cw_trace w' →
  (tp, p) ≠ k →
  RdStoreOffset tp p o ∈ cw_trace w.
Proof.
  intros Htx Hseen Hd Hr Hin Hk. revert w Htx Hseen Hd Hr.
  induction rounds as [|r rounds IH]; intros w [c Hc] Hseen Hd Hr.
  { simpl in Hr. by simplify_eq. }
  rewrite fmap_cons in Hr. simpl mjoin in Hr. rewrite cw_run_app in Hr.
  destruct (cw_run (busy_round k r) w) as [w1|] eqn:E; [|done]. simpl in Hr.
  destruct (busy_round_effect _ _ _ _ _ Hc Hd (Hseen c Hc) E) as (Htx1 & Hseen1 & Hd1 & Hst).
  destruct (Hst tp p o (IH w1 Htx1 Hseen1 Hd1 Hr)) as [|]; [done|by destruct k; simplify_eq/=].
Qed.

End committer.

(** ** Witnesses *)

Definition demo_run (ops : list cw_op) : committer_world :=
  match cw_run (HO := hash_order_canonical TopicPartitionKey) (λ _, true) commit_config_default ops
          (cw_init 0) with
  | Ret w => w
  | Panic => cw_init 0
  end.

Definition ms (n : N) : N := (n * 1000000)%N.

Lemma commit_cycles_spaced_witness :
  let w := demo_run [CwTracker (TAck "t" 0 5)] in
  let w1 := committer_turn (HO := hash_order_canonical _) (λ _, true) commit_config_default true 7 w in
  let w2 := demo_run [CwTracker (TAck "t" 0 5); CwTurn true 7; CwTracker (TAck "t" 0 6); CwWait (ms 100)] in
  cw_clock w1 + from_millis 100 ≤ cw_clock w2.
Proof.
  cbv zeta.
  eapply (commit_cycles_spaced (HO := hash_order_canonical _) (λ _, true) commit_config_default 0
            [CwTracker (TAck "t" 0 5)] _ true 7 [CwTracker (TAck "t" 0 6); CwWait (ms 100)] _ true 1);
    [done|vm_compute; reflexivity|vm_compute; discriminate|vm_compute; reflexivity|
     vm_compute; discriminate].
Defined.

Lemma stored_offsets_were_acked_witness :
  let ops := [CwTracker (TAck "t" 0 5); CwTracker (TAck "t" 0 7); CwTracker (TAck "t" 0 6);
              CwTurn false 3] in
  ∃ b, first_ack (events_of ("t", 0) (tracker_ops ops)) = Some b ∧ b ≤ 7 ∧
       ∀ x, b ≤ x ≤ 7 → TAck "t" 0 x ∈ tracker_ops ops.
Proof.
  cbv zeta.
  eapply (stored_offsets_were_acked (HO := hash_order_canonical _) (λ _, true)
            commit_config_default 0);
    [repeat constructor; simpl; lia|vm_compute; reflexivity|].
  vm_compute. left.
Defined.

(** An offset acknowledged 50ms before the coordinator is done is left behind:
    the partition is committable and its cursor is at 6, the broker has 5. *)
Lemma final_commit_throttled_witness :
  let w := demo_run [CwTracker (TAck "t" 0 5); CwTurn true 7; CwWait (ms 50); CwTracker (TAck "t" 0 6);
                     CwCoord CBeginDraining; CwCoord CBeginFinalizing; CwCoord CSetDone] in
  let w' := demo_run [CwTracker (TAck "t" 0 5); CwTurn true 7; CwWait (ms 50); CwTracker (TAck "t" 0 6);
                      CwCoord CBeginDraining; CwCoord CBeginFinalizing; CwCoord CSetDone;
                      CwTurn true 0; CwWait (ms 500); CwTurn true 0] in
  (cw_exited w' = true ∧ cw_trace w' = cw_trace w) ∧
  should_commit "t" 0 (cw_tracker w') = true ∧
  highest_contiguous "t" 0 (cw_tracker w') = Some 6 ∧
  cw_trace w' = [RdStoreOffset "t" 0 5; RdCommitState Async].
Proof.
  cbv zeta. split; [|split_and!; vm_compute; reflexivity].
  eapply (final_commit_throttled (HO := hash_order_canonical _) (λ _, true) commit_config_default 0
            [CwTracker (TAck "t" 0 5); CwTurn true 7; CwWait (ms 50); CwTracker (TAck "t" 0 6);
             CwCoord CBeginDraining; CwCoord CBeginFinalizing; CwCoord CSetDone]
            _ 7 true 0 [CwWait (ms 500); CwTurn true 0]);
    [done|vm_compute; reflexivity|vm_compute; reflexivity|vm_compute; reflexivity|
     vm_compute; reflexivity|vm_compute; reflexivity|vm_compute; reflexivity].
Defined.

(** Partition "b" is committable with its cursor at 1, yet after three rounds
    of acknowledgements of "a", 150ms apart, only "a" has been stored. *)
Lemma busy_partition_starves_others_witness :
  let rounds := [(10, ms 150, true, 5%N); (11, ms 150, true, 5%N); (12, ms 150, true, 5%N)] in
  let w := demo_run [CwTracker (TAck "b" 0 1)] in
  let w' := demo_run ([CwTracker (TAck "b" 0 1)] ++ mjoin (busy_round ("a", 0) <$> rounds)) in
  should_commit "b" 0 (cw_tracker w') = true ∧
  highest_contiguous "b" 0 (cw_tracker w') = Some 1 ∧
  RdStoreOffset "a" 0 12 ∈ cw_trace w' ∧
  (RdStoreOffset "b" 0 1 ∈ cw_trace w' → RdStoreOffset "b" 0 1 ∈ cw_trace w).
Proof.
  cbv zeta. split_and!; [vm_compute; reflexivity..| |].
  { vm_compute. do 4 right. left. }
  intros Hin.
  eapply (busy_partition_starves_others (HO := hash_order_canonical _) (λ _, true)
            commit_config_default ("a", 0)
            [(10, ms 150, true, 5%N); (11, ms 150, true, 5%N); (12, ms 150, true, 5%N)]);
    [vm_compute; eauto| |vm_compute; reflexivity|vm_compute; reflexivity|exact Hin|done].
  intros c Hc. vm_compute in Hc. simplify_eq. vm_compute. lia.
Defined.
