(* ===== verification/Queue.v ===== *)
(** * Handler queues and dispatch (src/dispatcher/queue_manager.rs, mod.rs, error.rs)

    One bounded channel per topic with the counters that shadow it.  Every
    operation that touches the counters holds the lock of the handler map, so
    the operations are sequential. *)

From stdpp Require Import base gmap sets list strings pretty.
From S2P Require Import Prelude Message.

(** ** Errors and signals *)

Inductive DispatchError :=
| QueueFull (queue_name : string) (capacity : Z)
| Backpressure (queue_name : string) (reason : string)
| UnknownTopic (topic : string) (broker : string)
| HandlerNotRegistered (topic : string)
| QueueClosed (topic : string).

(** The [Display] texts. *)
Definition dispatch_error_text (e : DispatchError) : string :=
  match e with
  | QueueFull name cap => "handler queue '" +:+ name +:+ "' is full (capacity: " +:+ pretty cap +:+ ")"
  | Backpressure name reason => "backpressure on handler queue '" +:+ name +:+ "': " +:+ reason
  | UnknownTopic t broker => "topic '" +:+ t +:+ "' not found in Kafka cluster (broker: " +:+ broker +:+ ")"
  | HandlerNotRegistered t => "no handler registered for topic '" +:+ t +:+ "'"
  | QueueClosed t => "handler queue for topic '" +:+ t +:+ "' is closed"
  end.

Inductive BackpressureAction :=
| BpDrop
| BpWait
| PausePartition (topic : string) (partition : Z)
| ResumePartition (topic : string) (partition : Z).

Definition bp_topic (a : BackpressureAction) : option string :=
  match a with
  | PausePartition t _ => Some t
  | ResumePartition t _ => Some t
  | _ => None
  end.

Record DispatchOutcome := {
  do_topic : string; do_partition : Z; do_offset : Z; do_queue_depth : Z
}.

(** ** tokio's bounded [mpsc] channel *)

Record Channel := {
  ch_capacity : Z;
  ch_buffer : list OwnedMessage;
  ch_closed : bool               (* the receiver is gone *)
}.

Inductive TrySendError := TsFull | TsClosed.

Definition try_send (m : OwnedMessage) (c : Channel) : result Channel TrySendError :=
  if ch_closed c then Err TsClosed
  else if ch_capacity c <=? Z.of_nat (length (ch_buffer c)) then Err TsFull
  else Ok {| ch_capacity := ch_capacity c; ch_buffer := ch_buffer c ++ [m]; ch_closed := false |}.

Definition ch_recv (c : Channel) : option (OwnedMessage * Channel) :=
  match ch_buffer c with
  | [] => None
  | m :: rest =>
      Some (m, {| ch_capacity := ch_capacity c; ch_buffer := rest; ch_closed := ch_closed c |})
  end.

Definition ch_close (c : Channel) : Channel :=
  {| ch_capacity := ch_capacity c; ch_buffer := []; ch_closed := true |}.

Lemma try_send_ok m c c' :
  try_send m c = Ok c' →
  ch_closed c = false ∧ Z.of_nat (length (ch_buffer c)) < ch_capacity c ∧
  c' = {| ch_capacity := ch_capacity c; ch_buffer := ch_buffer c ++ [m]; ch_closed := false |}.
Proof.
  unfold try_send. destruct (ch_closed c); [done|].
  destruct (Z.leb_spec (ch_capacity c) (Z.of_nat (length (ch_buffer c)))); [done|].
  intros [= <-]. split_and!; try done.
Qed.

(** ** [HandlerMetadata]

    The semaphore is the number of permits available in it. *)

Record HandlerMetadata := {
  capacity : Z;
  queue_depth : Z;
  inflight : Z;
  semaphore : option Z;
  outstanding_permits : Z;
  semaphore_limit : Z
}.

Definition handler_metadata_new (cap : Z) (sem : option Z) (limit : Z) : HandlerMetadata :=
  {| capacity := cap; queue_depth := 0; inflight := 0; semaphore := sem;
     outstanding_permits := 0; semaphore_limit := limit |}.

Definition with_counters (depth infl : Z) (sem : option Z) (out : Z) (m : HandlerMetadata)
    : HandlerMetadata :=
  {| capacity := capacity m; queue_depth := depth; inflight := infl; semaphore := sem;
     outstanding_permits := out; semaphore_limit := semaphore_limit m |}.

(** [try_acquire_semaphore]: counts a permit without taking one from the
    semaphore. *)
Definition try_acquire_semaphore (m : HandlerMetadata) : bool * HandlerMetadata :=
  match semaphore m with
  | None => (true, m)
  | Some _ =>
      if semaphore_limit m <=? outstanding_permits m then (false, m)
      else (true, with_counters (queue_depth m) (inflight m) (semaphore m)
                    (usize_wrap (outstanding_permits m + 1)) m)
  end.

(** [release_permits]: gives the semaphore permits that were never taken. *)
Definition release_permits (count : Z) (m : HandlerMetadata) : HandlerMetadata :=
  match semaphore m with
  | None => m
  | Some available =>
      let to_release := Z.min count (outstanding_permits m) in
      if 0 <? to_release then
        with_counters (queue_depth m) (inflight m) (Some (available + to_release))
          (usize_wrap (outstanding_permits m - to_release)) m
      else m
  end.

(** [HandlerMetadata::ack]. *)
Definition meta_ack (count : Z) (m : HandlerMetadata) : HandlerMetadata :=
  release_permits count
    (with_counters (saturating_sub (queue_depth m) count) (saturating_sub (inflight m) count)
       (semaphore m) (outstanding_permits m) m).

Definition inflight_add (d : Z) (m : HandlerMetadata) : HandlerMetadata :=
  with_counters (queue_depth m) (usize_wrap (inflight m + d)) (semaphore m)
    (outstanding_permits m) m.

Definition depth_add (d : Z) (m : HandlerMetadata) : HandlerMetadata :=
  with_counters (usize_wrap (queue_depth m + d)) (inflight m) (semaphore m)
    (outstanding_permits m) m.

(** ** [QueueManager] *)

Record HandlerEntry := { sender : Channel; metadata : HandlerMetadata }.

Abbreviation QueueManager := (gmap string HandlerEntry).

Definition queue_manager_new : QueueManager := ∅.

(** [register_handler_with_semaphore]: tokio's [channel] panics on capacity 0;
    a handler already registered for the topic is replaced. *)
Definition register_handler_with_semaphore (t : string) (cap : Z) (sem : option Z)
    (qm : QueueManager) : outcome QueueManager :=
  if cap =? 0 then Panic
  else
    let limit := default 0 sem in
    Ret (<[t := {| sender := {| ch_capacity := cap; ch_buffer := []; ch_closed := false |};
                   metadata := handler_metadata_new cap sem limit |}]> qm).

Definition get_capacity (t : string) (qm : QueueManager) : option Z :=
  (λ e, capacity (metadata e)) <$> qm !! t.

Definition get_inflight (t : string) (qm : QueueManager) : option Z :=
  (λ e, inflight (metadata e)) <$> qm !! t.

Definition queue_snapshots (qm : QueueManager) : gmap string (Z * Z) :=
  (λ e, (queue_depth (metadata e), inflight (metadata e))) <$> qm.

Definition queue_ack (t : string) (count : Z) (qm : QueueManager) : QueueManager :=
  alter (λ e, {| sender := sender e; metadata := meta_ack count (metadata e) |}) t qm.

(** ** [Dispatcher] *)

Definition dispatcher_new : QueueManager := queue_manager_new.

(** The public [register_handler] has no semaphore. *)
Definition dispatcher_register_handler (t : string) (cap : Z) (d : QueueManager) : outcome QueueManager :=
  register_handler_with_semaphore t cap None d.

Definition dispatcher_get_capacity (t : string) (d : QueueManager) : option Z := get_capacity t d.

Definition permit_unavailable : string := "semaphore permit unavailable".
Definition queue_full : string := "queue full".

(** [Dispatcher::send]. *)
Definition send (msg : OwnedMessage) (qm : QueueManager)
    : result DispatchOutcome DispatchError * QueueManager :=
  let t := topic msg in
  match qm !! t with
  | None => (Err (HandlerNotRegistered t), qm)
  | Some entry =>
      let '(acquired, meta) := try_acquire_semaphore (metadata entry) in
      if negb acquired then (Err (Backpressure t permit_unavailable), qm)
      else
        let meta := inflight_add 1 meta in
        match try_send msg (sender entry) with
        | Ok chan =>
            let meta := depth_add 1 meta in
            (Ok {| do_topic := t; do_partition := partition msg; do_offset := offset msg;
                   do_queue_depth := queue_depth meta |},
             <[t := {| sender := chan; metadata := meta |}]> qm)
        | Err TsFull =>
            (Err (Backpressure t queue_full),
             <[t := {| sender := sender entry; metadata := inflight_add (-1) meta |}]> qm)
        | Err TsClosed =>
            (Err (QueueClosed t),
             <[t := {| sender := sender entry; metadata := inflight_add (-1) meta |}]> qm)
        end
  end.

(** [Dispatcher::send_with_policy_and_signal]. *)
Definition send_with_policy_and_signal (msg : OwnedMessage) (qm : QueueManager)
    : result DispatchOutcome DispatchError * option BackpressureAction * QueueManager :=
  let t := topic msg in
  match qm !! t with
  | None => (Err (HandlerNotRegistered t), None, qm)
  | Some entry =>
      let '(acquired, meta) := try_acquire_semaphore (metadata entry) in
      if negb acquired then
        (Err (Backpressure t permit_unavailable), Some (PausePartition t (partition msg)), qm)
      else
        let meta := inflight_add 1 meta in
        match try_send msg (sender entry) with
        | Ok chan =>
            let meta := depth_add 1 meta in
            (Ok {| do_topic := t; do_partition := partition msg; do_offset := offset msg;
                   do_queue_depth := queue_depth meta |},
             None, <[t := {| sender := chan; metadata := meta |}]> qm)
        | Err TsFull =>
            (Err (Backpressure t queue_full), Some (PausePartition t (partition msg)),
             <[t := {| sender := sender entry; metadata := inflight_add (-1) meta |}]> qm)
        | Err TsClosed =>
            (Err (QueueClosed t), None,
             <[t := {| sender := sender entry; metadata := inflight_add (-1) meta |}]> qm)
        end
  end.

(** ** The receiving side, and histories of one manager *)

Definition queue_recv (t : string) (qm : QueueManager) : option OwnedMessage * QueueManager :=
  match qm !! t with
  | None => (None, qm)
  | Some e =>
      match ch_recv (sender e) with
      | None => (None, qm)
      | Some (m, c) => (Some m, <[t := {| sender := c; metadata := metadata e |}]> qm)
      end
  end.

Definition queue_close (t : string) (qm : QueueManager) : QueueManager :=
  alter (λ e, {| sender := ch_close (sender e); metadata := metadata e |}) t qm.

Inductive queue_op :=
| QSend (m : OwnedMessage)
| QRecv (t : string)
| QAck (t : string) (count : Z)
| QClose (t : string).

(** What has happened to the queue of one topic: the messages accepted, those
    received, the number acknowledged, and the number of sends refused after a
    permit was counted. *)
Record queue_log := {
  ql_sent : list OwnedMessage;
  ql_recv : list OwnedMessage;
  ql_acked : Z;
  ql_leaked : Z
}.

Definition queue_log_new : queue_log :=
  {| ql_sent := []; ql_recv := []; ql_acked := 0; ql_leaked := 0 |}.

Definition log_sent (m : OwnedMessage) (l : queue_log) : queue_log :=
  {| ql_sent := ql_sent l ++ [m]; ql_recv := ql_recv l; ql_acked := ql_acked l;
     ql_leaked := ql_leaked l |}.
Definition log_recv (m : OwnedMessage) (l : queue_log) : queue_log :=
  {| ql_sent := ql_sent l; ql_recv := ql_recv l ++ [m]; ql_acked := ql_acked l;
     ql_leaked := ql_leaked l |}.
Definition log_ack (n : Z) (l : queue_log) : queue_log :=
  {| ql_sent := ql_sent l; ql_recv := ql_recv l; ql_acked := ql_acked l + n;
     ql_leaked := ql_leaked l |}.
Definition log_leak (l : queue_log) : queue_log :=
  {| ql_sent := ql_sent l; ql_recv := ql_recv l; ql_acked := ql_acked l;
     ql_leaked := ql_leaked l + 1 |}.

Definition log_send (t : string) (m : OwnedMessage) (r : result DispatchOutcome DispatchError)
    (l : queue_log) : queue_log :=
  if negb (bool_decide (topic m = t)) then l
  else match r with
  | Ok _ => log_sent m l
  | Err (Backpressure _ why) => if bool_decide (why = queue_full) then log_leak l else l
  | Err (QueueClosed _) => log_leak l
  | Err _ => l
  end.

Definition queue_step (t : string) (op : queue_op) (s : QueueManager * queue_log)
    : QueueManager * queue_log :=
  let '(qm, l) := s in
  match op with
  | QSend m => let r := send m qm in (r.2, log_send t m r.1 l)
  | QRecv t' =>
      let r := queue_recv t' qm in
      (r.2, match r.1 with
            | Some m => if bool_decide (t' = t) then log_recv m l else l
            | None => l
            end)
  | QAck t' count =>
      (queue_ack t' count qm, if bool_decide (t' = t) then log_ack count l else l)
  | QClose t' => (queue_close t' qm, l)
  end.

Definition queue_run (t : string) (ops : list queue_op) (s : QueueManager * queue_log)
    : QueueManager * queue_log := foldl (λ s op, queue_step t op s) s ops.

(** An acknowledgement of topic [t] is of at most what is in flight. *)
Definition ack_bounded (t : string) (op : queue_op) (qm : QueueManager) : bool :=
  match op with
  | QAck t' count =>
      negb (bool_decide (t' = t)) || (0 <=? count) && (count <=? default 0 (get_inflight t qm))
  | _ => true
  end.

Fixpoint acks_bounded (t : string) (ops : list queue_op) (s : QueueManager * queue_log) : bool :=
  match ops with
  | [] => true
  | op :: ops => ack_bounded t op s.1 && acks_bounded t ops (queue_step t op s)
  end.

Definition ack_count_ok (op : queue_op) : Prop :=
  match op with QAck _ count => 0 ≤ count | _ => True end.

(** ** Lemmas *)

(** Both sending paths change the state alike and give the same result. *)
Lemma send_paths_agree m qm :
  let r := send_with_policy_and_signal m qm in send m qm = (r.1.1, r.2).
Proof.
  unfold send, send_with_policy_and_signal. destruct (qm !! topic m) as [e|]; [|done].
  destruct (try_acquire_semaphore (metadata e)) as [[] meta]; simpl; [|done].
  by destruct (try_send m (sender e)) as [|[]].
Qed.

Lemma send_other m qm t : topic m ≠ t → (send m qm).2 !! t = qm !! t.
Proof.
  intros Hne. unfold send. repeat case_match; simpl; rewrite ?lookup_insert_ne by done; done.
Qed.

Lemma queue_recv_other t' qm t : t' ≠ t → (queue_recv t' qm).2 !! t = qm !! t.
Proof.
  intros Hne. unfold queue_recv. repeat case_match; simpl; rewrite ?lookup_insert_ne by done; done.
Qed.

(** The effect of one operation on the queue of topic [t] alone. *)
Inductive entry_step (t : string) : queue_op → HandlerEntry → queue_log → HandlerEntry → queue_log → Prop :=
| es_same op e l : (∀ c, op ≠ QAck t c) → entry_step t op e l e l
| es_sent e l m c meta :
    try_acquire_semaphore (metadata e) = (true, meta) → try_send m (sender e) = Ok c →
    entry_step t (QSend m) e l
      {| sender := c; metadata := depth_add 1 (inflight_add 1 meta) |} (log_sent m l)
| es_leak e l m meta err :
    try_acquire_semaphore (metadata e) = (true, meta) → try_send m (sender e) = Err err →
    entry_step t (QSend m) e l
      {| sender := sender e; metadata := inflight_add (-1) (inflight_add 1 meta) |} (log_leak l)
| es_recv e l m c :
    ch_recv (sender e) = Some (m, c) →
    entry_step t (QRecv t) e l {| sender := c; metadata := metadata e |} (log_recv m l)
| es_ack e l count :
    entry_step t (QAck t count) e l
      {| sender := sender e; metadata := meta_ack count (metadata e) |} (log_ack count l)
| es_close e l :
    entry_step t (QClose t) e l {| sender := ch_close (sender e); metadata := metadata e |} l.

Lemma queue_step_entry t op qm l e :
  qm !! t = Some e →
  ∃ e', (queue_step t op (qm, l)).1 !! t = Some e' ∧
        entry_step t op e l e' (queue_step t op (qm, l)).2.
Proof.
  intros He. destruct op as [m|t'|t' c|t']; cbn [queue_step fst snd].
  - destruct (decide (topic m = t)) as [<-|Hne].
    + unfold send, log_send. rewrite He, bool_decide_true by done. simpl negb. cbv iota.
      destruct (try_acquire_semaphore (metadata e)) as [[] meta] eqn:Ea; simpl.
      * destruct (try_send m (sender e)) as [c|[]] eqn:Es; simpl; rewrite lookup_insert_eq;
          eexists; (split; [done|]); first [by apply es_sent | by eapply es_leak].
      * exists e. split; [done|]. by apply es_same.
    + rewrite send_other by done. exists e. split; [done|].
      unfold log_send. rewrite bool_decide_false by done. by apply es_same.
  - destruct (decide (t' = t)) as [->|Hne].
    + unfold queue_recv. rewrite He. destruct (ch_recv (sender e)) as [[m c]|] eqn:Ec; simpl.
      * rewrite lookup_insert_eq, bool_decide_true by done. eexists. split; [done|]. by apply es_recv.
      * exists e. split; [done|]. by apply es_same.
    + rewrite queue_recv_other, bool_decide_false by done. exists e. split; [done|].
      destruct (queue_recv t' qm).1; by apply es_same.
  - unfold queue_ack. destruct (decide (t' = t)) as [->|Hne].
    + rewrite lookup_alter_eq, He, bool_decide_true by done. simpl. eexists. split; [done|]. apply es_ack.
    + rewrite lookup_alter_ne, bool_decide_false by done. exists e. split; [done|].
      apply es_same. intros c' [= -> ->]. done.
  - unfold queue_close. destruct (decide (t' = t)) as [->|Hne].
    + rewrite lookup_alter_eq, He. simpl. eexists. split; [done|]. apply es_close.
    + rewrite lookup_alter_ne by done. exists e. split; [done|]. by apply es_same.
Qed.

(** The queue of one topic after at most [n] operations: its counters, its
    buffer against the log, its permits. *)
Record queue_inv (n : Z) (e : HandlerEntry) (l : queue_log) : Prop := {
  qi_capacity : ch_capacity (sender e) = capacity (metadata e);
  qi_depth : queue_depth (metadata e) = inflight (metadata e);
  qi_inflight : 0 ≤ inflight (metadata e) ≤ Z.of_nat (length (ql_sent l));
  qi_count : Z.of_nat (length (ql_sent l)) ≤ n;
  qi_buffer : Z.of_nat (length (ch_buffer (sender e))) ≤ ch_capacity (sender e);
  qi_open : ch_closed (sender e) = false → ql_sent l = ql_recv l ++ ch_buffer (sender e);
  qi_fifo : ∃ lost, ql_sent l = ql_recv l ++ ch_buffer (sender e) ++ lost;
  qi_closed : ch_closed (sender e) = true → ch_buffer (sender e) = [];
  qi_out : 0 ≤ outstanding_permits (metadata e) ≤ n;
  qi_limit : is_Some (semaphore (metadata e)) → 0 ≤ semaphore_limit (metadata e) →
             outstanding_permits (metadata e) ≤ semaphore_limit (metadata e)
}.

(** What acquiring leaves unchanged. *)
Lemma try_acquire_frame m ok m' :
  try_acquire_semaphore m = (ok, m') →
  capacity m' = capacity m ∧ queue_depth m' = queue_depth m ∧ inflight m' = inflight m ∧
  semaphore m' = semaphore m ∧ semaphore_limit m' = semaphore_limit m.
Proof. unfold try_acquire_semaphore. repeat case_match; intros; simplify_eq/=; done. Qed.

Lemma try_acquire_out n m m' :
  try_acquire_semaphore m = (true, m') → 0 ≤ outstanding_permits m ≤ n → n + 1 < 2 ^ 64 →
  outstanding_permits m' =
    match semaphore m with Some _ => outstanding_permits m + 1 | None => outstanding_permits m end ∧
  (is_Some (semaphore m) → outstanding_permits m < semaphore_limit m).
Proof.
  unfold try_acquire_semaphore. intros Ha Hn Hlt. destruct (semaphore m) eqn:E.
  - destruct (Z.leb_spec (semaphore_limit m) (outstanding_permits m)); simplify_eq/=.
    split; [|lia]. apply usize_wrap_id. unfold usize_range. lia.
  - simplify_eq. split; [done|]. by intros [].
Qed.

Lemma release_permits_spec count m :
  0 ≤ count → 0 ≤ outstanding_permits m < 2 ^ 64 →
  let m' := release_permits count m in
  capacity m' = capacity m ∧ queue_depth m' = queue_depth m ∧ inflight m' = inflight m ∧
  semaphore_limit m' = semaphore_limit m ∧ (is_Some (semaphore m') ↔ is_Some (semaphore m)) ∧
  outstanding_permits m' =
    match semaphore m with
    | Some _ => outstanding_permits m - Z.min count (outstanding_permits m)
    | None => outstanding_permits m
    end.
Proof.
  intros Hc Ho. unfold release_permits. destruct (semaphore m) as [av|] eqn:E; simpl;
    [|rewrite E; split_and!; done].
  destruct (Z.ltb_spec 0 (Z.min count (outstanding_permits m))); simpl.
  - split_and!; try done. apply usize_wrap_id. unfold usize_range. lia.
  - rewrite E. split_and!; try done. lia.
Qed.

Lemma entry_step_inv t n op e l e' l' :
  entry_step t op e l e' l' → ack_count_ok op → n + 1 < 2 ^ 64 →
  queue_inv n e l → queue_inv (n + 1) e' l'.
Proof.
  intros Hs Hok Hn [Hc Hd Hi Hq Hb Ho [lost Hf] Hx Hp Hl].
  destruct Hs as [op e l Hop|e l m c meta Ha Hts|e l m meta err Ha Hts|e l m c Hr|e l count|e l].
  - split; eauto; try lia.
  - apply try_send_ok in Hts as (Hcl & Hlen & ->).
    destruct (try_acquire_frame _ _ _ Ha) as (Fc & Fd & Fi & Fs & Fl).
    destruct (try_acquire_out n _ _ Ha Hp Hn) as [Hout Hlim].
    assert (E1 : usize_wrap (inflight meta + 1) = inflight (metadata e) + 1)
      by (rewrite Fi; apply usize_wrap_id; unfold usize_range; lia).
    assert (E2 : usize_wrap (queue_depth meta + 1) = inflight (metadata e) + 1)
      by (rewrite Fd, Hd; apply usize_wrap_id; unfold usize_range; lia).
    split; simpl; rewrite ?E1, ?E2, ?length_app; simpl; try congruence; try lia.
    + intros _. rewrite Ho by done. by rewrite app_assoc.
    + exists []. rewrite Ho by done. by rewrite app_nil_r, app_assoc.
    + rewrite Hout. destruct (semaphore (metadata e)); lia.
    + rewrite Fs, Fl, Hout. intros Hsem ?. specialize (Hlim Hsem).
      destruct (semaphore (metadata e)); lia.
  - destruct (try_acquire_frame _ _ _ Ha) as (Fc & Fd & Fi & Fs & Fl).
    destruct (try_acquire_out n _ _ Ha Hp Hn) as [Hout Hlim].
    assert (E1 : usize_wrap (usize_wrap (inflight meta + 1) + -1) = inflight (metadata e)).
    { rewrite Fi, (usize_wrap_id (_ + 1)) by (unfold usize_range; lia).
      rewrite usize_wrap_id by (unfold usize_range; lia). lia. }
    split; simpl; rewrite ?E1; eauto; try congruence; try lia.
    + rewrite Hout. destruct (semaphore (metadata e)); lia.
    + rewrite Fs, Fl, Hout. intros Hsem ?. specialize (Hlim Hsem).
      destruct (semaphore (metadata e)); lia.
  - unfold ch_recv in Hr. destruct (ch_buffer (sender e)) as [|m' rest] eqn:Eb; simplify_eq/=.
    split; simpl; eauto; try lia.
    + intros Hcl. rewrite (Ho Hcl). by rewrite <- app_assoc.
    + exists lost. rewrite Hf. by rewrite <- app_assoc.
    + intros Hcl. by specialize (Hx Hcl).
  - simpl in Hok. unfold meta_ack.
    set (m1 := with_counters _ _ _ _ (metadata e)).
    destruct (release_permits_spec count m1 Hok) as (Rc & Rd & Ri & Rl & Rs & Ro); [simpl; lia|].
    split; cbn [sender metadata log_ack ql_sent ql_recv]; rewrite ?Rc, ?Rd, ?Ri, ?Ro, ?Rl, ?Rs;
      subst m1; simpl; eauto; unfold saturating_sub; try congruence; try lia.
    + destruct (semaphore (metadata e)); lia.
    + intros Hsem ?. specialize (Hl Hsem). destruct (semaphore (metadata e)); lia.
  - split; simpl; eauto; try lia; done.
Qed.

(** What no operation changes: the capacities, the limit, and whether there is
    a semaphore. *)
Definition entry_frame (e e' : HandlerEntry) : Prop :=
  ch_capacity (sender e') = ch_capacity (sender e) ∧
  semaphore_limit (metadata e') = semaphore_limit (metadata e) ∧
  (is_Some (semaphore (metadata e')) ↔ is_Some (semaphore (metadata e))).

Lemma entry_step_frame t op e l e' l' : entry_step t op e l e' l' → entry_frame e e'.
Proof.
  destruct 1 as [op e l Hop|e l m c meta Ha Hts|e l m meta err Ha Hts|e l m c Hr|e l count|e l];
    unfold entry_frame; simpl; [done| | | | |done].
  - apply try_send_ok in Hts as (_ & _ & ->).
    destruct (try_acquire_frame _ _ _ Ha) as (_ & _ & _ & Fs & Fl). simpl. by rewrite Fs, Fl.
  - destruct (try_acquire_frame _ _ _ Ha) as (_ & _ & _ & Fs & Fl). simpl. by rewrite Fs, Fl.
  - unfold ch_recv in Hr. destruct (ch_buffer (sender e)); simplify_eq/=. done.
  - unfold meta_ack, release_permits. simpl. destruct (semaphore (metadata e)); simpl; [|done].
    case_match; simpl; split_and!; done.
Qed.

(** The run of a queue, one entry at a time. *)
Lemma queue_run_inv t ops : ∀ n e qm l,
  qm !! t = Some e → Forall ack_count_ok ops → n + Z.of_nat (length ops) + 1 < 2 ^ 64 →
  queue_inv n e l →
  ∃ e', (queue_run t ops (qm, l)).1 !! t = Some e' ∧ entry_frame e e' ∧
        queue_inv (n + Z.of_nat (length ops)) e' (queue_run t ops (qm, l)).2.
Proof.
  induction ops as [|op ops IH]; intros n e qm l He Hok Hn Hi.
  { exists e. rewrite Z.add_0_r. done. }
  inversion Hok as [|? ? Hop Hops]; simplify_eq. simpl length in *.
  destruct (queue_step_entry t op qm l e He) as (e1 & He1 & Hs).
  destruct (queue_step t op (qm, l)) as [qm1 l1] eqn:E. cbn [fst snd] in *.
  pose proof (entry_step_inv _ n _ _ _ _ _ Hs Hop ltac:(lia) Hi) as Hi1.
  destruct (IH (n + 1) e1 qm1 l1 He1 Hops ltac:(lia) Hi1) as (e' & He' & Hf & Hi').
  unfold queue_run in *. cbn [foldl]. rewrite E. exists e'. split; [done|].
  split; [|by replace (n + Z.of_nat (S (length ops))) with (n + 1 + Z.of_nat (length ops)) by lia].
  destruct (entry_step_frame _ _ _ _ _ _ Hs) as (? & ? & ?), Hf as (? & ? & ?).
  unfold entry_frame. split_and!; [congruence..|etrans; done].
Qed.

Lemma register_inv t cap sem qm qm1 :
  register_handler_with_semaphore t cap sem qm = Ret qm1 → 0 ≤ cap →
  ∃ e, qm1 !! t = Some e ∧ queue_inv 0 e queue_log_new ∧
       ch_capacity (sender e) = cap ∧ semaphore (metadata e) = sem ∧
       semaphore_limit (metadata e) = default 0 sem ∧ outstanding_permits (metadata e) = 0 ∧
       inflight (metadata e) = 0.
Proof.
  unfold register_handler_with_semaphore. case_match; [done|]. intros [= <-] Hc.
  eexists. split; [apply lookup_insert_eq|]. split; [|done].
  split; simpl; eauto; try done; lia.
Qed.

(** ** Permits

    With acknowledgements that never exceed what is in flight, the counter of
    permits is what is in flight plus the refused sends. *)

Record permit_inv (e : HandlerEntry) (l : queue_log) : Prop := {
  pi_out : outstanding_permits (metadata e) = inflight (metadata e) + ql_leaked l;
  pi_inflight : inflight (metadata e) = Z.of_nat (length (ql_sent l)) - ql_acked l;
  pi_leaked : 0 ≤ ql_leaked l
}.

Lemma entry_step_permits t n op e l e' l' qm :
  entry_step t op e l e' l' → qm !! t = Some e → ack_bounded t op qm = true →
  n + 1 < 2 ^ 64 → is_Some (semaphore (metadata e)) → queue_inv n e l →
  permit_inv e l → permit_inv e' l'.
Proof.
  intros Hs He Hb Hn Hsem [Hc Hd Hi Hq Hbuf Ho Hf Hx Hp Hl] [Po Pi Pl].
  destruct Hs as [op e l Hop|e l m c meta Ha Hts|e l m meta err Ha Hts|e l m c Hr|e l count|e l];
    try (destruct (try_acquire_frame _ _ _ Ha) as (Fc & Fd & Fi & Fs & Fl);
         destruct (try_acquire_out n _ _ Ha Hp Hn) as [Hout _];
         destruct Hsem as [av Hav]; rewrite Hav in Hout);
    [done| | |done| |done].
  - split; simpl; rewrite ?Hout, ?Fi, ?length_app; simpl;
      rewrite ?usize_wrap_id by (unfold usize_range; lia); lia.
  - split; simpl; rewrite ?Hout, ?Fi; simpl;
      rewrite ?(usize_wrap_id (_ + 1)) by (unfold usize_range; lia);
      rewrite ?usize_wrap_id by (unfold usize_range; lia); lia.
  - simpl in Hb. rewrite bool_decide_true in Hb by done. unfold get_inflight in Hb.
    rewrite He in Hb. simpl in Hb. apply andb_true_iff in Hb as [Hb1%Z.leb_le Hb2%Z.leb_le].
    unfold meta_ack. set (m1 := with_counters _ _ _ _ (metadata e)).
    destruct (release_permits_spec count m1 Hb1) as (_ & _ & Ri & _ & _ & Ro); [simpl; lia|].
    split; cbn [sender metadata log_ack ql_sent ql_acked ql_leaked]; rewrite ?Ri, ?Ro; subst m1;
      simpl; destruct Hsem as [av Hav]; rewrite ?Hav; unfold saturating_sub; lia.
Qed.

Lemma queue_run_permits t ops : ∀ n e qm l,
  qm !! t = Some e → Forall ack_count_ok ops → n + Z.of_nat (length ops) + 1 < 2 ^ 64 →
  acks_bounded t ops (qm, l) = true → is_Some (semaphore (metadata e)) →
  queue_inv n e l → permit_inv e l →
  ∃ e', (queue_run t ops (qm, l)).1 !! t = Some e' ∧ entry_frame e e' ∧
        permit_inv e' (queue_run t ops (qm, l)).2.
Proof.
  induction ops as [|op ops IH]; intros n e qm l He Hok Hn Hb Hsem Hi Hp.
  { by exists e. }
  inversion Hok as [|? ? Hop Hops]; simplify_eq. simpl length in *.
  cbn [acks_bounded fst] in Hb. apply andb_true_iff in Hb as [Hb1 Hb2].
  destruct (queue_step_entry t op qm l e He) as (e1 & He1 & Hs).
  destruct (queue_step t op (qm, l)) as [qm1 l1] eqn:E. cbn [fst snd] in *.
  pose proof (entry_step_inv _ n _ _ _ _ _ Hs Hop ltac:(lia) Hi) as Hi1.
  pose proof (entry_step_permits _ n _ _ _ _ _ _ Hs He Hb1 ltac:(lia) Hsem Hi Hp) as Hp1.
  destruct (entry_step_frame _ _ _ _ _ _ Hs) as (? & ? & Hse).
  destruct (IH (n + 1) e1 qm1 l1 He1 Hops ltac:(lia) Hb2 ltac:(by apply Hse) Hi1 Hp1)
    as (e' & He' & Hf & Hp').
  unfold queue_run in *. cbn [foldl]. rewrite E. exists e'. split; [done|]. split; [|done].
  destruct Hf as (? & ? & ?). unfold entry_frame. split_and!; [congruence..|etrans; done].
Qed.

(** Acknowledgements and permits leave the channels alone. *)
Definition same_senders (qm qm' : QueueManager) : Prop :=
  ∀ tp, sender <$> qm' !! tp = sender <$> qm !! tp.

Lemma queue_ack_senders tp n qm : same_senders qm (queue_ack tp n qm).
Proof.
  intros tp'. unfold queue_ack. destruct (decide (tp = tp')) as [->|]; [|by rewrite lookup_alter_ne].
  rewrite lookup_alter_eq. by destruct (qm !! tp').
Qed.

(** ** The properties *)

(** C10: a handler queue loses, duplicates and reorders nothing it accepted, and
    stays within its bound.  After any sequence of sends, receives,
    acknowledgements and closings, of this topic and of others: the accepted
    messages are the received ones followed by the buffered ones (unless the
    receiver was dropped); the buffer is within the capacity; the permits
    counted are within the limit; and the counter called queue depth is equal
    to the one of messages in flight, so it does not fall when a message is
    received. *)
Theorem queue_conservation t cap sem ops qm0 qm1 qm l :
  register_handler_with_semaphore t cap sem qm0 = Ret qm1 →
  0 ≤ cap →
  Forall ack_count_ok ops →
  Z.of_nat (length ops) + 1 < 2 ^ 64 →
  queue_run t ops (qm1, queue_log_new) = (qm, l) →
  ∃ e, qm !! t = Some e ∧
    (ch_closed (sender e) = false → ql_sent l = ql_recv l ++ ch_buffer (sender e)) ∧
    (∃ rest, ql_sent l = ql_recv l ++ rest) ∧
    Z.of_nat (length (ch_buffer (sender e))) ≤ cap ∧
    queue_depth (metadata e) = inflight (metadata e) ∧
    0 ≤ inflight (metadata e) ≤ Z.of_nat (length (ql_sent l)) ∧
    (∀ n, sem = Some n → 0 ≤ n → 0 ≤ outstanding_permits (metadata e) ≤ n).
Proof.
  intros Hreg Hcap Hok Hlen Hrun.
  destruct (register_inv _ _ _ _ _ Hreg Hcap) as (e0 & He0 & Hi0 & Hc0 & Hs0 & Hl0 & _ & _).
  destruct (queue_run_inv t ops 0 e0 qm1 queue_log_new He0 Hok ltac:(lia) Hi0)
    as (e & He & (Fc & Fl & Fs) & [Hc Hd Hi Hq Hb Ho [lost Hf] Hx Hp Hl]).
  rewrite Hrun in *. cbn [fst snd] in *. exists e. split_and!; eauto; try lia.
  intros n -> Hn. split; [lia|]. rewrite Fl, Hl0 in Hl. apply Hl; [|done].
  apply Fs. by rewrite Hs0.
Qed.

(** refused sends leak permits.  A send that finds the channel full or
    closed keeps the permit it counted, and no acknowledgement gives it back:
    the permits counted are the messages in flight plus all such sends.  Each
    of them lowers the concurrency limit of the topic by one for good: a send
    is refused for want of a permit as soon as the messages in flight reach
    the limit less the number of such sends, whatever room the channel has. *)
Theorem refused_sends_leak_permits t cap limit ops qm0 qm1 qm l :
  register_handler_with_semaphore t cap (Some limit) qm0 = Ret qm1 →
  0 ≤ cap →
  Forall ack_count_ok ops →
  Z.of_nat (length ops) + 1 < 2 ^ 64 →
  acks_bounded t ops (qm1, queue_log_new) = true →
  queue_run t ops (qm1, queue_log_new) = (qm, l) →
  ∃ e, qm !! t = Some e ∧
    inflight (metadata e) = Z.of_nat (length (ql_sent l)) - ql_acked l ∧
    outstanding_permits (metadata e) = inflight (metadata e) + ql_leaked l ∧
    (limit - ql_leaked l ≤ inflight (metadata e) →
     ∀ m, topic m = t → send m qm = (Err (Backpressure t permit_unavailable), qm)).
Proof.
  intros Hreg Hcap Hok Hlen Hacks Hrun.
  destruct (register_inv _ _ _ _ _ Hreg Hcap) as (e0 & He0 & Hi0 & Hc0 & Hs0 & Hl0 & Ho0 & Hf0).
  destruct (queue_run_permits t ops 0 e0 qm1 queue_log_new He0 Hok ltac:(lia) Hacks) 
    as (e & He & (Fc & Fl & Fs) & [Po Pi Pl]); [by rewrite Hs0|done|by split; simpl; lia|].
  rewrite Hrun in *. cbn [fst snd] in *. exists e. split_and!; [done..|].
  intros Hle m <-. unfold send. rewrite He. unfold try_acquire_semaphore.
  destruct (semaphore (metadata e)) as [av|] eqn:E.
  - rewrite Fl, Hl0. simpl default. destruct (Z.leb_spec limit (outstanding_permits (metadata e))); [done|lia].
  - rewrite Hs0 in Fs. destruct Fs as [_ Fs]. destruct Fs as [? Hx]; [done|]. congruence.
Qed.

(** ** Witnesses *)

(** The [fake] message of the source's tests. *)
Definition fake (t : string) (p o : Z) : OwnedMessage :=
  {| topic := t; partition := p; offset := o; key := None; payload := None;
     timestamp := NotAvailable; headers := [] |}.

Definition registered (t : string) (cap : Z) (sem : option Z) : QueueManager :=
  match register_handler_with_semaphore t cap sem queue_manager_new with
  | Ret qm => qm
  | Panic => ∅
  end.

(** Two messages are received and none is buffered: the queue depth is still 2. *)
Lemma queue_conservation_witness :
  let ops := [QSend (fake "t" 0 1); QSend (fake "t" 0 2); QSend (fake "t" 0 3); QRecv "t";
              QSend (fake "u" 0 1); QRecv "t"] in
  let r := queue_run "t" ops (registered "t" 2 (Some 9), queue_log_new) in
  (∃ e, r.1 !! "t" = Some e ∧ ql_sent r.2 = ql_recv r.2 ++ ch_buffer (sender e) ∧
        Z.of_nat (length (ch_buffer (sender e))) ≤ 2) ∧
  queue_snapshots r.1 !! "t" = Some (2, 2).
Proof.
  cbv zeta. split; [|vm_compute; reflexivity].
  edestruct (queue_conservation "t" 2 (Some 9)
    [QSend (fake "t" 0 1); QSend (fake "t" 0 2); QSend (fake "t" 0 3); QRecv "t";
     QSend (fake "u" 0 1); QRecv "t"] queue_manager_new)
    as (e & He & Hopen & _ & Hcap & _).
  - reflexivity.
  - lia.
  - repeat constructor.
  - vm_compute. reflexivity.
  - apply surjective_pairing.
  - exists e. split; [exact He|]. split; [|exact Hcap]. apply Hopen.
    vm_compute in He. injection He as <-. reflexivity.
Defined.

(** Capacity 1 and limit 2: after one send to a full queue, a single message in
    flight exhausts the permits of an empty channel. *)
Lemma refused_sends_leak_permits_witness :
  let ops := [QSend (fake "t" 0 1); QSend (fake "t" 0 2); QRecv "t"; QAck "t" 1;
              QSend (fake "t" 0 3); QRecv "t"] in
  let r := queue_run "t" ops (registered "t" 1 (Some 2), queue_log_new) in
  (∃ e, r.1 !! "t" = Some e ∧ ch_buffer (sender e) = [] ∧ inflight (metadata e) = 1) ∧
  send (fake "t" 0 9) r.1 = (Err (Backpressure "t" permit_unavailable), r.1).
Proof.
  cbv zeta. split; [vm_compute; eauto|].
  edestruct (refused_sends_leak_permits "t" 1 2
    [QSend (fake "t" 0 1); QSend (fake "t" 0 2); QRecv "t"; QAck "t" 1;
     QSend (fake "t" 0 3); QRecv "t"] queue_manager_new) as (e & He & _ & _ & Hall).
  - reflexivity.
  - lia.
  - repeat constructor; simpl; lia.
  - vm_compute. reflexivity.
  - vm_compute. reflexivity.
  - apply surjective_pairing.
  - apply Hall; [|reflexivity]. vm_compute in He. injection He as <-. vm_compute. discriminate.
Defined.
