(* ===== verification/Dispatcher.v ===== *)
(** * Consumer dispatcher (src/dispatcher/consumer_dispatcher.rs)

    The loop from the consumer stream to the handler queues, with the pause and
    resume of topics under backpressure. *)

From stdpp Require Import base gmap sets list strings pretty.
From S2P Require Import Prelude F64 Message Shutdown Runner Queue.

(** An entry of rdkafka's [TopicPartitionList] is a topic and a partition; the
    offsets it also carries play no part in a pause or a resume. *)
Abbreviation TopicPartitionList := (list (string * Z)).

Record ConsumerDispatcher := {
  dispatcher : QueueManager;
  partition_handles : gmap string TopicPartitionList;
  paused_topics : gset string;
  resume_threshold : f64;
  cd_trace : rd_trace
}.

Definition consumer_dispatcher_new : ConsumerDispatcher :=
  {| dispatcher := queue_manager_new; partition_handles := ∅; paused_topics := ∅;
     resume_threshold := f64_half; cd_trace := [] |}.

(** [ConsumerDispatcher::register_handler]. *)
Definition register_handler (t : string) (cap : Z) (max_concurrency : option Z)
    (s : ConsumerDispatcher) : outcome ConsumerDispatcher :=
  let? qm := register_handler_with_semaphore t cap max_concurrency (dispatcher s) in
  Ret {| dispatcher := qm; partition_handles := partition_handles s;
         paused_topics := paused_topics s; resume_threshold := resume_threshold s;
         cd_trace := cd_trace s |}.

Definition cd_with_queues (qm : QueueManager) (s : ConsumerDispatcher) : ConsumerDispatcher :=
  {| dispatcher := qm; partition_handles := partition_handles s;
     paused_topics := paused_topics s; resume_threshold := resume_threshold s;
     cd_trace := cd_trace s |}.

Definition cd_with_handles (h : gmap string TopicPartitionList) (s : ConsumerDispatcher)
    : ConsumerDispatcher :=
  {| dispatcher := dispatcher s; partition_handles := h;
     paused_topics := paused_topics s; resume_threshold := resume_threshold s;
     cd_trace := cd_trace s |}.

Definition cd_with_paused (p : gset string) (s : ConsumerDispatcher) : ConsumerDispatcher :=
  {| dispatcher := dispatcher s; partition_handles := partition_handles s;
     paused_topics := p; resume_threshold := resume_threshold s; cd_trace := cd_trace s |}.

Definition cd_with_trace (tr : rd_trace) (s : ConsumerDispatcher) : ConsumerDispatcher :=
  {| dispatcher := dispatcher s; partition_handles := partition_handles s;
     paused_topics := paused_topics s; resume_threshold := resume_threshold s; cd_trace := tr |}.

(** What the broker client answers during one turn: the current assignment, if
    it can be had, whether an entry can be added to a list, and the outcome of
    each call. *)
Record client := {
  assignment : option (list (string * Z));
  add_partition_ok : string * Z → bool;
  call_ok : RdCall → bool
}.

(** One element of the loop of [populate_partitions]. *)
Definition add_element (c : client) (by_topic : option (gmap string TopicPartitionList))
    (elem : string * Z) : option (gmap string TopicPartitionList) :=
  match by_topic with
  | None => None
  | Some m =>
      if add_partition_ok c elem then
        Some (<[elem.1 := default [] (m !! elem.1) ++ [elem]]> m)
      else None
  end.

(** [populate_partitions]: the handles are replaced only when every element
    could be added. *)
Definition populate_partitions (c : client) (s : ConsumerDispatcher) : bool * ConsumerDispatcher :=
  match assignment c with
  | None => (false, s)
  | Some elems =>
      match foldl (add_element c) (Some ∅) elems with
      | Some by_topic => (true, cd_with_handles by_topic s)
      | None => (false, s)
      end
  end.

Definition pause_partition (c : client) (t : string) (s : ConsumerDispatcher)
    : bool * ConsumerDispatcher :=
  match partition_handles s !! t with
  | Some tpl =>
      let '(ok, tr) := pause (call_ok c) tpl (cd_trace s) in (ok, cd_with_trace tr s)
  | None => (false, s)
  end.

Definition resume_partition (c : client) (t : string) (s : ConsumerDispatcher)
    : bool * ConsumerDispatcher :=
  match partition_handles s !! t with
  | Some tpl =>
      let '(ok, tr) := resume (call_ok c) tpl (cd_trace s) in (ok, cd_with_trace tr s)
  | None => (false, s)
  end.

Definition threshold (cap : Z) (s : ConsumerDispatcher) : Z :=
  f64_to_usize (f64_mul (f64_of_Z cap) (resume_threshold s)).

(** [check_resume]: the topic leaves the paused set before the resume is tried,
    and whether it succeeds is only logged. *)
Definition check_resume (c : client) (t : string) (current_depth : Z) (s : ConsumerDispatcher)
    : ConsumerDispatcher :=
  match get_capacity t (dispatcher s) with
  | None => s
  | Some cap =>
      if (current_depth <? threshold cap s) && bool_decide (t ∈ paused_topics s) then
        (resume_partition c t (cd_with_paused (paused_topics s ∖ {[t]}) s)).2
      else s
  end.

(** The backpressure branch of [run]. *)
Definition on_backpressure (c : client) (pause_topic : string) (s : ConsumerDispatcher)
    : ConsumerDispatcher :=
  let s :=
    if decide (partition_handles s = ∅) then (populate_partitions c s).2 else s in
  let '(ok, s) := pause_partition c pause_topic s in
  if ok then cd_with_paused ({[pause_topic]} ∪ paused_topics s) s else s.

(** One item of the stream; an [Err] item is only logged. *)
Definition run_item (c : client) (item : result OwnedMessage unit) (s : ConsumerDispatcher)
    : ConsumerDispatcher :=
  match item with
  | Err _ => s
  | Ok msg =>
      let '(outcome, pause_signal, qm) := send_with_policy_and_signal msg (dispatcher s) in
      let s := cd_with_queues qm s in
      match outcome with
      | Ok o => check_resume c (topic msg) (do_queue_depth o) s
      | Err (Backpressure _ _) =>
          match pause_signal with
          | Some (PausePartition pause_topic _) => on_backpressure c pause_topic s
          | _ => s
          end
      | Err _ => s
      end
  end.

(** The loop of [run] beside the receiving side of the queues. *)
Inductive cd_event :=
| CdItem (c : client) (item : result OwnedMessage unit)
| CdRecv (t : string)
| CdAck (t : string) (count : Z)
| CdClose (t : string).

Definition cd_step (s : ConsumerDispatcher) (e : cd_event) : ConsumerDispatcher :=
  match e with
  | CdItem c item => run_item c item s
  | CdRecv t => cd_with_queues (queue_recv t (dispatcher s)).2 s
  | CdAck t count => cd_with_queues (queue_ack t count (dispatcher s)) s
  | CdClose t => cd_with_queues (queue_close t (dispatcher s)) s
  end.

(** [run]: the handles are populated once before the loop if they can be. *)
Definition cd_run (c : client) (evs : list cd_event) (s : ConsumerDispatcher) : ConsumerDispatcher :=
  foldl cd_step (populate_partitions c s).2 evs.

(** ** Lemmas *)

(** What an event does to the queues is one operation on them. *)
Definition event_queue_op (e : cd_event) : option queue_op :=
  match e with
  | CdItem _ (Ok m) => Some (QSend m)
  | CdItem _ (Err _) => None
  | CdRecv t => Some (QRecv t)
  | CdAck t count => Some (QAck t count)
  | CdClose t => Some (QClose t)
  end.

Lemma populate_queues c s : dispatcher (populate_partitions c s).2 = dispatcher s.
Proof. unfold populate_partitions. repeat case_match; done. Qed.

Lemma check_resume_queues c t d s : dispatcher (check_resume c t d s) = dispatcher s.
Proof. unfold check_resume, resume_partition. repeat case_match; simplify_eq/=; done. Qed.

Lemma on_backpressure_queues c t s : dispatcher (on_backpressure c t s) = dispatcher s.
Proof.
  unfold on_backpressure. pose proof (populate_queues c s) as Hp.
  case_decide; destruct (pause_partition c t _) as [[] s'] eqn:E; simpl;
    unfold pause_partition in E; repeat case_match; simplify_eq/=; done.
Qed.

Lemma run_item_queues c m s :
  dispatcher (run_item c (Ok m) s) = (send m (dispatcher s)).2.
Proof.
  pose proof (send_paths_agree m (dispatcher s)) as Ha. simpl in Ha. rewrite Ha. simpl.
  unfold run_item. destruct (send_with_policy_and_signal m (dispatcher s)) as [[r sig] qm]. simpl.
  destruct r as [o|[]]; try done; [by rewrite check_resume_queues|].
  destruct sig as [[]|]; try done. by rewrite on_backpressure_queues.
Qed.

Lemma cd_step_queues t s e l :
  (queue_run t (option_list (event_queue_op e)) (dispatcher s, l)).1 = dispatcher (cd_step s e).
Proof.
  destruct e as [c [m|]|t'|t' n|t']; try done. cbn [cd_step]. by rewrite run_item_queues.
Qed.

Lemma queue_run_app t ops1 ops2 s :
  queue_run t (ops1 ++ ops2) s = queue_run t ops2 (queue_run t ops1 s).
Proof. unfold queue_run. by rewrite foldl_app. Qed.

Lemma cd_events_queues t evs : ∀ s l,
  (queue_run t (omap event_queue_op evs) (dispatcher s, l)).1 = dispatcher (foldl cd_step s evs).
Proof.
  induction evs as [|e evs IH]; intros s l; [done|].
  cbn [foldl]. rewrite <- (IH _ (queue_run t (option_list (event_queue_op e)) (dispatcher s, l)).2).
  rewrite <- (cd_step_queues t s e l), <- surjective_pairing, <- queue_run_app.
  f_equal. f_equal. cbn [omap list_omap]. by destruct (event_queue_op e).
Qed.

(** The messages of topic [t] the stream delivers. *)
Definition stream_of (t : string) (ops : list queue_op) : list OwnedMessage :=
  omap (λ op, match op with
              | QSend m => if bool_decide (topic m = t) then Some m else None
              | _ => None
              end) ops.

Definition event_messages (t : string) (evs : list cd_event) : list OwnedMessage :=
  stream_of t (omap event_queue_op evs).

Lemma log_send_sent t m r l :
  ql_sent (log_send t m r l) `sublist_of`
    ql_sent l ++ (if bool_decide (topic m = t) then [m] else []).
Proof.
  unfold log_send. case_bool_decide; simpl; [|by rewrite app_nil_r].
  repeat case_match; simpl; first [done | by apply sublist_inserts_r].
Qed.

Lemma queue_run_sent t ops : ∀ qm l,
  ql_sent (queue_run t ops (qm, l)).2 `sublist_of` ql_sent l ++ stream_of t ops.
Proof.
  induction ops as [|op ops IH]; intros qm l; [by rewrite app_nil_r|].
  unfold queue_run in *. cbn [foldl].
  destruct (queue_step t op (qm, l)) as [qm1 l1] eqn:E.
  etrans; [apply IH|]. destruct op as [m|t'|t' n|t']; cbn [queue_step] in E; simplify_eq.
  - pose proof (log_send_sent t m (send m qm).1 l) as Hs.
    unfold stream_of at 2. cbn [omap list_omap]. fold (stream_of t ops).
    case_bool_decide.
    + rewrite (cons_middle m), app_assoc. by apply sublist_app.
    + rewrite app_nil_r in Hs. by apply sublist_app.
  - apply sublist_app; [|done]. repeat case_match; done.
  - apply sublist_app; [|done]. repeat case_match; done.
  - done.
Qed.

(** ** Pausing and resuming *)

Definition touches_topic (t : string) (c : RdCall) : bool :=
  match c with
  | RdPause tps | RdResume tps => existsb (λ x, bool_decide (x.1 = t)) tps
  | _ => false
  end.

Definition resumes_topic (t : string) (c : RdCall) : bool :=
  match c with RdResume _ => touches_topic t c | _ => false end.

(** Every handle is filed under its own topic. *)
Definition handles_wf (h : gmap string TopicPartitionList) : Prop :=
  ∀ t tpl, h !! t = Some tpl → Forall (λ x, x.1 = t) tpl.

Lemma touches_other h t t' tpl :
  handles_wf h → h !! t' = Some tpl → t' ≠ t → existsb (λ x, bool_decide (x.1 = t)) tpl = false.
Proof.
  intros Hw Ht Hne. apply Hw in Ht. induction Ht as [|x tpl Hx _ IH]; simpl; [done|].
  rewrite IH, bool_decide_false by congruence. done.
Qed.

Lemma populate_wf c s :
  handles_wf (partition_handles s) → handles_wf (partition_handles (populate_partitions c s).2).
Proof.
  intros Hw. unfold populate_partitions. destruct (assignment c) as [elems|]; [|done].
  destruct (foldl (add_element c) (Some ∅) elems) as [m|] eqn:E; simpl; [|done].
  assert (Hgen : ∀ acc, (∀ m', acc = Some m' → handles_wf m') →
            ∀ m', foldl (add_element c) acc elems = Some m' → handles_wf m').
  { clear. induction elems as [|x elems IH]; intros acc Hacc m' Hf; simpl in Hf; [by apply Hacc|].
    eapply IH; [|exact Hf]. intros m1 Hm1. destruct acc as [m0|]; [|done]. simpl in Hm1.
    destruct (add_partition_ok c x); [|done]. simplify_eq. intros t tpl Ht.
    destruct (decide (x.1 = t)) as [<-|Hne].
    - rewrite lookup_insert_eq in Ht. simplify_eq. apply Forall_app. split; [|by constructor].
      destruct (m0 !! x.1) as [l|] eqn:El; simpl; [|constructor]. by apply (Hacc m0).
    - rewrite lookup_insert_ne in Ht by done. by apply (Hacc m0). }
  eapply Hgen; [|exact E]. intros m' [= <-] t tpl. by rewrite lookup_empty.
Qed.

(** One event that is not a message of topic [t] leaves the pause state of [t]
    alone. *)
Lemma cd_step_other t e s :
  handles_wf (partition_handles s) → event_messages t [e] = [] →
  let s' := cd_step s e in
  handles_wf (partition_handles s') ∧
  (t ∈ paused_topics s' ↔ t ∈ paused_topics s) ∧
  List.filter (touches_topic t) (cd_trace s') = List.filter (touches_topic t) (cd_trace s).
Proof.
  intros Hw He. destruct e as [c [m|]|t'|t' n|t']; try done. cbn [cd_step].
  assert (Hm : topic m ≠ t).
  { unfold event_messages, stream_of in He. simpl in He. by case_bool_decide. }
  unfold run_item. destruct (send_with_policy_and_signal m (dispatcher s)) as [[r sig] qm] eqn:Es.
  assert (Hsig : ∀ pt p, sig = Some (PausePartition pt p) → pt = topic m).
  { unfold send_with_policy_and_signal in Es. intros pt p ->. repeat case_match; by simplify_eq. }
  set (s1 := cd_with_queues qm s).
  assert (Hw1 : handles_wf (partition_handles s1)) by done.
  change (paused_topics s) with (paused_topics s1). change (cd_trace s) with (cd_trace s1).
  clearbody s1. clear s Es Hw. rename s1 into s.
  destruct r as [o|[]]; try done.
  - unfold check_resume, resume_partition, resume. repeat case_match; simplify_eq/=; try done.
    + split_and!; [done|set_solver|]. rewrite List.filter_app. simpl.
      erewrite touches_other by done. by rewrite app_nil_r.
    + split_and!; [done|set_solver|done].
  - destruct sig as [[ | |pt p| ]|]; try done. rewrite (Hsig _ _ eq_refl).
    unfold on_backpressure.
    set (s1 := if decide (partition_handles s = ∅) then _ else s).
    assert (handles_wf (partition_handles s1) ∧ paused_topics s1 = paused_topics s ∧
                  cd_trace s1 = cd_trace s) as (Hw2 & Hp2 & Ht2).
    { subst s1. case_decide; [|done]. split; [by apply populate_wf|].
      unfold populate_partitions. repeat case_match; done. }
    clearbody s1. rewrite <- Hp2, <- Ht2. unfold pause_partition.
    destruct (partition_handles s1 !! topic m) as [tpl|] eqn:Etp; simpl; [|done].
    destruct (call_ok c (RdPause tpl)); simpl;
      (split_and!; [done|set_solver|]; rewrite List.filter_app; simpl;
       erewrite touches_other by done; by rewrite app_nil_r).
Qed.

Lemma event_messages_cons t e evs :
  event_messages t (e :: evs) = event_messages t [e] ++ event_messages t evs.
Proof.
  unfold event_messages. cbn [omap list_omap]. destruct (event_queue_op e) as [op|]; [|done].
  unfold stream_of. cbn [omap list_omap]. by destruct op; try case_bool_decide.
Qed.

Lemma cd_events_other t evs : ∀ s,
  handles_wf (partition_handles s) → event_messages t evs = [] →
  let s' := foldl cd_step s evs in
  (t ∈ paused_topics s' ↔ t ∈ paused_topics s) ∧
  List.filter (touches_topic t) (cd_trace s') = List.filter (touches_topic t) (cd_trace s).
Proof.
  induction evs as [|e evs IH]; intros s Hw He; [done|].
  rewrite event_messages_cons in He. apply app_eq_nil in He as [He1 He2].
  destruct (cd_step_other t e s Hw He1) as (Hw1 & Hp1 & Ht1).
  destruct (IH _ Hw1 He2) as [Hp2 Ht2]. cbn [foldl]. split; [by rewrite Hp2|by rewrite Ht2].
Qed.

Lemma cd_step_handles e s :
  partition_handles s ≠ ∅ → partition_handles (cd_step s e) = partition_handles s.
Proof.
  intros Hh. destruct e as [c [m|]|t'|t' n|t']; try done. cbn [cd_step]. unfold run_item.
  destruct (send_with_policy_and_signal m (dispatcher s)) as [[r sig] qm].
  destruct r as [o|[]]; try done.
  - unfold check_resume, resume_partition. repeat case_match; simplify_eq/=; done.
  - destruct sig as [[]|]; try done. unfold on_backpressure. simpl.
    rewrite decide_False by done. unfold pause_partition. simpl. repeat case_match; simplify_eq/=; done.
Qed.

Lemma cd_events_handles evs : ∀ s,
  partition_handles s ≠ ∅ → partition_handles (foldl cd_step s evs) = partition_handles s.
Proof.
  induction evs as [|e evs IH]; intros s Hh; [done|]. cbn [foldl].
  rewrite IH; rewrite cd_step_handles; done.
Qed.

(** Without a handle a topic is never paused or resumed. *)
Lemma cd_step_no_handle t e s :
  handles_wf (partition_handles s) → partition_handles s ≠ ∅ → partition_handles s !! t = None →
  List.filter (touches_topic t) (cd_trace (cd_step s e)) =
  List.filter (touches_topic t) (cd_trace s).
Proof.
  intros Hw Hh Ht. destruct e as [c [m|]|t'|t' n|t']; try done. cbn [cd_step]. unfold run_item.
  destruct (send_with_policy_and_signal m (dispatcher s)) as [[r sig] qm].
  assert (Hf : ∀ t' tpl, partition_handles s !! t' = Some tpl →
             existsb (λ x, bool_decide (x.1 = t)) tpl = false).
  { intros t' tpl Htp. eapply touches_other; [exact Hw|exact Htp|]. congruence. }
  destruct r as [o|[]]; try done.
  - unfold check_resume, resume_partition, resume. repeat case_match; simplify_eq/=; try done.
    rewrite List.filter_app. simpl. erewrite Hf by done. by rewrite app_nil_r.
  - destruct sig as [[ | |pt p| ]|]; try done. unfold on_backpressure. simpl.
    rewrite decide_False by done. unfold pause_partition. simpl.
    destruct (partition_handles s !! pt) as [tpl|] eqn:E; [|done]. simpl.
    destruct (call_ok c (RdPause tpl)); simpl;
      rewrite List.filter_app; simpl; erewrite Hf by done; by rewrite app_nil_r.
Qed.

(** ** The properties *)

(** ordering through the dispatcher.  Whatever the stream yields and the
    broker client answers, the messages a topic's worker has received followed
    by those in its queue are messages of the stream for that topic, each at
    most once and in stream order. *)
Theorem dispatch_keeps_stream_order t cap limit c evs s0 s1 :
  register_handler t cap limit s0 = Ret s1 →
  0 ≤ cap →
  Forall ack_count_ok (omap event_queue_op evs) →
  Z.of_nat (length (omap event_queue_op evs)) + 1 < 2 ^ 64 →
  let s := cd_run c evs s1 in
  let log := (queue_run t (omap event_queue_op evs) (dispatcher s1, queue_log_new)).2 in
  ∃ e, dispatcher s !! t = Some e ∧
    (ql_recv log ++ ch_buffer (sender e)) `sublist_of` event_messages t evs ∧
    Z.of_nat (length (ch_buffer (sender e))) ≤ cap.
Proof.
  intros Hreg Hcap Hok Hlen s log. unfold register_handler in Hreg.
  destruct (register_handler_with_semaphore t cap limit _) as [qm|] eqn:Er; simplify_eq/=.
  destruct (register_inv _ _ _ _ _ Er Hcap) as (e0 & He0 & Hi0 & Hc0 & _).
  destruct (queue_run_inv t _ 0 e0 qm queue_log_new He0 Hok ltac:(lia) Hi0)
    as (e & He & (Fc & _) & [_ _ _ _ Hb _ [lost Hf] _ _ _]).
  exists e. subst s log. unfold cd_run. split_and!.
  - erewrite <- (cd_events_queues t evs _ queue_log_new), populate_queues. exact He.
  - etrans; [|apply (queue_run_sent t _ qm queue_log_new)]. rewrite Hf, app_assoc.
    by apply sublist_inserts_r.
  - by rewrite <- Hc0, <- Fc.
Qed.

(** C40: a message that meets backpressure is dropped.  When its queue is full
    the topic is paused (its handle being known and the broker client
    accepting the pause), but the message itself is in no queue afterwards:
    every buffer is as it was before. *)
Theorem backpressured_message_is_dropped c m s e tpl :
  dispatcher s !! topic m = Some e →
  fst (try_acquire_semaphore (metadata e)) = true →
  try_send m (sender e) = Err TsFull →
  partition_handles s !! topic m = Some tpl →
  call_ok c (RdPause tpl) = true →
  let s' := run_item c (Ok m) s in
  (∀ t, sender <$> dispatcher s' !! t = sender <$> dispatcher s !! t) ∧
  topic m ∈ paused_topics s' ∧
  cd_trace s' = cd_trace s ++ [RdPause tpl].
Proof.
  intros He Ha Hf Hh Hok s'.
  assert (Hne : partition_handles s ≠ ∅) by (intros E; rewrite E, lookup_empty in Hh; done).
  subst s'. unfold run_item, send_with_policy_and_signal. rewrite He.
  destruct (try_acquire_semaphore (metadata e)) as [? meta]; simpl in Ha; subst. simpl.
  rewrite Hf. unfold on_backpressure. simpl. rewrite decide_False by done.
  unfold pause_partition. simpl. rewrite Hh. simpl. rewrite Hok. simpl.
  split_and!; [|set_solver|done].
  intros t. destruct (decide (topic m = t)) as [<-|Hne'].
  - by rewrite lookup_insert_eq, He.
  - by rewrite lookup_insert_ne.
Qed.

(** a paused topic waits for one of its own messages.  In every run in
    which the stream yields no message of the topic (a paused topic is not
    fetched), the topic stays as paused as it was and no pause or resume call
    concerns it, however far its queue is drained. *)
Theorem paused_topic_needs_a_message t evs s :
  handles_wf (partition_handles s) →
  event_messages t evs = [] →
  let s' := foldl cd_step s evs in
  (t ∈ paused_topics s' ↔ t ∈ paused_topics s) ∧
  List.filter (touches_topic t) (cd_trace s') = List.filter (touches_topic t) (cd_trace s).
Proof. apply cd_events_other. Qed.

(** the partition handles are a snapshot.  Once any handle is known no
    event refreshes them, so a topic assigned later is never paused: with its
    queue full its messages are dropped one after the other. *)
Theorem handles_are_never_refreshed t evs s :
  handles_wf (partition_handles s) →
  partition_handles s ≠ ∅ →
  partition_handles s !! t = None →
  let s' := foldl cd_step s evs in
  partition_handles s' = partition_handles s ∧
  List.filter (touches_topic t) (cd_trace s') = List.filter (touches_topic t) (cd_trace s).
Proof.
  intros Hw Hne Ht. revert s Hw Hne Ht. induction evs as [|e evs IH]; intros s Hw Hne Ht; [done|].
  cbn [foldl]. pose proof (cd_step_handles e s Hne) as Hh.
  destruct (IH (cd_step s e)) as [Hh' Htr']; rewrite ?Hh; [done..|].
  simpl in Hh', Htr'. rewrite Hh', Htr', Hh. split; [done|]. by apply cd_step_no_handle.
Qed.

(** [check_resume] on every branch.  A topic is resumed exactly when it is
    paused and the depth is below the threshold; it then leaves the paused set
    whether or not the resume succeeds, so a failed resume is not retried. *)
Theorem check_resume_spec c t depth s e tpl :
  dispatcher s !! t = Some e →
  partition_handles s !! t = Some tpl →
  let s' := check_resume c t depth s in
  if (depth <? threshold (capacity (metadata e)) s) && bool_decide (t ∈ paused_topics s) then
    paused_topics s' = paused_topics s ∖ {[t]} ∧ cd_trace s' = cd_trace s ++ [RdResume tpl]
  else s' = s.
Proof.
  intros He Ht s'. subst s'. unfold check_resume, get_capacity. rewrite He. simpl.
  destruct (_ && _); [|done]. unfold resume_partition. simpl. by rewrite Ht.
Qed.

(** The threshold is half of the capacity, rounded down, for every capacity up
    to 4000 (the default queue has 1000 places). *)
Lemma threshold_is_half :
  forallb (λ n, threshold n consumer_dispatcher_new =? n / 2) (seqZ 1 4000) = true.
Proof. vm_compute. reflexivity. Qed.

(** ** Witnesses *)

Definition good_client : client :=
  {| assignment := Some [("t", 0); ("t", 1); ("u", 0)]; add_partition_ok := λ _, true;
     call_ok := λ _, true |}.

Definition demo_dispatcher (cap : Z) : ConsumerDispatcher :=
  match register_handler "t" cap None consumer_dispatcher_new with
  | Ret s => s
  | Panic => consumer_dispatcher_new
  end.

Definition demo_items (offsets : list Z) : list cd_event :=
  (λ o, CdItem good_client (Ok (fake "t" 0 o))) <$> offsets.

Lemma dispatch_keeps_stream_order_witness :
  let evs := demo_items [1; 2; 3] ++ [CdRecv "t"; CdAck "t" 1] ++ demo_items [4] in
  (∃ e, dispatcher (cd_run good_client evs (demo_dispatcher 2)) !! "t" = Some e ∧
        Z.of_nat (length (ch_buffer (sender e))) ≤ 2) ∧
  event_messages "t" evs = fake "t" 0 <$> [1; 2; 3; 4].
Proof.
  cbv zeta. split; [|vm_compute; reflexivity].
  edestruct (dispatch_keeps_stream_order "t" 2 None good_client
    (demo_items [1; 2; 3] ++ [CdRecv "t"; CdAck "t" 1] ++ demo_items [4])
    consumer_dispatcher_new (demo_dispatcher 2)) as (e & He & _ & Hb).
  - reflexivity.
  - lia.
  - repeat constructor; simpl; lia.
  - vm_compute. reflexivity.
  - exists e. split; [exact He|exact Hb].
Defined.

Lemma backpressured_message_is_dropped_witness :
  let s := cd_run good_client (demo_items [1]) (demo_dispatcher 1) in
  let s' := run_item good_client (Ok (fake "t" 0 2)) s in
  (∀ t, sender <$> dispatcher s' !! t = sender <$> dispatcher s !! t) ∧
  "t" ∈ paused_topics s' ∧ cd_trace s' = cd_trace s ++ [RdPause [("t", 0); ("t", 1)]].
Proof.
  cbv zeta.
  eapply (backpressured_message_is_dropped good_client (fake "t" 0 2)
            (cd_run good_client (demo_items [1]) (demo_dispatcher 1)));
    [vm_compute; reflexivity|vm_compute; reflexivity|vm_compute; reflexivity|
     vm_compute; reflexivity|vm_compute; reflexivity].
Defined.

(** Paused by the second message, the topic is still paused with its queue
    empty and everything acknowledged. *)
Lemma paused_topic_needs_a_message_witness :
  let s := cd_run good_client (demo_items [1; 2]) (demo_dispatcher 1) in
  let s' := foldl cd_step s [CdRecv "t"; CdAck "t" 1; CdItem good_client (Ok (fake "u" 0 7))] in
  ("t" ∈ paused_topics s' ↔ "t" ∈ paused_topics s) ∧ bool_decide ("t" ∈ paused_topics s') = true.
Proof.
  cbv zeta. split; [|vm_compute; reflexivity].
  eapply (paused_topic_needs_a_message "t" [CdRecv "t"; CdAck "t" 1; CdItem good_client (Ok (fake "u" 0 7))]
            (cd_run good_client (demo_items [1; 2]) (demo_dispatcher 1))); [|vm_compute; reflexivity].
  intros t tpl Ht. apply (elem_of_map_to_list _ t tpl) in Ht.
  vm_compute in Ht. repeat (apply elem_of_cons in Ht as [Ht|Ht]; [injection Ht as -> ->; repeat constructor|]).
  inversion Ht.
Defined.

Lemma handles_are_never_refreshed_witness :
  let s := cd_run good_client [] (demo_dispatcher 1) in
  let s' := foldl cd_step s [CdItem good_client (Ok (fake "v" 0 7)); CdItem good_client (Ok (fake "v" 0 8))] in
  partition_handles s' = partition_handles s ∧
  List.filter (touches_topic "v") (cd_trace s') = [].
Proof.
  cbv zeta.
  eapply (handles_are_never_refreshed "v" [CdItem good_client (Ok (fake "v" 0 7)); CdItem good_client (Ok (fake "v" 0 8))]
            (cd_run good_client [] (demo_dispatcher 1)));
    [|vm_compute; discriminate|vm_compute; reflexivity].
  intros t tpl Ht. apply (elem_of_map_to_list _ t tpl) in Ht.
  vm_compute in Ht. repeat (apply elem_of_cons in Ht as [Ht|Ht]; [injection Ht as -> ->; repeat constructor|]).
  inversion Ht.
Defined.

Lemma check_resume_spec_witness :
  let s := cd_run good_client (demo_items [1; 2; 3; 4; 5; 6]) (demo_dispatcher 5) in
  let s' := check_resume {| assignment := None; add_partition_ok := λ _, true; call_ok := λ _, false |}
              "t" 1 s in
  paused_topics s' = paused_topics s ∖ {["t"]} ∧
  cd_trace s' = cd_trace s ++ [RdResume [("t", 0); ("t", 1)]].
Proof.
  cbv zeta. set (s := cd_run good_client (demo_items [1; 2; 3; 4; 5; 6]) (demo_dispatcher 5)).
  destruct (dispatcher s !! "t") as [e|] eqn:He; [|vm_compute in He; discriminate].
  pose proof (check_resume_spec
    {| assignment := None; add_partition_ok := λ _, true; call_ok := λ _, false |}
    "t" 1 s e [("t", 0); ("t", 1)] He ltac:(vm_compute; reflexivity)) as H.
  replace ((1 <? threshold (capacity (metadata e)) s) && bool_decide ("t" ∈ paused_topics s))
    with true in H; [exact H|].
  vm_compute in He. injection He as <-. vm_compute. reflexivity.
Defined.
