(* ===== verification/Execution.v ===== *)
(** * Handler execution (src/execution, src/middleware)

    The execution context and results, the invocation of a Python handler in
    its modes with timeouts, and the middleware chain around it.  Python code is
    outside the repository: a callable is given by what it does on its arguments
    at one call. *)

From stdpp Require Import base gmap sets list strings pretty.
From S2P Require Import Prelude Metrics F64 Failure Message Retry.

(** ** Context (src/execution/context.rs) *)

Record ExecutionContext := {
  ctx_topic : string;
  ctx_partition : Z;
  ctx_offset : Z;
  ctx_worker_id : nat;
  ctx_trace : TraceContext;
  ctx_branch_id : option Z;
  ctx_fan_out_id : option Z;
  ctx_source_topic : string
}.

Definition context_new (t : string) (p o : Z) (worker_id : nat) : ExecutionContext :=
  {| ctx_topic := t; ctx_partition := p; ctx_offset := o; ctx_worker_id := worker_id;
     ctx_trace := trace_default; ctx_branch_id := None; ctx_fan_out_id := None;
     ctx_source_topic := "" |}.

Definition with_trace (t : string) (p o : Z) (worker_id : nat) (trace : TraceContext)
    (branch fan_out : option Z) (source : string) : ExecutionContext :=
  {| ctx_topic := t; ctx_partition := p; ctx_offset := o; ctx_worker_id := worker_id;
     ctx_trace := trace; ctx_branch_id := branch; ctx_fan_out_id := fan_out;
     ctx_source_topic := source |}.

(** ** Results (src/execution/execution_result.rs) *)

Record TimeoutInfo := { timeout_ms : Z; last_processed_offset : option Z }.

Inductive ExecutionResult :=
| ResOk
| ResError (reason : FailureReason) (exception traceback : string)
| ResRejected (reason : FailureReason) (reason_str : string)
| ResTimeout (info : TimeoutInfo).

Definition is_ok (r : ExecutionResult) : bool := match r with ResOk => true | _ => false end.
Definition is_error (r : ExecutionResult) : bool := match r with ResError _ _ _ => true | _ => false end.
Definition is_rejected (r : ExecutionResult) : bool :=
  match r with ResRejected _ _ => true | _ => false end.
Definition is_timeout (r : ExecutionResult) : bool :=
  match r with ResTimeout _ => true | _ => false end.

Definition error_type_label (r : ExecutionResult) : string :=
  match r with
  | ResOk => "ok"
  | ResError _ _ _ => "error"
  | ResRejected _ _ => "rejected"
  | ResTimeout _ => "timeout"
  end.

Inductive BatchExecutionResult :=
| AllSuccess (offsets : list Z)
| AllFailure (reason : FailureReason).

Definition is_all_success (r : BatchExecutionResult) : bool :=
  match r with AllSuccess _ => true | AllFailure _ => false end.
Definition is_all_failure (r : BatchExecutionResult) : bool :=
  match r with AllFailure _ => true | AllSuccess _ => false end.

(** ** Arguments of the callback *)

Inductive PyVal :=
| PyStr (s : string)
| PyInt (n : Z)
| PyBytes (b : option (list Byte.byte))
| PyHeaders (h : list (string * option (list Byte.byte)))
| PyStrDict (d : gmap string string).

Abbreviation PyDict := (gmap string PyVal).

(** The [timestamp] item: 0 when the broker gave none. *)
Definition py_timestamp (ts : MessageTimestamp) : Z :=
  match ts with
  | NotAvailable => 0
  | CreateTime t => t
  | LogAppendTime t => t
  end.

(** [message_to_pydict]. *)
Definition message_to_pydict (msg : OwnedMessage) (trace_context : option (gmap string string))
    : PyDict :=
  let d : PyDict :=
    <["headers" := PyHeaders (headers msg)]>
    (<["timestamp" := PyInt (py_timestamp (timestamp msg))]>
    (<["payload" := PyBytes (payload msg)]>
    (<["key" := PyBytes (key msg)]>
    (<["offset" := PyInt (offset msg)]>
    (<["partition" := PyInt (partition msg)]>
    (<["topic" := PyStr (topic msg)]> ∅)))))) in
  match trace_context with
  | Some ctx => <["_trace_context" := PyStrDict ctx]> d
  | None => d
  end.

Definition set_opt (k : string) (v : option string) (d : PyDict) : PyDict :=
  match v with Some s => <[k := PyStr s]> d | None => d end.

(** [ctx_to_pydict]. *)
Definition ctx_to_pydict (ctx : ExecutionContext) (msg : OwnedMessage) : PyDict :=
  let d : PyDict :=
    <["headers" := PyHeaders (headers msg)]>
    (<["timestamp" := PyInt (py_timestamp (timestamp msg))]>
    (<["offset" := PyInt (ctx_offset ctx)]>
    (<["partition" := PyInt (ctx_partition ctx)]>
    (<["topic" := PyStr (ctx_topic ctx)]> ∅)))) in
  <["source_topic" := PyStr (ctx_source_topic ctx)]>
  (set_opt "trace_flags" (trace_flags (ctx_trace ctx))
  (set_opt "span_id" (span_id (ctx_trace ctx))
  (set_opt "trace_id" (trace_id (ctx_trace ctx)) d))).

(** ** Handler (src/execution/callback.rs) *)

Inductive HandlerMode := SingleSync | BatchSync.

#[export] Instance HandlerMode_eq_dec : EqDecision HandlerMode.
Proof. solve_decision. Defined.

Definition mode_as_str (m : HandlerMode) : string :=
  match m with SingleSync => "SingleSync" | BatchSync => "BatchSync" end.

Definition mode_from_opt_str (s : option string) : HandlerMode :=
  match s with
  | Some "batch_sync" => BatchSync
  | _ => SingleSync
  end.

Record BatchPolicy := { max_batch_size : Z; max_batch_wait_ms : Z }.

Definition batch_policy_default : BatchPolicy := {| max_batch_size := 1; max_batch_wait_ms := 0 |}.

(** One call into Python: it returns, raises, or its blocking task panics; it
    takes [py_duration] nanoseconds.  [name] is the type name of the exception
    when it can be read. *)
Inductive PyOutcome :=
| PyReturned
| PyRaised (err : PyErr) (name : option string)
| PyPanicked.

Record PyCall := { py_outcome : PyOutcome; py_duration : Z }.

(** What the callable is given, and how it behaves on it at one call. *)
Inductive PyArgs :=
| ArgsSingle (py_msg py_ctx : PyDict)
| ArgsBatch (py_batch : list PyDict).

Abbreviation Callback := (PyArgs → PyCall).

(** The middleware of a handler is known by the type names of its objects. *)
Record PythonHandler := {
  h_retry_policy : option RetryPolicy;
  h_mode : HandlerMode;
  h_batch_policy : option BatchPolicy;
  handler_timeout : option Z;
  h_name : string;
  h_middleware : option (list string)
}.

(** [PythonHandler::invoke]: the message and the context, with the trace context
    of the headers. *)
Definition single_args (ctx : ExecutionContext) (msg : OwnedMessage) : PyArgs :=
  let trace_context := inject_trace_context (header_map (headers msg)) ∅ in
  ArgsSingle (message_to_pydict msg (Some trace_context)) (ctx_to_pydict ctx msg).

Definition invoke (ctx : ExecutionContext) (msg : OwnedMessage) (callback : Callback)
    : ExecutionResult :=
  match py_outcome (callback (single_args ctx msg)) with
  | PyReturned => ResOk
  | PyRaised err name => ResError (classify err) (default "Unknown" name) (py_display err)
  | PyPanicked => ResError (ReasonTerminal HandlerPanic) "Panic" "spawn_blocking task panicked"
  end.

(** [PythonHandler::invoke_batch]: every message carries the trace context of
    the first one. *)
Definition batch_args (messages : list OwnedMessage) : PyArgs :=
  let hdrs := match messages with msg :: _ => header_map (headers msg) | [] => ∅ end in
  let trace_context := inject_trace_context hdrs ∅ in
  ArgsBatch ((λ msg, message_to_pydict msg (Some trace_context)) <$> messages).

Definition invoke_batch (messages : list OwnedMessage) (callback : Callback)
    : BatchExecutionResult :=
  match py_outcome (callback (batch_args messages)) with
  | PyReturned => AllSuccess (offset <$> messages)
  | PyRaised err _ => AllFailure (classify err)
  | PyPanicked => AllFailure (ReasonTerminal HandlerPanic)
  end.

(** [PythonHandler::invoke_mode]: a batch handler gets a batch of one. *)
Definition invoke_mode (h : PythonHandler) (ctx : ExecutionContext) (msg : OwnedMessage)
    (callback : Callback) : ExecutionResult :=
  match h_mode h with
  | SingleSync => invoke ctx msg callback
  | BatchSync =>
      match invoke_batch [msg] callback with
      | AllSuccess _ => ResOk
      | AllFailure reason => ResError reason "BatchHandlerError" "Batch handler failed"
      end
  end.

(** What [invoke_mode] gives to the callable. *)
Definition handler_args (h : PythonHandler) (ctx : ExecutionContext) (msg : OwnedMessage) : PyArgs :=
  match h_mode h with SingleSync => single_args ctx msg | BatchSync => batch_args [msg] end.

(** [PythonHandler::invoke_mode_batch]. *)
Definition invoke_mode_batch (h : PythonHandler) (messages : list OwnedMessage)
    (callback : Callback) : outcome BatchExecutionResult :=
  match h_mode h with
  | BatchSync => Ret (invoke_batch messages callback)
  | SingleSync => Panic
  end.

(** ** Middleware (src/middleware) *)

Inductive Middleware := MwLogging | MwMetrics | MwPython (type_name : string).

(** The type-name detection of [build_middleware_chain]. *)
Definition middleware_of (type_name : string) : Middleware :=
  match type_name with
  | "Logging" => MwLogging
  | "Metrics" => MwMetrics
  | _ => MwPython type_name
  end.

(** [MiddlewareChain]: its middleware in the order of the calls of
    [add_middleware]. *)
Definition MiddlewareChain : Type := list Middleware.
Definition middleware_chain_new : MiddlewareChain := [].
Definition add_middleware (m : Middleware) (chain : MiddlewareChain) : MiddlewareChain := chain ++ [m].

Definition build_middleware_chain (middleware : list string) : MiddlewareChain :=
  foldl (λ chain inst, add_middleware (middleware_of inst) chain) middleware_chain_new middleware.

(** The calls a chain makes on its middleware. *)
Inductive MwCall :=
| MwBefore (m : Middleware)
| MwAfter (m : Middleware) (label : string) (elapsed_ms : Z)
| MwOnError (m : Middleware) (label : string).

Definition before_all (chain : MiddlewareChain) : list MwCall :=
  foldl (λ tr m, tr ++ [MwBefore m]) [] chain.

Definition after_all (chain : MiddlewareChain) (r : ExecutionResult) (elapsed : Z) : list MwCall :=
  foldl (λ tr m, tr ++ [MwAfter m (error_type_label r) (as_millis elapsed)]) [] (rev chain).

Definition on_error_all (chain : list Middleware) (r : ExecutionResult) : list MwCall :=
  foldl (λ tr m, tr ++ [MwOnError m (error_type_label r)]) [] (rev chain).

(** The hooks of the metrics middleware (middleware/metrics.rs) on its sink. *)
Definition metrics_labels (ctx : ExecutionContext) : MetricLabels :=
  labels_of [("handler_id", ctx_topic ctx); ("topic", ctx_topic ctx)].

Definition metrics_after {S : Type} `{MetricsSink S} (ctx : ExecutionContext) (r : ExecutionResult)
    (elapsed : Z) (s : S) : S :=
  let s := record_latency (metrics_labels ctx) elapsed s in
  if is_ok r then record_throughput (ctx_topic ctx) (ctx_topic ctx) "SingleSync" s else s.

Definition metrics_on_error {S : Type} `{MetricsSink S} (ctx : ExecutionContext) : S → S :=
  record_error (metrics_labels ctx).

(** tokio's [timeout]: the inner future is polled first, so a call that takes
    exactly the timeout completes. *)
Definition run_with_timeout (timeout : option Z) (h : PythonHandler) (ctx : ExecutionContext)
    (msg : OwnedMessage) (callback : Callback) : ExecutionResult :=
  match timeout with
  | Some t =>
      if py_duration (callback (handler_args h ctx msg)) <=? t then invoke_mode h ctx msg callback
      else ResTimeout {| timeout_ms := as_millis t; last_processed_offset := None |}
  | None => invoke_mode h ctx msg callback
  end.

Definition elapsed_of (timeout : option Z) (call : PyCall) : Z :=
  match timeout with Some t => Z.min t (py_duration call) | None => py_duration call end.

(** [invoke_mode_with_timeout_override]: the result and the middleware calls. *)
Definition invoke_mode_with_timeout_override (h : PythonHandler) (ctx : ExecutionContext)
    (msg : OwnedMessage) (timeout : option Z) (callback : Callback)
    : ExecutionResult * list MwCall :=
  let call := callback (handler_args h ctx msg) in
  let chain := build_middleware_chain <$> h_middleware h in
  let before := match chain with Some c => before_all c | None => [] end in
  let effective_timeout := match timeout with Some t => Some t | None => handler_timeout h end in
  let result := run_with_timeout effective_timeout h ctx msg callback in
  let after :=
    match chain with
    | Some c =>
        if is_ok result then after_all c result (elapsed_of effective_timeout call)
        else on_error_all c result
    | None => []
    end in
  (result, before ++ after).

(** [invoke_mode_with_timeout]: the handler's own timeout. *)
Definition invoke_mode_with_timeout (h : PythonHandler) (ctx : ExecutionContext)
    (msg : OwnedMessage) (callback : Callback) : ExecutionResult * list MwCall :=
  let call := callback (handler_args h ctx msg) in
  let chain := build_middleware_chain <$> h_middleware h in
  let before := match chain with Some c => before_all c | None => [] end in
  let result := run_with_timeout (handler_timeout h) h ctx msg callback in
  let after :=
    match chain with
    | Some c =>
        if is_ok result then after_all c result (elapsed_of (handler_timeout h) call)
        else on_error_all c result
    | None => []
    end in
  (result, before ++ after).

(** ** Lemmas *)

(** The items of the dictionary of a message. *)
Lemma message_to_pydict_items msg tc :
  let d := message_to_pydict msg (Some tc) in
  d !! "topic" = Some (PyStr (topic msg)) ∧ d !! "partition" = Some (PyInt (partition msg)) ∧
  d !! "offset" = Some (PyInt (offset msg)) ∧ d !! "key" = Some (PyBytes (key msg)) ∧
  d !! "payload" = Some (PyBytes (payload msg)) ∧ d !! "headers" = Some (PyHeaders (headers msg)) ∧
  d !! "_trace_context" = Some (PyStrDict tc).
Proof. unfold message_to_pydict. by simplify_map_eq. Qed.

Lemma invoke_mode_ok h ctx msg callback :
  is_ok (invoke_mode h ctx msg callback) = true ↔
  py_outcome (callback (handler_args h ctx msg)) = PyReturned.
Proof.
  unfold invoke_mode, handler_args, invoke, invoke_batch.
  destruct (h_mode h), (py_outcome _); done.
Qed.

Lemma run_with_timeout_ok timeout h ctx msg callback :
  let call := callback (handler_args h ctx msg) in
  is_ok (run_with_timeout timeout h ctx msg callback) = true ↔
  py_outcome call = PyReturned ∧ (∀ t, timeout = Some t → py_duration call ≤ t).
Proof.
  unfold run_with_timeout. simpl. destruct timeout as [t|].
  - destruct (Z.leb_spec (py_duration (callback (handler_args h ctx msg))) t).
    + rewrite invoke_mode_ok. split; [|by intros []]. intros ->. split; [done|by intros ? [= <-]].
    + simpl. split; [done|]. intros [_ Hd]. specialize (Hd t eq_refl). lia.
  - rewrite invoke_mode_ok. by split; [|intros []].
Qed.

