(* ===== verification/PoolState.v ===== *)
(** * Worker statuses (src/observability/runtime_snapshot.rs: [WorkerPoolState])

    What the workers publish about themselves for the runtime snapshot. *)

From stdpp Require Import base gmap list strings.
From S2P Require Import Prelude.

Inductive WorkerStatus :=
| StIdle
| StActive (handler_id topic : string) (partition offset : Z)
| StBusy (handler_id : string).

Definition WorkerPoolState : Type := gmap nat WorkerStatus.

(** [WorkerPoolState::new]: every worker idle. *)
Definition pool_state_new (n_workers : nat) : WorkerPoolState :=
  list_to_map ((λ id, (id, StIdle)) <$> seq 0 n_workers).

Definition set_active (worker_id : nat) (handler_id topic : string) (partition offset : Z) :
    WorkerPoolState → WorkerPoolState :=
  <[worker_id := StActive handler_id topic partition offset]>.

Definition set_busy (worker_id : nat) (handler_id : string) : WorkerPoolState → WorkerPoolState :=
  <[worker_id := StBusy handler_id]>.

Definition set_idle (worker_id : nat) : WorkerPoolState → WorkerPoolState := <[worker_id := StIdle]>.

Definition get_states (s : WorkerPoolState) : gmap nat WorkerStatus := s.

Lemma pool_state_new_idle n i : (i < n)%nat → pool_state_new n !! i = Some StIdle.
Proof.
  intros Hi. apply elem_of_list_to_map_1.
  - rewrite <- list_fmap_compose. rewrite list_fmap_id. apply NoDup_seq.
  - apply list_elem_of_fmap. exists i. split; [done|]. apply elem_of_seq. lia.
Qed.

Lemma lookup_set_status (s : WorkerPoolState) i j st :
  (<[i := st]> s : WorkerPoolState) !! j = if decide (i = j) then Some st else s !! j.
Proof. destruct (decide (i = j)) as [<-|Hij]; [apply lookup_insert_eq|by apply lookup_insert_ne]. Qed.
