(* ===== verification/Worker.v ===== *)
(** * Worker loop (src/worker_pool/worker.rs, mod.rs, state.rs)

    What happens to a message once a worker has it: the invocation, the handling
    of its result, the retry sleep and the return to idle.  The offset tracker is
    used through its interface. *)

From stdpp Require Import base gmap sets list strings pretty.
From S2P Require Import Prelude F64 Metrics Failure Message Shutdown Runner Dlq OffsetTracker OffsetProofs Retry Queue Execution PoolState.

(** ** Result of failure handling (mod.rs) *)

Inductive ExecutionAction :=
| ActAck
| ActRetry (delay : Z)
| ActDlq.

(** [WorkerState] (state.rs), and the two ways a worker's task is over. *)
Inductive WorkerState :=
| WIdle
| WProcessing (msg : OwnedMessage).

Definition is_processing (s : WorkerState) : bool :=
  match s with WProcessing _ => true | WIdle => false end.
Definition worker_message (s : WorkerState) : option OwnedMessage :=
  match s with WProcessing m => Some m | WIdle => None end.

(** The reason [handle_execution_failure] takes from a result; reaching it with
    a success is [unreachable!]. *)
Definition failure_of (r : ExecutionResult) : outcome FailureReason :=
  match r with
  | ResError reason _ _ => Ret reason
  | ResRejected reason _ => Ret reason
  | ResTimeout _ => Ret (ReasonTerminal HandlerPanic)
  | ResOk => Panic
  end.

Section worker.
Context {T : Type} `{OffsetCoordinator T} {R : Type} `{DlqRouter R}.
Context (router : R) (to_rfc3339 : Z → string).

(** What the workers share: the coordinators, the statuses they publish and the
    metrics sink, with the history of handled invocations. *)
Record worker_env := {
  we_retry : RetryCoordinator;
  we_queues : QueueManager;
  we_offsets : T;
  we_dlq : SharedDlqProducer;
  we_states : WorkerPoolState;
  we_sink : PrometheusSink;
  we_log : list (OwnedMessage * ExecutionResult)
}.

Definition we_with_retry (rc : RetryCoordinator) (e : worker_env) : worker_env :=
  {| we_retry := rc; we_queues := we_queues e; we_offsets := we_offsets e; we_dlq := we_dlq e;
     we_states := we_states e; we_sink := we_sink e; we_log := we_log e |}.
Definition we_with_queues (q : QueueManager) (e : worker_env) : worker_env :=
  {| we_retry := we_retry e; we_queues := q; we_offsets := we_offsets e; we_dlq := we_dlq e;
     we_states := we_states e; we_sink := we_sink e; we_log := we_log e |}.
Definition we_with_offsets (t : T) (e : worker_env) : worker_env :=
  {| we_retry := we_retry e; we_queues := we_queues e; we_offsets := t; we_dlq := we_dlq e;
     we_states := we_states e; we_sink := we_sink e; we_log := we_log e |}.
Definition we_with_dlq (p : SharedDlqProducer) (e : worker_env) : worker_env :=
  {| we_retry := we_retry e; we_queues := we_queues e; we_offsets := we_offsets e; we_dlq := p;
     we_states := we_states e; we_sink := we_sink e; we_log := we_log e |}.
Definition we_with_states (f : WorkerPoolState → WorkerPoolState) (e : worker_env) : worker_env :=
  {| we_retry := we_retry e; we_queues := we_queues e; we_offsets := we_offsets e; we_dlq := we_dlq e;
     we_states := f (we_states e); we_sink := we_sink e; we_log := we_log e |}.
Definition we_with_sink (f : PrometheusSink → PrometheusSink) (e : worker_env) : worker_env :=
  {| we_retry := we_retry e; we_queues := we_queues e; we_offsets := we_offsets e; we_dlq := we_dlq e;
     we_states := we_states e; we_sink := f (we_sink e); we_log := we_log e |}.
Definition we_logged (m : OwnedMessage) (r : ExecutionResult) (e : worker_env) : worker_env :=
  {| we_retry := we_retry e; we_queues := we_queues e; we_offsets := we_offsets e; we_dlq := we_dlq e;
     we_states := we_states e; we_sink := we_sink e; we_log := we_log e ++ [(m, r)] |}.

Definition ctx_key (ctx : ExecutionContext) : RetryKey :=
  (ctx_topic ctx, ctx_partition ctx, ctx_offset ctx).

(** The metadata of a dead letter: a timeout is reported in whole seconds. *)
Definition failure_metadata (ctx : ExecutionContext) (result : ExecutionResult)
    (reason : FailureReason) (attempts now : Z) : DlqMetadata :=
  dlq_metadata_new (ctx_topic ctx) (ctx_partition ctx) (ctx_offset ctx) (reason_to_string reason)
    (u32_wrap attempts) now now
    (match result with ResTimeout info => Some (timeout_ms info / 1000) | _ => None end)
    (match result with ResTimeout info => Execution.last_processed_offset info | _ => None end)
    None None.

Definition produce_letter (m : DlqMetadata) (msg : OwnedMessage) (p : SharedDlqProducer)
    : SharedDlqProducer :=
  let tp := route router m in
  (produce_async to_rfc3339 (tp_topic tp) (tp_partition tp) (default [] (payload msg)) (key msg) m p).1.

(** [handle_execution_failure]. *)
Definition handle_execution_failure (ctx : ExecutionContext) (msg : OwnedMessage)
    (result : ExecutionResult) (jitter : f64) (now : Z) (e : worker_env)
    : outcome (ExecutionAction * worker_env) :=
  let? reason := failure_of result in
  let? r := record_failure (ctx_key ctx) reason jitter (we_retry e) in
  let '(should_retry, should_dlq, delay) := r.1 in
  let e := we_with_retry r.2 e in
  match (if should_retry : bool then delay else None) with
  | Some d => Ret (ActRetry d, e)
  | None =>
      if should_dlq : bool then
        let metadata :=
          failure_metadata ctx result reason (Retry.attempt_count (ctx_key ctx) (we_retry e)) now in
        let e := we_with_dlq (produce_letter metadata msg (we_dlq e)) e in
        Ret (ActDlq, we_with_queues (queue_ack (topic msg) 1 (we_queues e)) e)
      else
        Ret (ActAck, we_with_queues (queue_ack (topic msg) 1 (we_queues e)) e)
  end.

(** [handle_execution_result]. *)
Definition handle_execution_result (result : ExecutionResult) (ctx : ExecutionContext)
    (msg : OwnedMessage) (jitter : f64) (now : Z) (e : worker_env)
    : outcome (option ExecutionAction * worker_env) :=
  match result with
  | ResOk =>
      let e := we_with_retry (record_success (ctx_key ctx) (we_retry e)) e in
      let e := we_with_queues (queue_ack (topic msg) 1 (we_queues e)) e in
      let? t := record_ack (ctx_topic ctx) (ctx_partition ctx) (ctx_offset ctx) (we_offsets e) in
      Ret (None, we_with_offsets t e)
  | ResError reason _ _ | ResRejected reason _ =>
      let e := we_with_offsets
        (mark_failed (ctx_topic ctx) (ctx_partition ctx) (ctx_offset ctx) reason (we_offsets e)) e in
      let? r := handle_execution_failure ctx msg result jitter now e in
      Ret (Some r.1, r.2)
  | ResTimeout _ =>
      let reason := ReasonTerminal HandlerPanic in
      let e := we_with_offsets
        (mark_failed (ctx_topic ctx) (ctx_partition ctx) (ctx_offset ctx) reason (we_offsets e)) e in
      let? r := handle_execution_failure ctx msg result jitter now e in
      Ret (Some r.1, r.2)
  end.

(** ** The loop (worker.rs) *)

Context {HO : HashOrder string}.

(** [handler_for_topic]: any handler when the topic has none. *)
Definition handler_for_topic (handlers : gmap string PythonHandler) (t : string)
    : outcome PythonHandler :=
  match handlers !! t with
  | Some h => Ret h
  | None =>
      match hash_iter handlers with
      | (_, h) :: _ => Ret h
      | [] => Panic
      end
  end.

(** What is decided outside the worker during one turn of its loop: whether the
    shutdown token is cancelled at each point it is looked at, which ready branch
    [select!] takes when polling, the behaviour of the callable, the random draw,
    and the three durations measured for the metrics. *)
Record turn := {
  tn_cancelled_poll : bool;
  tn_take_message : bool;
  tn_callback : Callback;
  tn_jitter : f64;
  tn_now : Z;
  tn_queue_wait : Z;
  tn_call_elapsed : Z;
  tn_elapsed : Z;
  tn_cancelled_sleep : bool;
  tn_cancelled_after : bool
}.

Inductive poll_result :=
| PollMessage (m : OwnedMessage) (rest : list OwnedMessage)
| PollShutdown
| PollWait.

(** [poll_for_work]: when the token is cancelled and a message waits, [take] says
    which branch is taken; a closed and empty channel disables its branch. *)
Definition poll_for_work (cancelled take : bool) (rx : list OwnedMessage) : poll_result :=
  match rx with
  | m :: rest => if cancelled && negb take then PollShutdown else PollMessage m rest
  | [] => if cancelled then PollShutdown else PollWait
  end.

(** One worker: its state, its channel, whether its task is over, and the
    messages it passed on to the fan-out. *)
Record worker := {
  wk_state : WorkerState;
  wk_rx : list OwnedMessage;
  wk_stopped : bool;
  wk_fanned : list OwnedMessage
}.

Definition wk_set (s : WorkerState) (stopped : bool) (w : worker) : worker :=
  {| wk_state := s; wk_rx := wk_rx w; wk_stopped := stopped; wk_fanned := wk_fanned w |}.

Definition message_context (worker_id : nat) (msg : OwnedMessage) : ExecutionContext :=
  with_trace (topic msg) (partition msg) (offset msg) worker_id (message_trace msg) None None "".

(** The metrics of one invocation, in the order they are recorded. *)
Definition invocation_metrics {S : Type} `{MetricsSink S} (handler : PythonHandler) (ctx : ExecutionContext)
    (t : turn) (result : ExecutionResult) (s : S) : S :=
  let mode := mode_as_str (h_mode handler) in
  let labels := labels_of [("handler_id", ctx_topic ctx); ("topic", ctx_topic ctx); ("mode", mode)] in
  let s := record_queue_wait "handler" mode (tn_queue_wait t) s in
  let s := record_call "handler" mode (tn_call_elapsed t) 1 s in
  let s := record_invocation labels s in
  let s := record_latency labels (tn_elapsed t) s in
  let s := record_throughput (ctx_topic ctx) (h_name handler) mode s in
  let s :=
    if is_ok result then s
    else record_error (labels_of [("handler_id", ctx_topic ctx); ("error_type", error_type_label result)]) s in
  if is_timeout result then record_timeout (ctx_topic ctx) (h_name handler) s else s.

(** The processing half of a turn. *)
Definition process_message (handlers : gmap string PythonHandler) (worker_id : nat) (t : turn)
    (msg : OwnedMessage) (w : worker) (e : worker_env) : outcome (worker * worker_env) :=
  let ctx := message_context worker_id msg in
  let? handler := handler_for_topic handlers (topic msg) in
  let result := (invoke_mode_with_timeout handler ctx msg (tn_callback t)).1 in
  let e := we_with_sink (invocation_metrics handler ctx t result) (we_logged msg result e) in
  let? r := handle_execution_result result ctx msg (tn_jitter t) (tn_now t) e in
  let idle := we_with_states (set_idle worker_id) r.2 in
  match r.1 with
  | Some (ActRetry _) =>
      if tn_cancelled_sleep t then Ret (wk_set (WProcessing msg) true w, idle)
      else Ret (wk_set (WProcessing msg) false w, r.2)
  | _ =>
      if tn_cancelled_after t then Ret (wk_set (WProcessing msg) true w, idle)
      else
        Ret ({| wk_state := WIdle; wk_rx := wk_rx w; wk_stopped := false;
                wk_fanned := wk_fanned w ++ [msg] |}, idle)
  end.

(** One turn of [worker_loop]. *)
Definition worker_turn (handlers : gmap string PythonHandler) (worker_id : nat) (t : turn)
    (w : worker) (e : worker_env) : outcome (worker * worker_env) :=
  if wk_stopped w then Ret (w, e)
  else match wk_state w with
  | WProcessing msg => process_message handlers worker_id t msg w e
  | WIdle =>
      match poll_for_work (tn_cancelled_poll t) (tn_take_message t) (wk_rx w) with
      | PollShutdown => Ret (wk_set WIdle true w, e)
      | PollWait => Ret (w, e)
      | PollMessage msg rest =>
          process_message handlers worker_id t msg
            {| wk_state := WProcessing msg; wk_rx := rest; wk_stopped := false;
               wk_fanned := wk_fanned w |}
            (we_with_states (set_active worker_id (topic msg) (topic msg) (partition msg) (offset msg)) e)
      end
  end.

(** The turn in the steps between which the worker waits: it waits for a message,
    for the end of the call, and for the end of the back-off delay.  [cancelled]
    says whether the shutdown token is cancelled at that step. *)
Definition worker_poll (worker_id : nat) (cancelled take : bool) (w : worker) (e : worker_env)
    : worker * worker_env :=
  if wk_stopped w then (w, e)
  else match wk_state w with
  | WProcessing _ => (w, e)
  | WIdle =>
      match poll_for_work cancelled take (wk_rx w) with
      | PollShutdown => (wk_set WIdle true w, e)
      | PollWait => (w, e)
      | PollMessage msg rest =>
          ({| wk_state := WProcessing msg; wk_rx := rest; wk_stopped := false;
              wk_fanned := wk_fanned w |},
           we_with_states (set_active worker_id (topic msg) (topic msg) (partition msg) (offset msg)) e)
      end
  end.

Definition turn_cancelled (after sleep : bool) (t : turn) : turn :=
  {| tn_cancelled_poll := tn_cancelled_poll t; tn_take_message := tn_take_message t;
     tn_callback := tn_callback t; tn_jitter := tn_jitter t; tn_now := tn_now t;
     tn_queue_wait := tn_queue_wait t; tn_call_elapsed := tn_call_elapsed t; tn_elapsed := tn_elapsed t;
     tn_cancelled_sleep := sleep; tn_cancelled_after := after |}.

Definition worker_process (handlers : gmap string PythonHandler) (worker_id : nat) (cancelled : bool)
    (t : turn) (w : worker) (e : worker_env) : outcome (worker * worker_env) :=
  if wk_stopped w then Ret (w, e)
  else match wk_state w with
  | WIdle => Ret (w, e)
  | WProcessing msg => process_message handlers worker_id (turn_cancelled cancelled false t) msg w e
  end.

(** A worker that still has its message after the call sleeps. *)
Definition is_sleeping (w : worker) : bool :=
  match wk_state w with WProcessing _ => negb (wk_stopped w) | WIdle => false end.

Definition worker_wake (worker_id : nat) (cancelled : bool) (w : worker) (e : worker_env)
    : worker * worker_env :=
  if cancelled then (wk_set (wk_state w) true w, we_with_states (set_idle worker_id) e) else (w, e).

(** A pool of such workers around one shared environment: any worker may take
    the next turn, and a message may arrive at any worker. *)
Inductive pool_event :=
| PvTurn (worker_id : nat) (t : turn)
| PvArrive (worker_id : nat) (m : OwnedMessage).

Definition pool_step (handlers : gmap string PythonHandler) (ev : pool_event)
    (s : list worker * worker_env) : outcome (list worker * worker_env) :=
  match ev with
  | PvTurn i t =>
      match s.1 !! i with
      | None => Ret s
      | Some w =>
          let? r := worker_turn handlers i t w s.2 in
          Ret (<[i := r.1]> s.1, r.2)
      end
  | PvArrive i m =>
      Ret (alter (λ w, {| wk_state := wk_state w; wk_rx := wk_rx w ++ [m];
                          wk_stopped := wk_stopped w; wk_fanned := wk_fanned w |}) i s.1, s.2)
  end.

Fixpoint pool_run (handlers : gmap string PythonHandler) (evs : list pool_event)
    (s : list worker * worker_env) : outcome (list worker * worker_env) :=
  match evs with
  | [] => Ret s
  | ev :: evs => let? s' := pool_step handlers ev s in pool_run handlers evs s'
  end.

(** The turns of one worker. *)
Fixpoint worker_turns (handlers : gmap string PythonHandler) (worker_id : nat) (ts : list turn)
    (s : worker * worker_env) : outcome (worker * worker_env) :=
  match ts with
  | [] => Ret s
  | t :: ts =>
      let? s' := worker_turn handlers worker_id t s.1 s.2 in
      worker_turns handlers worker_id ts s'
  end.

(** ** Lemmas *)

(** A turn is its steps. *)
Lemma worker_turn_steps handlers i t w e :
  worker_turn handlers i t w e =
  (let '(w1, e1) := worker_poll i (tn_cancelled_poll t) (tn_take_message t) w e in
   let? r := worker_process handlers i (tn_cancelled_after t) t w1 e1 in
   Ret (if is_sleeping r.1 then worker_wake i (tn_cancelled_sleep t) r.1 r.2 else r)).
Proof.
  assert (Hp : ∀ msg w1 e1, wk_state w1 = WProcessing msg →
    process_message handlers i t msg w1 e1 =
    let? r := process_message handlers i (turn_cancelled (tn_cancelled_after t) false t) msg w1 e1 in
    Ret (if is_sleeping r.1 then worker_wake i (tn_cancelled_sleep t) r.1 r.2 else r)).
  { intros msg w1 e1 Hw. unfold process_message, turn_cancelled, invocation_metrics.
    cbn [tn_callback tn_jitter tn_now tn_queue_wait tn_call_elapsed tn_elapsed tn_cancelled_sleep tn_cancelled_after].
    destruct (handler_for_topic _ _); [|done]. cbn [obind].
    destruct (handle_execution_result _ _ _ _ _ _) as [[[[]|] e2]|]; cbn [obind fst snd];
      try (by repeat case_match); by destruct (tn_cancelled_sleep t). }
  unfold worker_turn, worker_poll, worker_process. destruct (wk_stopped w) eqn:Es.
  { rewrite Es. cbn [obind fst snd]. unfold is_sleeping. rewrite Es. by destruct (wk_state w). }
  destruct (wk_state w) as [|msg] eqn:Ew.
  - destruct (poll_for_work _ _ (wk_rx w)) as [msg rest| |]; cbn [wk_stopped wk_state wk_set].
    + by rewrite (Hp msg).
    + done.
    + rewrite Es, Ew. cbn [obind fst snd]. unfold is_sleeping. by rewrite Ew.
  - by rewrite Es, Ew, (Hp msg).
Qed.

(** The reason a failed result is marked and recorded with. *)
Definition result_reason (r : ExecutionResult) : FailureReason :=
  match r with
  | ResError reason _ _ | ResRejected reason _ => reason
  | _ => ReasonTerminal HandlerPanic
  end.

Lemma failure_of_reason r : r ≠ ResOk → failure_of r = Ret (result_reason r).
Proof. by destruct r. Qed.

Lemma handle_failed_result r ctx msg jitter now e :
  r ≠ ResOk →
  handle_execution_result r ctx msg jitter now e =
  (let e := we_with_offsets (mark_failed (ctx_topic ctx) (ctx_partition ctx) (ctx_offset ctx)
                               (result_reason r) (we_offsets e)) e in
   let? a := handle_execution_failure ctx msg r jitter now e in Ret (Some a.1, a.2)).
Proof. by destruct r. Qed.

(** Failure handling by the decision of the retry coordinator. *)
Lemma handle_failure_cases r ctx msg jitter now e a e' :
  r ≠ ResOk →
  handle_execution_failure ctx msg r jitter now e = Ret (a, e') →
  ∃ rc', we_retry e' = rc' ∧ we_offsets e' = we_offsets e ∧ we_log e' = we_log e ∧
  ((∃ d, a = ActRetry d ∧
         record_failure (ctx_key ctx) (result_reason r) jitter (we_retry e) =
           Ret ((true, false, Some d), rc') ∧
         we_queues e' = we_queues e ∧ we_dlq e' = we_dlq e) ∨
   (a = ActDlq ∧
    record_failure (ctx_key ctx) (result_reason r) jitter (we_retry e) = Ret (to_dlq, rc') ∧
    we_queues e' = queue_ack (topic msg) 1 (we_queues e) ∧
    we_dlq e' = produce_letter
      (failure_metadata ctx r (result_reason r) (Retry.attempt_count (ctx_key ctx) rc') now)
      msg (we_dlq e))).
Proof.
  intros Hr. unfold handle_execution_failure. rewrite failure_of_reason by done. cbn [obind].
  destruct (record_failure (ctx_key ctx) (result_reason r) jitter (we_retry e)) as [[d rc']|] eqn:E;
    [|done]. cbn [obind fst snd].
  destruct (record_failure_decision _ _ _ _ _ _ E) as [->|(delay & -> & _)];
    unfold to_dlq; cbv iota; intros [= <- <-]; exists rc'; (split_and!; [done..|]).
  - right. done.
  - left. by exists delay.
Qed.

(** ** The properties *)


(** One processing turn from a message that has failed [n] times retryably: it
    ends idle, or in the same state with one more failure. *)
Lemma process_turn `{!OffsetCoordinatorLaws T} handlers worker_id t msg w e n :
  let p := default_policy (we_retry e) in
  0 ≤ max_attempts p < 2 ^ 64 → 0 ≤ offset msg →
  is_ret (handler_for_topic handlers (topic msg)) = true →
  tn_cancelled_sleep t = false → tn_cancelled_after t = false →
  rc_state (we_retry e) !! (topic msg, partition msg, offset msg) = state_after (max_attempts p) n →
  (Z.of_nat n + 1 < max_attempts p →
     is_ret (next_delay (schedule p) (Z.of_nat n) (tn_jitter t)) = true) →
  ∃ w' e', process_message handlers worker_id t msg w e = Ret (w', e') ∧
    (∃ r, we_log e' = we_log e ++ [(msg, r)]) ∧
    default_policy (we_retry e') = p ∧
    (wk_state w' = WIdle ∨
     (wk_state w' = WProcessing msg ∧ wk_stopped w' = false ∧ Z.of_nat n + 1 < max_attempts p ∧
      rc_state (we_retry e') !! (topic msg, partition msg, offset msg) =
        state_after (max_attempts p) (S n))).
Proof.
  intros p HM Ho Hh Hs Ha Hst Hd. unfold process_message.
  destruct (handler_for_topic handlers (topic msg)) as [h|]; [|done]. cbn [obind].
  set (ctx := message_context worker_id msg).
  set (r := (invoke_mode_with_timeout h ctx msg (tn_callback t)).1).
  clearbody r. assert (r = ResOk ∨ r ≠ ResOk) as [->|Hr] by (destruct r; auto).
  { simpl. pose proof (record_ack_defined (topic msg) (partition msg) (offset msg) (we_offsets e) Ho) as Hok.
    destruct (record_ack _ _ _ _) as [t'|]; [|done]. simpl. rewrite Ha. eexists _, _.
    split; [done|]. simpl. split; [by eexists|]. split; [done|by left]. }
  rewrite handle_failed_result by done. cbv zeta. unfold handle_execution_failure.
  rewrite failure_of_reason by done. cbn [obind we_retry we_with_offsets we_with_sink we_logged].
  change (ctx_key ctx) with (topic msg, partition msg, offset msg).
  destruct (decide (category (result_reason r) = Retryable)) as [Hc|Hc].
  - destruct (record_failure_step _ _ (tn_jitter t) _ n Hc HM Hst Hd)
      as (d & rc' & Hrf & Hp & Hs' & Hdec). rewrite Hrf. cbn [obind fst snd]. fold p in Hdec.
    destruct (Z.ltb_spec (Z.of_nat n + 1) (max_attempts p)) as [Hlt|Hge].
    + destruct Hdec as (delay & _ & ->). simpl. rewrite Hs. eexists _, _. split; [done|].
      simpl. split; [by eexists|]. split; [done|]. by right.
    + subst d. simpl. rewrite Ha. eexists _, _. split; [done|]. simpl.
      split; [by eexists|]. split; [done|by left].
  - unfold record_failure. rewrite bool_decide_false by done. simpl. rewrite Ha.
    eexists _, _. split; [done|]. simpl. split; [by eexists|]. split; [done|by left].
Qed.

(** A turn is one handled invocation; it publishes the worker as idle unless the
    message is to be retried. *)
Lemma process_message_inv handlers i t msg w e w' e' :
  process_message handlers i t msg w e = Ret (w', e') →
  ∃ h r a e1, handle_execution_result r (message_context i msg) msg (tn_jitter t) (tn_now t)
      (we_with_sink (invocation_metrics h (message_context i msg) t r) (we_logged msg r e)) = Ret (a, e1) ∧
    ((wk_state w' = WProcessing msg ∧ wk_stopped w' = false ∧ e' = e1) ∨
     ((wk_stopped w' = true ∨ wk_state w' = WIdle) ∧ e' = we_with_states (set_idle i) e1)).
Proof.
  unfold process_message. destruct (handler_for_topic handlers (topic msg)) as [h|]; [|done].
  cbn [obind]. set (r := (invoke_mode_with_timeout h (message_context i msg) msg (tn_callback t)).1). clearbody r.
  destruct (handle_execution_result r _ _ _ _ _) as [[a e1]|] eqn:E; [|done]. cbn [obind fst snd].
  intros Hp. exists h, r, a, e1. split; [done|].
  destruct a as [[]|]; repeat case_match; simplify_eq/=; auto.
Qed.

(** What processing a message leaves alone, when the worker is not cancelled:
    its channel, the policy, and the attempts of other messages. *)
Definition keeps (msg : OwnedMessage) (w : worker) (e : worker_env) (w' : worker) (e' : worker_env) : Prop :=
  wk_rx w' = wk_rx w ∧ wk_stopped w' = false ∧
  wk_fanned w' = wk_fanned w ++ (if is_processing (wk_state w') then [] else [msg]) ∧
  default_policy (we_retry e') = default_policy (we_retry e) ∧
  (∀ k, k ≠ (topic msg, partition msg, offset msg) →
     rc_state (we_retry e') !! k = rc_state (we_retry e) !! k).

Lemma handle_result_retry r ctx msg jitter now e a e' k :
  handle_execution_result r ctx msg jitter now e = Ret (a, e') → k ≠ ctx_key ctx →
  rc_state (we_retry e') !! k = rc_state (we_retry e) !! k ∧
  default_policy (we_retry e') = default_policy (we_retry e).
Proof.
  intros Hh Hk. assert (r = ResOk ∨ r ≠ ResOk) as [->|Hr] by (destruct r; auto).
  - simpl in Hh. destruct (record_ack _ _ _ _); [|done]. simplify_eq/=. by rewrite lookup_delete_ne.
  - rewrite handle_failed_result in Hh by done. cbv zeta in Hh.
    destruct (handle_execution_failure _ _ _ _ _ _) as [[a1 e1]|] eqn:E; simplify_eq/=.
    destruct (handle_failure_cases _ _ _ _ _ _ _ _ Hr E) as (rc & -> & _ & _ & Hc).
    destruct Hc as [(d & _ & Hrf & _)|(_ & Hrf & _)]; by apply (record_failure_other _ k _ _ _ _ _ Hrf).
Qed.

Lemma process_message_keeps handlers i t msg w e w' e' :
  process_message handlers i t msg w e = Ret (w', e') →
  tn_cancelled_sleep t = false → tn_cancelled_after t = false → keeps msg w e w' e'.
Proof.
  intros Hp Hs Ha. pose proof Hp as (h & r & a & e1 & Hh & Hc)%process_message_inv.
  assert (we_retry e' = we_retry e1) as Er by (destruct Hc as [(_ & _ & ->)|(_ & ->)]; done).
  assert (∀ k, k ≠ (topic msg, partition msg, offset msg) →
     rc_state (we_retry e') !! k = rc_state (we_retry e) !! k ∧
     default_policy (we_retry e') = default_policy (we_retry e)) as Hrc.
  { intros k Hk. rewrite Er. by apply (handle_result_retry _ _ _ _ _ _ _ _ k Hh). }
  assert (default_policy (we_retry e') = default_policy (we_retry e)) as Hpol.
  { apply (Hrc (topic msg, partition msg, offset msg + 1)). intros [=]. lia. }
  revert Hp. clear Hh Hc Er. unfold process_message. rewrite Hs, Ha.
  destruct (handler_for_topic handlers (topic msg)) as [h'|]; [|done]. cbn [obind].
  destruct (handle_execution_result _ _ _ _ _ _) as [[a2 e2]|]; [|done]. cbn [obind fst snd].
  unfold keeps. destruct a2 as [[]|]; intros [= <- <-]; simpl;
    (split_and!; [done|done|by rewrite ?app_nil_r|done|by intros k Hk; apply Hrc]).
Qed.

Lemma keeps_trans msg w1 e1 w2 e2 w3 e3 :
  wk_state w2 = WProcessing msg → keeps msg w1 e1 w2 e2 → keeps msg w2 e2 w3 e3 → keeps msg w1 e1 w3 e3.
Proof.
  intros Hw (A1 & A2 & A3 & A4 & A5) (B1 & B2 & B3 & B4 & B5). unfold keeps.
  rewrite Hw in A3. simpl in A3. rewrite app_nil_r in A3. rewrite B1, B3, B4, A1, A3, A4.
  split_and!; try done. intros k Hk. by rewrite B5, A5.
Qed.

Lemma turns_settle `{!OffsetCoordinatorLaws T} handlers worker_id msg ts : ∀ w e n,
  let p := default_policy (we_retry e) in
  0 ≤ max_attempts p < 2 ^ 64 → 0 ≤ offset msg →
  is_ret (handler_for_topic handlers (topic msg)) = true →
  Forall (λ t, tn_cancelled_sleep t = false ∧ tn_cancelled_after t = false) ts →
  wk_state w = WProcessing msg → wk_stopped w = false →
  rc_state (we_retry e) !! (topic msg, partition msg, offset msg) = state_after (max_attempts p) n →
  delays_defined p n (tn_jitter <$> ts) →
  (n = 0%nat ∨ Z.of_nat n < max_attempts p) →
  Z.max 1 (max_attempts p) ≤ Z.of_nat (n + length ts) →
  ∃ k w' e', (k ≤ length ts)%nat ∧ Z.of_nat (n + k) ≤ Z.max 1 (max_attempts p) ∧
    worker_turns handlers worker_id (take k ts) (w, e) = Ret (w', e') ∧
    wk_state w' = WIdle ∧ keeps msg w e w' e' ∧
    (∃ rs, length rs = k ∧ we_log e' = we_log e ++ ((λ r, (msg, r)) <$> rs)).
Proof.
  induction ts as [|t ts IH]; intros w e n p HM Ho Hh Hts Hw Hstop Hst Hd Hn Hlen.
  { simpl in Hlen. lia. }
  inversion Hts as [|? ? [Hsl Haf] Hts']; simplify_eq.
  destruct (process_turn handlers worker_id t msg w e n HM Ho Hh Hsl Haf Hst)
    as (w1 & e1 & Hp & (r & Hlog) & Hpol & Hcase).
  { intros Hlt. pose proof (Hd 0%nat (tn_jitter t) eq_refl) as H1. rewrite Nat.add_0_r in H1. by apply H1. }
  assert (Ht : worker_turn handlers worker_id t w e = Ret (w1, e1)).
  { unfold worker_turn. by rewrite Hstop, Hw. }
  pose proof (process_message_keeps _ _ _ _ _ _ _ _ Hp Hsl Haf) as Hk1.
  destruct Hcase as [Hidle|(Hw1 & Hstop1 & Hlt & Hst1)].
  - exists 1%nat, w1, e1. simpl. rewrite Ht. simpl. split_and!; try done; try lia.
    exists [r]. split; [done|]. by rewrite Hlog.
  - destruct (IH w1 e1 (S n)) as (k & w' & e' & Hk & Hbound & Hrun & Hidle & Hkeep & rs & Hrs & Hlog');
      rewrite ?Hpol; try done; [..|].
    + intros i j Hi. rewrite Nat.add_succ_comm. by apply (Hd (S i)).
    + right. lia.
    + simpl in Hlen. fold p. lia.
    + exists (S k), w', e'. rewrite Hpol in Hbound. fold p in Hbound. cbn [take worker_turns fst snd].
      rewrite Ht. cbn [obind]. cbn [length]. split_and!; try done; try lia; [by eapply keeps_trans|].
      exists (r :: rs). split; [simpl; congruence|]. rewrite Hlog', Hlog. by rewrite <- app_assoc.
Qed.

(** C12: a message is settled within the attempts of the policy.  Whatever its
    Python calls do (return, raise, panic, time out), a worker that starts on a
    message with no failure on record and is not cancelled is idle again after at
    most [max_attempts] invocations of the message (one when the policy allows
    none). *)
Theorem message_settles_within_max_attempts `{!OffsetCoordinatorLaws T}
    handlers worker_id msg ts w e :
  let p := default_policy (we_retry e) in
  0 ≤ max_attempts p < 2 ^ 64 → 0 ≤ offset msg →
  is_ret (handler_for_topic handlers (topic msg)) = true →
  Forall (λ t, tn_cancelled_sleep t = false ∧ tn_cancelled_after t = false) ts →
  wk_state w = WProcessing msg → wk_stopped w = false →
  rc_state (we_retry e) !! (topic msg, partition msg, offset msg) = None →
  delays_defined p 0 (tn_jitter <$> ts) →
  Z.max 1 (max_attempts p) ≤ Z.of_nat (length ts) →
  ∃ k w' e', Z.of_nat k ≤ Z.max 1 (max_attempts p) ∧
    worker_turns handlers worker_id (take k ts) (w, e) = Ret (w', e') ∧
    wk_state w' = WIdle ∧
    (∃ rs, length rs = k ∧ we_log e' = we_log e ++ ((λ r, (msg, r)) <$> rs)).
Proof.
  intros p HM Ho Hh Hts Hw Hstop Hst Hd Hlen.
  destruct (turns_settle handlers worker_id msg ts w e 0 HM Ho Hh Hts Hw Hstop Hst Hd)
    as (k & w' & e' & _ & Hk & Hrun & Hidle & _ & Hlog); [by left|done|].
  by exists k, w', e'.
Qed.

Definition message_key (m : OwnedMessage) : RetryKey := (topic m, partition m, offset m).

(** A message that can be processed and has no failure on record. *)
Definition fresh_message (handlers : gmap string PythonHandler) (e : worker_env) (m : OwnedMessage) : Prop :=
  0 ≤ offset m ∧ is_ret (handler_for_topic handlers (topic m)) = true ∧
  rc_state (we_retry e) !! message_key m = None.

(** A turn whose worker is not cancelled and whose back-off delays exist. *)
Definition quiet_turn (p : RetryPolicy) (t : turn) : Prop :=
  tn_cancelled_poll t = false ∧ tn_cancelled_sleep t = false ∧ tn_cancelled_after t = false ∧
  ∀ n, Z.of_nat n + 1 < max_attempts p → is_ret (next_delay (schedule p) (Z.of_nat n) (tn_jitter t)) = true.

Lemma quiet_delays p n ts : Forall (quiet_turn p) ts → delays_defined p n (tn_jitter <$> ts).
Proof.
  intros Hq i j Hj Hlt. rewrite list_lookup_fmap in Hj. apply fmap_Some in Hj as (t & Ht & ->).
  rewrite Forall_lookup in Hq. by apply (Hq i t Ht).
Qed.

Lemma worker_turns_app handlers i ts1 ts2 s :
  worker_turns handlers i (ts1 ++ ts2) s = obind (worker_turns handlers i ts1 s) (worker_turns handlers i ts2).
Proof.
  revert s. induction ts1 as [|t ts1 IH]; intros s; simpl; [done|].
  destruct (worker_turn handlers i t s.1 s.2); [apply IH|done].
Qed.

(** An idle worker that is not cancelled takes the next message of its channel
    and settles it. *)
Lemma next_message_settles `{!OffsetCoordinatorLaws T} handlers i m rest ts w e :
  let p := default_policy (we_retry e) in
  0 ≤ max_attempts p < 2 ^ 64 → fresh_message handlers e m → Forall (quiet_turn p) ts →
  wk_state w = WIdle → wk_stopped w = false → wk_rx w = m :: rest →
  Z.max 1 (max_attempts p) ≤ Z.of_nat (length ts) →
  ∃ k w' e', (k ≤ length ts)%nat ∧ Z.of_nat k ≤ Z.max 1 (max_attempts p) ∧
    worker_turns handlers i (take k ts) (w, e) = Ret (w', e') ∧ wk_state w' = WIdle ∧
    wk_stopped w' = false ∧ wk_rx w' = rest ∧ wk_fanned w' = wk_fanned w ++ [m] ∧
    default_policy (we_retry e') = p ∧
    (∀ k, k ≠ message_key m → rc_state (we_retry e') !! k = rc_state (we_retry e) !! k).
Proof.
  intros p HM (Ho & Hh & Hrc) Hq Hw Hs Hrx Hlen. destruct ts as [|t ts]; [simpl in Hlen; lia|].
  set (w0 := {| wk_state := WProcessing m; wk_rx := rest; wk_stopped := false; wk_fanned := wk_fanned w |}).
  set (e0 := we_with_states (set_active i (topic m) (topic m) (partition m) (offset m)) e).
  assert (Hsame : ∀ k, worker_turns handlers i (take (S k) (t :: ts)) (w, e) =
                       worker_turns handlers i (take (S k) (t :: ts)) (w0, e0)).
  { intros k. cbn [take worker_turns fst snd].
    assert (worker_turn handlers i t w e = worker_turn handlers i t w0 e0) as ->; [|done].
    unfold worker_turn. rewrite Hs, Hw, Hrx. inversion Hq as [|? ? (Hp & _) _]; subst. simpl. by rewrite Hp. }
  destruct (turns_settle handlers i m (t :: ts) w0 e0 0 HM Ho Hh) as (k & w' & e' & Hk & Hb & Hrun & Hid & Hkp & rs & Hrs & _);
    [|done|done|done|by apply quiet_delays|by left|done|].
  { eapply Forall_impl; [exact Hq|]. by intros t' (_ & ? & ? & _). }
  destruct Hkp as (K1 & K2 & K3 & K4 & K5). rewrite Hid in K3. simpl in K3.
  destruct k as [|k]; [simpl in Hrun; simplify_eq|].
  exists (S k), w', e'. rewrite Hsame. split_and!; done.
Qed.

(** A worker drains its channel.  Whatever the Python calls do, an idle worker
    that is not cancelled settles every message that waits in its channel, in
    order, within [max_attempts] invocations for each (one when the policy allows
    none), and is idle again with an empty channel. *)
Theorem worker_drains_its_channel `{!OffsetCoordinatorLaws T} handlers i ts : ∀ w e,
  let p := default_policy (we_retry e) in
  0 ≤ max_attempts p < 2 ^ 64 →
  Forall (fresh_message handlers e) (wk_rx w) → NoDup (message_key <$> wk_rx w) →
  Forall (quiet_turn p) ts → wk_state w = WIdle → wk_stopped w = false →
  Z.of_nat (length (wk_rx w)) * Z.max 1 (max_attempts p) ≤ Z.of_nat (length ts) →
  ∃ k w' e', Z.of_nat k ≤ Z.of_nat (length (wk_rx w)) * Z.max 1 (max_attempts p) ∧
    worker_turns handlers i (take k ts) (w, e) = Ret (w', e') ∧
    wk_state w' = WIdle ∧ wk_stopped w' = false ∧ wk_rx w' = [] ∧
    wk_fanned w' = wk_fanned w ++ wk_rx w.
Proof.
  intros w. remember (wk_rx w) as rx eqn:Hrx. revert ts w Hrx.
  induction rx as [|m rx IH]; intros ts w Hrx e p HM Hf Hnd Hq Hw Hs Hlen.
  { exists 0%nat, w, e. rewrite app_nil_r. simpl. split_and!; done. }
  inversion Hf as [|? ? Hm Hf']; subst. inversion Hnd as [|? ? Hn Hnd']; subst. cbn [length] in Hlen.
  subst p. set (M := Z.max 1 (max_attempts (default_policy (we_retry e)))) in *.
  assert (Hlen' : M + Z.of_nat (length rx) * M ≤ Z.of_nat (length ts)) by lia.
  destruct (next_message_settles handlers i m rx ts w e HM Hm Hq Hw Hs (eq_sym Hrx)) as
    (k & w1 & e1 & Hk & Hb & Hrun & W1 & W2 & W3 & W4 & W5 & W6); [fold M; lia|]. fold M in Hb.
  destruct (IH (drop k ts) w1 (eq_sym W3) e1) as (k' & w' & e' & Hb' & Hrun' & V1 & V2 & V3 & V4); rewrite ?W5.
  - done.
  - apply Forall_forall. intros m' Hm'. rewrite Forall_forall in Hf'.
    destruct (Hf' m' Hm') as (F1 & F2 & F3). split_and!; [done|done|]. rewrite W6; [done|].
    intros Hk'. apply Hn. rewrite <- Hk'. by apply list_elem_of_fmap_2.
  - done.
  - by apply Forall_drop.
  - done.
  - done.
  - rewrite length_drop. fold M. lia.
  - exists (k + k')%nat, w', e'. rewrite W5 in Hb'. fold M in Hb'. split; [cbn [length]; lia|].
    split; [|by rewrite V4, W4, <- app_assoc].
    by rewrite <- take_take_drop, worker_turns_app, Hrun.
Qed.

End worker.

(** ** The worker pool over the offset tracker *)

Section tracker_pool.
Context {R : Type} `{DlqRouter R} (router : R) (to_rfc3339 : Z → string) {HO : HashOrder string}.

(** What a handled invocation does to the tracker. *)
Definition log_op (x : OwnedMessage * ExecutionResult) : tracker_op :=
  if is_ok x.2 then TAck (topic x.1) (partition x.1) (offset x.1)
  else TFailReason (topic x.1) (partition x.1) (offset x.1) (result_reason x.2).

Lemma handle_result_tracker r ctx msg jitter now (e : worker_env) a e' :
  ctx_topic ctx = topic msg → ctx_partition ctx = partition msg → ctx_offset ctx = offset msg →
  handle_execution_result router to_rfc3339 r ctx msg jitter now e = Ret (a, e') →
  we_log e' = we_log e ∧ tracker_step (log_op (msg, r)) (we_offsets e) = Ret (we_offsets e').
Proof.
  intros Ht Hp Ho Hh. assert (r = ResOk ∨ r ≠ ResOk) as [->|Hr] by (destruct r; auto).
  - unfold log_op. simpl in *. rewrite Ht, Hp, Ho in Hh.
    destruct (tracker_ack (topic msg) (partition msg) (offset msg) (we_offsets e)) as [t|]; [|done].
    by simplify_eq/=.
  - rewrite handle_failed_result in Hh by done. cbv zeta in Hh.
    destruct (handle_execution_failure _ _ ctx msg r jitter now _) as [[a1 e1]|] eqn:E;
      simplify_eq/=.
    destruct (handle_failure_cases _ _ _ _ _ _ _ _ _ _ Hr E) as (rc' & _ & Hoff & Hlog & _).
    rewrite Hoff, Hlog. split; [done|]. unfold log_op. simpl. rewrite Ht, Hp, Ho.
    by destruct r.
Qed.

Lemma process_message_tracker handlers i t msg w (e : worker_env) w' e' :
  process_message router to_rfc3339 handlers i t msg w e = Ret (w', e') →
  ∃ r, we_log e' = we_log e ++ [(msg, r)] ∧
       tracker_step (log_op (msg, r)) (we_offsets e) = Ret (we_offsets e').
Proof.
  intros (h & r & a & e1 & Hh & Hc)%process_message_inv. exists r.
  apply handle_result_tracker in Hh as [Hl Hs]; [|done..].
  destruct Hc as [(_ & _ & ->)|(_ & ->)]; done.
Qed.

(** The tracker is driven by the handled invocations alone: one turn, and the
    run of a pool. *)
Lemma worker_turn_tracker handlers i t w (e : worker_env) w' e' :
  worker_turn router to_rfc3339 handlers i t w e = Ret (w', e') →
  ∃ new, we_log e' = we_log e ++ new ∧
         tracker_run (log_op <$> new) (we_offsets e) = Ret (we_offsets e').
Proof.
  assert (Hsame : Ret (w, e) = Ret (w', e') ∨ we_log e' = we_log e ∧ we_offsets e' = we_offsets e →
    ∃ new, we_log e' = we_log e ++ new ∧ tracker_run (log_op <$> new) (we_offsets e) = Ret (we_offsets e')).
  { intros H1. exists []. rewrite app_nil_r. simpl. destruct H1 as [[= <- <-]|[-> ->]]; done. }
  assert (Hproc : ∀ msg w0 e0, we_log e0 = we_log e → we_offsets e0 = we_offsets e →
    process_message router to_rfc3339 handlers i t msg w0 e0 = Ret (w', e') →
    ∃ new, we_log e' = we_log e ++ new ∧ tracker_run (log_op <$> new) (we_offsets e) = Ret (we_offsets e')).
  { intros msg w0 e0 H1 H2 Hp. destruct (process_message_tracker _ _ _ _ _ _ _ _ Hp) as (r & Hl & Hs).
    exists [(msg, r)]. rewrite Hl, H1. split; [done|]. cbn [fmap list_fmap tracker_run]. by rewrite <- H2, Hs. }
  unfold worker_turn. destruct (wk_stopped w); [auto|]. destruct (wk_state w); [|by apply Hproc].
  destruct (poll_for_work _ _ (wk_rx w)); [by apply Hproc| |auto]. intros [= _ <-]. auto.
Qed.

Lemma tracker_run_app ops1 ops2 t :
  tracker_run (ops1 ++ ops2) t = obind (tracker_run ops1 t) (tracker_run ops2).
Proof. revert t. induction ops1 as [|op ops1 IH]; intros t; simpl; [done|]. destruct (tracker_step op t); [apply IH|done]. Qed.

Lemma pool_run_tracker handlers evs : ∀ ws (e : worker_env) ws' e',
  pool_run router to_rfc3339 handlers evs (ws, e) = Ret (ws', e') →
  ∃ new, we_log e' = we_log e ++ new ∧
         tracker_run (log_op <$> new) (we_offsets e) = Ret (we_offsets e').
Proof.
  induction evs as [|ev evs IH]; intros ws e ws' e' Hr; simpl in Hr.
  { simplify_eq. exists []. by rewrite app_nil_r. }
  destruct (pool_step router to_rfc3339 handlers ev (ws, e)) as [[ws1 e1]|] eqn:E; [|done].
  simpl in Hr. destruct (IH _ _ _ _ Hr) as (new & Hlog & Hrun).
  destruct ev as [i t|i m]; simpl in E; [|simplify_eq; eauto].
  destruct (ws !! i) as [w|]; [|simplify_eq; eauto].
  destruct (worker_turn router to_rfc3339 handlers i t w e) as [[w2 e2]|] eqn:Ew; simplify_eq/=.
  destruct (worker_turn_tracker _ _ _ _ _ _ _ Ew) as (new1 & Hl1 & Hr1). exists (new1 ++ new).
  rewrite Hlog, Hl1, <- app_assoc. split; [done|]. rewrite fmap_app, tracker_run_app, Hr1. exact Hrun.
Qed.

Lemma log_op_ack tp p o (l : list (OwnedMessage * ExecutionResult)) :
  TAck tp p o ∈ log_op <$> l →
  ∃ m, (m, ResOk) ∈ l ∧ topic m = tp ∧ partition m = p ∧ offset m = o.
Proof.
  rewrite list_elem_of_fmap. intros ([m r] & Hop & Hin). unfold log_op in Hop. simpl in Hop.
  destruct r; simpl in Hop; simplify_eq. by exists m.
Qed.

(** What the cursor of a tracker driven by a log of invocations covers. *)
Lemma log_cursor_covers (log : list (OwnedMessage * ExecutionResult)) t0 t tp p c :
  partitions t0 = ∅ → tracker_run (log_op <$> log) t0 = Ret t →
  Forall (λ x : OwnedMessage * ExecutionResult, 0 ≤ offset x.1 < 2 ^ 63) log →
  highest_contiguous tp p t = Some c →
  ∃ b, first_ack (events_of (tp, p) (log_op <$> log)) = Some b ∧ b ≤ c ∧
    ∀ o, b ≤ o ≤ c →
      ∃ m, (m, ResOk) ∈ log ∧ topic m = tp ∧ partition m = p ∧ offset m = o.
Proof.
  intros He Hrun Hrange Hc.
  destruct (tracker_run_same _ _ offset_tracker_new _ Hrun) as (t' & Ht' & Hp'); [done|].
  unfold highest_contiguous in Hc. rewrite <- Hp' in Hc.
  destruct (partitions t' !! (tp, p)) as [s|] eqn:Es; simplify_eq/=.
  assert (Hok : Forall op_ok (log_op <$> log)).
  { apply Forall_fmap. eapply Forall_impl; [exact Hrange|]. intros [m r] Hm. unfold log_op. simpl in *.
    by destruct (is_ok r). }
  destruct (tracker_partition_inv _ _ _ _ Hok Ht' Es) as [I [b Hb]].
  pose proof Hb as Hb'. rewrite <- first_ack_drop in Hb'.
  exists b. split_and!; [done|by apply (hi_base _ _ I)|].
  intros o Hbo. apply log_op_ack.
  apply (elem_of_events_ack (tp, p)), elem_of_drop_fails, (hi_safe _ _ I b); done.
Qed.

(** end-to-end at-least-once processing.  In every run of a pool of workers
    (any number of them, in any interleaving of turns, with any outcomes of the
    Python calls, retries, dead letters and cancellations), the committed offset
    of a partition covers, from the first message handled on, only offsets of
    messages for which the handler returned successfully.  Consequently a
    message that is only dead-lettered holds the cursor below its offset for as
    long as the run lasts. *)
Theorem committed_messages_were_handled handlers evs ws (e : worker_env) ws' e' tp p c :
  partitions (we_offsets e) = ∅ → we_log e = [] →
  pool_run router to_rfc3339 handlers evs (ws, e) = Ret (ws', e') →
  Forall (λ x : OwnedMessage * ExecutionResult, 0 ≤ offset x.1 < 2 ^ 63) (we_log e') →
  highest_contiguous tp p (we_offsets e') = Some c →
  ∃ b, first_ack (events_of (tp, p) (log_op <$> we_log e')) = Some b ∧ b ≤ c ∧
    (∀ o, b ≤ o ≤ c →
       ∃ m, (m, ResOk) ∈ we_log e' ∧ topic m = tp ∧ partition m = p ∧ offset m = o) ∧
    (∀ m, topic m = tp → partition m = p → b ≤ offset m →
       (∀ m', (m', ResOk) ∈ we_log e' →
          ¬ (topic m' = tp ∧ partition m' = p ∧ offset m' = offset m)) →
       c < offset m).
Proof.
  intros He Hl Hr Hrange Hc.
  destruct (pool_run_tracker _ _ _ _ _ _ Hr) as (new & Hlog & Hrun).
  rewrite Hl in Hlog. simpl in Hlog. subst new.
  destruct (log_cursor_covers _ _ _ _ _ _ He Hrun Hrange Hc) as (b & Hb & Hbc & Hsafe).
  exists b. split_and!; [done|done|done|].
  intros m Htp Hp Hbm Hno. destruct (decide (c < offset m)) as [?|Hle]; [done|].
  destruct (Hsafe (offset m)) as (m' & Hin & ? & ? & ?); [lia|]. by destruct (Hno m' Hin).
Qed.

End tracker_pool.

(** ** Witnesses *)

Definition demo_handler (timeout : option Z) : PythonHandler :=
  {| h_retry_policy := None; h_mode := SingleSync; h_batch_policy := None;
     handler_timeout := timeout; h_name := "t"; h_middleware := None |}.

Definition demo_handlers : gmap string PythonHandler := {["t" := demo_handler None]}.

Definition demo_turn (o : PyOutcome) : turn :=
  {| tn_cancelled_poll := false; tn_take_message := true;
     tn_callback := λ _, {| py_outcome := o; py_duration := 5 |}; tn_jitter := f64_half; tn_now := 0;
     tn_queue_wait := 1; tn_call_elapsed := 5; tn_elapsed := 7;
     tn_cancelled_sleep := false; tn_cancelled_after := false |}.

Definition timeout_error : PyOutcome :=
  PyRaised {| py_debug := "TimeoutError('x')"; py_display := "TimeoutError: x" |} (Some "TimeoutError").

Definition value_error : PyOutcome :=
  PyRaised {| py_debug := "ValueError('x')"; py_display := "ValueError: x" |} (Some "ValueError").

Definition demo_env : worker_env :=
  {| we_retry := retry_coordinator_new retry_policy_default;
     we_queues := registered "t" 10 None; we_offsets := offset_tracker_new;
     we_dlq := dlq_producer_new; we_states := pool_state_new 2; we_sink := sink_new;
     we_log := [] |}.

Definition idle_worker (rx : list OwnedMessage) : worker :=
  {| wk_state := WIdle; wk_rx := rx; wk_stopped := false; wk_fanned := [] |}.


(** Three network failures: retried twice, then dead-lettered. *)
Lemma message_settles_within_max_attempts_witness :
  let w := {| wk_state := WProcessing (fake "t" 0 7); wk_rx := []; wk_stopped := false; wk_fanned := [] |} in
  let ts := [demo_turn timeout_error; demo_turn timeout_error; demo_turn timeout_error] in
  ∃ k w' e', Z.of_nat k ≤ 3 ∧
    worker_turns with_default_prefix (λ _, "now") (HO := hash_order_canonical _)
      demo_handlers 0 (take k ts) (w, demo_env) = Ret (w', e') ∧ wk_state w' = WIdle.
Proof.
  cbv zeta.
  edestruct (message_settles_within_max_attempts with_default_prefix (λ _, "now")
    (HO := hash_order_canonical _) demo_handlers 0 (fake "t" 0 7)
    [demo_turn timeout_error; demo_turn timeout_error; demo_turn timeout_error]
    {| wk_state := WProcessing (fake "t" 0 7); wk_rx := []; wk_stopped := false; wk_fanned := [] |}
    demo_env) as (k & w' & e' & Hk & Hrun & Hidle & _).
  - simpl. lia.
  - simpl. lia.
  - vm_compute. reflexivity.
  - repeat constructor.
  - reflexivity.
  - reflexivity.
  - vm_compute. reflexivity.
  - intros i j Hi Hlt. simpl in Hlt.
    destruct i as [|[|i]]; simpl in Hi; simplify_eq; [vm_compute; reflexivity..|lia].
  - simpl. lia.
  - exists k, w', e'. exact (conj Hk (conj Hrun Hidle)).
Defined.

Lemma worker_drains_its_channel_witness :
  let ts := replicate 6 (demo_turn timeout_error) in
  ∃ k w' e', Z.of_nat k ≤ 6 ∧
    worker_turns with_default_prefix (λ _, "now") (HO := hash_order_canonical _) demo_handlers 0
      (take k ts) (idle_worker [fake "t" 0 5; fake "t" 0 6], demo_env) = Ret (w', e') ∧
    wk_state w' = WIdle ∧ wk_rx w' = [] ∧ wk_fanned w' = [fake "t" 0 5; fake "t" 0 6].
Proof.
  cbv zeta.
  edestruct (worker_drains_its_channel with_default_prefix (λ _, "now") (HO := hash_order_canonical _)
    demo_handlers 0 (replicate 6 (demo_turn timeout_error)) (idle_worker [fake "t" 0 5; fake "t" 0 6]) demo_env)
    as (k & w' & e' & Hk & Hrun & Hidle & _ & Hrx & Hfanned).
  - simpl. lia.
  - apply Forall_cons_2; [|apply Forall_cons_2; [|apply Forall_nil_2]];
      (split; [simpl; lia|]; split; vm_compute; reflexivity).
  - apply NoDup_cons_2; [|apply NoDup_singleton]. intros H%list_elem_of_singleton. vm_compute in H. discriminate H.
  - apply Forall_replicate. split_and!; [reflexivity..|]. intros n Hn. simpl in Hn.
    destruct n as [|[|n]]; [vm_compute; reflexivity..|lia].
  - reflexivity.
  - reflexivity.
  - simpl. lia.
  - exists k, w', e'. split_and!; [exact Hk|exact Hrun|exact Hidle|exact Hrx|exact Hfanned].
Defined.

(** Offsets 5 and 7 succeed, 6 is dead-lettered: the cursor stays at 5. *)
Definition demo_pool_run : outcome (list worker * worker_env) :=
  pool_run with_default_prefix (λ _, "now") (HO := hash_order_canonical _) demo_handlers
    [PvTurn 0 (demo_turn PyReturned); PvTurn 1 (demo_turn PyReturned);
     PvTurn 0 (demo_turn value_error)]
    ([idle_worker [fake "t" 0 5; fake "t" 0 6]; idle_worker [fake "t" 0 7]], demo_env).

Lemma committed_messages_were_handled_witness :
  let e' := match demo_pool_run with Ret s => s.2 | Panic => demo_env end in
  (∀ o, 5 ≤ o ≤ 5 → ∃ m, (m, ResOk) ∈ we_log e' ∧ topic m = "t" ∧ partition m = 0 ∧ offset m = o) ∧
  highest_contiguous "t" 0 (we_offsets e') = Some 5.
Proof.
  cbv zeta. split; [|vm_compute; reflexivity].
  edestruct (committed_messages_were_handled with_default_prefix (λ _, "now")
    (HO := hash_order_canonical _) demo_handlers
    [PvTurn 0 (demo_turn PyReturned); PvTurn 1 (demo_turn PyReturned);
     PvTurn 0 (demo_turn value_error)]
    [idle_worker [fake "t" 0 5; fake "t" 0 6]; idle_worker [fake "t" 0 7]] demo_env
    (match demo_pool_run with Ret s => s.1 | Panic => [] end)
    (match demo_pool_run with Ret s => s.2 | Panic => demo_env end) "t" 0 5)
    as (b & Hb & _ & H & _).
  - reflexivity.
  - reflexivity.
  - vm_compute. reflexivity.
  - replace (we_log _) with
      [(fake "t" 0 5, ResOk); (fake "t" 0 7, ResOk);
       (fake "t" 0 6, ResError (ReasonNonRetryable Validation) "ValueError" "ValueError: x")]
      by (vm_compute; reflexivity).
    repeat constructor; simpl; lia.
  - vm_compute. reflexivity.
  - vm_compute in Hb. injection Hb as <-. exact H.
Defined.
