(* ===== verification/Batch.v ===== *)
(** * Batch worker (src/worker_pool/accumulator.rs, batch_loop.rs, src/execution/batch.rs)

    The per-partition accumulators with their fixed-window timers, the flush of
    a batch through the handler, and the batch worker loop. *)

From stdpp Require Import base gmap sets list strings pretty.
From S2P Require Import Prelude F64 Metrics Failure Message Shutdown Runner Dlq OffsetTracker OffsetProofs Retry Queue Execution PoolState Worker.

(** ** [PerPartitionBuffer] (accumulator.rs) *)

Record PerPartitionBuffer := { buf_messages : list OwnedMessage; buf_deadline : option Z }.

Definition buffer_new : PerPartitionBuffer := {| buf_messages := []; buf_deadline := None |}.

Definition buf_is_empty (b : PerPartitionBuffer) : bool :=
  match buf_messages b with [] => true | _ => false end.

Definition buf_len (b : PerPartitionBuffer) : Z := Z.of_nat (length (buf_messages b)).

Definition start_timer (now max_wait : Z) (b : PerPartitionBuffer) : PerPartitionBuffer :=
  match buf_deadline b with
  | None => {| buf_messages := buf_messages b; buf_deadline := Some (now + max_wait) |}
  | Some _ => b
  end.

Definition is_deadline_expired (now : Z) (b : PerPartitionBuffer) : bool :=
  match buf_deadline b with Some d => d <=? now | None => false end.

Definition buf_add (now max_wait : Z) (msg : OwnedMessage) (b : PerPartitionBuffer)
    : PerPartitionBuffer :=
  let b := if buf_is_empty b then start_timer now max_wait b else b in
  {| buf_messages := buf_messages b ++ [msg]; buf_deadline := buf_deadline b |}.

(** [take_messages]: the deadline stays. *)
Definition take_messages (b : PerPartitionBuffer) : list OwnedMessage * PerPartitionBuffer :=
  (buf_messages b, {| buf_messages := []; buf_deadline := buf_deadline b |}).

(** ** [BatchAccumulator] (execution/batch.rs) *)

Record BatchAccumulator := {
  accumulators : gmap Z PerPartitionBuffer;
  ba_max_batch_size : Z;
  max_batch_wait : Z
}.

Definition accumulator_new (size wait_ms : Z) : BatchAccumulator :=
  {| accumulators := ∅; ba_max_batch_size := size; max_batch_wait := from_millis wait_ms |}.

Definition with_accumulators (m : gmap Z PerPartitionBuffer) (a : BatchAccumulator)
    : BatchAccumulator :=
  {| accumulators := m; ba_max_batch_size := ba_max_batch_size a; max_batch_wait := max_batch_wait a |}.

Definition would_fill_partition (p : Z) (a : BatchAccumulator) : bool :=
  match accumulators a !! p with
  | Some b => ba_max_batch_size a <=? buf_len b
  | None => false
  end.

Definition acc_add (now : Z) (msg : OwnedMessage) (a : BatchAccumulator) : BatchAccumulator :=
  let p := partition msg in
  let b := default buffer_new (accumulators a !! p) in
  with_accumulators (<[p := buf_add now (max_batch_wait a) msg b]> (accumulators a)) a.

Definition opt_min (x y : option Z) : option Z :=
  match x, y with
  | Some a, Some b => Some (Z.min a b)
  | Some a, None => Some a
  | None, y => y
  end.

Section accumulator.
Context {HO : HashOrder Z}.

Definition next_deadline (a : BatchAccumulator) : option Z :=
  foldr (λ x acc, opt_min (buf_deadline x.2) acc) None (hash_iter (accumulators a)).

Definition is_any_deadline_expired (now : Z) (a : BatchAccumulator) : bool :=
  existsb (λ x, negb (buf_is_empty x.2) && is_deadline_expired now x.2) (hash_iter (accumulators a)).

Definition acc_is_empty (a : BatchAccumulator) : bool :=
  forallb (λ x, buf_is_empty x.2) (hash_iter (accumulators a)).

Definition total_len (a : BatchAccumulator) : Z :=
  foldr (λ x n, buf_len x.2 + n) 0 (hash_iter (accumulators a)).

(** [flush_all]: the non-empty partitions in the order of the map. *)
Definition flush_all (a : BatchAccumulator) : list (Z * list OwnedMessage) * BatchAccumulator :=
  (omap (λ x, if buf_is_empty x.2 then None else Some (x.1, buf_messages x.2))
     (hash_iter (accumulators a)),
   with_accumulators ((λ b, (take_messages b).2) <$> accumulators a) a).

End accumulator.

Definition flush_partition (p : Z) (a : BatchAccumulator)
    : option (list OwnedMessage) * BatchAccumulator :=
  match accumulators a !! p with
  | None => (None, a)
  | Some b =>
      if buf_is_empty b then (None, a)
      else (Some (buf_messages b),
            with_accumulators (<[p := (take_messages b).2]> (accumulators a)) a)
  end.

(** ** Result of a batch (batch_loop.rs) *)

Section batch.
Context {T : Type} `{OffsetCoordinator T} {R : Type} `{DlqRouter R}.
Context (router : R) (to_rfc3339 : Z → string).

(** One offset of a successful batch. *)
Definition ack_offset (t : string) (p : Z) (e : (worker_env (T := T))) (o : Z) : outcome (worker_env (T := T)) :=
  let e := we_with_retry (record_success (t, p, o) (we_retry e)) e in
  let e := we_with_queues (queue_ack t 1 (we_queues e)) e in
  let? tr := record_ack t p o (we_offsets e) in
  Ret (we_with_offsets tr e).

Definition batch_metadata (t : string) (p o : Z) (reason : FailureReason) (attempts now : Z)
    : DlqMetadata :=
  dlq_metadata_new t p o (reason_to_string reason) (u32_wrap attempts) now now None None None None.

(** One message of a failed batch: a retryable failure is dead-lettered too. *)
Definition fail_message (t : string) (p : Z) (reason : FailureReason) (jitter : Z → f64) (now : Z)
    (e : (worker_env (T := T))) (msg : OwnedMessage) : outcome (worker_env (T := T)) :=
  let? r := record_failure (t, p, offset msg) reason (jitter (offset msg)) (we_retry e) in
  let '(should_retry, should_dlq, _) := r.1 in
  let e := we_with_retry r.2 e in
  let e := we_with_offsets (mark_failed t p (offset msg) reason (we_offsets e)) e in
  let e :=
    if should_dlq || should_retry then
      let attempt := Retry.attempt_count (t, p, offset msg) (we_retry e) in
      we_with_dlq (produce_letter router to_rfc3339
                     (batch_metadata t p (offset msg) reason attempt now) msg (we_dlq e)) e
    else e in
  Ret (we_with_queues (queue_ack t 1 (we_queues e)) e).

(** The metrics of a batch: its size, and the throughput when it succeeded. *)
Definition batch_metrics {S : Type} `{MetricsSink S} (result : BatchExecutionResult) (batch : list OwnedMessage)
    (t : string) (p : Z) (s : S) : S :=
  let labels := labels_of [("handler_id", t); ("topic", t); ("partition", pretty p)] in
  let s := record_batch_size labels (Z.of_nat (length batch)) s in
  match result with
  | AllSuccess offsets => foldl (λ s _, record_throughput t t "BatchSync" s) s offsets
  | AllFailure _ => s
  end.

(** [handle_batch_result_inline]. *)
Definition handle_batch_result_inline (result : BatchExecutionResult) (batch : list OwnedMessage)
    (t : string) (p : Z) (jitter : Z → f64) (now : Z) (e : (worker_env (T := T))) : outcome (worker_env (T := T)) :=
  let e := we_with_sink (batch_metrics result batch t p) e in
  match result with
  | AllSuccess offsets => ofold (ack_offset t p) e offsets
  | AllFailure reason => ofold (fail_message t p reason jitter now) e batch
  end.

(** ** The loop *)

Inductive BatchState := Normal | InBackpressure.

Definition is_backpressure (s : BatchState) : bool :=
  match s with InBackpressure => true | Normal => false end.

(** [bw_batches] is the history of the batches given to the handler, and
    [bw_received] of the messages taken from the channel. *)
Record batch_worker := {
  bw_id : nat;
  bw_acc : BatchAccumulator;
  bw_state : BatchState;
  bw_stopped : bool;
  bw_env : (worker_env (T := T));
  bw_batches : list (Z * list OwnedMessage * BatchExecutionResult);
  bw_received : list OwnedMessage
}.

(** The handler, the behaviour of the callable at each call, by its rank, the random draws by offset. *)
Context (handler : PythonHandler) (calls : nat → Callback) (jitter : Z → f64).
Context {HO : HashOrder Z}.

Definition bw_with_acc (a : BatchAccumulator) (w : batch_worker) : batch_worker :=
  {| bw_id := bw_id w; bw_acc := a; bw_state := bw_state w; bw_stopped := bw_stopped w; bw_env := bw_env w;
     bw_batches := bw_batches w; bw_received := bw_received w |}.

Definition bw_with_state (s : BatchState) (w : batch_worker) : batch_worker :=
  {| bw_id := bw_id w; bw_acc := bw_acc w; bw_state := s; bw_stopped := bw_stopped w; bw_env := bw_env w;
     bw_batches := bw_batches w; bw_received := bw_received w |}.

Definition bw_stop (w : batch_worker) : batch_worker :=
  {| bw_id := bw_id w; bw_acc := bw_acc w; bw_state := bw_state w; bw_stopped := true; bw_env := bw_env w;
     bw_batches := bw_batches w; bw_received := bw_received w |}.

Definition bw_receive (m : OwnedMessage) (w : batch_worker) : batch_worker :=
  {| bw_id := bw_id w; bw_acc := bw_acc w; bw_state := bw_state w; bw_stopped := bw_stopped w; bw_env := bw_env w;
     bw_batches := bw_batches w; bw_received := bw_received w ++ [m] |}.

(** The history of handled invocations: each message of the batch with the result
    of its batch. *)
Definition batch_entry (r : BatchExecutionResult) (m : OwnedMessage) : OwnedMessage * ExecutionResult :=
  (m, match r with
      | AllSuccess _ => ResOk
      | AllFailure reason => ResError reason "BatchHandlerError" "Batch handler failed"
      end).

Definition we_logged_batch (r : BatchExecutionResult) (batch : list OwnedMessage) (e : worker_env (T := T))
    : worker_env (T := T) :=
  {| we_retry := we_retry e; we_queues := we_queues e; we_offsets := we_offsets e; we_dlq := we_dlq e;
     we_states := we_states e; we_sink := we_sink e; we_log := we_log e ++ (batch_entry r <$> batch) |}.

(** [flush_partition_batch]: the topic is the one of the first message, and the
    worker is busy during the call. *)
Definition flush_partition_batch (now : Z) (w : batch_worker) (pb : Z * list OwnedMessage)
    : outcome batch_worker :=
  match pb.2 with
  | [] => Ret w
  | first :: _ =>
      let callback := calls (length (bw_batches w)) in
      let e := we_with_states (set_busy (bw_id w) "shared") (bw_env w) in
      let? result := invoke_mode_batch handler pb.2 callback in
      let e := we_logged_batch result pb.2 e in
      let e := we_with_sink (record_call "handler" (mode_as_str (h_mode handler))
                 (py_duration (callback (batch_args pb.2))) (Z.of_nat (length pb.2))) e in
      let? e := handle_batch_result_inline result pb.2 (topic first) pb.1 jitter now e in
      Ret {| bw_id := bw_id w; bw_acc := bw_acc w; bw_state := bw_state w; bw_stopped := bw_stopped w;
             bw_env := we_with_states (set_idle (bw_id w)) e;
             bw_batches := bw_batches w ++ [(pb, result)]; bw_received := bw_received w |}
  end.

(** [flush_all] followed by the flush of every batch. *)
Definition drain (now : Z) (w : batch_worker) : outcome batch_worker :=
  let '(batches, a) := flush_all (bw_acc w) in
  ofold (flush_partition_batch now) (bw_with_acc a w) batches.

(** The preemptive flush of one full partition. *)
Definition flush_if_full (now p : Z) (w : batch_worker) : outcome batch_worker :=
  if would_fill_partition p (bw_acc w) then
    match flush_partition p (bw_acc w) with
    | (Some (first :: rest), a) =>
        flush_partition_batch now (bw_with_acc a w) (partition first, first :: rest)
    | (_, a) => Ret (bw_with_acc a w)
    end
  else Ret w.

(** The backpressure test on an arriving message. *)
Definition check_backpressure (now : Z) (msg : OwnedMessage) (w : batch_worker) : outcome batch_worker :=
  if is_backpressure (bw_state w) then Ret w
  else match get_capacity (topic msg) (we_queues (bw_env w)), get_inflight (topic msg) (we_queues (bw_env w)) with
  | Some cap, Some infl =>
      if cap <=? infl then drain now (bw_with_state InBackpressure w) else Ret w
  | _, _ => Ret w
  end.

Definition on_message (now : Z) (msg : OwnedMessage) (w : batch_worker) : outcome batch_worker :=
  let? w := check_backpressure now msg w in
  let? w := flush_if_full now (partition msg) w in
  flush_if_full now (partition msg) (bw_receive msg (bw_with_acc (acc_add now msg (bw_acc w)) w)).

(** The branches of [select!]; the deadline one is ready from the earliest
    deadline on. *)
Inductive batch_event :=
| BDeadline (now : Z)
| BMessage (now : Z) (msg : OwnedMessage)
| BClosed (now : Z)
| BShutdown (now : Z).

Definition deadline_ready (now : Z) (a : BatchAccumulator) : bool :=
  match next_deadline a with Some d => d <=? now | None => false end.

Definition batch_turn (ev : batch_event) (w : batch_worker) : outcome batch_worker :=
  if bw_stopped w then Ret w
  else match ev with
  | BDeadline now =>
      if deadline_ready now (bw_acc w) then
        if acc_is_empty (bw_acc w) then Ret w else drain now w
      else Ret w
  | BMessage now msg => on_message now msg w
  | BClosed now | BShutdown now => let? w := drain now w in Ret (bw_stop w)
  end.

(** [batch_worker_loop]: a handler without a batch policy panics at once. *)
Definition batch_worker_start (worker_id : nat) (e : (worker_env (T := T))) : outcome batch_worker :=
  match h_batch_policy handler with
  | None => Panic
  | Some p =>
      Ret {| bw_id := worker_id; bw_acc := accumulator_new (max_batch_size p) (max_batch_wait_ms p);
             bw_state := Normal; bw_stopped := false; bw_env := e;
             bw_batches := []; bw_received := [] |}
  end.

Definition batch_worker_loop (worker_id : nat) (evs : list batch_event) (e : (worker_env (T := T))) :
    outcome batch_worker :=
  let? w := batch_worker_start worker_id e in ofold (λ w ev, batch_turn ev w) w evs.

(** ** Lemmas *)

(** The messages of partition [p] among keyed batches. *)
Definition batch_of (p : Z) (l : list (Z * list OwnedMessage)) : list OwnedMessage :=
  mjoin (snd <$> filter (λ x, x.1 = p) l).

Lemma batch_of_app p l1 l2 : batch_of p (l1 ++ l2) = batch_of p l1 ++ batch_of p l2.
Proof. unfold batch_of. by rewrite filter_app, fmap_app, join_app. Qed.

Lemma batch_of_single p q l : batch_of p [(q, l)] = if decide (q = p) then l else [].
Proof.
  unfold batch_of. rewrite filter_cons, filter_nil. simpl. case_decide; simpl; [by rewrite app_nil_r|done].
Qed.

Lemma batch_of_cons p q l r :
  batch_of p ((q, l) :: r) = (if decide (q = p) then l else []) ++ batch_of p r.
Proof. change ((q, l) :: r) with ([(q, l)] ++ r). by rewrite batch_of_app, batch_of_single. Qed.

Definition buffered (p : Z) (m : gmap Z PerPartitionBuffer) : list OwnedMessage :=
  default [] (buf_messages <$> m !! p).

Lemma buf_is_empty_true b : buf_is_empty b = true ↔ buf_messages b = [].
Proof. unfold buf_is_empty. by destruct (buf_messages b). Qed.

Lemma batch_of_nonempty p (l : list (Z * PerPartitionBuffer)) :
  NoDup l.*1 →
  batch_of p (omap (λ x, if buf_is_empty x.2 then None else Some (x.1, buf_messages x.2)) l) =
  buffered p (list_to_map l).
Proof.
  induction l as [|[q b] l IH]; intros Hnd; [done|].
  cbn [fmap list_fmap fst] in Hnd. apply NoDup_cons in Hnd as [Hq Hnd]. cbn [omap list_omap fst snd].
  assert (Hrest : batch_of p (omap (λ x, if buf_is_empty x.2 then None else Some (x.1, buf_messages x.2)) l)
                  = if decide (q = p) then [] else buffered p (list_to_map l)).
  { rewrite IH by done. case_decide as E; [|done]. subst. unfold buffered.
    by rewrite not_elem_of_list_to_map_1. }
  rewrite list_to_map_cons. unfold buffered at 1. unfold buffered in Hrest.
  destruct (buf_is_empty b) eqn:Eb.
  - rewrite Hrest. case_decide as E; [subst; rewrite lookup_insert_eq|by rewrite lookup_insert_ne].
    simpl. by apply buf_is_empty_true in Eb as ->.
  - rewrite batch_of_cons, Hrest.
    case_decide as E; [subst; rewrite lookup_insert_eq; simpl; by rewrite app_nil_r|].
    by rewrite lookup_insert_ne.
Qed.

Lemma flush_all_batches p a : batch_of p (flush_all a).1 = buffered p (accumulators a).
Proof.
  unfold flush_all. simpl. rewrite batch_of_nonempty by apply hash_keys_nodup.
  f_equal. transitivity (list_to_map (map_to_list (accumulators a)) : gmap Z PerPartitionBuffer);
    [|apply list_to_map_to_list].
  apply list_to_map_proper; [apply hash_keys_nodup|apply hash_iter_perm].
Qed.

Lemma flush_all_elem a q l :
  (q, l) ∈ (flush_all a).1 →
  ∃ b, accumulators a !! q = Some b ∧ l = buf_messages b ∧ l ≠ [].
Proof.
  unfold flush_all. simpl. rewrite list_elem_of_omap. intros ([q' b] & Hin & Hx). simpl in Hx.
  destruct (buf_is_empty b) eqn:Eb; simplify_eq. apply elem_of_hash_iter in Hin.
  exists b. split_and!; [done|done|]. intros Hn. apply buf_is_empty_true in Hn. congruence.
Qed.

(** What [flush_partition_batch] leaves alone, and what it records. *)
Lemma flush_batch_effect now w pb w' :
  flush_partition_batch now w pb = Ret w' →
  bw_acc w' = bw_acc w ∧ bw_state w' = bw_state w ∧ bw_stopped w' = bw_stopped w ∧
  bw_received w' = bw_received w ∧
  (pb.2 = [] ∧ w' = w ∨ pb.2 ≠ [] ∧ ∃ res, bw_batches w' = bw_batches w ++ [(pb, res)]).
Proof.
  unfold flush_partition_batch. destruct pb as [q [|first l]]; simpl; [intros [= <-]; auto 10|].
  destruct (invoke_mode_batch _ _ _) as [res|]; [|done]. simpl.
  destruct (handle_batch_result_inline _ _ _ _ _ _ _) as [e|]; [|done]. simpl. intros [= <-].
  simpl. split_and!; try done. right. split; [done|]. by exists res.
Qed.

Lemma flush_batches_effect now l : ∀ w w',
  ofold (flush_partition_batch now) w l = Ret w' → Forall (λ pb, pb.2 ≠ []) l →
  bw_acc w' = bw_acc w ∧ bw_state w' = bw_state w ∧ bw_stopped w' = bw_stopped w ∧
  bw_received w' = bw_received w ∧
  ∃ rs, length rs = length l ∧ bw_batches w' = bw_batches w ++ zip l rs.
Proof.
  induction l as [|pb l IH]; intros w w' Hr Hne; simpl in Hr.
  { simplify_eq. split_and!; try done. exists []. by rewrite app_nil_r. }
  destruct (flush_partition_batch now w pb) as [w1|] eqn:E; [|done]. simpl in Hr.
  inversion Hne as [|? ? Hpb Hl]; simplify_eq.
  destruct (flush_batch_effect _ _ _ _ E) as (Ha & Hs & Hp & Hc & [[? _]|[_ [res Hb]]]); [done|].
  destruct (IH _ _ Hr Hl) as (Ha' & Hs' & Hp' & Hc' & rs & Hlen & Hb').
  split_and!; try congruence. exists (res :: rs). simpl. split; [congruence|].
  by rewrite Hb', Hb, <- app_assoc.
Qed.

Lemma zip_batches {A B : Type} (l : list A) (rs : list B) : length rs = length l → (zip l rs).*1 = l.
Proof. intros Hl. apply fst_zip. lia. Qed.

(** The invariant between two turns. *)
Definition batch_ok (size p : Z) (l : list OwnedMessage) : Prop :=
  l ≠ [] ∧ Z.of_nat (length l) ≤ Z.max 1 size ∧ Forall (λ m, partition m = p) l.

Record batch_inv (size : Z) (w : batch_worker) : Prop := {
  bi_size : ba_max_batch_size (bw_acc w) = size;
  bi_conserve : ∀ p, filter (λ m, partition m = p) (bw_received w) =
                     batch_of p (bw_batches w).*1 ++ buffered p (accumulators (bw_acc w));
  bi_batches : Forall (λ x, batch_ok size x.1.1 x.1.2) (bw_batches w);
  bi_buffers : ∀ p b, accumulators (bw_acc w) !! p = Some b →
    Z.of_nat (length (buf_messages b)) < Z.max 1 size ∧ Forall (λ m, partition m = p) (buf_messages b);
  bi_stopped : bw_stopped w = true → ∀ p, buffered p (accumulators (bw_acc w)) = []
}.

Lemma buffered_drained p (m : gmap Z PerPartitionBuffer) :
  buffered p ((λ b, (take_messages b).2) <$> m) = [].
Proof. unfold buffered. rewrite lookup_fmap. by destruct (m !! p). Qed.

Lemma drain_inv size now w w' :
  batch_inv size w → drain now w = Ret w' →
  batch_inv size w' ∧ bw_stopped w' = bw_stopped w ∧ bw_received w' = bw_received w ∧
  (∀ p, buffered p (accumulators (bw_acc w')) = []).
Proof.
  intros [Hsz Hc Hb Hbuf Hst] Hd. unfold drain in Hd.
  destruct (flush_all (bw_acc w)) as [l a] eqn:Ef.
  assert (Hl : Forall (λ pb, batch_ok size pb.1 pb.2) l).
  { apply Forall_forall. intros [q m] Hin.
    pose proof (flush_all_elem (bw_acc w) q m) as He. rewrite Ef in He.
    destruct (He Hin) as (b & Hlk & -> & Hne). destruct (Hbuf _ _ Hlk) as [? ?].
    unfold batch_ok. simpl. split_and!; [done|lia|done]. }
  assert (Hne : Forall (λ pb, pb.2 ≠ []) l) by (eapply Forall_impl; [exact Hl|]; by intros ? (? & _)).
  destruct (flush_batches_effect _ _ _ _ Hd Hne) as (Ha & Hs & Hp & Hrc & rs & Hlen & Hbt).
  simpl in *. assert (Hacc : accumulators a = (λ b, (take_messages b).2) <$> accumulators (bw_acc w)).
  { unfold flush_all in Ef. injection Ef as _ <-. done. }
  assert (Hempty : ∀ p, buffered p (accumulators (bw_acc w')) = []).
  { intros p. rewrite Ha, Hacc. apply buffered_drained. }
  split; [|split_and!; try done; by rewrite Hrc].
  split.
  - rewrite Ha. unfold flush_all in Ef. injection Ef as _ <-. done.
  - intros p. rewrite Hrc, Hc, Hbt, fmap_app, zip_batches, batch_of_app, Hempty, app_nil_r by done.
    pose proof (flush_all_batches p (bw_acc w)) as Hfb. rewrite Ef in Hfb. simpl in Hfb. by rewrite Hfb.
  - rewrite Hbt. apply Forall_app. split; [done|].
    apply Forall_forall. intros [pb r] Hin. apply elem_of_zip_l in Hin.
    by apply (proj1 (Forall_forall _ _) Hl).
  - intros p b Hlk. rewrite Ha, Hacc, lookup_fmap in Hlk.
    destruct (accumulators (bw_acc w) !! p); simplify_eq/=. split; [lia|constructor].
  - intros _. exact Hempty.
Qed.

(** The same invariant with partition [q] possibly at its full size. *)
Record batch_inv_at (size q : Z) (w : batch_worker) : Prop := {
  ba_size : ba_max_batch_size (bw_acc w) = size;
  ba_conserve : ∀ p, filter (λ m, partition m = p) (bw_received w) =
                     batch_of p (bw_batches w).*1 ++ buffered p (accumulators (bw_acc w));
  ba_batches : Forall (λ x, batch_ok size x.1.1 x.1.2) (bw_batches w);
  ba_buffers : ∀ p b, accumulators (bw_acc w) !! p = Some b →
    (Z.of_nat (length (buf_messages b)) < Z.max 1 size ∨
     p = q ∧ Z.of_nat (length (buf_messages b)) ≤ Z.max 1 size) ∧
    Forall (λ m, partition m = p) (buf_messages b);
  ba_running : bw_stopped w = false
}.

Lemma batch_inv_weaken size q w : batch_inv size w → bw_stopped w = false → batch_inv_at size q w.
Proof. intros [Hs Hc Hb Hbuf _] Hr. split; try done. intros p b Hl. destruct (Hbuf p b Hl). auto. Qed.

Lemma flush_if_full_inv size now q w w' :
  batch_inv_at size q w → flush_if_full now q w = Ret w' →
  batch_inv size w' ∧ bw_stopped w' = false ∧ bw_state w' = bw_state w.
Proof.
  intros [Hsz Hc Hb Hbuf Hst] Hf. unfold flush_if_full in Hf.
  destruct (would_fill_partition q (bw_acc w)) eqn:Ew.
  2:{ injection Hf as <-. split; [|done]. split; try done; [|by rewrite Hst].
      intros p b Hl. destruct (Hbuf p b Hl) as [[?|[-> ?]] ?]; [done|]. split; [|done].
      unfold would_fill_partition, buf_len in Ew. rewrite Hl, Hsz in Ew. apply Z.leb_gt in Ew. lia. }
  unfold would_fill_partition in Ew. unfold flush_partition in Hf.
  destruct (accumulators (bw_acc w) !! q) as [b|] eqn:Eq; [|done].
  destruct (buf_is_empty b) eqn:Eb.
  { injection Hf as <-. split; [|done]. apply buf_is_empty_true in Eb.
    split; try done; simpl; [|by rewrite Hst].
    intros p b' Hl. destruct (Hbuf p b' Hl) as [[?|[-> ?]] ?]; [done|].
    split; [|done]. simplify_eq. rewrite Eb. simpl. lia. }
  destruct (buf_messages b) as [|first rest] eqn:Em; [unfold buf_is_empty in Eb; by rewrite Em in Eb|].
  destruct (Hbuf q b Eq) as [Hlen Hall]. rewrite Em in Hlen, Hall.
  assert (Hfirst : partition first = q) by (by inversion Hall).
  destruct (flush_batch_effect _ _ _ _ Hf) as (Ha & Hs & Hp & Hrc & [[? _]|[_ [res Hbt]]]); [done|].
  simpl in Ha, Hs, Hp, Hrc, Hbt. rewrite Hfirst in Hbt.
  split; [|by rewrite Hp]. split.
  - by rewrite Ha.
  - intros p. rewrite Hrc, Hc, Hbt, Ha, fmap_app, batch_of_app. simpl.
    rewrite batch_of_single. unfold buffered. simpl. case_decide as E.
    + subst p. rewrite Eq, lookup_insert_eq. simpl. by rewrite Em, app_nil_r.
    + by rewrite lookup_insert_ne, app_nil_r.
  - rewrite Hbt. apply Forall_app. split; [done|]. constructor; [|constructor].
    unfold batch_ok. simpl in *. split_and!; [done|lia|done].
  - intros p b' Hl. rewrite Ha in Hl. simpl in Hl. destruct (decide (q = p)) as [<-|Hne].
    + rewrite lookup_insert_eq in Hl. simplify_eq. simpl. split; [lia|constructor].
    + rewrite lookup_insert_ne in Hl by done. destruct (Hbuf p b' Hl) as [[?|[-> ?]] ?]; done.
  - by rewrite Hp, Hst.
Qed.

Lemma add_inv size now msg w :
  batch_inv size w → bw_stopped w = false →
  batch_inv_at size (partition msg) (bw_receive msg (bw_with_acc (acc_add now msg (bw_acc w)) w)).
Proof.
  intros [Hsz Hc Hb Hbuf _] Hst.
  assert (Hmsgs : ∀ b, buf_messages (buf_add now (max_batch_wait (bw_acc w)) msg b) = buf_messages b ++ [msg]).
  { intros b. unfold buf_add, start_timer. by repeat case_match. }
  split; simpl; [done| |done| |done].
  - intros p. rewrite filter_app, Hc, filter_cons, filter_nil. unfold buffered.
    destruct (decide (partition msg = p)) as [<-|Hne].
    + rewrite lookup_insert_eq. cbn [option_fmap option_map fmap default from_option].
      rewrite Hmsgs. destruct (accumulators (bw_acc w) !! partition msg); simpl;
        by rewrite <- app_assoc.
    + by rewrite lookup_insert_ne, app_nil_r.
  - intros p b Hl. destruct (decide (partition msg = p)) as [<-|Hne].
    + rewrite lookup_insert_eq in Hl. injection Hl as <-. rewrite Hmsgs, length_app.
      cbn [length].
      destruct (accumulators (bw_acc w) !! partition msg) as [b|] eqn:E; simpl.
      * destruct (Hbuf _ _ E). split; [right; split; [done|lia]|].
        apply Forall_app. split; [done|by constructor].
      * split; [right; split; [done|lia]|by constructor].
    + rewrite lookup_insert_ne in Hl by done. destruct (Hbuf p b Hl). auto.
Qed.

Lemma check_backpressure_inv size now msg w w' :
  batch_inv size w → bw_stopped w = false → check_backpressure now msg w = Ret w' →
  batch_inv size w' ∧ bw_stopped w' = false.
Proof.
  intros Hi Hst. unfold check_backpressure. repeat case_match; try (intros [= <-]; done).
  intros Hd. assert (Hi' : batch_inv size (bw_with_state InBackpressure w)).
  { destruct Hi as [Hsz Hc Hb Hbuf Hs]. by split. }
  destruct (drain_inv _ _ _ _ Hi' Hd) as (? & Hp & _). split; [done|]. by rewrite Hp.
Qed.

Lemma on_message_inv size now msg w w' :
  batch_inv size w → bw_stopped w = false → on_message now msg w = Ret w' →
  batch_inv size w' ∧ bw_stopped w' = false.
Proof.
  intros Hi Hst Hm. unfold on_message in Hm.
  destruct (check_backpressure now msg w) as [w1|] eqn:E1; [|done]. simpl in Hm.
  destruct (check_backpressure_inv _ _ _ _ _ Hi Hst E1) as [Hi1 Hs1].
  destruct (flush_if_full now (partition msg) w1) as [w2|] eqn:E2; [|done]. simpl in Hm.
  destruct (flush_if_full_inv _ _ _ _ _ (batch_inv_weaken _ (partition msg) _ Hi1 Hs1) E2)
    as (Hi2 & Hs2 & _).
  destruct (flush_if_full_inv _ _ _ _ _ (add_inv _ now msg _ Hi2 Hs2) Hm) as (? & ? & _). done.
Qed.

Lemma batch_turn_inv size ev w w' :
  batch_inv size w → batch_turn ev w = Ret w' → batch_inv size w'.
Proof.
  intros Hi Ht. unfold batch_turn in Ht. destruct (bw_stopped w) eqn:Hst; [by simplify_eq|].
  assert (Hstop : ∀ now, (let? w1 := drain now w in Ret (bw_stop w1)) = Ret w' → batch_inv size w').
  { intros now Hd. destruct (drain now w) as [w1|] eqn:E; simplify_eq/=.
    destruct (drain_inv _ _ _ _ Hi E) as ([Hsz Hc Hb Hbuf _] & _ & _ & He). by split. }
  destruct ev as [now|now msg|now|now]; eauto.
  - repeat case_match; simplify_eq; try done. by destruct (drain_inv _ _ _ _ Hi Ht).
  - by destruct (on_message_inv _ _ _ _ _ Hi Hst Ht).
Qed.

Lemma flush_if_full_state now q w w' : flush_if_full now q w = Ret w' → bw_state w' = bw_state w.
Proof.
  unfold flush_if_full, flush_partition. intros Hf. repeat case_match; simplify_eq/=; try done.
  all: by destruct (flush_batch_effect _ _ _ _ Hf) as (_ & -> & _).
Qed.

(** The deadline of a partition, once set, never changes. *)
Definition deadline_of (p : Z) (w : batch_worker) : option Z :=
  accumulators (bw_acc w) !! p ≫= buf_deadline.

Definition keeps_deadline (d p : Z) (w : batch_worker) : Prop := deadline_of p w = Some d.

Lemma flush_acc_deadline p a : 
  (accumulators (flush_all a).2 !! p) ≫= buf_deadline = (accumulators a !! p) ≫= buf_deadline.
Proof. unfold flush_all. simpl. rewrite lookup_fmap. by destruct (accumulators a !! p). Qed.

Lemma drain_deadline d p now w w' : keeps_deadline d p w → drain now w = Ret w' → keeps_deadline d p w'.
Proof.
  intros Hk Hd. unfold drain in Hd. destruct (flush_all (bw_acc w)) as [l a] eqn:Ef.
  pose proof (flush_acc_deadline p (bw_acc w)) as Hf. rewrite Ef in Hf. cbn [snd] in Hf.
  refine (ofold_inv (keeps_deadline d p) _ _ _ _ _ _ Hd);
    [|unfold keeps_deadline, deadline_of in *; cbn [bw_acc bw_with_acc]; by rewrite Hf].
  intros w1 pb w2 _ H1 H2. destruct (flush_batch_effect _ _ _ _ H2) as (Ha & _).
  unfold keeps_deadline, deadline_of in *. by rewrite Ha.
Qed.

Lemma flush_if_full_deadline d p now q w w' :
  keeps_deadline d p w → flush_if_full now q w = Ret w' → keeps_deadline d p w'.
Proof.
  unfold flush_if_full, flush_partition. intros Hk Hf. unfold keeps_deadline, deadline_of in *.
  destruct (would_fill_partition q (bw_acc w)); [|by simplify_eq].
  destruct (accumulators (bw_acc w) !! q) as [b|] eqn:Eq; [|by simplify_eq].
  destruct (buf_is_empty b); [by simplify_eq|].
  assert (Hgoal : (accumulators (with_accumulators (<[q:=(take_messages b).2]> (accumulators (bw_acc w)))
                    (bw_acc w)) !! p) ≫= buf_deadline = Some d).
  { simpl. destruct (decide (q = p)) as [<-|]; [|by rewrite lookup_insert_ne].
    rewrite lookup_insert_eq. simpl. by rewrite Eq in Hk. }
  destruct (buf_messages b) as [|first rest]; [by simplify_eq|].
  destruct (flush_batch_effect _ _ _ _ Hf) as (Ha & _). by rewrite Ha.
Qed.

Lemma batch_turn_deadline d p ev w w' :
  keeps_deadline d p w → batch_turn ev w = Ret w' → keeps_deadline d p w'.
Proof.
  intros Hk Ht. unfold batch_turn in Ht. destruct (bw_stopped w); [by simplify_eq|].
  assert (Hstop : ∀ now, (let? w1 := drain now w in Ret (bw_stop w1)) = Ret w' → keeps_deadline d p w').
  { intros now Hd. destruct (drain now w) as [w1|] eqn:E; simplify_eq/=.
    exact (drain_deadline _ _ _ _ _ Hk E). }
  destruct ev as [now|now msg|now|now]; eauto.
  - repeat case_match; simplify_eq; try done. by eapply drain_deadline.
  - unfold on_message in Ht.
    destruct (check_backpressure now msg w) as [w1|] eqn:E1; [|done]. simpl in Ht.
    assert (Hk1 : keeps_deadline d p w1).
    { unfold check_backpressure in E1. repeat case_match; simplify_eq; try done.
      eapply drain_deadline; [|exact E1]. exact Hk. }
    destruct (flush_if_full now (partition msg) w1) as [w2|] eqn:E2; [|done]. simpl in Ht.
    pose proof (flush_if_full_deadline _ _ _ _ _ _ Hk1 E2) as Hk2.
    eapply flush_if_full_deadline; [|exact Ht]. unfold keeps_deadline, deadline_of in *. simpl.
    destruct (decide (partition msg = p)) as [<-|]; [|by rewrite lookup_insert_ne].
    rewrite lookup_insert_eq. destruct (accumulators (bw_acc w2) !! partition msg) as [b|]; [|done].
    simpl in *. unfold buf_add, start_timer. by repeat case_match; simplify_eq/=.
Qed.

Lemma next_deadline_le a p b d :
  accumulators a !! p = Some b → buf_deadline b = Some d →
  ∃ d', next_deadline a = Some d' ∧ d' ≤ d.
Proof.
  intros Hl Hd. apply elem_of_hash_iter in Hl. unfold next_deadline.
  induction (hash_iter (accumulators a)) as [|x l IH]; [by inversion Hl|]. simpl.
  apply elem_of_cons in Hl as [<-|Hl].
  - simpl. rewrite Hd. destruct (foldr _ _ _) as [d'|]; simpl; eexists; (split; [done|lia]).
  - destruct (IH Hl) as (d' & -> & Hle). destruct (buf_deadline x.2) as [dx|]; simpl;
      eexists; (split; [done|lia]).
Qed.

Lemma batch_start_inv worker_id e w pol :
  h_batch_policy handler = Some pol → batch_worker_start worker_id e = Ret w →
  batch_inv (max_batch_size pol) w.
Proof.
  unfold batch_worker_start. intros -> [= <-]. split; simpl; done.
Qed.

(** What a failed batch does, message by message. *)
Lemma fail_messages_effect `{!OffsetCoordinatorLaws T} t p reason now batch : ∀ e e',
  ofold (fail_message t p reason jitter now) e batch = Ret e' →
  we_queues e' = Nat.iter (length batch) (queue_ack t 1) (we_queues e) ∧
  (∀ tp' p', oc_committed tp' p' (we_offsets e') = oc_committed tp' p' (we_offsets e)) ∧
  ∃ ms, length ms = length batch ∧
    Forall2 (λ m msg, original m = {| om_topic := t; om_partition := p; om_offset := offset msg |} ∧
                      failure_reason m = reason_to_string reason) ms batch ∧
    we_dlq e' = foldl (λ d x, produce_letter router to_rfc3339 x.1 x.2 d) (we_dlq e) (zip ms batch).
Proof.
  induction batch as [|msg batch IH]; intros e e' Hr; simpl in Hr.
  { simplify_eq. split_and!; [done|done|]. by exists []. }
  destruct (fail_message t p reason jitter now e msg) as [e1|] eqn:E; [|done]. simpl in Hr.
  destruct (IH _ _ Hr) as (Hq & Hc & ms & Hlen & Hms & Hd).
  unfold fail_message in E.
  destruct (record_failure _ _ _ _) as [[d rc']|] eqn:Erf; [|done]. cbn [obind fst snd] in E.
  assert (Hdec : ∃ sr sd de, d = (sr, sd, de) ∧ sd || sr = true).
  { destruct (record_failure_decision _ _ _ _ _ _ Erf) as [->|(de & -> & _)]; by eexists _, _, _. }
  destruct Hdec as (sr & sd & de & -> & Hor). rewrite Hor in E. injection E as <-.
  simpl in Hq, Hc, Hd. split_and!.
  - rewrite Hq. simpl. by rewrite <- Nat.iter_succ_r.
  - intros tp' p'. rewrite Hc. apply mark_failed_committed.
  - eexists (_ :: ms). simpl. split; [by rewrite Hlen|].
    split; [|exact Hd]. constructor; [done|exact Hms].
Qed.

Lemma ack_offsets_queues t p offsets : ∀ (e e' : (worker_env (T := T))),
  ofold (ack_offset t p) e offsets = Ret e' →
  we_queues e' = Nat.iter (length offsets) (queue_ack t 1) (we_queues e) ∧ we_dlq e' = we_dlq e.
Proof.
  induction offsets as [|o offsets IH]; intros e e' Hr; simpl in Hr; [by simplify_eq|].
  destruct (ack_offset t p e o) as [e1|] eqn:E; [|done]. simpl in Hr.
  destruct (IH _ _ Hr) as [Hq Hd]. unfold ack_offset in E.
  destruct (record_ack _ _ _ _) as [tr|]; simplify_eq/=. rewrite Hq, Hd.
  split; [|done]. by rewrite <- Nat.iter_succ_r.
Qed.

Lemma invoke_batch_length batch call offsets :
  invoke_batch batch call = AllSuccess offsets → length offsets = length batch.
Proof. unfold invoke_batch. destruct (py_outcome _); intros; simplify_eq. apply length_fmap. Qed.

(** ** The properties *)

(** C16: the batch worker loses, duplicates and reorders nothing.  After any
    sequence of deadlines, messages, backpressure and a final closing or shutdown
    drain, the messages received of a partition are, in order, those of its
    flushed batches followed by its buffer; every batch is of one partition, not
    empty, and within the batch size; and after the final drain every received
    message has been given to the handler. *)
Theorem batch_worker_conserves_messages worker_id evs e w pol :
  h_batch_policy handler = Some pol →
  batch_worker_loop worker_id evs e = Ret w →
  (∀ p, filter (λ m, partition m = p) (bw_received w) =
        batch_of p (bw_batches w).*1 ++ buffered p (accumulators (bw_acc w))) ∧
  Forall (λ x, batch_ok (max_batch_size pol) x.1.1 x.1.2) (bw_batches w) ∧
  (bw_stopped w = true →
   ∀ p, filter (λ m, partition m = p) (bw_received w) = batch_of p (bw_batches w).*1).
Proof.
  intros Hpol Hr. unfold batch_worker_loop in Hr.
  destruct (batch_worker_start worker_id e) as [w0|] eqn:E; [|done]. simpl in Hr.
  pose proof (batch_start_inv _ _ _ _ Hpol E) as Hi0.
  assert (Hi : batch_inv (max_batch_size pol) w).
  { refine (ofold_inv (batch_inv (max_batch_size pol)) _ _ _ _ _ Hi0 Hr).
    intros a x a' _ Ha Ht. exact (batch_turn_inv _ _ _ _ Ha Ht). }
  destruct Hi as [_ Hc Hb _ Hst]. split_and!; [done|done|].
  intros Hs p. by rewrite Hc, Hst, app_nil_r.
Qed.

(** C17: every message of a flushed batch is settled once.  A batch that succeeds
    acknowledges the queue once per message and sends no letter; one that fails
    acknowledges the queue once per message too, sends one letter per message with
    its own offset, retries nothing and moves no committed offset, whatever the
    reason of the failure. *)
Theorem flushed_batch_settles_each_message `{!OffsetCoordinatorLaws T} now w p first rest w' :
  flush_partition_batch now w (p, first :: rest) = Ret w' →
  let batch := first :: rest in
  we_queues (bw_env w') =
    Nat.iter (length batch) (queue_ack (topic first) 1) (we_queues (bw_env w)) ∧
  match invoke_batch batch (calls (length (bw_batches w))) with
  | AllSuccess _ => we_dlq (bw_env w') = we_dlq (bw_env w)
  | AllFailure reason =>
      (∀ tp' p', oc_committed tp' p' (we_offsets (bw_env w')) =
                 oc_committed tp' p' (we_offsets (bw_env w))) ∧
      ∃ ms, length ms = length batch ∧
        Forall2 (λ m msg, original m = {| om_topic := topic first; om_partition := p;
                                          om_offset := offset msg |} ∧
                          failure_reason m = reason_to_string reason) ms batch ∧
        we_dlq (bw_env w') =
          foldl (λ d x, produce_letter router to_rfc3339 x.1 x.2 d) (we_dlq (bw_env w)) (zip ms batch)
  end.
Proof.
  intros Hf batch. unfold flush_partition_batch in Hf. cbn [snd fst] in Hf. fold batch in Hf.
  unfold invoke_mode_batch in Hf. destruct (h_mode handler); [done|]. cbn [obind] in Hf.
  destruct (invoke_batch batch (calls (length (bw_batches w)))) as [offsets|reason] eqn:Ei.
  - cbn [handle_batch_result_inline] in Hf.
    destruct (ofold _ _ _) as [e|] eqn:E; [|done]. cbn [obind] in Hf. injection Hf as <-.
    cbn [bw_env we_with_states we_queues we_offsets we_dlq].
    destruct (ack_offsets_queues _ _ _ _ _ E) as [Hq Hd]. split; [|done].
    rewrite Hq. by rewrite (invoke_batch_length _ _ _ Ei).
  - cbn [handle_batch_result_inline] in Hf.
    destruct (ofold _ _ _) as [e|] eqn:E; [|done]. cbn [obind] in Hf. injection Hf as <-.
    cbn [bw_env we_with_states we_queues we_offsets we_dlq].
    by destruct (fail_messages_effect _ _ _ _ _ _ _ E) as (Hq & Hc & Hms).
Qed.

(** the fixed window is never opened again.  Once a partition has a deadline
    it keeps it through every later event, flushes included; so from then on the
    deadline branch of [select!] is ready at every instant past it, the turn does
    nothing when the accumulator is empty (the loop spins), and a message that
    arrives later is not batched: the ready branch flushes it at once. *)
Theorem deadline_is_never_reset evs w w' p d now :
  deadline_of p w = Some d →
  ofold (λ w ev, batch_turn ev w) w evs = Ret w' →
  d ≤ now →
  deadline_of p w' = Some d ∧
  deadline_ready now (bw_acc w') = true ∧
  (acc_is_empty (bw_acc w') = true → batch_turn (BDeadline now) w' = Ret w').
Proof.
  intros Hd Hr Hle.
  assert (Hk : deadline_of p w' = Some d).
  { refine (ofold_inv (keeps_deadline d p) _ _ _ _ _ Hd Hr).
    intros a x a' _ Ha Ht. exact (batch_turn_deadline _ _ _ _ _ Ha Ht). }
  assert (Hready : deadline_ready now (bw_acc w') = true).
  { unfold deadline_of in Hk. destruct (accumulators (bw_acc w') !! p) as [b|] eqn:E; [|done].
    simpl in Hk. destruct (next_deadline_le _ _ _ _ E Hk) as (d' & Hn & Hd').
    unfold deadline_ready. rewrite Hn. apply Z.leb_le. lia. }
  split_and!; [done|done|]. intros He. unfold batch_turn. rewrite Hready, He.
  by destruct (bw_stopped w').
Qed.

(** backpressure is detected once.  The batch state never goes back to
    normal, and in that state an arriving message is accumulated without looking
    at the queue: the worker never blocks on capacity, and only the first message
    over capacity in its life flushes the accumulator. *)
Theorem backpressure_state_is_final evs w w' now msg :
  bw_state w = InBackpressure →
  ofold (λ w ev, batch_turn ev w) w evs = Ret w' →
  bw_state w' = InBackpressure ∧ check_backpressure now msg w' = Ret w'.
Proof.
  intros Hs Hr.
  assert (Hk : bw_state w' = InBackpressure).
  { refine (ofold_inv (λ w, bw_state w = InBackpressure) _ _ _ _ _ Hs Hr).
    clear. intros w ev w' _ Hw Ht. unfold batch_turn in Ht.
    destruct (bw_stopped w); [by simplify_eq|].
    assert (Hdrain : ∀ now w1, drain now w = Ret w1 → bw_state w1 = InBackpressure).
    { intros now w1 Hd. unfold drain in Hd. destruct (flush_all (bw_acc w)) as [l a].
      refine (ofold_inv (λ w, bw_state w = InBackpressure) _ _ _ _ _ _ Hd); [|done].
      intros w2 pb w3 _ H2 Hf. by destruct (flush_batch_effect _ _ _ _ Hf) as (_ & -> & _). }
    destruct ev as [now|now m|now|now].
    - repeat case_match; simplify_eq; eauto.
    - unfold on_message in Ht.
      assert (Hc : check_backpressure now m w = Ret w) by (unfold check_backpressure; by rewrite Hw).
      rewrite Hc in Ht. simpl in Ht.
      destruct (flush_if_full now (partition m) w) as [w2|] eqn:E2; [|done]. simpl in Ht.
      rewrite (flush_if_full_state _ _ _ _ Ht). simpl. by rewrite (flush_if_full_state _ _ _ _ E2).
    - destruct (drain now w) as [w1|] eqn:E; simplify_eq/=. eauto.
    - destruct (drain now w) as [w1|] eqn:E; simplify_eq/=. eauto. }
  split; [done|]. unfold check_backpressure. by rewrite Hk.
Qed.

End batch.

(** ** Witnesses *)

Definition batch_handler (size wait : Z) : PythonHandler :=
  {| h_retry_policy := None; h_mode := BatchSync;
     h_batch_policy := Some {| max_batch_size := size; max_batch_wait_ms := wait |};
     handler_timeout := None; h_name := "t"; h_middleware := None |}.

Definition good_calls : nat → Callback := λ _ _, {| py_outcome := PyReturned; py_duration := 1 |}.
Definition bad_calls : nat → Callback := λ _ _, {| py_outcome := timeout_error; py_duration := 1 |}.

Definition demo_batch (calls : nat → Callback) (evs : list batch_event) : outcome batch_worker :=
  batch_worker_loop with_default_prefix (λ _, "now") (batch_handler 2 100) calls (λ _, f64_half)
    (HO := hash_order_canonical _) 0 evs demo_env.

Definition demo_batch_worker (calls : nat → Callback) (evs : list batch_event) : batch_worker :=
  match demo_batch calls evs with
  | Ret w => w
  | Panic => {| bw_id := 0; bw_acc := accumulator_new 0 0; bw_state := Normal; bw_stopped := true;
                bw_env := demo_env; bw_batches := []; bw_received := [] |}
  end.

Definition demo_events : list batch_event :=
  [BMessage 0 (fake "t" 0 1); BMessage 1 (fake "t" 1 5); BMessage 2 (fake "t" 0 2);
   BMessage 3 (fake "t" 0 3); BShutdown 4].

Lemma batch_worker_conserves_messages_witness :
  (∀ p, filter (λ m, partition m = p) (bw_received (demo_batch_worker good_calls demo_events)) =
        batch_of p (bw_batches (demo_batch_worker good_calls demo_events)).*1) ∧
  length (bw_batches (demo_batch_worker good_calls demo_events)) = 3%nat.
Proof.
  split; [|vm_compute; reflexivity].
  edestruct (batch_worker_conserves_messages with_default_prefix (λ _, "now") (batch_handler 2 100)
    good_calls (λ _, f64_half) (HO := hash_order_canonical _) 0 demo_events demo_env
    (demo_batch_worker good_calls demo_events)) as (_ & _ & H).
  - reflexivity.
  - vm_compute. reflexivity.
  - apply H. vm_compute. reflexivity.
Defined.

Definition demo_flushed : batch_worker :=
  match flush_partition_batch with_default_prefix (λ _, "now") (batch_handler 2 100) bad_calls
          (λ _, f64_half) 0 (demo_batch_worker bad_calls []) (0, [fake "t" 0 1; fake "t" 0 2]) with
  | Ret w' => w'
  | Panic => demo_batch_worker bad_calls []
  end.

Lemma flushed_batch_settles_each_message_witness :
  we_queues (bw_env demo_flushed) =
    Nat.iter 2 (queue_ack "t" 1) (we_queues (bw_env (demo_batch_worker bad_calls []))) ∧
  length (send_chan (we_dlq (bw_env demo_flushed))) = 2%nat.
Proof.
  edestruct (flushed_batch_settles_each_message with_default_prefix (λ _, "now") (batch_handler 2 100)
    bad_calls (λ _, f64_half) 0 (demo_batch_worker bad_calls []) 0 (fake "t" 0 1) [fake "t" 0 2]
    demo_flushed) as [H1 _].
  - vm_compute. reflexivity.
  - split; [exact H1|vm_compute; reflexivity].
Defined.

(** The batch is full long before its deadline; half a second later the empty
    worker still has the deadline of the first message. *)
Lemma deadline_is_never_reset_witness :
  let w := demo_batch_worker good_calls [BMessage 0 (fake "t" 0 1)] in
  let w' := demo_batch_worker good_calls [BMessage 0 (fake "t" 0 1); BMessage 2 (fake "t" 0 2)] in
  (deadline_of 0 w' = Some (from_millis 100) ∧
   deadline_ready (HO := hash_order_canonical _) (from_millis 500) (bw_acc w') = true) ∧
  acc_is_empty (HO := hash_order_canonical _) (bw_acc w') = true.
Proof.
  cbv zeta. split; [|vm_compute; reflexivity].
  edestruct (deadline_is_never_reset with_default_prefix (λ _, "now") (batch_handler 2 100)
    good_calls (λ _, f64_half) (HO := hash_order_canonical _) [BMessage 2 (fake "t" 0 2)]
    (demo_batch_worker good_calls [BMessage 0 (fake "t" 0 1)])
    (demo_batch_worker good_calls [BMessage 0 (fake "t" 0 1); BMessage 2 (fake "t" 0 2)])
    0 (from_millis 100) (from_millis 500)) as (H1 & H2 & _).
  - vm_compute. reflexivity.
  - vm_compute. reflexivity.
  - vm_compute. discriminate.
  - exact (conj H1 H2).
Defined.

Definition demo_pressed : batch_worker :=
  bw_with_state InBackpressure (demo_batch_worker good_calls []).

Definition demo_pressed_after : batch_worker :=
  match ofold (λ w ev, batch_turn with_default_prefix (λ _, "now") (batch_handler 2 100)
           good_calls (λ _, f64_half) (HO := hash_order_canonical _) ev w) demo_pressed
           [BMessage 0 (fake "t" 0 1); BMessage 2 (fake "t" 0 2)] with
  | Ret w' => w'
  | Panic => demo_pressed
  end.

Lemma backpressure_state_is_final_witness : bw_state demo_pressed_after = InBackpressure.
Proof.
  edestruct (backpressure_state_is_final with_default_prefix (λ _, "now") (batch_handler 2 100)
    good_calls (λ _, f64_half) (HO := hash_order_canonical _)
    [BMessage 0 (fake "t" 0 1); BMessage 2 (fake "t" 0 2)]
    demo_pressed demo_pressed_after 0 (fake "t" 0 9)) as [H1 _].
  - reflexivity.
  - vm_compute. reflexivity.
  - exact H1.
Defined.
