(* ===== verification/BatchSteps.v ===== *)
(** * The batch worker between its waits (src/worker_pool/batch_loop.rs)

    A branch of the loop in the steps between which the worker waits for the
    callable: every flush is a step of its own, so other tasks may act between
    the flushes of one branch. *)

From stdpp Require Import base gmap sets list strings.
From S2P Require Import Prelude F64 Metrics Failure Message Shutdown Runner Dlq OffsetTracker OffsetProofs Retry Queue Execution PoolState Worker Batch.

(** What is left to do of the branch that was taken. *)
Inductive batch_action :=
| ActFlush (pb : Z * list OwnedMessage)     (* one batch of [flush_all] *)
| ActFull (p : Z)                           (* the test for a full partition *)
| ActAdd (m : OwnedMessage)
| ActStop.

Section steps.
Context {R : Type} `{DlqRouter R} (router : R) (to_rfc3339 : Z → string).
Context {T : Type} `{OffsetCoordinator T} {HO : HashOrder Z}.

Definition begin_drain (w : batch_worker (T := T)) : batch_worker * list batch_action :=
  let '(batches, a) := flush_all (bw_acc w) in (bw_with_acc a w, ActFlush <$> batches).

(** The backpressure test on an arriving message. *)
Definition begin_pressure (msg : OwnedMessage) (w : batch_worker (T := T)) : batch_worker * list batch_action :=
  if is_backpressure (bw_state w) then (w, [])
  else match get_capacity (topic msg) (we_queues (bw_env w)), get_inflight (topic msg) (we_queues (bw_env w)) with
  | Some cap, Some infl =>
      if cap <=? infl then begin_drain (bw_with_state InBackpressure w) else (w, [])
  | _, _ => (w, [])
  end.

Definition message_actions (msg : OwnedMessage) : list batch_action :=
  [ActFull (partition msg); ActAdd msg; ActFull (partition msg)].

(** A branch of [select!] is taken. *)
Definition batch_begin (ev : batch_event) (w : batch_worker (T := T)) : batch_worker * list batch_action :=
  match ev with
  | BDeadline now =>
      if deadline_ready now (bw_acc w) then
        if acc_is_empty (bw_acc w) then (w, []) else begin_drain w
      else (w, [])
  | BMessage _ msg => let '(w, acts) := begin_pressure msg w in (w, acts ++ message_actions msg)
  | BClosed _ | BShutdown _ => let '(w, acts) := begin_drain w in (w, acts ++ [ActStop])
  end.

Context (handler : PythonHandler) (calls : nat → Callback) (jitter : Z → f64).

Definition batch_act (now : Z) (a : batch_action) (w : batch_worker (T := T)) : outcome batch_worker :=
  match a with
  | ActFlush pb => flush_partition_batch router to_rfc3339 handler calls jitter now w pb
  | ActFull p => flush_if_full router to_rfc3339 handler calls jitter now p w
  | ActAdd msg => Ret (bw_receive msg (bw_with_acc (acc_add now msg (bw_acc w)) w))
  | ActStop => Ret (bw_stop w)
  end.

Definition event_time (ev : batch_event) : Z :=
  match ev with BDeadline now | BMessage now _ | BClosed now | BShutdown now => now end.

(** ** A turn is its steps *)

Lemma ofold_fmap {A B C : Type} (f : A → C → outcome A) (g : B → C) a l :
  ofold f a (g <$> l) = ofold (λ a b, f a (g b)) a l.
Proof. revert a. induction l as [|b l IH]; intros a; simpl; [done|]. destruct (f a (g b)); [apply IH|done]. Qed.

Lemma ofold_app {A B : Type} (f : A → B → outcome A) a l1 l2 :
  ofold f a (l1 ++ l2) = obind (ofold f a l1) (λ a, ofold f a l2).
Proof. revert a. induction l1 as [|b l1 IH]; intros a; simpl; [done|]. destruct (f a b); [apply IH|done]. Qed.

Lemma begin_drain_eq now w :
  drain router to_rfc3339 handler calls jitter now w =
  (let '(w1, acts) := begin_drain w in ofold (λ w a, batch_act now a w) w1 acts).
Proof. unfold drain, begin_drain. destruct (flush_all (bw_acc w)). by rewrite ofold_fmap. Qed.

Lemma begin_pressure_eq now msg w :
  check_backpressure router to_rfc3339 handler calls jitter now msg w =
  (let '(w1, acts) := begin_pressure msg w in ofold (λ w a, batch_act now a w) w1 acts).
Proof.
  unfold check_backpressure, begin_pressure. destruct (is_backpressure _); [done|].
  destruct (get_capacity (topic msg) (we_queues (bw_env w))) as [cap|]; [|done].
  destruct (get_inflight (topic msg) (we_queues (bw_env w))) as [infl|]; [|done].
  destruct (cap <=? infl); [|done]. apply begin_drain_eq.
Qed.

Lemma obind_ret {A : Type} (x : outcome A) : obind x Ret = x.
Proof. by destruct x. Qed.

Lemma batch_turn_steps ev w :
  batch_turn router to_rfc3339 handler calls jitter ev w =
  (if bw_stopped w then Ret w
   else let '(w1, acts) := batch_begin ev w in ofold (λ w a, batch_act (event_time ev) a w) w1 acts).
Proof.
  unfold batch_turn. destruct (bw_stopped w); [done|].
  destruct ev as [now|now msg|now|now]; cbn [batch_begin event_time].
  - destruct (deadline_ready _ _); [|done]. destruct (acc_is_empty _); [done|]. apply begin_drain_eq.
  - unfold on_message. rewrite begin_pressure_eq. destruct (begin_pressure msg w) as [w1 acts].
    rewrite ofold_app. destruct (ofold _ w1 acts) as [w2|]; [|done]. cbn [obind ofold message_actions batch_act].
    destruct (flush_if_full _ _ _ _ _ _ _ w2); [|done]. cbn [obind]. by rewrite obind_ret.
  - rewrite begin_drain_eq. destruct (begin_drain w) as [w1 acts]. by rewrite ofold_app.
  - rewrite begin_drain_eq. destruct (begin_drain w) as [w1 acts]. by rewrite ofold_app.
Qed.

End steps.

(** ** What the steps keep *)

Definition pending (todo : list batch_action) : list (Z * list OwnedMessage) :=
  omap (λ a, match a with ActFlush pb => Some pb | _ => None end) todo.

(** The message taken from the channel and not accumulated yet. *)
Definition to_add (todo : list batch_action) : list OwnedMessage :=
  omap (λ a, match a with ActAdd m => Some m | _ => None end) todo.

Lemma pending_flushes bs : pending (ActFlush <$> bs) = bs.
Proof. induction bs as [|b bs IH]; [done|]. cbn. by f_equal. Qed.

Lemma to_add_flushes bs : to_add (ActFlush <$> bs) = [].
Proof. by induction bs. Qed.

Section flow.
Context {T : Type}.

(** Of every partition, the received messages are those given to the handler,
    those about to be flushed, and the buffer, in this order. *)
Record steps_inv (w : batch_worker (T := T)) (todo : list batch_action) : Prop := {
  sp_shape : ∃ bs rest, todo = (ActFlush <$> bs) ++ rest ∧ pending rest = [];
  sp_conserve : ∀ p, filter (λ m, partition m = p) (bw_received w) =
    batch_of p (bw_batches w).*1 ++ batch_of p (pending todo) ++ buffered p (accumulators (bw_acc w));
  sp_pending : Forall (λ pb, Forall (λ m, partition m = pb.1) pb.2) (pending todo);
  sp_buffers : ∀ p b, accumulators (bw_acc w) !! p = Some b → Forall (λ m, partition m = p) (buf_messages b)
}.

Lemma elem_of_batch_of m p l : m ∈ batch_of p l ↔ ∃ b, (p, b) ∈ l ∧ m ∈ b.
Proof.
  unfold batch_of. rewrite list_elem_of_join. split.
  - intros (b & Hm & Hb). apply list_elem_of_fmap in Hb as ([q b'] & -> & Hx).
    apply list_elem_of_filter in Hx as [Hq Hx]. simpl in *. subst. eauto.
  - intros (b & Hx & Hm). exists b. split; [done|]. apply list_elem_of_fmap. exists (p, b). split; [done|].
    by apply list_elem_of_filter.
Qed.

(** What is about to be flushed was received. *)
Lemma pending_received w todo pb m :
  steps_inv w todo → pb ∈ pending todo → m ∈ pb.2 → m ∈ bw_received w ∧ partition m = pb.1.
Proof.
  intros I Hpb Hm. assert (m ∈ filter (λ m, partition m = pb.1) (bw_received w)) as Hf.
  { rewrite (sp_conserve _ _ I), !elem_of_app, !elem_of_batch_of. right. left. exists pb.2. by destruct pb. }
  by apply list_elem_of_filter in Hf as [? ?].
Qed.

Lemma buffered_received w todo p m :
  steps_inv w todo → m ∈ buffered p (accumulators (bw_acc w)) → m ∈ bw_received w ∧ partition m = p.
Proof.
  intros I Hm. assert (m ∈ filter (λ m, partition m = p) (bw_received w)) as Hf.
  { rewrite (sp_conserve _ _ I), !elem_of_app. auto. }
  by apply list_elem_of_filter in Hf as [? ?].
Qed.

Lemma begin_drain_inv {HO : HashOrder Z} w w1 acts rest :
  steps_inv w [] → pending rest = [] → begin_drain w = (w1, acts) →
  steps_inv w1 (acts ++ rest) ∧ bw_received w1 = bw_received w ∧ bw_env w1 = bw_env w ∧
  bw_stopped w1 = bw_stopped w ∧ bw_batches w1 = bw_batches w ∧ to_add acts = [].
Proof.
  intros [_ Hc _ Hb] Hrest Hd. unfold begin_drain in Hd. destruct (flush_all (bw_acc w)) as [bs a] eqn:E.
  injection Hd as <- <-. split; [|split_and!; try done; apply to_add_flushes].
  assert (pending ((ActFlush <$> bs) ++ rest) = bs) as Hp.
  { unfold pending in *. rewrite omap_app, Hrest, app_nil_r. apply pending_flushes. }
  assert (accumulators a = (λ b, (take_messages b).2) <$> accumulators (bw_acc w)) as Ea.
  { unfold flush_all in E. injection E as _ <-. done. }
  split; [by exists bs, rest| | |].
  - intros p. cbn [bw_with_acc bw_received bw_batches bw_acc]. rewrite Hp, Ea, buffered_drained, app_nil_r, Hc.
    pose proof (flush_all_batches p (bw_acc w)) as Hf. rewrite E in Hf. simpl in *. by rewrite Hf.
  - rewrite Hp. apply Forall_forall. intros [q l] Hin. pose proof (flush_all_elem (bw_acc w) q l) as Hf.
    rewrite E in Hf. destruct (Hf Hin) as (b & Hl & -> & _). by apply (Hb q b).
  - cbn [bw_with_acc bw_acc]. intros p b. rewrite Ea, lookup_fmap.
    destruct (accumulators (bw_acc w) !! p); [|done]. intros [= <-]. constructor.
Qed.

Lemma steps_inv_state s w todo : steps_inv w todo → steps_inv (bw_with_state s w) todo.
Proof. by intros [? ? ? ?]. Qed.

Lemma steps_inv_rest w rest : steps_inv w [] → pending rest = [] → steps_inv w rest.
Proof. intros [_ Hc Hp Hb] Hr. split; rewrite ?Hr; try done. by exists [], rest. Qed.

Lemma batch_begin_inv {HO : HashOrder Z} ev w w1 todo :
  steps_inv w [] → batch_begin ev w = (w1, todo) →
  steps_inv w1 todo ∧ bw_received w1 = bw_received w ∧ bw_env w1 = bw_env w ∧
  bw_stopped w1 = bw_stopped w ∧ bw_batches w1 = bw_batches w ∧
  to_add todo = match ev with BMessage _ m => [m] | _ => [] end.
Proof.
  intros I Hb. assert (Hd : ∀ w w1 acts rest, steps_inv w [] → pending rest = [] → begin_drain w = (w1, acts) →
    steps_inv w1 (acts ++ rest) ∧ bw_received w1 = bw_received w ∧ bw_env w1 = bw_env w ∧
    bw_stopped w1 = bw_stopped w ∧ bw_batches w1 = bw_batches w ∧ to_add (acts ++ rest) = to_add rest).
  { intros w2 w3 acts rest I2 Hr E. destruct (begin_drain_inv _ _ _ _ I2 Hr E) as (?&?&?&?&?&Ha).
    split_and!; try done. unfold to_add in *. by rewrite omap_app, Ha. }
  destruct ev as [now|now msg|now|now]; cbn [batch_begin] in Hb.
  - destruct (deadline_ready _ _); [|by injection Hb as <- <-].
    destruct (acc_is_empty _); [by injection Hb as <- <-|].
    destruct (Hd _ _ _ [] I eq_refl Hb) as (?&?&?&?&?&?). by rewrite app_nil_r in *.
  - destruct (begin_pressure msg w) as [w2 acts] eqn:E. injection Hb as <- <-.
    unfold begin_pressure in E.
    assert (w2 = w ∧ acts = [] ∨ begin_drain (bw_with_state InBackpressure w) = (w2, acts)) as [[-> ->]|E'].
    { repeat case_match; simplify_eq; auto. }
    + split; [by apply steps_inv_rest|done].
    + by apply (Hd (bw_with_state InBackpressure w) w2 acts); [by apply steps_inv_state|..].
  - destruct (begin_drain w) as [w2 acts] eqn:E. injection Hb as <- <-. by apply (Hd w).
  - destruct (begin_drain w) as [w2 acts] eqn:E. injection Hb as <- <-. by apply (Hd w).
Qed.

End flow.

(** ** A flush over the offset tracker *)

Section tracker.
Context {R : Type} `{DlqRouter R} (router : R) (to_rfc3339 : Z → string).
Context (handler : PythonHandler) (calls : nat → Callback) (jitter : Z → f64).

Abbreviation env := (worker_env (T := OffsetTracker)).

(** Messages of one partition. *)
Definition of_partition (t : string) (p : Z) (batch : list OwnedMessage) : Prop :=
  Forall (λ m, topic m = t ∧ partition m = p) batch.

(** What handling some messages does to the environment. *)
Definition handled (log : list (OwnedMessage * ExecutionResult)) (ok : Prop) (e e' : env) : Prop :=
  we_log e' = we_log e ∧ same_senders (we_queues e) (we_queues e') ∧
  (ok → tracker_run (log_op <$> log) (we_offsets e) = Ret (we_offsets e')).

Lemma ack_offsets_flow t p offsets batch : ∀ e e' : env,
  ofold (ack_offset t p) e (offset <$> batch) = Ret e' →
  handled (batch_entry (AllSuccess offsets) <$> batch) (of_partition t p batch) e e'.
Proof.
  induction batch as [|m batch IH]; intros e e' Hr; cbn [fmap list_fmap ofold] in Hr.
  { injection Hr as <-. by split_and!. }
  destruct (ack_offset _ _ e (offset m)) as [e1|] eqn:E; [|done]. cbn [obind] in Hr.
  destruct (IH _ _ Hr) as (Hl & Hs & Ht). unfold ack_offset in E.
  destruct (record_ack _ _ _ _) as [tr|] eqn:Ea; [|done]. cbn [obind] in E. injection E as <-.
  cbn [we_with_offsets we_with_queues we_with_retry we_log we_queues we_offsets] in *.
  split_and!; [done|intros tp; rewrite Hs; apply queue_ack_senders|].
  intros Hb. inversion Hb as [|? ? [<- <-] Hb']; subst. cbn [fmap list_fmap tracker_run].
  change (log_op (batch_entry (AllSuccess offsets) m)) with (TAck (topic m) (partition m) (offset m)).
  cbn [tracker_step]. simpl in Ea. rewrite Ea. by apply Ht.
Qed.

Lemma fail_messages_flow t p reason now batch : ∀ e e' : env,
  ofold (fail_message router to_rfc3339 t p reason jitter now) e batch = Ret e' →
  handled (batch_entry (AllFailure reason) <$> batch) (of_partition t p batch) e e'.
Proof.
  induction batch as [|m batch IH]; intros e e' Hr; cbn [ofold] in Hr.
  { injection Hr as <-. by split_and!. }
  destruct (fail_message _ _ _ _ _ _ _ e m) as [e1|] eqn:E; [|done]. cbn [obind] in Hr.
  destruct (IH _ _ Hr) as (Hl & Hs & Ht). unfold fail_message in E.
  destruct (record_failure _ _ _ _) as [[[[sr sd] de] rc]|]; [|done]. cbn [obind fst snd] in E.
  destruct (sd || sr); injection E as <-;
    cbn [we_with_offsets we_with_queues we_with_retry we_with_dlq we_log we_queues we_offsets] in *;
    (split_and!; [done|intros tp; rewrite Hs; apply queue_ack_senders|];
     intros Hb; inversion Hb as [|? ? [<- <-] Hb']; subst; by apply Ht).
Qed.

(** One flush: every message of the batch is handled once, and the tracker is
    driven by what was handled. *)
Lemma flush_batch_flow now w pb w' :
  flush_partition_batch router to_rfc3339 handler calls jitter now w pb = Ret w' →
  let e := bw_env w in let e' := bw_env w' in
  ∃ new, we_log e' = we_log e ++ new ∧ Forall (λ x, x.1 ∈ pb.2) new ∧
    same_senders (we_queues e) (we_queues e') ∧
    (∀ tp, of_partition tp pb.1 pb.2 →
       tracker_run (log_op <$> new) (we_offsets e) = Ret (we_offsets e')).
Proof.
  unfold flush_partition_batch. destruct pb as [p [|first l]]; cbn [fst snd].
  { intros [= <-]. exists []. rewrite app_nil_r. by split_and!. }
  destruct (invoke_mode_batch _ _ _) as [result|] eqn:Ei; [|done]. cbn [obind].
  set (e1 := we_with_sink _ _).
  destruct (handle_batch_result_inline _ _ _ _ _ _ _ _ e1) as [e'|] eqn:Eh; [|done]. cbn [obind].
  intros [= <-]. cbn [bw_env we_with_states we_log we_queues we_offsets].
  exists (batch_entry result <$> first :: l).
  assert (handled (batch_entry result <$> first :: l) (of_partition (topic first) p (first :: l)) e1 e') as (H1 & H2 & H3).
  { unfold handle_batch_result_inline in Eh. destruct result as [offsets|reason].
    - assert (offsets = offset <$> first :: l) as Eo.
      { unfold invoke_mode_batch in Ei. destruct (h_mode handler); [done|]. injection Ei as Ei.
        unfold invoke_batch in Ei. destruct (py_outcome _); [|done..]. by injection Ei as <-. }
      rewrite Eo in Eh at 2. by apply (ack_offsets_flow _ _ offsets) in Eh.
    - by apply fail_messages_flow in Eh. }
  split_and!; [by rewrite H1| |exact H2|].
  - apply Forall_fmap, Forall_forall. intros m Hm. exact Hm.
  - intros tp Hb. apply H3. inversion Hb as [|? ? [<- _] _]. exact Hb.
Qed.

(** ** One step of the batch worker *)

Lemma flush_if_full_cases now p (w w' : batch_worker (T := OffsetTracker)) :
  flush_if_full router to_rfc3339 handler calls jitter now p w = Ret w' →
  w' = w ∨ ∃ first rest b, accumulators (bw_acc w) !! p = Some b ∧ buf_messages b = first :: rest ∧
    flush_partition_batch router to_rfc3339 handler calls jitter now
      (bw_with_acc (with_accumulators (<[p := (take_messages b).2]> (accumulators (bw_acc w))) (bw_acc w)) w)
      (partition first, first :: rest) = Ret w'.
Proof.
  unfold flush_if_full, flush_partition. destruct (would_fill_partition _ _); [|intros [= <-]; by left].
  assert (bw_with_acc (bw_acc w) w = w) as Esame by (by destruct w).
  destruct (accumulators (bw_acc w) !! p) as [b|] eqn:E; [|rewrite Esame; intros [= <-]; by left].
  destruct (buf_is_empty b) eqn:Eb; [rewrite Esame; intros [= <-]; by left|].
  destruct (buf_messages b) as [|first rest] eqn:Em.
  { unfold buf_is_empty in Eb. by rewrite Em in Eb. }
  intros Hf. right. by exists first, rest, b.
Qed.

(** What one step does beside the batches: messages of the batch are handled. *)
Definition step_flow (batch : list OwnedMessage) (w w' : batch_worker (T := OffsetTracker)) : Prop :=
  let e := bw_env w in let e' := bw_env w' in
  ∃ new, we_log e' = we_log e ++ new ∧ Forall (λ x, x.1 ∈ batch) new ∧
    same_senders (we_queues e) (we_queues e') ∧
    (∀ tp, Forall (λ m, topic m = tp) batch →
       tracker_run (log_op <$> new) (we_offsets e) = Ret (we_offsets e')).

Lemma step_flow_same batch w w' : bw_env w' = bw_env w → step_flow batch w w'.
Proof. intros E. exists []. rewrite E, app_nil_r. by split_and!. Qed.

(** A flush of [pb], which stands before the other pending batches. *)
Lemma flush_step now pb todo w w' :
  steps_inv w (ActFlush pb :: todo) →
  flush_partition_batch router to_rfc3339 handler calls jitter now w pb = Ret w' →
  steps_inv w' todo ∧ bw_received w' = bw_received w ∧ bw_stopped w' = bw_stopped w ∧
  step_flow (bw_received w) w w'.
Proof.
  intros I Hf. pose proof I as [(bs & rest & Hsh & Hr) Hc Hp Hb].
  destruct (flush_batch_effect _ _ _ _ _ _ _ _ _ Hf) as (Ea & Es & Est & Er & Hcase).
  assert (Hpend : pending (ActFlush pb :: todo) = pb :: pending todo) by done.
  rewrite Hpend in *. inversion Hp as [|? ? Hpb Hp']; subst.
  split; [|split_and!; [done|done|]].
  - split; rewrite ?Ea; try done.
    + destruct bs as [|b bs]; [|injection Hsh as -> ->; by exists bs, rest].
      simpl in Hsh. subst rest. by rewrite Hpend in Hr.
    + intros p. rewrite Er, Hc. destruct pb as [q l]. rewrite batch_of_cons.
      destruct Hcase as [[Hn ->]|[_ [res ->]]]; cbn [snd] in *.
      * subst l. by case_decide.
      * rewrite fmap_app, batch_of_app. cbn [fmap list_fmap fst]. rewrite batch_of_single, <- !app_assoc.
        by case_decide.
  - destruct (flush_batch_flow _ _ _ _ Hf) as (new & Hl & Hin & Hs & Ht). exists new. split_and!; [done| |done|].
    + eapply Forall_impl; [exact Hin|]. intros x Hx. cbn beta in Hx.
      eapply (pending_received _ _ pb); [exact I|by left|exact Hx].
    + intros tp Htp. apply (Ht tp). apply Forall_forall. intros m Hm.
      destruct (pending_received _ _ pb m I) as [Hrec Hpart]; [by left|done|].
      rewrite Forall_forall in Htp. auto.
Qed.

Lemma steps_inv_tail a (w : batch_worker (T := OffsetTracker)) todo :
  pending [a] = [] → steps_inv w (a :: todo) → steps_inv w todo ∧ pending todo = [].
Proof.
  intros Ha [(bs & rest & Hsh & Hr) Hc Hp Hb].
  assert (pending (a :: todo) = pending todo) as E by (destruct a; done).
  assert (pending todo = []) as Et.
  { destruct bs as [|b bs]; [simpl in Hsh; subst rest; by rewrite <- E|]. injection Hsh as -> ->. done. }
  split; [|done]. rewrite E in *. split; try done. by exists [], todo.
Qed.

Lemma batch_act_flow now a todo w w' :
  steps_inv w (a :: todo) → batch_act router to_rfc3339 handler calls jitter now a w = Ret w' →
  steps_inv w' todo ∧ bw_received w' ++ to_add todo = bw_received w ++ to_add (a :: todo) ∧
  bw_stopped w' = (match a with ActStop => true | _ => bw_stopped w end) ∧
  step_flow (bw_received w) w w'.
Proof.
  intros I. destruct a as [pb|p|m|]; cbn [batch_act].
  - intros Hf. by destruct (flush_step _ _ _ _ _ I Hf) as (? & -> & ? & ?).
  - destruct (steps_inv_tail (ActFull p) _ _ eq_refl I) as [I' Hnone].
    intros [->|(first & rest & b & Hb & Em & Hf)]%flush_if_full_cases.
    { split_and!; [done|done|done|by apply step_flow_same]. }
    assert (partition first = p) as Ef.
    { pose proof (sp_buffers _ _ I' p b Hb) as Hall. rewrite Em in Hall. by inversion Hall. }
    rewrite Ef in Hf. apply (flush_step _ _ todo) in Hf as (J1 & J2 & J3 & J4); [by split_and!; [|rewrite J2|..]|].
    destruct I' as [(bs & r & Hsh & Hr) Hc Hp Hbuf]. split.
    + exists [(p, first :: rest)], todo. split; [done|exact Hnone].
    + intros q. change (pending (ActFlush (p, first :: rest) :: todo)) with ((p, first :: rest) :: pending todo).
      rewrite Hnone in *. cbn [bw_with_acc bw_received bw_batches bw_acc with_accumulators accumulators].
      rewrite Hc, batch_of_single. unfold buffered. destruct (decide (p = q)) as [<-|N].
      * rewrite Hb, lookup_insert_eq. simpl. by rewrite Em, app_nil_r.
      * by rewrite lookup_insert_ne.
    + change (pending (ActFlush (p, first :: rest) :: todo)) with ((p, first :: rest) :: pending todo).
      rewrite Hnone. apply Forall_singleton. cbn [fst snd]. rewrite <- Em. by apply (Hbuf p b).
    + cbn [bw_with_acc bw_acc with_accumulators accumulators]. intros q b' Hq.
      apply lookup_insert_Some in Hq as [[<- <-]|[_ Hq]]; [constructor|by apply (Hbuf q b')].
  - destruct (steps_inv_tail (ActAdd m) _ _ eq_refl I) as [[Hsh Hc Hp Hbuf] Hnone]. intros [= <-].
    split_and!; [|cbn; by rewrite <- app_assoc|done|by apply step_flow_same].
    split; [done| |done|].
    + intros q. cbn [bw_receive bw_with_acc bw_received bw_batches bw_acc acc_add with_accumulators accumulators].
      rewrite filter_app, Hc, Hnone. unfold buffered. cbn [app batch_of]. rewrite <- app_assoc. f_equal.
      rewrite (filter_cons _ m []), filter_nil. destruct (decide (partition m = q)) as [<-|N].
      * rewrite lookup_insert_eq. simpl. unfold buf_add.
        destruct (accumulators (bw_acc w) !! partition m) as [b|]; simpl; [|done].
        by destruct (buf_is_empty b); [unfold start_timer; destruct (buf_deadline b)|].
      * rewrite lookup_insert_ne by done. by rewrite app_nil_r.
    + cbn [bw_receive bw_with_acc bw_acc acc_add with_accumulators accumulators]. intros q b Hq.
      apply lookup_insert_Some in Hq as [[<- <-]|[_ Hq]]; [|by apply (Hbuf q b)].
      unfold buf_add. cbn [buf_messages]. apply Forall_app. split; [|by apply Forall_singleton].
      destruct (accumulators (bw_acc w) !! partition m) as [b|] eqn:E; simpl; [|constructor].
      pose proof (Hbuf _ _ E). by destruct (buf_is_empty b); [unfold start_timer; destruct (buf_deadline b)|].
  - destruct (steps_inv_tail ActStop _ _ eq_refl I) as [[Hsh Hc Hp Hbuf] Hnone]. intros [= <-].
    split_and!; [by split|done|done|by apply step_flow_same].
Qed.

End tracker.
