(* ===== verification/Letters.v ===== *)
(** * What the workers send to the dead-letter channel (src/worker_pool/mod.rs, batch_loop.rs)

    The letters that have been accepted only grow: what is in the channel moves
    to the broker, and what does not fit is not taken.  For every step of a worker
    of either kind, the letters it offers are those of the failures it handled. *)

From stdpp Require Import base gmap sets list strings.
From S2P Require Import Prelude F64 Metrics Failure Message Shutdown Runner Dlq OffsetTracker OffsetProofs Retry Queue Execution PoolState Worker Batch BatchSteps.

(** ** The letters of the producer *)

(** The letters accepted so far: handed to the broker, then in the channel. *)
Definition letters (p : SharedDlqProducer) : list DlqRecord :=
  broker_records p ++ (build_record <$> send_chan p).

Definition has_room (p : SharedDlqProducer) : bool := (length (send_chan p) <? DLQ_CHANNEL_CAPACITY)%nat.

(** From [p] to [p'] the letters [xs] were offered: some were accepted, in their
    order, and all of them when there is room at the end. *)
Definition extends (xs : list DlqRecord) (p p' : SharedDlqProducer) : Prop :=
  chan_ok p → chan_ok p' ∧
  ∃ ys, letters p' = letters p ++ ys ∧ ys `sublist_of` xs ∧ (has_room p' = true → ys = xs).

(** The same, and nothing was taken from the channel. *)
Definition posts (xs : list DlqRecord) (p p' : SharedDlqProducer) : Prop :=
  (length (send_chan p) ≤ length (send_chan p'))%nat ∧ extends xs p p'.

Lemma has_room_true p : has_room p = true ↔ (length (send_chan p) < DLQ_CHANNEL_CAPACITY)%nat.
Proof. apply Nat.ltb_lt. Qed.

Lemma posts_nil p : posts [] p p.
Proof. split; [done|]. intros Hok. split; [done|]. exists []. by rewrite app_nil_r. Qed.

Lemma posts_app xs ys p1 p2 p3 : posts xs p1 p2 → posts ys p2 p3 → posts (xs ++ ys) p1 p3.
Proof.
  intros [L1 E1] [L2 E2]. split; [lia|]. intros Hok. destruct (E1 Hok) as (Hok2 & zs1 & H1 & S1 & F1).
  destruct (E2 Hok2) as (Hok3 & zs2 & H2 & S2 & F2). split; [done|]. exists (zs1 ++ zs2).
  split_and!; [by rewrite H2, H1, app_assoc|by apply sublist_app|].
  rewrite has_room_true in *. intros Hr. rewrite F1, F2 by lia. done.
Qed.

Lemma posts_extends xs p p' : posts xs p p' → extends xs p p'.
Proof. by intros [_ E]. Qed.

Lemma produce_async_posts to_rfc3339 t p pl k m s :
  posts [build_record (letter_message to_rfc3339 t p pl k m)] s (produce_async to_rfc3339 t p pl k m s).1.
Proof.
  unfold posts, extends, has_room, produce_async, letters, chan_ok.
  destruct (DLQ_CHANNEL_CAPACITY <=? length (send_chan s))%nat eqn:E.
  - rewrite orb_true_r. cbn [fst]. split; [done|]. intros Hok. split; [done|]. exists [].
    rewrite app_nil_r. split_and!; [done|apply sublist_nil_l|].
    apply Nat.leb_le in E. intros Hr%Nat.ltb_lt. lia.
  - apply Nat.leb_gt in E. rewrite orb_false_r. destruct (chan_closed s) eqn:Ec; cbn [fst];
      [split; [done|intros [? _]; congruence]|].
    cbn [send_chan broker_records chan_closed]. rewrite length_app. cbn [length]. split; [lia|].
    intros _. split; [split; [done|lia]|]. eexists. by rewrite fmap_app, app_assoc.
Qed.

(** A turn of the background task moves one letter and loses none. *)
Lemma do_produce_extends d p : extends [] p (do_produce d p).
Proof.
  intros [Hc Hl]. assert (letters (do_produce d p) = letters p) as ->.
  { unfold letters, do_produce. destruct (send_chan p) as [|x l] eqn:E; [by rewrite E|].
    cbn [broker_records send_chan fmap list_fmap]. by rewrite <- app_assoc. }
  split; [|exists []; by rewrite app_nil_r].
  unfold chan_ok, do_produce. destruct (send_chan p) as [|x l] eqn:E; [by rewrite E|].
  cbn [chan_closed send_chan length] in *. split; [done|lia].
Qed.

(** ** The letter of a failure *)

Section letters.
Context {R : Type} `{DlqRouter R} (router : R) (to_rfc3339 : Z → string).

Abbreviation env := (worker_env (T := OffsetTracker)).

(** A letter for the router's topic and partition, with the given content. *)
Definition letter_record (md : DlqMetadata) (pl : list Byte.byte) (k : option (list Byte.byte)) : DlqRecord :=
  build_record (letter_message to_rfc3339 (tp_topic (route router md)) (tp_partition (route router md)) pl k md).

Definition origin (m : OwnedMessage) : OriginalMessage :=
  {| om_topic := topic m; om_partition := partition m; om_offset := offset m |}.

(** The letter of the message [m] whose result was [r]: it names the message and
    the reason, and carries its payload and key. *)
Definition letter_of (m : OwnedMessage) (r : ExecutionResult) (x : DlqRecord) : Prop :=
  ∃ md, original md = origin m ∧ failure_reason md = reason_to_string (result_reason r) ∧
    x = letter_record md (default [] (payload m)) (key m).

(** The letter of [m] in the flush at the end: it names the message only. *)
Definition flush_letter_of (m : OwnedMessage) (x : DlqRecord) : Prop :=
  ∃ md, original md = origin m ∧ x = letter_record md [] None.

(** Among the invocations [new] and the letters [xs], the message was handled with
    success, or has a letter. *)
Definition accounted (new : list (OwnedMessage * ExecutionResult)) (xs : list DlqRecord) (m : OwnedMessage) : Prop :=
  (m, ResOk) ∈ new ∨ ∃ r x, (m, r) ∈ new ∧ r ≠ ResOk ∧ x ∈ xs ∧ letter_of m r x.

(** What a step of a worker logs and offers: its letters are those of failures it
    logged, every failure that is not retryable has one, and so has every message
    it is done with and did not handle with success. *)
Definition letter_step (done done' : list OwnedMessage) (e e' : env) : Prop :=
  ∃ new xs, we_log e' = we_log e ++ new ∧ posts xs (we_dlq e) (we_dlq e') ∧
    (∀ x, x ∈ xs → ∃ m r, (m, r) ∈ new ∧ r ≠ ResOk ∧ letter_of m r x) ∧
    (∀ m, m ∈ done' → m ∈ done ∨ accounted new xs m) ∧
    (∀ m r, (m, r) ∈ new → r ≠ ResOk → category (result_reason r) ≠ Retryable →
       ∃ x, x ∈ xs ∧ letter_of m r x).

Lemma letter_step_quiet done e e' :
  we_log e' = we_log e → we_dlq e' = we_dlq e → letter_step done done e e'.
Proof.
  intros El Ed. exists [], []. rewrite app_nil_r, Ed. split_and!; [done|apply posts_nil| |by left|].
  - by intros x []%not_elem_of_nil.
  - by intros m r []%not_elem_of_nil.
Qed.

Lemma produce_letter_posts md m p :
  posts [letter_record md (default [] (payload m)) (key m)] p (produce_letter router to_rfc3339 md m p).
Proof. apply produce_async_posts. Qed.

(** ** A message of a single-message worker *)

Lemma handle_result_letters r i msg jitter now (e : env) a e' :
  handle_execution_result router to_rfc3339 r (message_context i msg) msg jitter now e = Ret (a, e') →
  (r = ResOk ∧ a = None ∧ we_dlq e' = we_dlq e) ∨
  (r ≠ ResOk ∧ (∃ d, a = Some (ActRetry d)) ∧ category (result_reason r) = Retryable ∧ we_dlq e' = we_dlq e) ∨
  (r ≠ ResOk ∧ a = Some ActDlq ∧ ∃ x, letter_of msg r x ∧ posts [x] (we_dlq e) (we_dlq e')).
Proof.
  intros Hh. assert (r = ResOk ∨ r ≠ ResOk) as [->|Hr] by (destruct r; auto).
  { left. simpl in Hh. destruct (tracker_ack _ _ _ _); [|done]. by simplify_eq/=. }
  right. rewrite handle_failed_result in Hh by done. cbv zeta in Hh.
  destruct (handle_execution_failure _ _ _ _ _ _ _ _) as [[a1 e1]|] eqn:E; [|done]. simplify_eq/=.
  apply handle_failure_cases in E as (rc & _ & _ & _ & [(d & -> & Hf & _ & Hd)|(-> & _ & _ & Hd)]); [| |done].
  - left. split_and!; [done|by exists d| |by rewrite Hd].
    by destruct (record_failure_decision _ _ _ _ _ _ Hf) as [?|(? & ? & ?)].
  - right. split_and!; [done|done|]. eexists. split; [|rewrite Hd; apply produce_letter_posts].
    eexists. split; [|split; [|reflexivity]]; done.
Qed.

Lemma process_message_letters handlers {HO : HashOrder string} i t msg w (e : env) w' e' :
  process_message router to_rfc3339 handlers i t msg w e = Ret (w', e') →
  letter_step (wk_fanned w) (wk_fanned w') e e'.
Proof.
  unfold process_message. destruct (handler_for_topic handlers (topic msg)) as [h|]; [|done]. cbn [obind].
  set (r := (invoke_mode_with_timeout h (message_context i msg) msg (tn_callback t)).1). clearbody r.
  set (e1 := we_with_sink _ (we_logged msg r e)).
  destruct (handle_execution_result _ _ r _ _ _ _ e1) as [[a e2]|] eqn:E; [|done]. cbn [obind fst snd]. intros Hp.
  assert (Hl : we_log e2 = we_log e ++ [(msg, r)]).
  { apply handle_result_tracker in E as [-> _]; done. }
  assert (Hdone : wk_fanned w' = wk_fanned w ∨ (∀ d, a ≠ Some (ActRetry d)) ∧ wk_fanned w' = wk_fanned w ++ [msg]).
  { destruct a as [[]|]; repeat case_match; simplify_eq/=; auto; right; by split; [intros ? [=]|]. }
  assert (we_log e' = we_log e2 ∧ we_dlq e' = we_dlq e2) as [El' Ed'] by (by repeat case_match; simplify_eq/=).
  apply handle_result_letters in E. change (we_dlq e1) with (we_dlq e) in E. clearbody e1.
  assert (Hfan : ∀ xs, accounted [(msg, r)] xs msg ∨ (∃ d, a = Some (ActRetry d)) →
    ∀ m, m ∈ wk_fanned w' → m ∈ wk_fanned w ∨ accounted [(msg, r)] xs m).
  { intros xs Ha m. destruct Hdone as [->|[Hn ->]]; [by left|].
    intros [Hm| ->%list_elem_of_singleton]%elem_of_app; [by left|right].
    destruct Ha as [|(d & ->)]; [done|]. by destruct (Hn d). }
  exists [(msg, r)].
  destruct E as [(-> & -> & Ed)|[(Hr & Hret & Hc & Ed)|(Hr & -> & x & Hx & Hp')]].
  - exists []. rewrite El', Ed', Ed. split_and!; [done|apply posts_nil|by intros x []%not_elem_of_nil| |].
    + apply Hfan. left. left. by apply list_elem_of_singleton.
    + by intros m r [= _ ->]%list_elem_of_singleton ?.
  - exists []. rewrite El', Ed', Ed. split_and!; [done|apply posts_nil|by intros x []%not_elem_of_nil| |].
    + apply Hfan. by right.
    + by intros m r' [= _ ->]%list_elem_of_singleton.
  - exists [x]. rewrite El', Ed'. split_and!; [done|done| | |].
    + intros y ->%list_elem_of_singleton. exists msg, r. by rewrite list_elem_of_singleton.
    + apply Hfan. left. right. exists r, x. by rewrite !list_elem_of_singleton.
    + intros m r' [= -> ->]%list_elem_of_singleton _ _. exists x. by rewrite list_elem_of_singleton.
Qed.

(** ** The messages of a failed batch *)

Section batch.
Context (handler : PythonHandler) (calls : nat → Callback) (jitter : Z → f64).

(** The letters of a batch with its result, one per message of a failed batch. *)
Definition batch_letters (res : BatchExecutionResult) (batch : list OwnedMessage) (xs : list DlqRecord) : Prop :=
  match res with
  | AllSuccess _ => xs = []
  | AllFailure reason => Forall2 (λ m x, letter_of m (batch_entry (AllFailure reason) m).2 x) batch xs
  end.

Lemma fail_messages_letters t p reason now batch : ∀ e e' : env,
  ofold (fail_message router to_rfc3339 t p reason jitter now) e batch = Ret e' →
  of_partition t p batch →
  ∃ xs, posts xs (we_dlq e) (we_dlq e') ∧ batch_letters (AllFailure reason) batch xs.
Proof.
  induction batch as [|m batch IH]; intros e e' Hr Hb; cbn [ofold] in Hr.
  { injection Hr as <-. exists []. split; [apply posts_nil|constructor]. }
  inversion Hb as [|? ? [Et Ep] Hb']; subst.
  destruct (fail_message _ _ _ _ _ _ _ e m) as [e1|] eqn:E; [|done]. cbn [obind] in Hr.
  destruct (IH _ _ Hr Hb') as (xs & Hp & Hf). unfold fail_message in E.
  destruct (record_failure _ _ _ _) as [[d rc]|] eqn:Ed; [|done]. cbn [obind fst snd] in E.
  apply record_failure_decision in Ed.
  assert (∃ x, posts [x] (we_dlq e) (we_dlq e1) ∧ letter_of m (batch_entry (AllFailure reason) m).2 x) as (x & Hx & Hl).
  { assert (d.1.1 || d.1.2 = true) as Hd by (by destruct Ed as [->|(? & -> & _)]).
    destruct d as [[sr sd] de]. cbn [fst snd] in Hd. rewrite orb_comm, Hd in E. injection E as <-.
    cbn [we_with_offsets we_with_queues we_with_retry we_with_dlq we_dlq].
    eexists. split; [apply produce_letter_posts|]. eexists. split; [|split; [|reflexivity]]; done. }
  exists (x :: xs). split; [by apply (posts_app [x] xs _ (we_dlq e1))|by constructor].
Qed.

Lemma ack_offsets_dlq t p os : ∀ e e' : env,
  ofold (ack_offset t p) e os = Ret e' → we_log e' = we_log e ∧ we_dlq e' = we_dlq e.
Proof.
  induction os as [|o os IH]; intros e e' Hr; cbn [ofold] in Hr; [by injection Hr as <-|].
  destruct (ack_offset _ _ e o) as [e1|] eqn:E; [|done]. destruct (IH _ _ Hr) as [-> ->]. unfold ack_offset in E.
  destruct (record_ack _ _ _ _); [|done]. by injection E as <-.
Qed.

(** What a worker has given to its handler. *)
Definition batched (w : batch_worker (T := OffsetTracker)) : list OwnedMessage :=
  mjoin ((bw_batches w).*1).*2.

(** A flush of messages of one topic and of the partition of the batch. *)
Lemma flush_batch_letters tp now w pb w' :
  flush_partition_batch router to_rfc3339 handler calls jitter now w pb = Ret w' →
  of_partition tp pb.1 pb.2 →
  letter_step (batched w) (batched w') (bw_env w) (bw_env w').
Proof.
  unfold flush_partition_batch. destruct pb as [p [|first l]]; cbn [fst snd].
  { intros [= <-] _. by apply letter_step_quiet. }
  intros Hf Hb. destruct (invoke_mode_batch _ _ _) as [res|]; [|done]. cbn [obind] in Hf.
  set (e1 := we_with_sink _ _) in Hf.
  destruct (handle_batch_result_inline _ _ _ _ _ _ _ _ e1) as [e'|] eqn:Eh; [|done]. injection Hf as <-.
  assert (topic first = tp) as Et by (inversion Hb as [|? ? [? _]]; done). rewrite Et in Eh.
  assert (we_log e' = we_log (bw_env w) ++ (batch_entry res <$> first :: l) ∧
    ∃ xs, posts xs (we_dlq (bw_env w)) (we_dlq e') ∧ batch_letters res (first :: l) xs) as (El & xs & Hp & Hx).
  { unfold handle_batch_result_inline in Eh. destruct res as [os|reason].
    - apply ack_offsets_dlq in Eh as [-> ->]. split; [done|]. exists []. split; [apply posts_nil|done].
    - split; [|by apply (fail_messages_letters _ _ _ _ _ _ _ Eh)].
      by apply fail_messages_flow in Eh as [-> _]. }
  assert (Hacc : ∀ m, m ∈ first :: l → accounted (batch_entry res <$> first :: l) xs m).
  { intros m Hm. destruct res as [os|reason].
    - left. apply list_elem_of_fmap. by exists m.
    - right. apply list_elem_of_lookup in Hm as (i & Hi). destruct (Forall2_lookup_l _ _ _ _ _ Hx Hi) as (x & Hxi & Hlx).
      exists (batch_entry (AllFailure reason) m).2, x. split_and!; [|done|by eapply list_elem_of_lookup_2|exact Hlx].
      apply list_elem_of_fmap. exists m. split; [done|]. by eapply list_elem_of_lookup_2. }
  exists (batch_entry res <$> first :: l), xs. split_and!; [exact El|exact Hp| | |].
  - intros x Hin. destruct res as [os|reason]; [rewrite Hx in Hin; by apply not_elem_of_nil in Hin|].
    apply list_elem_of_lookup in Hin as (i & Hi). destruct (Forall2_lookup_r _ _ _ _ _ Hx Hi) as (m & Hm & Hlx).
    exists m, (batch_entry (AllFailure reason) m).2. split_and!; [|done|done].
    apply list_elem_of_fmap. exists m. split; [done|]. by eapply list_elem_of_lookup_2.
  - intros m. unfold batched. cbn [bw_batches]. rewrite !fmap_app, join_app, elem_of_app. cbn [fmap list_fmap fst snd mjoin list_join].
    rewrite app_nil_r. intros [Hm|Hm]; [by left|right]. by apply Hacc.
  - intros m r (m' & [= -> ->] & Hm)%list_elem_of_fmap Hr _.
    destruct (Hacc m' Hm) as [Hok|(r & x & (m2 & [= <- ->] & _)%list_elem_of_fmap & _ & Hin & Hlx)]; [|by exists x].
    apply list_elem_of_fmap in Hok as (m2 & [= <- E2] & _). by destruct res.
Qed.

(** One step of the batch worker, when what it received is of one topic. *)
Lemma batch_act_letters tp now a todo w w' :
  steps_inv w (a :: todo) → Forall (λ m, topic m = tp) (bw_received w) →
  batch_act router to_rfc3339 handler calls jitter now a w = Ret w' →
  letter_step (batched w) (batched w') (bw_env w) (bw_env w').
Proof.
  intros I Htp. destruct a as [pb|p|m|]; cbn [batch_act].
  - intros Hf. apply (flush_batch_letters tp now w pb w' Hf). apply Forall_forall. intros m Hm.
    destruct (pending_received _ _ pb m I) as [Hrec Hpart]; [by left|done|].
    rewrite Forall_forall in Htp. auto.
  - intros [->|(first & rest & b & Hb & Em & Hf)]%flush_if_full_cases; [by apply letter_step_quiet|].
    refine (flush_batch_letters tp _ _ _ _ Hf _). rewrite <- Em. cbn [fst snd].
    assert (partition first = p) as ->.
    { pose proof (sp_buffers _ _ I p b Hb) as Hall. rewrite Em in Hall. by inversion Hall. }
    apply Forall_forall. intros m Hm. pose proof (proj1 (Forall_forall _ _) (sp_buffers _ _ I p b Hb) m Hm) as Hp.
    split; [|done]. apply (proj1 (Forall_forall _ _) Htp).
    assert (m ∈ filter (λ m, partition m = p) (bw_received w)) as [_ ?]%list_elem_of_filter; [|done].
    rewrite (sp_conserve _ _ I), !elem_of_app. right. right. unfold buffered. by rewrite Hb.
  - intros [= <-]. by apply letter_step_quiet.
  - intros [= <-]. by apply letter_step_quiet.
Qed.

End batch.

End letters.
