(* ===== verification/Observe.v ===== *)
(** * What the workers publish

    The statuses and the metrics of single-message and batch workers, against
    what the workers do (worker_pool/worker.rs, batch_loop.rs). *)

From stdpp Require Import base gmap sets list strings pretty sorting.
From S2P Require Import Prelude F64 Metrics Failure Message Dlq Runner OffsetTracker OffsetProofs Retry Queue Execution PoolState Worker Batch.

(** ** Labels and sinks *)

(** The calls a sink can get, and a sink after a list of them. *)
Inductive SinkCall :=
| CallCounter (name : string) (labels : list (string * string))
| CallHistogram (name : string) (value : f64) (labels : list (string * string))
| CallGauge (name : string) (value : f64) (labels : list (string * string)).

Definition sink_call {S : Type} `{MetricsSink S} (s : S) (c : SinkCall) : S :=
  match c with
  | CallCounter n l => record_counter n l s
  | CallHistogram n v l => record_histogram n v l s
  | CallGauge n v l => record_gauge n v l s
  end.

Definition counted (name : string) (cs : list SinkCall) : list (list (string * string)) :=
  omap (λ c, match c with CallCounter n l => if decide (n = name) then Some l else None | _ => None end) cs.
Definition observed (name : string) (cs : list SinkCall) : list f64 :=
  omap (λ c, match c with CallHistogram n v _ => if decide (n = name) then Some v else None | _ => None end) cs.
Definition gauged (name : string) (cs : list SinkCall) : list f64 :=
  omap (λ c, match c with CallGauge n v _ => if decide (n = name) then Some v else None | _ => None end) cs.

Lemma sink_calls_spec (cs : list SinkCall) (s : PrometheusSink) :
  let s' := foldl sink_call s cs in
  registry s' = registry s ∧
  (∀ n, counters s' !! n = (λ v, v + length (counted n cs))%nat <$> counters s !! n) ∧
  (∀ n, histograms s' !! n = (λ l, l ++ observed n cs) <$> histograms s !! n) ∧
  (∀ n, gauges s' !! n = (λ l, l ++ (f64_to_i64 <$> gauged n cs)) <$> gauges s !! n).
Proof.
  revert s. induction cs as [|c cs IH]; intros s; simpl.
  { split_and!; [done|intros n..]; destruct (_ !! n); simpl; rewrite ?Nat.add_0_r, ?app_nil_r; done. }
  destruct (IH (sink_call s c)) as (Hr & Hc & Hh & Hg). rewrite Hr.
  split_and!; [by destruct c|intros m..]; rewrite ?Hc, ?Hh, ?Hg; destruct c as [n l|n v l|n v l]; simpl; try done;
    (destruct (decide (n = m)) as [->|E]; [rewrite lookup_alter_eq|by rewrite lookup_alter_ne]);
    destruct (_ !! m); simpl; rewrite <- ?app_assoc; try done; f_equal; lia.
Qed.

(** Metric labels are canonical.  Whatever the order of the insertions, the
    slice is sorted by key, holds exactly the pairs inserted, and keeps the
    order of insertion among equal keys; two chains of insertions of the same
    pairs with distinct keys give the same slice. *)
Theorem labels_are_canonical (l : list (string * string)) :
  StronglySorted key_le (as_slice (labels_of l)) ∧
  as_slice (labels_of l) ≡ₚ l ∧
  (∀ k, filter (λ x, x.1 = k) (as_slice (labels_of l)) = filter (λ x, x.1 = k) l) ∧
  ∀ l', l' ≡ₚ l → NoDup l.*1 → as_slice (labels_of l') = as_slice (labels_of l).
Proof.
  destruct (labels_of_spec l) as (Hs & Hp & Hf). split_and!; [done..|]. intros l' Hl Hnd.
  destruct (labels_of_spec l') as (Hs' & Hp' & _).
  refine (StronglySorted_unique_strong _ _ _ _ Hs' Hs _); [|by rewrite Hp', Hp].
  intros [k v] [k' v'] H1 H2 Hle Hge. unfold key_le in *. simpl in *.
  assert (k = k') as <- by (by apply (anti_symm String.le)).
  rewrite Hp', Hl in H1. rewrite Hp in H2. f_equal.
  apply list_elem_of_lookup in H1 as [i Hi], H2 as [j Hj].
  assert (i = j) as <-; [|congruence].
  eapply NoDup_lookup; [exact Hnd|..]; by rewrite list_lookup_fmap, ?Hi, ?Hj.
Qed.

(** A registered metric that has had no call yet. *)
Definition fresh_family (s : PrometheusSink) (x : MetricKind * string * string) : bool :=
  match x.1.1 with
  | KCounter => match counters s !! x.1.2 with Some O => true | _ => false end
  | KHistogram => match histograms s !! x.1.2 with Some [] => true | _ => false end
  | KGauge => match gauges s !! x.1.2 with Some [] => true | _ => false end
  end.

(** What a sink knows of the calls made on it. *)
Definition records (cs : list SinkCall) (s : PrometheusSink) (x : MetricKind * string * string) : Prop :=
  let '(k, n, h) := x in
  match k with
  | KCounter => counters s !! n = Some (length (counted n cs)) ∧ register_counter n h s = s
  | KHistogram => histograms s !! n = Some (observed n cs) ∧ register_histogram n h s = s
  | KGauge => gauges s !! n = Some (f64_to_i64 <$> gauged n cs) ∧ register_gauge n h s = s
  end.

Lemma fresh_family_records s cs x : fresh_family s x = true → records cs (foldl sink_call s cs) x.
Proof.
  destruct (sink_calls_spec cs s) as (_ & Hc & Hh & Hg). destruct x as [[k n] h].
  unfold fresh_family. simpl. destruct k; intros Hf.
  - destruct (counters s !! n) as [[]|] eqn:E; try done. unfold register_counter. by rewrite Hc, E.
  - destruct (histograms s !! n) as [[]|] eqn:E; try done. unfold register_histogram. by rewrite Hh, E.
  - destruct (gauges s !! n) as [[]|] eqn:E; try done. unfold register_gauge. by rewrite Hg, E.
Qed.

Lemma sink_calls_ext s cs cs' : (∀ n, length (counted n cs') = length (counted n cs)) →
  (∀ n, observed n cs' = observed n cs) → (∀ n, gauged n cs' = gauged n cs) →
  foldl sink_call s cs' = foldl sink_call s cs.
Proof.
  intros Hc' Hh' Hg'. destruct (sink_calls_spec cs s) as (Hr & Hc & Hh & Hg).
  destruct (sink_calls_spec cs' s) as (Er & Ec & Eh & Eg).
  destruct (foldl sink_call s cs') as [r' c' h' g'], (foldl sink_call s cs) as [r c h g].
  simpl in *. subst. f_equal; apply map_eq; intros n;
    by rewrite ?Ec, ?Hc, ?Hc', ?Eh, ?Hh, ?Hh', ?Eg, ?Hg, ?Hg'.
Qed.

Lemma shared_sink_families : forallb (fresh_family shared_sink_new) (registry shared_sink_new) = true ∧
  length (registry shared_sink_new) = 16%nat ∧ NoDup (registry shared_sink_new).
Proof. split_and!; [by vm_compute..|]. apply (bool_decide_unpack _). by vm_compute. Qed.

(** The shared sink counts by name.  It registers sixteen families, each once,
    and registering one again changes nothing; after any sequence of recordings
    a registered metric has had exactly the calls made under its name, in order.
    The labels of the calls leave no trace: two sequences with the same values
    under each name give the same sink. *)
Theorem sink_records_by_name (cs : list SinkCall) :
  let s := foldl sink_call shared_sink_new cs in
  length (registry s) = 16%nat ∧ NoDup (registry s) ∧ Forall (records cs s) (registry s) ∧
  ∀ cs', (∀ n, length (counted n cs') = length (counted n cs)) → (∀ n, observed n cs' = observed n cs) →
    (∀ n, gauged n cs' = gauged n cs) → foldl sink_call shared_sink_new cs' = s.
Proof.
  intros s. destruct shared_sink_families as (Hf & Hl & Hn). subst s.
  revert Hf Hl Hn. generalize shared_sink_new. intros s0 Hf Hl Hn.
  destruct (sink_calls_spec cs s0) as (Hr & _). rewrite Hr.
  split_and!; [done..| |intros cs'; apply sink_calls_ext].
  apply Forall_forall. intros x Hx. apply fresh_family_records.
  by apply (proj1 (forallb_forall _ _) Hf), list_elem_of_In.
Qed.

(** ** Single-message workers *)

Definition status_of (w : worker) : WorkerStatus :=
  if wk_stopped w then StIdle
  else match wk_state w with
       | WIdle => StIdle
       | WProcessing m => StActive (topic m) (topic m) (partition m) (offset m)
       end.

(** How often the log of handled invocations was counted. *)
Record tally (log : list (OwnedMessage * ExecutionResult)) (s : PrometheusSink) : Prop := {
  ta_invocation : counters s !! "kafpy.handler.invocation" = Some (length log);
  ta_throughput : counters s !! "kafpy.message.throughput" = Some (length log);
  ta_call : counters s !! "kafpy.python.call_total" = Some (length log);
  ta_error : counters s !! "kafpy.handler.error" = Some (length (filter (λ x, is_ok x.2 = false) log));
  ta_timeout : counters s !! "kafpy.handler.timeout_total" =
               Some (length (filter (λ x, is_timeout x.2 = true) log));
  ta_latency : length <$> histograms s !! "kafpy.handler.latency" = Some (length log);
  ta_wait : length <$> histograms s !! "kafpy.python.queue_wait_seconds" = Some (length log);
  ta_batch : histograms s !! "kafpy.python.batch_size" = Some (replicate (length log) f64_one)
}.

Lemma tally_new : tally [] shared_sink_new.
Proof. split; by vm_compute. Qed.

Section workers.
Context {T : Type} `{OffsetCoordinator T} {R : Type} `{DlqRouter R} (router : R) (to_rfc3339 : Z → string)
  {HO : HashOrder string} (handlers : gmap string PythonHandler).

(** The settling of a result touches neither the statuses nor the metrics. *)
Definition same_view (e e' : worker_env (T := T)) : Prop :=
  we_sink e' = we_sink e ∧ we_states e' = we_states e ∧ we_log e' = we_log e.

Lemma handle_failure_frame r ctx msg jitter now (e : worker_env (T := T)) a e' :
  handle_execution_failure router to_rfc3339 ctx msg r jitter now e = Ret (a, e') → same_view e e'.
Proof.
  unfold handle_execution_failure. destruct (failure_of r) as [reason|]; [|done]. cbn [obind].
  destruct (record_failure _ _ _ _) as [[[[sr sd] d] rc]|]; [|done]. cbn [obind fst snd].
  destruct sr, d, sd; cbv iota; intros [= <- <-]; done.
Qed.

Lemma handle_result_frame r ctx msg jitter now (e : worker_env (T := T)) a e' :
  handle_execution_result router to_rfc3339 r ctx msg jitter now e = Ret (a, e') → same_view e e'.
Proof.
  assert (r = ResOk ∨ r ≠ ResOk) as [->|Hr] by (destruct r; auto).
  - simpl. destruct (record_ack _ _ _ _); [|done]. simpl. by intros [= <- <-].
  - rewrite handle_failed_result by done. cbv zeta.
    destruct (handle_execution_failure _ _ _ _ _ _ _ _) as [[a1 e1]|] eqn:E; [|done].
    simpl. intros [= <- <-]. by apply handle_failure_frame in E.
Qed.

(** The recordings of one invocation as calls on the sink. *)
Definition invocation_calls (h : PythonHandler) (ctx : ExecutionContext) (t : turn) (r : ExecutionResult) :
    list SinkCall :=
  let mode := mode_as_str (h_mode h) in
  let l1 := as_slice (labels_of [("mode", mode); ("path", "handler")]) in
  let l2 := as_slice (labels_of [("handler_id", ctx_topic ctx); ("topic", ctx_topic ctx); ("mode", mode)]) in
  [CallHistogram "kafpy.python.queue_wait_seconds" (as_secs_f64 (tn_queue_wait t)) l1;
   CallCounter "kafpy.python.call_total" l1;
   CallHistogram "kafpy.python.call_duration_seconds" (as_secs_f64 (tn_call_elapsed t)) l1;
   CallHistogram "kafpy.python.batch_size" (f64_of_Z 1) l1;
   CallCounter "kafpy.handler.invocation" l2;
   CallHistogram "kafpy.handler.latency" (as_secs_f64 (tn_elapsed t)) l2;
   CallCounter "kafpy.message.throughput"
     (as_slice (labels_of [("topic", ctx_topic ctx); ("handler_id", h_name h); ("mode", mode)]))] ++
  (if is_ok r then []
   else [CallCounter "kafpy.handler.error"
           (as_slice (labels_of [("handler_id", ctx_topic ctx); ("error_type", error_type_label r)]))]) ++
  (if is_timeout r
   then [CallCounter "kafpy.handler.timeout_total"
           (as_slice (labels_of [("topic", ctx_topic ctx); ("handler_name", h_name h)]))]
   else []).

Lemma invocation_metrics_calls h ctx t r (s : PrometheusSink) :
  invocation_metrics h ctx t r s = foldl sink_call s (invocation_calls h ctx t r).
Proof.
  unfold invocation_metrics, invocation_calls. destruct (is_ok r), (is_timeout r); reflexivity.
Qed.

Lemma invocation_calls_counts h ctx t r :
  let cs := invocation_calls h ctx t r in
  length (counted "kafpy.handler.invocation" cs) = 1%nat ∧
  length (counted "kafpy.message.throughput" cs) = 1%nat ∧
  length (counted "kafpy.python.call_total" cs) = 1%nat ∧
  length (counted "kafpy.handler.error" cs) = (if is_ok r then 0 else 1)%nat ∧
  length (counted "kafpy.handler.timeout_total" cs) = (if is_timeout r then 1 else 0)%nat ∧
  length (observed "kafpy.handler.latency" cs) = 1%nat ∧
  length (observed "kafpy.python.queue_wait_seconds" cs) = 1%nat ∧
  observed "kafpy.python.batch_size" cs = [f64_one].
Proof. destruct r; split_and!; reflexivity. Qed.

Lemma filter_snoc_length {A : Type} (P : A → Prop) `{∀ x, Decision (P x)} l x :
  length (filter P (l ++ [x])) = (length (filter P l) + (if decide (P x) then 1 else 0))%nat.
Proof. rewrite filter_app, length_app, filter_cons, filter_nil. by case_decide. Qed.

Lemma invocation_metrics_tally h ctx t m r log s :
  tally log s → tally (log ++ [(m, r)]) (invocation_metrics h ctx t r s).
Proof.
  intros [H1 H2 H3 H4 H5 H6 H7 H8]. rewrite invocation_metrics_calls.
  destruct (sink_calls_spec (invocation_calls h ctx t r) s) as (_ & Hc & Hh & _).
  destruct (invocation_calls_counts h ctx t r) as (C1 & C2 & C3 & C4 & C5 & C6 & C7 & C8).
  generalize dependent (invocation_calls h ctx t r). intros cs Hc Hh C1 C2 C3 C4 C5 C6 C7 C8.
  apply fmap_Some in H6 as (l6 & H6 & H6'), H7 as (l7 & H7 & H7').
  split; rewrite ?Hc, ?Hh, ?H1, ?H2, ?H3, ?H4, ?H5, ?H6, ?H7, ?H8, ?C8; cbn [fmap option_fmap option_map];
    rewrite ?length_app, ?filter_snoc_length, ?C1, ?C2, ?C3, ?C4, ?C5, ?C6, ?C7, <- ?H6', <- ?H7'; try done.
  - cbn [snd]. by destruct (is_ok r).
  - cbn [snd]. by destruct (is_timeout r).
  - by rewrite replicate_add.
Qed.

(** What a pool keeps true of its statuses and its metrics. *)
Record view_inv (ws : list worker) (e : worker_env (T := T)) : Prop := {
  vi_status : ∀ i w, ws !! i = Some w → we_states e !! i = Some (status_of w);
  vi_tally : tally (we_log e) (we_sink e)
}.

Lemma process_message_view i t msg w (e : worker_env (T := T)) w' e' :
  process_message router to_rfc3339 handlers i t msg w e = Ret (w', e') →
  we_states e !! i = Some (StActive (topic msg) (topic msg) (partition msg) (offset msg)) →
  tally (we_log e) (we_sink e) →
  we_states e' !! i = Some (status_of w') ∧ tally (we_log e') (we_sink e') ∧
  ∀ j, j ≠ i → we_states e' !! j = we_states e !! j.
Proof.
  intros (h & r & a & e1 & Hh & Hc)%process_message_inv Hst Ht.
  apply handle_result_frame in Hh as (Hs & Hw & Hl). simpl in *.
  assert (tally (we_log e1) (we_sink e1)) as Ht1 by (rewrite Hs, Hl; by apply invocation_metrics_tally).
  destruct Hc as [(Hp & Hstop & ->)|(Hi & ->)]; simpl; unfold status_of.
  - rewrite Hp, Hstop, Hw. split_and!; done.
  - unfold set_idle. rewrite lookup_set_status, decide_True by done. split_and!; [|done|].
    + destruct Hi as [->| ->]; [done|by destruct (wk_stopped w')].
    + intros j Hj. by rewrite lookup_set_status, decide_False, Hw.
Qed.

Lemma pool_step_view ev ws (e : worker_env (T := T)) ws' e' :
  view_inv ws e → pool_step router to_rfc3339 handlers ev (ws, e) = Ret (ws', e') → view_inv ws' e'.
Proof.
  intros [Hst Ht]. destruct ev as [i t|i m]; simpl.
  2: { intros [= <- <-]. split; [|done]. intros j w Hj.
       destruct (decide (i = j)) as [<-|Hij].
       - rewrite list_lookup_alter_eq in Hj. apply fmap_Some in Hj as (w0 & Hw0 & ->).
         rewrite (Hst _ _ Hw0). done.
       - rewrite list_lookup_alter_ne in Hj by done. by apply Hst. }
  destruct (ws !! i) as [w|] eqn:Ew; [|intros [= <- <-]; by split].
  assert (Hi : (i < length ws)%nat) by by eapply lookup_lt_Some.
  destruct (worker_turn router to_rfc3339 handlers i t w e) as [[w1 e1]|] eqn:Et; [|done].
  cbn [obind fst snd]. intros [= <- <-].
  assert (Hnext : (we_states e1 !! i = Some (status_of w1) ∧ tally (we_log e1) (we_sink e1) ∧
    ∀ j, j ≠ i → we_states e1 !! j = we_states e !! j) → view_inv (<[i:=w1]> ws) e1).
  { intros (H1 & H2 & H3). split; [|done]. intros j v Hj. destruct (decide (i = j)) as [<-|Hij].
    - rewrite list_lookup_insert_eq in Hj by done. by injection Hj as <-.
    - rewrite list_lookup_insert_ne in Hj by done. rewrite H3 by done. by apply Hst. }
  apply Hnext. clear Hnext. unfold worker_turn in Et. specialize (Hst _ _ Ew).
  unfold status_of in Hst. destruct (wk_stopped w) eqn:Es.
  { injection Et as <- <-. unfold status_of. by rewrite Es. }
  destruct (wk_state w) as [|msg] eqn:Ewk.
  - destruct (poll_for_work _ _ (wk_rx w)) as [msg rest| |].
    + apply process_message_view in Et as (H1 & H2 & H3); [|by apply lookup_insert_eq|done].
      split_and!; [done..|]. intros j Hj. rewrite H3 by done. simpl. unfold set_active.
      by rewrite lookup_set_status, decide_False.
    + by injection Et as <- <-.
    + injection Et as <- <-. unfold status_of. by rewrite Es, Ewk.
  - apply process_message_view in Et as (H1 & H2 & H3); [|done..]. split_and!; [done..|]. intros j Hj. by rewrite H3.
Qed.

Lemma pool_run_view evs : ∀ ws (e : worker_env (T := T)) ws' e',
  view_inv ws e → pool_run router to_rfc3339 handlers evs (ws, e) = Ret (ws', e') → view_inv ws' e'.
Proof.
  induction evs as [|ev evs IH]; intros ws e ws' e' Hv Hr; simpl in Hr; [by simplify_eq|].
  destruct (pool_step router to_rfc3339 handlers ev (ws, e)) as [[ws1 e1]|] eqn:E; [|done]. simpl in Hr.
  eapply IH; [|exact Hr]. by eapply pool_step_view.
Qed.

Lemma view_inv_start n ws (e : worker_env (T := T)) :
  we_states e = pool_state_new n → we_sink e = shared_sink_new → we_log e = [] →
  (length ws ≤ n)%nat → Forall (λ w, wk_state w = WIdle) ws → view_inv ws e.
Proof.
  intros Hst Hs Hl Hn Hi. split.
  - intros i w Hw. rewrite Hst, pool_state_new_idle by (apply lookup_lt_Some in Hw; lia).
    unfold status_of. rewrite (Forall_lookup_1 _ _ _ _ Hi Hw). by destruct (wk_stopped w).
  - rewrite Hl, Hs. apply tally_new.
Qed.

(** C27: Workers publish what they do.  In every run of a pool of workers that start
    idle, in any interleaving and with any outcomes: at the end the status of
    each worker is the message it holds, retries included, and idle when it holds
    none or has stopped; and the sink has counted each handled invocation once
    (calls, latency, queue wait), each failed one once as an error and each timed
    out one once as a timeout.  The throughput counts the failed ones too. *)
Theorem workers_publish_what_they_do n evs ws (e : worker_env (T := T)) ws' e' :
  we_states e = pool_state_new n → we_sink e = shared_sink_new → we_log e = [] →
  (length ws ≤ n)%nat → Forall (λ w, wk_state w = WIdle) ws →
  pool_run router to_rfc3339 handlers evs (ws, e) = Ret (ws', e') →
  (∀ i w, ws' !! i = Some w → we_states e' !! i = Some (status_of w)) ∧
  tally (we_log e') (we_sink e').
Proof.
  intros Hst Hs Hl Hn Hi Hr. assert (view_inv ws' e') as [V1 V2]; [|exact (conj V1 V2)].
  eapply pool_run_view; [|exact Hr]. by apply view_inv_start with n.
Qed.

End workers.

(** ** Batch workers *)

Section batches.
Context {T : Type} `{OffsetCoordinator T} {R : Type} `{DlqRouter R} (router : R) (to_rfc3339 : Z → string).
Context (handler : PythonHandler) (calls : nat → Callback) (jitter : Z → f64) {HO : HashOrder Z}.

(** What a batch worker has called and published: its identifier, its
    environment and its batches, apart from its buffers. *)
Definition shown (w : batch_worker (T := T)) := (bw_id w, bw_env w, bw_batches w).

(** What every flush preserves, every turn of the loop preserves. *)
Lemma batch_turn_lift (P : batch_worker (T := T) → Prop) :
  (∀ w w', shown w = shown w' → P w → P w') →
  (∀ now w pb w', P w → flush_partition_batch router to_rfc3339 handler calls jitter now w pb = Ret w' → P w') →
  ∀ ev w w', P w → batch_turn router to_rfc3339 handler calls jitter ev w = Ret w' → P w'.
Proof.
  intros Hsame Hflush.
  assert (Hdrain : ∀ now w w', P w → drain router to_rfc3339 handler calls jitter now w = Ret w' → P w').
  { intros now w w' Hw Hd. unfold drain in Hd. destruct (flush_all (bw_acc w)) as [l a].
    refine (ofold_inv P _ _ _ _ _ _ Hd); [intros; by eapply Hflush|]. by eapply Hsame; [|exact Hw]. }
  assert (Hfull : ∀ now p w w', P w →
    flush_if_full router to_rfc3339 handler calls jitter now p w = Ret w' → P w').
  { intros now p w w' Hw Hf. unfold flush_if_full in Hf. destruct (would_fill_partition _ _); [|by simplify_eq].
    destruct (flush_partition p (bw_acc w)) as [[[|m l]|] a]; simplify_eq/=; try by eapply Hsame; [|exact Hw].
    eapply Hflush; [|exact Hf]. by eapply Hsame; [|exact Hw]. }
  intros ev w w' Hw Ht. unfold batch_turn in Ht. destruct (bw_stopped w); [by simplify_eq|].
  destruct ev as [now|now msg|now|now].
  - repeat case_match; simplify_eq; eauto.
  - unfold on_message in Ht.
    destruct (check_backpressure router to_rfc3339 handler calls jitter now msg w) as [w1|] eqn:E1; [|done]. simpl in Ht.
    destruct (flush_if_full router to_rfc3339 handler calls jitter now (partition msg) w1) as [w2|] eqn:E2; [|done].
    simpl in Ht. eapply Hfull; [|exact Ht]. apply (Hsame w2); [done|]. eapply Hfull; [|exact E2].
    unfold check_backpressure in E1. repeat case_match; simplify_eq; try done.
    eapply Hdrain; [|exact E1]. by apply (Hsame w).
  - destruct (drain router to_rfc3339 handler calls jitter now w) as [w1|] eqn:E; simplify_eq/=.
    apply (Hsame w1); [done|]. by eapply Hdrain.
  - destruct (drain router to_rfc3339 handler calls jitter now w) as [w1|] eqn:E; simplify_eq/=.
    apply (Hsame w1); [done|]. by eapply Hdrain.
Qed.

Lemma ack_offsets_frame t p offsets (e e' : worker_env (T := T)) :
  ofold (ack_offset t p) e offsets = Ret e' → same_view e e'.
Proof.
  intros Hr. refine (ofold_inv (same_view e) _ _ _ _ _ _ Hr); [|done].
  intros a o a' _ Ha Hs. unfold ack_offset in Hs. destruct (record_ack _ _ _ _); simplify_eq/=. exact Ha.
Qed.

Lemma fail_messages_frame t p reason now batch (e e' : worker_env (T := T)) :
  ofold (fail_message router to_rfc3339 t p reason jitter now) e batch = Ret e' → same_view e e'.
Proof.
  intros Hr. refine (ofold_inv (same_view e) _ _ _ _ _ _ Hr); [|done].
  intros a o a' _ Ha Hs. unfold fail_message in Hs.
  destruct (record_failure _ _ _ _) as [[[[sr sd] d] rc]|]; [|done]. cbn [obind fst snd] in Hs.
  injection Hs as <-. by destruct (sd || sr).
Qed.

Definition batch_result_size (x : Z * list OwnedMessage * BatchExecutionResult) : nat :=
  match x.2 with AllSuccess offsets => length offsets | AllFailure _ => 0 end.

(** How often the batches of a worker were counted. *)
Record batch_tally (batches : list (Z * list OwnedMessage * BatchExecutionResult)) (s : PrometheusSink) : Prop := {
  bt_call : counters s !! "kafpy.python.call_total" = Some (length batches);
  bt_throughput : counters s !! "kafpy.message.throughput" = Some (sum_list (batch_result_size <$> batches));
  bt_size : histograms s !! "kafpy.handler.batch_size" =
            Some ((λ x, f64_of_Z (Z.of_nat (length x.1.2))) <$> batches);
  bt_call_size : histograms s !! "kafpy.python.batch_size" =
            Some ((λ x, f64_of_Z (Z.of_nat (length x.1.2))) <$> batches)
}.

(** The recordings of one flush as calls on the sink. *)
Definition flush_calls (elapsed : Z) (batch : list OwnedMessage) (t : string) (p : Z) (result : BatchExecutionResult) :
    list SinkCall :=
  let l1 := as_slice (labels_of [("mode", mode_as_str (h_mode handler)); ("path", "handler")]) in
  let size := f64_of_Z (Z.of_nat (length batch)) in
  [CallCounter "kafpy.python.call_total" l1;
   CallHistogram "kafpy.python.call_duration_seconds" (as_secs_f64 elapsed) l1;
   CallHistogram "kafpy.python.batch_size" size l1;
   CallHistogram "kafpy.handler.batch_size" size
     (as_slice (labels_of [("handler_id", t); ("topic", t); ("partition", pretty p)]))] ++
  match result with
  | AllSuccess offsets =>
      (λ _, CallCounter "kafpy.message.throughput"
              (as_slice (labels_of [("topic", t); ("handler_id", t); ("mode", "BatchSync")]))) <$> offsets
  | AllFailure _ => []
  end.

Lemma foldl_throughput {A : Type} (l : list A) t : ∀ s : PrometheusSink,
  foldl (λ s _, record_throughput t t "BatchSync" s) s l =
  foldl sink_call s ((λ _, CallCounter "kafpy.message.throughput"
    (as_slice (labels_of [("topic", t); ("handler_id", t); ("mode", "BatchSync")]))) <$> l).
Proof. induction l as [|x l IH]; intros s; [done|]. cbn [foldl fmap list_fmap]. apply IH. Qed.

Lemma batch_metrics_calls elapsed batch t p result (s : PrometheusSink) :
  batch_metrics result batch t p
    (record_call "handler" (mode_as_str (h_mode handler)) elapsed (Z.of_nat (length batch)) s) =
  foldl sink_call s (flush_calls elapsed batch t p result).
Proof.
  unfold batch_metrics, flush_calls. destruct result as [offsets|reason]; [|done].
  rewrite foldl_app. apply foldl_throughput.
Qed.

Lemma counted_replicate {A : Type} n m (l : list A) lb :
  counted n ((λ _, CallCounter m lb) <$> l) = if decide (m = n) then (λ _, lb) <$> l else [].
Proof.
  induction l as [|x l IH]; cbn; [by case_decide|]. unfold counted in IH. rewrite IH. by case_decide.
Qed.

Lemma observed_replicate {A : Type} n m (l : list A) lb : observed n ((λ _, CallCounter m lb) <$> l) = [].
Proof. by induction l. Qed.

Lemma flush_calls_counts elapsed batch t p result :
  let cs := flush_calls elapsed batch t p result in
  let size := f64_of_Z (Z.of_nat (length batch)) in
  length (counted "kafpy.python.call_total" cs) = 1%nat ∧
  length (counted "kafpy.message.throughput" cs) = batch_result_size (p, batch, result) ∧
  observed "kafpy.handler.batch_size" cs = [size] ∧ observed "kafpy.python.batch_size" cs = [size].
Proof.
  intros cs size. subst cs. unfold flush_calls.
  assert (Hc : ∀ n a b, counted n (a ++ b) = counted n a ++ counted n b) by (intros; apply omap_app).
  assert (Ho : ∀ n a b, observed n (a ++ b) = observed n a ++ observed n b) by (intros; apply omap_app).
  rewrite !Hc, !Ho, !length_app. destruct result as [offsets|reason]; [|by split_and!].
  rewrite !counted_replicate, !observed_replicate. rewrite decide_False, decide_True, length_fmap by done.
  by split_and!.
Qed.

(** Before and after each turn the worker is idle, and its metrics match its batches. *)
Record batch_view (id : nat) (e0 : worker_env (T := T)) (w : batch_worker (T := T)) : Prop := {
  bv_id : bw_id w = id;
  bv_idle : we_states (bw_env w) !! id = Some StIdle;
  bv_others : ∀ j, j ≠ id → we_states (bw_env w) !! j = we_states e0 !! j;
  bv_tally : batch_tally (bw_batches w) (we_sink (bw_env w))
}.

Lemma flush_batch_view id e0 now w pb w' : batch_view id e0 w →
  flush_partition_batch router to_rfc3339 handler calls jitter now w pb = Ret w' → batch_view id e0 w'.
Proof.
  intros [Hid Hidle Hoth Ht] Hf. unfold flush_partition_batch in Hf.
  destruct pb as [p [|first l]]; simpl in Hf; [by simplify_eq|].
  destruct (invoke_mode_batch _ _ _) as [result|]; [|done]. cbn [obind] in Hf.
  destruct (handle_batch_result_inline _ _ _ _ _ _ _ _ _) as [e|] eqn:E; [|done]. cbn [obind] in Hf.
  injection Hf as <-.
  assert (Hv : same_view (we_with_sink (batch_metrics result (first :: l) (topic first) p)
    (we_with_sink (record_call "handler" (mode_as_str (h_mode handler))
       (py_duration (calls (length (bw_batches w)) (batch_args (first :: l)))) (Z.of_nat (length (first :: l))))
       (we_logged_batch result (first :: l) (we_with_states (set_busy (bw_id w) "shared") (bw_env w))))) e).
  { unfold handle_batch_result_inline in E.
    destruct result; [by apply ack_offsets_frame in E|by apply fail_messages_frame in E]. }
  destruct Hv as (Hs & Hw & _). cbn [we_sink we_states we_with_sink we_with_states we_logged_batch] in Hs, Hw.
  rewrite batch_metrics_calls in Hs. split; cbn [bw_id bw_env bw_batches we_with_states we_states we_sink]; [done|..].
  - unfold set_idle. by rewrite lookup_set_status, decide_True.
  - intros j Hj. unfold set_idle. rewrite lookup_set_status, decide_False by congruence. rewrite Hw.
    unfold set_busy. rewrite lookup_set_status, decide_False by congruence. by apply Hoth.
  - rewrite Hs. destruct Ht as [H1 H2 H3 H4]. clear Hs.
    set (d := py_duration (calls (length (bw_batches w)) (batch_args (first :: l)))). clearbody d.
    destruct (sink_calls_spec (flush_calls d (first :: l) (topic first) p result) (we_sink (bw_env w)))
      as (_ & Hc & Hh & _).
    destruct (flush_calls_counts d (first :: l) (topic first) p result) as (C1 & C2 & C3 & C4).
    split; rewrite ?Hc, ?Hh, ?H1, ?H2, ?H3, ?H4, ?C1, ?C2, ?C3, ?C4; cbn [fmap option_fmap option_map]; f_equal.
    + by rewrite length_app.
    + rewrite fmap_app, sum_list_with_app. cbn. lia.
    + by rewrite fmap_app.
    + by rewrite fmap_app.
Qed.

(** A batch worker publishes its batches.  Whatever its events, between two
    turns it is idle (busy only during a call), the statuses of the other
    workers are untouched, and the sink has counted every batch once with its
    size and every message of a successful batch once. *)
Theorem batch_worker_publishes_its_batches id n evs (e : worker_env (T := T)) w :
  we_states e = pool_state_new n → we_sink e = shared_sink_new → (id < n)%nat →
  batch_worker_loop router to_rfc3339 handler calls jitter id evs e = Ret w →
  we_states (bw_env w) = pool_state_new n ∧ batch_tally (bw_batches w) (we_sink (bw_env w)).
Proof.
  intros Hst Hs Hid Hr. unfold batch_worker_loop in Hr.
  destruct (batch_worker_start handler id e) as [w0|] eqn:E; [|done]. simpl in Hr.
  assert (batch_view id e w) as [H1 H2 H3 H4].
  { refine (ofold_inv (batch_view id e) _ _ _ _ _ _ Hr).
    - intros a ev a' _. apply batch_turn_lift.
      + intros w1 w2 Hsh [V1 V2 V3 V4]. injection Hsh as S1 S2 S3.
        split; rewrite <- ?S1, <- ?S2, <- ?S3; assumption.
      + intros ? ? ? ?. apply flush_batch_view.
    - unfold batch_worker_start in E. destruct (h_batch_policy handler); [|done]. injection E as <-.
      split; simpl; [done| |done|rewrite Hs; split; by vm_compute].
      by rewrite Hst, pool_state_new_idle. }
  split; [|exact H4]. apply map_eq. intros j. destruct (decide (j = id)) as [->|Hj].
  - etransitivity; [exact H2|]. symmetry. by apply pool_state_new_idle.
  - etransitivity; [by apply H3|]. by rewrite Hst.
Qed.

End batches.

(** ** Witnesses *)

Definition demo_view_env : worker_env (T := OffsetTracker) :=
  {| we_retry := retry_coordinator_new retry_policy_default; we_queues := registered "t" 10 None;
     we_offsets := offset_tracker_new; we_dlq := dlq_producer_new; we_states := pool_state_new 2;
     we_sink := shared_sink_new; we_log := [] |}.

Definition demo_view_workers : list worker := [idle_worker [fake "t" 0 5]; idle_worker [fake "t" 0 7]].

(** One message succeeds, the other fails and is held for a retry. *)
Definition demo_view_run : outcome (list worker * worker_env) :=
  pool_run with_default_prefix (λ _, "now") (HO := hash_order_canonical _) demo_handlers
    [PvTurn 0 (demo_turn PyReturned); PvTurn 1 (demo_turn timeout_error)] (demo_view_workers, demo_view_env).

Definition demo_view_end : list worker * worker_env :=
  match demo_view_run with Ret s => s | Panic => ([], demo_view_env) end.

Lemma workers_publish_what_they_do_witness :
  counters (we_sink demo_view_end.2) !! "kafpy.handler.invocation" = Some 2%nat ∧
  we_states demo_view_end.2 !! 1%nat = Some (StActive "t" "t" 0 7).
Proof.
  destruct (workers_publish_what_they_do with_default_prefix (λ _, "now") (HO := hash_order_canonical _)
    demo_handlers 2 [PvTurn 0 (demo_turn PyReturned); PvTurn 1 (demo_turn timeout_error)]
    demo_view_workers demo_view_env demo_view_end.1 demo_view_end.2) as [H1 H2];
    [reflexivity|reflexivity|reflexivity|simpl; lia|repeat constructor|vm_compute; reflexivity|].
  assert (length (we_log demo_view_end.2) = 2%nat) as Hl by (vm_compute; reflexivity).
  assert (∃ w, demo_view_end.1 !! 1%nat = Some w ∧ status_of w = StActive "t" "t" 0 7) as (w & Hw & Hs).
  { eexists. split; [vm_compute; reflexivity|]. vm_compute. reflexivity. }
  split.
  - rewrite (ta_invocation _ _ H2), Hl. reflexivity.
  - rewrite (H1 _ _ Hw), Hs. reflexivity.
Defined.

Definition demo_batch_view : outcome (batch_worker (T := OffsetTracker)) :=
  batch_worker_loop with_default_prefix (λ _, "now") (batch_handler 2 100) good_calls (λ _, f64_half)
    (HO := hash_order_canonical _) 1 [BMessage 0 (fake "t" 0 1); BMessage 1 (fake "t" 0 2); BShutdown 2]
    demo_view_env.

Lemma batch_worker_publishes_its_batches_witness :
  ∃ w, demo_batch_view = Ret w ∧
    counters (we_sink (bw_env w)) !! "kafpy.message.throughput" = Some 2%nat.
Proof.
  destruct demo_batch_view as [w|] eqn:E.
  2: { exfalso. apply (f_equal is_ret) in E. vm_compute in E. discriminate E. }
  exists w. split; [reflexivity|].
  destruct (batch_worker_publishes_its_batches with_default_prefix (λ _, "now") (batch_handler 2 100)
    good_calls (λ _, f64_half) (HO := hash_order_canonical _) 1 2
    [BMessage 0 (fake "t" 0 1); BMessage 1 (fake "t" 0 2); BShutdown 2] demo_view_env w) as [_ H];
    [reflexivity|reflexivity|lia|exact E|].
  rewrite (bt_throughput _ _ H). apply (f_equal (λ o, match o with
    | Ret w => sum_list (batch_result_size <$> bw_batches w) | Panic => 0%nat end)) in E.
  rewrite <- E. vm_compute. reflexivity.
Defined.
