(* ===== verification/Snapshot.v ===== *)
(** * Runtime snapshot (src/observability/runtime_snapshot.rs, consumer/runtime.rs)

    The background task that copies the state of the runtime every ten seconds,
    the global through which Python reads it, and the dictionary it becomes. *)

From stdpp Require Import base gmap sets list strings pretty.
From S2P Require Import Prelude F64 Metrics Message Runner Dlq OffsetTracker OffsetProofs Queue Execution PoolState Worker Observe.

(** ** The data *)

(** [WorkerState] of the snapshot. *)
Inductive ObsWorkerState :=
| ObsIdle
| ObsActive (handler_id topic : string) (partition offset : Z)
| ObsBusy (handler_id : string).

Record QueueDepthInfo := { qd_queue_depth : Z; qd_inflight : Z }.

Record PartitionAccumulatorInfo := {
  pa_message_count : Z;
  pa_has_deadline : bool;
  pa_deadline_ms_remaining : option Z
}.

Record AccumulatorInfo := { ac_total_messages : Z; ac_partitions : gmap Z PartitionAccumulatorInfo }.

Record PartitionLagInfo := { pl_consumer_lag : Z; pl_committed_offset : Z }.

Record TopicLagInfo := { tl_total_lag : Z; tl_partitions : gmap Z PartitionLagInfo }.

Record ConsumerLagSummary := { cl_total_lag : Z; cl_per_topic : gmap string TopicLagInfo }.

(** [timestamp] is in nanoseconds from the epoch. *)
Record RuntimeSnapshot := {
  rs_timestamp : Z;
  rs_worker_states : gmap nat ObsWorkerState;
  rs_queue_depths : gmap string QueueDepthInfo;
  rs_accumulator_info : gmap string AccumulatorInfo;
  rs_consumer_lag_summary : ConsumerLagSummary
}.

Definition lag_summary_default : ConsumerLagSummary := {| cl_total_lag := 0; cl_per_topic := ∅ |}.

Definition snapshot_default : RuntimeSnapshot :=
  {| rs_timestamp := 0; rs_worker_states := ∅; rs_queue_depths := ∅; rs_accumulator_info := ∅;
     rs_consumer_lag_summary := lag_summary_default |}.

(** ** One poll ([poll_and_update]) *)

Definition obs_state (s : WorkerStatus) : ObsWorkerState :=
  match s with
  | StIdle => ObsIdle
  | StActive h t p o => ObsActive h t p o
  | StBusy h => ObsBusy h
  end.

Definition depth_info (d : Z * Z) : QueueDepthInfo := {| qd_queue_depth := d.1; qd_inflight := d.2 |}.

(** The lag is a constant of the code. *)
Definition consumer_lag : Z := 0.

Section snapshot.
Context `{!HashOrder string, !HashOrder nat, !HashOrder Z, !HashOrder TopicPartitionKey}.

(** What the task can see: nothing, or the current state, of each component. *)
Record sources := {
  so_queue_manager : option QueueManager;
  so_offset_tracker : option OffsetTracker;
  so_worker_pool_state : option WorkerPoolState
}.

Definition poll_queues {S : Type} `{MetricsSink S} (qm : QueueManager) (s : S) : gmap string QueueDepthInfo * S :=
  foldl (λ acc x, (<[x.1 := depth_info x.2]> acc.1, record_queue_depth x.1 x.2.1 acc.2))
    (∅, s) (hash_iter (queue_snapshots qm)).

Definition poll_workers (st : WorkerPoolState) : gmap nat ObsWorkerState :=
  list_to_map ((λ x, (x.1, obs_state x.2)) <$> hash_iter (get_states st)).

(** One entry of the offset snapshots. *)
Definition poll_partition {S : Type} `{MetricsSink S} (acc : Z * gmap string TopicLagInfo * S)
    (x : TopicPartitionKey * Z) : Z * gmap string TopicLagInfo * S :=
  let '(total_lag, per_topic, s) := acc in
  let '((t, p), committed) := x in
  let info := default {| tl_total_lag := 0; tl_partitions := ∅ |} (per_topic !! t) in
  (total_lag + consumer_lag,
   <[t := {| tl_total_lag := tl_total_lag info;
             tl_partitions := <[p := {| pl_consumer_lag := consumer_lag; pl_committed_offset := committed |}]>
                                (tl_partitions info) |}]> per_topic,
   record_lag t p consumer_lag s).

(** The sum of the lags of a topic. *)
Definition topic_total (t : TopicLagInfo) : TopicLagInfo :=
  {| tl_total_lag := foldr (λ x n, pl_consumer_lag x.2 + n) 0 (hash_iter (tl_partitions t));
     tl_partitions := tl_partitions t |}.

Definition poll_lag {S : Type} `{MetricsSink S} (ot : OffsetTracker) (s : S) : ConsumerLagSummary * S :=
  let '(total_lag, per_topic, s) := foldl poll_partition (0, ∅, s) (hash_iter (offset_snapshots ot)) in
  ({| cl_total_lag := total_lag; cl_per_topic := topic_total <$> per_topic |}, s).

Definition poll_and_update {S : Type} `{MetricsSink S} (so : sources) (now : Z) (s : S) : RuntimeSnapshot * S :=
  let '(queue_depths, s) :=
    match so_queue_manager so with Some qm => poll_queues qm s | None => (∅, s) end in
  let worker_states := match so_worker_pool_state so with Some st => poll_workers st | None => ∅ end in
  let '(lag, s) :=
    match so_offset_tracker so with Some ot => poll_lag ot s | None => (lag_summary_default, s) end in
  ({| rs_timestamp := now; rs_worker_states := worker_states; rs_queue_depths := queue_depths;
      rs_accumulator_info := ∅; rs_consumer_lag_summary := lag |}, s).

(** ** The tasks and the globals *)

Inductive task_state := TaskWaiting | TaskStopped.

(** [RuntimeSnapshotTask]; [ta_cancelled] is its token. *)
Record RuntimeSnapshotTask := {
  tk_snapshot : RuntimeSnapshot;
  tk_first_tick : bool;
  tk_cancelled : bool;
  tk_state : task_state
}.

(** The process: the tasks spawned so far, the [OnceLock] of the global task,
    the one of the callback registry, and the history of the callbacks called. *)
Record snapshot_world := {
  sw_tasks : list RuntimeSnapshotTask;
  sw_global : option nat;
  sw_registry : option (list nat);
  sw_called : list nat
}.

Definition snapshot_world_new : snapshot_world :=
  {| sw_tasks := []; sw_global := None; sw_registry := None; sw_called := [] |}.

Definition task_new : RuntimeSnapshotTask :=
  {| tk_snapshot := snapshot_default; tk_first_tick := true; tk_cancelled := false; tk_state := TaskWaiting |}.

(** [RuntimeSnapshotTask::spawn]: only the first task becomes the global one. *)
Definition task_spawn (w : snapshot_world) : snapshot_world :=
  {| sw_tasks := sw_tasks w ++ [task_new];
     sw_global := match sw_global w with Some i => Some i | None => Some (length (sw_tasks w)) end;
     sw_registry := sw_registry w; sw_called := sw_called w |}.

Definition with_task (i : nat) (t : RuntimeSnapshotTask) (w : snapshot_world) : snapshot_world :=
  {| sw_tasks := <[i := t]> (sw_tasks w); sw_global := sw_global w; sw_registry := sw_registry w;
     sw_called := sw_called w |}.

(** [invoke_callbacks] does nothing. *)
Definition invoke_callbacks (w : snapshot_world) : snapshot_world := w.

(** A tick of a task at time [now]: the first one is skipped. *)
Definition task_tick {S : Type} `{MetricsSink S} (i : nat) (so : sources) (now : Z) (w : snapshot_world) (s : S) :
    snapshot_world * S :=
  match sw_tasks w !! i with
  | Some {| tk_snapshot := sn; tk_first_tick := first; tk_cancelled := c; tk_state := TaskWaiting |} =>
      if first : bool then
        (with_task i {| tk_snapshot := sn; tk_first_tick := false; tk_cancelled := c; tk_state := TaskWaiting |} w, s)
      else if c : bool then
        (with_task i {| tk_snapshot := sn; tk_first_tick := false; tk_cancelled := c; tk_state := TaskStopped |} w, s)
      else
        let '(sn, s) := poll_and_update so now s in
        (invoke_callbacks (with_task i
           {| tk_snapshot := sn; tk_first_tick := false; tk_cancelled := c; tk_state := TaskWaiting |} w), s)
  | _ => (w, s)
  end.

Definition get_current_snapshot (w : snapshot_world) : RuntimeSnapshot :=
  match sw_global w ≫= (λ i, sw_tasks w !! i) with
  | Some t => tk_snapshot t
  | None => snapshot_default
  end.

(** [StatusCallbackRegistry]: the callbacks in the order of their registration. *)
Definition StatusCallbackRegistry : Type := list nat.
Definition status_callbacks_new : StatusCallbackRegistry := [].
Definition status_callbacks_register (cb : nat) (r : StatusCallbackRegistry) : StatusCallbackRegistry := r ++ [cb].

Definition with_status_callbacks (r : StatusCallbackRegistry) (w : snapshot_world) : snapshot_world :=
  {| sw_tasks := sw_tasks w; sw_global := sw_global w; sw_registry := Some r; sw_called := sw_called w |}.

(** [callbacks] of a task: one registry for the process, made at its first use. *)
Definition task_callbacks (w : snapshot_world) : StatusCallbackRegistry * snapshot_world :=
  let r := default status_callbacks_new (sw_registry w) in (r, with_status_callbacks r w).

Definition get_callback_registry (w : snapshot_world) : option StatusCallbackRegistry * snapshot_world :=
  match sw_global w with
  | None => (None, w)
  | Some _ => let '(r, w) := task_callbacks w in (Some r, w)
  end.

Definition register_status_callback (cb : nat) (w : snapshot_world) : snapshot_world :=
  match get_callback_registry w with
  | (Some r, w) => with_status_callbacks (status_callbacks_register cb r) w
  | (None, w) => w
  end.

Inductive snapshot_event :=
| SnSpawn
| SnTick (i : nat) (so : sources) (now : Z)
| SnRegister (cb : nat).

Definition snapshot_step {S : Type} `{MetricsSink S} (x : snapshot_world * S) (ev : snapshot_event) : snapshot_world * S :=
  match ev with
  | SnSpawn => (task_spawn x.1, x.2)
  | SnTick i so now => task_tick i so now x.1 x.2
  | SnRegister cb => (register_status_callback cb x.1, x.2)
  end.

Definition snapshot_run {S : Type} `{MetricsSink S} : list snapshot_event → snapshot_world * S → snapshot_world * S :=
  λ evs x, foldl snapshot_step x evs.

(** ** The Python dictionary ([snapshot_to_pydict]) *)

Inductive PyKey := KeyStr (s : string) | KeyInt (n : Z).
#[export] Instance py_key_eq_dec : EqDecision PyKey.
Proof. solve_decision. Defined.

(** The objects of the dictionary, with the items in the order of insertion. *)
Inductive PyObj :=
| ObjInt (n : Z)
| ObjStr (s : string)
| ObjBool (b : bool)
| ObjDict (items : list (PyKey * PyObj)).

Definition state_to_pydict (s : ObsWorkerState) : PyObj :=
  match s with
  | ObsIdle => ObjDict [(KeyStr "status", ObjStr "idle")]
  | ObsActive h t p o =>
      ObjDict [(KeyStr "status", ObjStr "active"); (KeyStr "handler_id", ObjStr h); (KeyStr "topic", ObjStr t);
               (KeyStr "partition", ObjInt p); (KeyStr "offset", ObjInt o)]
  | ObsBusy h => ObjDict [(KeyStr "status", ObjStr "busy"); (KeyStr "handler_id", ObjStr h)]
  end.

Definition depth_to_pydict (d : QueueDepthInfo) : PyObj :=
  ObjDict [(KeyStr "queue_depth", ObjInt (qd_queue_depth d)); (KeyStr "inflight", ObjInt (qd_inflight d))].

Definition accumulator_to_pydict (a : AccumulatorInfo) : PyObj :=
  ObjDict [(KeyStr "total_messages", ObjInt (ac_total_messages a));
           (KeyStr "partitions", ObjDict ((λ x, (KeyInt x.1,
              ObjDict [(KeyStr "message_count", ObjInt (pa_message_count x.2));
                       (KeyStr "has_deadline", ObjBool (pa_has_deadline x.2));
                       (KeyStr "deadline_ms_remaining", ObjInt (default (-1) (pa_deadline_ms_remaining x.2)))]))
              <$> hash_iter (ac_partitions a)))].

Definition topic_to_pydict (t : TopicLagInfo) : PyObj :=
  ObjDict [(KeyStr "total_lag", ObjInt (tl_total_lag t));
           (KeyStr "partitions", ObjDict ((λ x, (KeyInt x.1,
              ObjDict [(KeyStr "consumer_lag", ObjInt (pl_consumer_lag x.2));
                       (KeyStr "committed_offset", ObjInt (pl_committed_offset x.2))]))
              <$> hash_iter (tl_partitions t)))].

Definition snapshot_to_pydict (sn : RuntimeSnapshot) : PyObj :=
  ObjDict
    [(KeyStr "timestamp", ObjInt (if rs_timestamp sn <? 0 then 0 else rs_timestamp sn / 1000000000));
     (KeyStr "worker_states",
        ObjDict ((λ x, (KeyInt (Z.of_nat x.1), state_to_pydict x.2)) <$> hash_iter (rs_worker_states sn)));
     (KeyStr "queue_depths",
        ObjDict ((λ x, (KeyStr x.1, depth_to_pydict x.2)) <$> hash_iter (rs_queue_depths sn)));
     (KeyStr "accumulator_info",
        ObjDict ((λ x, (KeyStr x.1, accumulator_to_pydict x.2)) <$> hash_iter (rs_accumulator_info sn)));
     (KeyStr "consumer_lag_summary", ObjDict
        [(KeyStr "total_lag", ObjInt (cl_total_lag (rs_consumer_lag_summary sn)));
         (KeyStr "per_topic", ObjDict ((λ x, (KeyStr x.1, topic_to_pydict x.2)) <$>
            hash_iter (cl_per_topic (rs_consumer_lag_summary sn))))])].

Definition get_runtime_snapshot (w : snapshot_world) : PyObj := snapshot_to_pydict (get_current_snapshot w).

End snapshot.

(** ** Lemmas *)

Section lemmas.
Context {HS : HashOrder string} {HN : HashOrder nat} {HZ : HashOrder Z} {HK : HashOrder TopicPartitionKey}.

Lemma hash_iter_to_map {K A : Type} `{HashOrder K} (m : gmap K A) : list_to_map (hash_iter m) = m.
Proof.
  transitivity (list_to_map (map_to_list m) : gmap K A); [|apply list_to_map_to_list].
  apply list_to_map_proper; [apply hash_keys_nodup|apply hash_iter_perm].
Qed.

(** Inserting the entries of a map one after the other rebuilds it. *)
Lemma foldl_insert_map {K A B : Type} `{HashOrder K} (f : A → B) (m : gmap K A) :
  foldl (λ acc x, <[x.1 := f x.2]> acc) ∅ (hash_iter m) = f <$> m.
Proof.
  rewrite <- (hash_iter_to_map m) at 2. pose proof (hash_keys_nodup m) as Hnd. unfold hash_keys in Hnd.
  revert Hnd. induction (hash_iter m) as [|[k a] l IH] using rev_ind; intros Hnd; [symmetry; apply fmap_empty|].
  rewrite fmap_app in Hnd. apply NoDup_app in Hnd as (Hnd & Hdis & _).
  rewrite foldl_snoc, IH by done. cbn [fst snd]. rewrite list_to_map_snoc.
  - by rewrite fmap_insert.
  - intros Hin. by apply (Hdis k Hin), list_elem_of_singleton.
Qed.

Lemma poll_queues_spec {S : Type} `{MetricsSink S} qm (s : S) :
  (poll_queues qm s).1 = depth_info <$> queue_snapshots qm ∧
  (poll_queues qm s).2 = foldl (λ s x, record_queue_depth x.1 x.2.1 s) s (hash_iter (queue_snapshots qm)).
Proof.
  unfold poll_queues. rewrite <- (foldl_insert_map depth_info). generalize (@empty (gmap string QueueDepthInfo) _).
  revert s. induction (hash_iter (queue_snapshots qm)) as [|x l IH]; intros s m; [done|]. apply IH.
Qed.

Lemma poll_workers_spec st : poll_workers st = obs_state <$> st.
Proof.
  unfold poll_workers, get_states. etransitivity; [apply (list_to_map_fmap obs_state)|].
  by rewrite hash_iter_to_map.
Qed.

(** The committed offset that a summary gives for a partition. *)
Definition summary_lag (t : string) (p : Z) (m : gmap string TopicLagInfo) : option PartitionLagInfo :=
  m !! t ≫= λ i, tl_partitions i !! p.

Lemma poll_partitions_spec {S : Type} `{MetricsSink S} (l : list (TopicPartitionKey * Z)) (s : S) :
  NoDup l.*1 →
  let r := foldl poll_partition (0, ∅, s) l in
  r.1.1 = 0 ∧
  (∀ t p, summary_lag t p r.1.2 =
     (λ c, {| pl_consumer_lag := 0; pl_committed_offset := c |}) <$> (list_to_map l : gmap _ Z) !! (t, p)) ∧
  r.2 = foldl (λ s x, record_lag x.1.1 x.1.2 0 s) s l.
Proof.
  induction l as [|[[t p] c] l IH] using rev_ind; intros Hnd r; [by split_and!|].
  rewrite fmap_app in Hnd. apply NoDup_app in Hnd as (Hnd & Hdis & _). specialize (IH Hnd).
  subst r. rewrite !foldl_snoc. destruct (foldl poll_partition (0, ∅, s) l) as [[tot m] s1].
  cbn [fst snd] in IH. destruct IH as (-> & Hm & ->). cbn [poll_partition fst snd].
  split_and!; [done| |done]. intros t' p'. rewrite list_to_map_snoc.
  2: { intros Hin. by apply (Hdis (t, p) Hin), list_elem_of_singleton. }
  unfold summary_lag in *. destruct (decide (t = t')) as [<-|Ht].
  - rewrite lookup_insert_eq. cbn [mbind option_bind tl_partitions].
    destruct (decide (p = p')) as [<-|Hp]; [by rewrite !lookup_insert_eq|].
    rewrite !lookup_insert_ne by congruence. rewrite <- Hm.
    by destruct (m !! t) as [i|].
  - rewrite !lookup_insert_ne by congruence. apply Hm.
Qed.

Lemma no_lag_total t : (∀ p i, tl_partitions t !! p = Some i → pl_consumer_lag i = 0) → tl_total_lag (topic_total t) = 0.
Proof.
  intros Ht. unfold topic_total. cbn [tl_total_lag].
  assert (Forall (λ x, pl_consumer_lag x.2 = 0) (hash_iter (tl_partitions t))) as Hf.
  { apply Forall_forall. intros [p i] Hin%elem_of_hash_iter. by eapply Ht. }
  induction Hf as [|x l Hx Hl IH]; simpl; lia.
Qed.

(** The sums of the summary are all zero. *)
Lemma poll_lag_spec {S : Type} `{MetricsSink S} ot (s : S) :
  let r := poll_lag ot s in
  cl_total_lag r.1 = 0 ∧
  (∀ t i, cl_per_topic r.1 !! t = Some i → tl_total_lag i = 0) ∧
  (∀ t p, summary_lag t p (cl_per_topic r.1) =
     (λ c, {| pl_consumer_lag := 0; pl_committed_offset := c |}) <$> offset_snapshots ot !! (t, p)) ∧
  r.2 = foldl (λ s x, record_lag x.1.1 x.1.2 0 s) s (hash_iter (offset_snapshots ot)).
Proof.
  intros r. subst r. unfold poll_lag.
  destruct (poll_partitions_spec (hash_iter (offset_snapshots ot)) s) as (Ht & Hm & Hs); [apply hash_keys_nodup|].
  destruct (foldl poll_partition (0, ∅, s) _) as [[tot m] s1]. cbn [fst snd] in *. subst tot s1.
  rewrite hash_iter_to_map in Hm. cbn [cl_total_lag cl_per_topic]. split_and!; [done| | |done].
  - intros t i. rewrite lookup_fmap. intros (i0 & Hi & ->)%fmap_Some. apply no_lag_total.
    intros p pi Hp. specialize (Hm t p). unfold summary_lag in Hm. rewrite Hi in Hm. simpl in Hm.
    rewrite Hp in Hm. by destruct (offset_snapshots ot !! (t, p)); simplify_eq/=.
  - intros t p. rewrite <- Hm. unfold summary_lag. rewrite lookup_fmap. by destruct (m !! t).
Qed.

Lemma poll_lag_irrel {S : Type} `{MetricsSink S} ot (s1 s2 : S) : (poll_lag ot s1).1 = (poll_lag ot s2).1.
Proof.
  unfold poll_lag.
  assert (∀ l (a : Z) m (t1 t2 : S),
    (foldl poll_partition (a, m, t1) l).1 = (foldl poll_partition (a, m, t2) l).1) as Hf.
  { induction l as [|[[t p] c] l IH]; intros; [done|]. apply IH. }
  specialize (Hf (hash_iter (offset_snapshots ot)) 0 ∅ s1 s2).
  destruct (foldl poll_partition (0, ∅, s1) _) as [[a1 m1] t1], (foldl poll_partition (0, ∅, s2) _) as [[a2 m2] t2].
  simpl in Hf. by injection Hf as -> ->.
Qed.

(** What [poll_and_update] takes from its sources. *)
Lemma poll_and_update_spec {S : Type} `{MetricsSink S} so now (s : S) :
  let sn := (poll_and_update so now s).1 in
  rs_timestamp sn = now ∧
  rs_worker_states sn = match so_worker_pool_state so with Some st => obs_state <$> st | None => ∅ end ∧
  rs_queue_depths sn = match so_queue_manager so with Some qm => depth_info <$> queue_snapshots qm | None => ∅ end ∧
  rs_accumulator_info sn = ∅ ∧
  rs_consumer_lag_summary sn =
    match so_offset_tracker so with Some ot => (poll_lag ot s).1 | None => lag_summary_default end.
Proof.
  unfold poll_and_update. destruct (so_queue_manager so) as [qm|].
  - destruct (poll_queues_spec qm s) as [Hq _]. destruct (poll_queues qm s) as [d s1]. simpl in Hq. subst d.
    destruct (so_offset_tracker so) as [ot|]; [rewrite (poll_lag_irrel ot s s1); destruct (poll_lag ot s1)|];
      destruct (so_worker_pool_state so); cbn; rewrite ?poll_workers_spec; done.
  - destruct (so_offset_tracker so) as [ot|]; [destruct (poll_lag ot s)|];
      destruct (so_worker_pool_state so); cbn; rewrite ?poll_workers_spec; done.
Qed.

(** The gauges of one poll. *)
Definition poll_calls (so : sources) : list SinkCall :=
  (match so_queue_manager so with
   | Some qm => (λ x, CallGauge "kafpy.queue.depth" (f64_of_Z x.2.1) (as_slice (labels_of [("handler_id", x.1)])))
                <$> hash_iter (queue_snapshots qm)
   | None => []
   end) ++
  (match so_offset_tracker so with
   | Some ot => (λ x, CallGauge "kafpy.consumer.lag" (f64_of_Z 0)
                        (as_slice (labels_of [("topic", x.1.1); ("partition", pretty x.1.2)])))
                <$> hash_iter (offset_snapshots ot)
   | None => []
   end).

Lemma foldl_sink_calls {S A : Type} `{MetricsSink S} (f : A → S → S) (g : A → SinkCall) (l : list A) :
  (∀ a s, f a s = sink_call s (g a)) → ∀ s, foldl (λ s a, f a s) s l = foldl sink_call s (g <$> l).
Proof. intros Hfg. induction l as [|a l IH]; intros s; [done|]. cbn [foldl fmap list_fmap]. by rewrite Hfg, IH. Qed.

Lemma poll_and_update_sink {S : Type} `{MetricsSink S} so now (s : S) :
  (poll_and_update so now s).2 = foldl sink_call s (poll_calls so).
Proof.
  unfold poll_and_update, poll_calls. rewrite foldl_app.
  assert (match so_queue_manager so with Some qm => poll_queues qm s | None => (∅, s) end =
    (match so_queue_manager so with Some qm => depth_info <$> queue_snapshots qm | None => ∅ end,
     foldl sink_call s (match so_queue_manager so with
       | Some qm => (λ x, CallGauge "kafpy.queue.depth" (f64_of_Z x.2.1) (as_slice (labels_of [("handler_id", x.1)])))
                <$> hash_iter (queue_snapshots qm)
       | None => [] end))) as ->.
  { destruct (so_queue_manager so) as [qm|]; [|done]. destruct (poll_queues_spec qm s) as [H1 H2].
    destruct (poll_queues qm s) as [a b]. simpl in *. subst. f_equal. by apply foldl_sink_calls. }
  set (s1 := foldl sink_call s _). destruct (so_offset_tracker so) as [ot|]; [|done].
  destruct (poll_lag_spec ot s1) as (_ & _ & _ & Hs). destruct (poll_lag ot s1) as [lag s2]. simpl in *. subst s2.
  by apply foldl_sink_calls.
Qed.

(** ** Lemmas: the tasks *)

Lemma task_tick_frame {S : Type} `{MetricsSink S} i so now w (s : S) :
  let w' := (task_tick i so now w s).1 in
  sw_global w' = sw_global w ∧ sw_registry w' = sw_registry w ∧ sw_called w' = sw_called w ∧
  (∀ j, j ≠ i → sw_tasks w' !! j = sw_tasks w !! j) ∧ length (sw_tasks w') = length (sw_tasks w).
Proof.
  unfold task_tick. destruct (sw_tasks w !! i) as [[sn f c []]|]; try by split_and!.
  destruct f; [|destruct c; [|destruct (poll_and_update so now s)]]; cbn;
    (split_and!; [done..|intros j Hj; by rewrite list_lookup_insert_ne|by rewrite length_insert]).
Qed.

Lemma register_frame cb w :
  let w' := register_status_callback cb w in
  sw_tasks w' = sw_tasks w ∧ sw_global w' = sw_global w ∧ sw_called w' = sw_called w ∧
  sw_registry w' = match sw_global w with
                   | Some _ => Some (default [] (sw_registry w) ++ [cb])
                   | None => sw_registry w
                   end.
Proof. unfold register_status_callback, get_callback_registry. destruct (sw_global w) eqn:E; simpl; by rewrite ?E. Qed.

(** The events that can matter to the global task. *)
Definition relevant (ev : snapshot_event) : bool :=
  match ev with SnSpawn => true | SnTick i _ _ => bool_decide (i = 0%nat) | SnRegister _ => false end.

(** The registrations made after the first spawn. *)
Fixpoint late_registrations (spawned : bool) (evs : list snapshot_event) : list nat :=
  match evs with
  | [] => []
  | SnSpawn :: evs => late_registrations true evs
  | SnRegister cb :: evs => (if spawned then [cb] else []) ++ late_registrations spawned evs
  | SnTick _ _ _ :: evs => late_registrations spawned evs
  end.

Definition global_ok (w : snapshot_world) : Prop :=
  sw_global w = match sw_tasks w with [] => None | _ => Some 0%nat end.

Lemma snapshot_step_global {S : Type} `{MetricsSink S} ev w (s : S) :
  global_ok w → global_ok (snapshot_step (w, s) ev).1 ∧ sw_called (snapshot_step (w, s) ev).1 = sw_called w.
Proof.
  unfold global_ok. intros Hg. destruct ev as [|i so now|cb]; cbn [snapshot_step fst snd].
  - split; [|done]. simpl. rewrite Hg. by destruct (sw_tasks w).
  - destruct (task_tick_frame i so now w s) as (-> & _ & -> & _ & Hl). split; [|done]. rewrite Hg.
    by destruct (sw_tasks w), (sw_tasks (task_tick i so now w s).1).
  - destruct (register_frame cb w) as (-> & -> & -> & _). done.
Qed.

Lemma poll_snapshot_irrel {S : Type} `{MetricsSink S} so now (s s' : S) :
  (poll_and_update so now s).1 = (poll_and_update so now s').1.
Proof.
  destruct (poll_and_update_spec so now s) as (P1 & P2 & P3 & P4 & P5).
  destruct (poll_and_update_spec so now s') as (Q1 & Q2 & Q3 & Q4 & Q5).
  assert (rs_consumer_lag_summary (poll_and_update so now s).1 = rs_consumer_lag_summary (poll_and_update so now s').1)
    as E by (rewrite P5, Q5; destruct (so_offset_tracker so); [apply poll_lag_irrel|done]).
  destruct (poll_and_update so now s).1, (poll_and_update so now s').1. simpl in *. congruence.
Qed.

(** Two worlds that agree on the first task. *)
Definition same_first (w w' : snapshot_world) : Prop := sw_tasks w !! 0%nat = sw_tasks w' !! 0%nat.

Lemma tick_first {S : Type} `{MetricsSink S} so now w w' (s s' : S) : same_first w w' →
  same_first (task_tick 0 so now w s).1 (task_tick 0 so now w' s').1.
Proof.
  unfold same_first, task_tick. intros Hs. rewrite <- Hs.
  destruct (sw_tasks w !! 0%nat) as [[sn f c []]|] eqn:E;
    try (cbn; by rewrite <- Hs, E).
  assert (∀ t, <[0%nat := t]> (sw_tasks w) !! 0%nat = <[0%nat := t]> (sw_tasks w') !! 0%nat) as Hi.
  { intros t. symmetry in Hs. apply lookup_lt_Some in Hs, E. by rewrite !list_lookup_insert_eq. }
  destruct f; [apply Hi|]. destruct c; [apply Hi|].
  pose proof (poll_snapshot_irrel so now s s') as Hp.
  destruct (poll_and_update so now s) as [n1 s1], (poll_and_update so now s') as [n2 s2].
  simpl in *. subst n2. apply Hi.
Qed.

Lemma step_first {S : Type} `{MetricsSink S} ev w w' (s s' : S) : same_first w w' →
  same_first (snapshot_step (w, s) ev).1
             (if relevant ev then (snapshot_step (w', s') ev).1 else w').
Proof.
  intros Hs. destruct ev as [|i so now|cb]; cbn [relevant snapshot_step fst snd].
  - unfold same_first in *. simpl. destruct (sw_tasks w), (sw_tasks w'); simplify_eq/=; done.
  - case_bool_decide as Hi; [subst; by apply tick_first|].
    destruct (task_tick_frame i so now w s) as (_ & _ & _ & Ht & _). unfold same_first. rewrite Ht by done. exact Hs.
  - destruct (register_frame cb w) as (Ht & _). unfold same_first. by rewrite Ht.
Qed.

Lemma run_first {S : Type} `{MetricsSink S} evs : ∀ w w' (s s' : S), same_first w w' →
  same_first (snapshot_run evs (w, s)).1 (snapshot_run (filter (λ ev, relevant ev = true) evs) (w', s')).1.
Proof.
  induction evs as [|ev evs IH]; intros w w' s s' Hs; [done|].
  unfold snapshot_run in *. cbn [foldl]. rewrite filter_cons.
  pose proof (step_first ev w w' s s' Hs) as Hstep.
  destruct (snapshot_step (w, s) ev) as [w1 s1]. destruct (decide (relevant ev = true)) as [Hr|Hr].
  - rewrite Hr in Hstep. cbn [foldl]. destruct (snapshot_step (w', s') ev) as [w2 s2]. by apply IH.
  - apply not_true_is_false in Hr. rewrite Hr in Hstep. by apply IH.
Qed.

Lemma run_global {S : Type} `{MetricsSink S} evs : ∀ w (s : S), global_ok w →
  let w' := (snapshot_run evs (w, s)).1 in
  global_ok w' ∧ sw_called w' = sw_called w ∧
  default [] (sw_registry w') =
    default [] (sw_registry w) ++ late_registrations (match sw_tasks w with [] => false | _ => true end) evs.
Proof.
  induction evs as [|ev evs IH]; intros w s Hg; [by rewrite app_nil_r|].
  unfold snapshot_run in *. cbn [foldl]. destruct (snapshot_step_global ev w s Hg) as [Hg1 Hc1].
  assert (default [] (sw_registry (snapshot_step (w, s) ev).1) ++
      late_registrations (match sw_tasks (snapshot_step (w, s) ev).1 with [] => false | _ => true end) evs =
    default [] (sw_registry w) ++ late_registrations (match sw_tasks w with [] => false | _ => true end) (ev :: evs)) as Hl.
  { destruct ev as [|i so now|cb]; cbn [snapshot_step fst snd late_registrations].
    - simpl. by destruct (sw_tasks w).
    - destruct (task_tick_frame i so now w s) as (_ & -> & _ & _ & Hlen).
      by destruct (sw_tasks w), (sw_tasks (task_tick i so now w s).1).
    - destruct (register_frame cb w) as (-> & _ & _ & ->). unfold global_ok in Hg. rewrite Hg.
      destruct (sw_tasks w); [done|]. simpl. by rewrite <- app_assoc. }
  destruct (snapshot_step (w, s) ev) as [w1 s1]. cbn [fst] in *.
  destruct (IH w1 s1 Hg1) as (H1 & H2 & H3). split_and!; [done|by rewrite H2|by rewrite H3].
Qed.

(** A poll copies the state of the runtime as it is.  The statuses, the queue
    counters and the committed offsets of the snapshot are those of the sources,
    no more and no less; the timestamp is the time of the poll; the gauges of the
    sink got each queue depth and a lag for each partition.  Every lag, every
    total and the accumulator information are constants: zero and empty. *)
Theorem poll_copies_the_state {S : Type} `{MetricsSink S} qm ot st now (s : S) :
  let so := {| so_queue_manager := Some qm; so_offset_tracker := Some ot; so_worker_pool_state := Some st |} in
  let r := poll_and_update so now s in
  rs_timestamp r.1 = now ∧ rs_worker_states r.1 = obs_state <$> st ∧
  rs_queue_depths r.1 = depth_info <$> queue_snapshots qm ∧
  (∀ t p, summary_lag t p (cl_per_topic (rs_consumer_lag_summary r.1)) =
     (λ c, {| pl_consumer_lag := 0; pl_committed_offset := c |}) <$> offset_snapshots ot !! (t, p)) ∧
  r.2 = foldl sink_call s (poll_calls so) ∧
  cl_total_lag (rs_consumer_lag_summary r.1) = 0 ∧
  (∀ t i, cl_per_topic (rs_consumer_lag_summary r.1) !! t = Some i → tl_total_lag i = 0) ∧
  rs_accumulator_info r.1 = ∅.
Proof.
  intros so r. subst r. destruct (poll_and_update_spec so now s) as (H1 & H2 & H3 & H4 & H5).
  rewrite poll_and_update_sink, H1, H2, H3, H4, H5. cbn [so so_queue_manager so_offset_tracker so_worker_pool_state].
  destruct (poll_lag_spec ot s) as (L1 & L2 & L3 & _). done.
Qed.

(** Python reads the first task of the process, and is never called.  In any
    sequence of runtimes started, ticks of their tasks and registrations, what
    [get_runtime_snapshot] and [status] return depends on the ticks of the first
    task only: a later runtime is not seen.  Before the first runtime the default
    snapshot is returned and a registration is lost; the callbacks registered
    later are kept, and none is ever called. *)
Theorem python_sees_first_task {S : Type} `{MetricsSink S} evs (s : S) :
  let w := (snapshot_run evs (snapshot_world_new, s)).1 in
  get_runtime_snapshot w =
    get_runtime_snapshot (snapshot_run (filter (λ ev, relevant ev = true) evs) (snapshot_world_new, s)).1 ∧
  (sw_tasks w = [] → get_runtime_snapshot w = snapshot_to_pydict snapshot_default) ∧
  default [] (sw_registry w) = late_registrations false evs ∧
  sw_called w = [].
Proof.
  intros w. subst w. destruct (run_global evs snapshot_world_new s) as (Hg & Hc & Hr); [done|].
  destruct (run_global (filter (λ ev, relevant ev = true) evs) snapshot_world_new s) as (Hg' & _); [done|].
  pose proof (run_first evs snapshot_world_new snapshot_world_new s s eq_refl) as Hf.
  unfold get_runtime_snapshot, get_current_snapshot. unfold global_ok in Hg, Hg'. rewrite Hg, Hg'.
  unfold same_first in Hf. split_and!; [|intros ->; done|done|done].
  revert Hf. generalize (sw_tasks (snapshot_run evs (snapshot_world_new, s)).1).
  generalize (sw_tasks (snapshot_run (filter (λ ev, relevant ev = true) evs) (snapshot_world_new, s)).1).
  intros [|t l] [|t' l']; simpl; intros; by simplify_eq.
Qed.

(** ** Reading the dictionary *)

(** The item of a key, and of a path of keys. *)
Fixpoint item_of (k : PyKey) (items : list (PyKey * PyObj)) : option PyObj :=
  match items with
  | [] => None
  | (k', o) :: items => if decide (k' = k) then Some o else item_of k items
  end.

Fixpoint py_path (ks : list PyKey) (o : PyObj) : option PyObj :=
  match ks with
  | [] => Some o
  | k :: ks => match o with ObjDict items => item_of k items ≫= py_path ks | _ => None end
  end.

Lemma item_of_map {K A : Type} `{HashOrder K} (f : K → PyKey) (g : A → PyObj) (m : gmap K A) k :
  (∀ k1 k2, f k1 = f k2 → k1 = k2) →
  item_of (f k) ((λ x, (f x.1, g x.2)) <$> hash_iter m) = g <$> m !! k.
Proof.
  intros Hf. rewrite <- (hash_iter_to_map m) at 2. induction (hash_iter m) as [|[k' a] l IH]; [done|].
  cbn [fmap list_fmap item_of fst snd]. rewrite list_to_map_cons. destruct (decide (f k' = f k)) as [E|E].
  - apply Hf in E as ->. by rewrite lookup_insert_eq.
  - rewrite IH, lookup_insert_ne; [done|]. intros ->. done.
Qed.

Lemma state_to_pydict_inj s1 s2 : state_to_pydict s1 = state_to_pydict s2 → s1 = s2.
Proof. destruct s1, s2; simpl; intros H; by simplify_eq. Qed.

Lemma KeyStr_inj k1 k2 : KeyStr k1 = KeyStr k2 → k1 = k2.
Proof. by intros [=]. Qed.
Lemma KeyInt_inj k1 k2 : KeyInt k1 = KeyInt k2 → k1 = k2.
Proof. by intros [=]. Qed.

Lemma dict_worker sn id :
  py_path [KeyStr "worker_states"; KeyInt (Z.of_nat id)] (snapshot_to_pydict sn) =
  state_to_pydict <$> rs_worker_states sn !! id.
Proof.
  simpl. rewrite (item_of_map (λ n, KeyInt (Z.of_nat n)) state_to_pydict); [by destruct (_ !! _)|].
  intros ? ? ?%KeyInt_inj. lia.
Qed.

(** One field of the item of a partition. *)
Lemma dict_partition t p k (f : PartitionLagInfo → Z) sn :
  (∀ i, py_path [k] (ObjDict [(KeyStr "consumer_lag", ObjInt (pl_consumer_lag i));
                     (KeyStr "committed_offset", ObjInt (pl_committed_offset i))]) = Some (ObjInt (f i))) →
  py_path [KeyStr "consumer_lag_summary"; KeyStr "per_topic"; KeyStr t; KeyStr "partitions"; KeyInt p; k]
    (snapshot_to_pydict sn) = (λ i, ObjInt (f i)) <$> summary_lag t p (cl_per_topic (rs_consumer_lag_summary sn)).
Proof.
  intros Hk. simpl. rewrite (item_of_map KeyStr topic_to_pydict) by apply KeyStr_inj. unfold summary_lag.
  destruct (cl_per_topic (rs_consumer_lag_summary sn) !! t) as [i|]; [|done]. simpl.
  rewrite (item_of_map KeyInt (λ x, ObjDict [(KeyStr "consumer_lag", ObjInt (pl_consumer_lag x));
                     (KeyStr "committed_offset", ObjInt (pl_committed_offset x))])) by apply KeyInt_inj.
  destruct (tl_partitions i !! p) as [pi|]; [|done]. exact (Hk pi).
Qed.

(** The dictionary says what the snapshot says: the state of every worker, the
    counters of every queue, the lag and the committed offset of every partition
    and the totals are found under their keys, and under no other worker, handler,
    topic or partition there is anything; different states of a worker give
    different items.  The timestamp is cut to whole seconds. *)
Theorem snapshot_dict_faithful sn :
  let d := snapshot_to_pydict sn in
  let lag := rs_consumer_lag_summary sn in
  (∀ id, py_path [KeyStr "worker_states"; KeyInt (Z.of_nat id)] d = state_to_pydict <$> rs_worker_states sn !! id) ∧
  (∀ s1 s2, state_to_pydict s1 = state_to_pydict s2 → s1 = s2) ∧
  (∀ h, py_path [KeyStr "queue_depths"; KeyStr h] d = depth_to_pydict <$> rs_queue_depths sn !! h) ∧
  (∀ h, py_path [KeyStr "accumulator_info"; KeyStr h] d = accumulator_to_pydict <$> rs_accumulator_info sn !! h) ∧
  (∀ t p, py_path [KeyStr "consumer_lag_summary"; KeyStr "per_topic"; KeyStr t; KeyStr "partitions"; KeyInt p;
                   KeyStr "committed_offset"] d =
     (λ i, ObjInt (pl_committed_offset i)) <$> summary_lag t p (cl_per_topic lag)) ∧
  (∀ t p, py_path [KeyStr "consumer_lag_summary"; KeyStr "per_topic"; KeyStr t; KeyStr "partitions"; KeyInt p;
                   KeyStr "consumer_lag"] d =
     (λ i, ObjInt (pl_consumer_lag i)) <$> summary_lag t p (cl_per_topic lag)) ∧
  (∀ t, py_path [KeyStr "consumer_lag_summary"; KeyStr "per_topic"; KeyStr t; KeyStr "total_lag"] d =
     (λ i, ObjInt (tl_total_lag i)) <$> cl_per_topic lag !! t) ∧
  py_path [KeyStr "consumer_lag_summary"; KeyStr "total_lag"] d = Some (ObjInt (cl_total_lag lag)) ∧
  (0 ≤ rs_timestamp sn → py_path [KeyStr "timestamp"] d = Some (ObjInt (rs_timestamp sn / 1000000000))).
Proof.
  intros d lag. subst d lag. split_and!.
  - apply dict_worker.
  - apply state_to_pydict_inj.
  - intros h. simpl. rewrite (item_of_map KeyStr depth_to_pydict) by apply KeyStr_inj. by destruct (_ !! _).
  - intros h. simpl. rewrite (item_of_map KeyStr accumulator_to_pydict) by apply KeyStr_inj. by destruct (_ !! _).
  - intros t p. by apply dict_partition.
  - intros t p. by apply dict_partition.
  - intros t. simpl. rewrite (item_of_map KeyStr topic_to_pydict) by apply KeyStr_inj. by destruct (_ !! _).
  - done.
  - intros Ht. simpl. by rewrite (proj2 (Z.ltb_ge _ _)).
Qed.

(** What Python is to read about a worker. *)
Definition worker_item (w : worker) : PyObj :=
  match (if wk_stopped w then Worker.WIdle else wk_state w) with
  | Worker.WIdle => ObjDict [(KeyStr "status", ObjStr "idle")]
  | WProcessing m =>
      ObjDict [(KeyStr "status", ObjStr "active"); (KeyStr "handler_id", ObjStr (topic m));
               (KeyStr "topic", ObjStr (topic m)); (KeyStr "partition", ObjInt (partition m));
               (KeyStr "offset", ObjInt (offset m))]
  end.

Lemma worker_item_eq w : state_to_pydict (obs_state (status_of w)) = worker_item w.
Proof. unfold status_of, worker_item. destruct (wk_stopped w), (wk_state w); done. Qed.


End lemmas.

(** ** Witness *)

