(* ===== verification/FanOut.v ===== *)
(** * Fan-out (src/worker_pool/fan_out.rs, src/execution/fan_out.rs, process_fan_out of worker.rs)

    The tracker of one fan-out, the slot manager, and the dispatch of a message
    to its sinks as an interleaving of the spawned branches with the task that
    waits for them.  The registration of fan-out groups is in Builder.v. *)

From Stdlib Require Import Ascii String Strings.Byte.
From stdpp Require Import base gmap sets list strings pretty.
From S2P Require Import Prelude F64 Metrics Failure Message Shutdown Runner Dlq OffsetTracker OffsetProofs Retry Queue Execution Worker.

Inductive BranchResult :=
| BranchOk
| BranchError (reason : FailureReason) (exception : string)
| BranchTimeout (timeout_ms : Z).

Abbreviation BranchResults := (list (Z * BranchResult)).

(** ** [FanOutSlotManager] *)

Record FanOutSlotManager := { sm_available : Z; sm_max_slots : Z; sm_topic : string }.

Definition slot_manager_new (max_fan_out : Z) (t : string) : FanOutSlotManager :=
  let m := Z.min max_fan_out 64 in {| sm_available := m; sm_max_slots := m; sm_topic := t |}.

(** [acquire]: waits for a permit ([None] while there is none) and drops it at
    the end of the match arm. *)
Definition slot_acquire (s : FanOutSlotManager) : option FanOutSlotManager :=
  if 0 <? sm_available s then
    let taken := {| sm_available := sm_available s - 1; sm_max_slots := sm_max_slots s;
                    sm_topic := sm_topic s |} in
    Some {| sm_available := sm_available taken + 1; sm_max_slots := sm_max_slots taken;
            sm_topic := sm_topic taken |}
  else None.

(** The queries. *)
Definition slot_available (s : FanOutSlotManager) : Z := sm_available s.
Definition max_slots (s : FanOutSlotManager) : Z := sm_max_slots s.
Definition slot_topic (s : FanOutSlotManager) : string := sm_topic s.

(** ** Configuration *)

Record SinkConfig := { sink_topic : string; sink_handler : PythonHandler; sink_timeout : option Z }.

Record FanOutConfig := {
  fo_sinks : list SinkConfig;
  fo_max_fan_out : Z;
  fo_slot_manager : option FanOutSlotManager
}.

(** A handler with its [fan_out] field: kept apart from [PythonHandler] because
    a fan-out configuration holds the handlers of its sinks. *)
Record FanOutHandler := { fh_handler : PythonHandler; fh_fan_out : option FanOutConfig }.

(** [PythonHandler::new] leaves the field empty. *)
Definition fan_out_handler_new (h : PythonHandler) : FanOutHandler :=
  {| fh_handler := h; fh_fan_out := None |}.

Definition set_fan_out (c : FanOutConfig) (h : FanOutHandler) : FanOutHandler :=
  {| fh_handler := fh_handler h; fh_fan_out := Some c |}.

Definition sink_count (c : FanOutConfig) : nat := length (fo_sinks c).

Definition config_exhausted (c : FanOutConfig) : bool :=
  match fo_slot_manager c with Some s => slot_available s =? 0 | None => false end.

(** ** [CallbackRegistry]

    A callback is named by a number; [emit] answers the call it makes. *)

Record CallbackRegistry := { cb_callbacks : gmap Z nat; cb_next_branch_id : Z }.

Definition registry_new : CallbackRegistry := {| cb_callbacks := ∅; cb_next_branch_id := 1 |}.

Definition on_sink_complete (callback : nat) (r : CallbackRegistry) : Z * CallbackRegistry :=
  (cb_next_branch_id r,
   {| cb_callbacks := <[cb_next_branch_id r := callback]> (cb_callbacks r);
      cb_next_branch_id := u64_wrap (cb_next_branch_id r + 1) |}).

Definition emit (branch_id : Z) (result : BranchResult) (r : CallbackRegistry)
    : option (nat * BranchResult) * CallbackRegistry :=
  ((λ callback, (callback, result)) <$> cb_callbacks r !! branch_id,
   {| cb_callbacks := delete branch_id (cb_callbacks r); cb_next_branch_id := cb_next_branch_id r |}).

(** ** [FanOutTracker]: its counters are bytes *)

Record FanOutTracker := {
  ft_max_fan_out : Z;
  ft_sinks : list SinkConfig;
  ft_inflight : Z;
  ft_callback_registry : CallbackRegistry;
  ft_total : Z;
  ft_completed : Z;
  ft_notified : bool;             (* [notify_waiters] has been called *)
  ft_results : BranchResults
}.

Definition tracker_new (max_fan_out : Z) : FanOutTracker :=
  {| ft_max_fan_out := Z.min max_fan_out 64; ft_sinks := []; ft_inflight := 0;
     ft_callback_registry := registry_new; ft_total := 0; ft_completed := 0;
     ft_notified := false; ft_results := [] |}.

Definition ft_with_inflight (n : Z) (t : FanOutTracker) : FanOutTracker :=
  {| ft_max_fan_out := ft_max_fan_out t; ft_sinks := ft_sinks t; ft_inflight := n;
     ft_callback_registry := ft_callback_registry t; ft_total := ft_total t;
     ft_completed := ft_completed t; ft_notified := ft_notified t; ft_results := ft_results t |}.

Definition ft_with_registry (r : CallbackRegistry) (t : FanOutTracker) : FanOutTracker :=
  {| ft_max_fan_out := ft_max_fan_out t; ft_sinks := ft_sinks t; ft_inflight := ft_inflight t;
     ft_callback_registry := r; ft_total := ft_total t;
     ft_completed := ft_completed t; ft_notified := ft_notified t; ft_results := ft_results t |}.

Definition register_sink (tp : string) (h : PythonHandler) (timeout : option Z) (t : FanOutTracker)
    : FanOutTracker :=
  {| ft_max_fan_out := ft_max_fan_out t;
     ft_sinks := ft_sinks t ++ [{| sink_topic := tp; sink_handler := h; sink_timeout := timeout |}];
     ft_inflight := ft_inflight t;
     ft_callback_registry := ft_callback_registry t; ft_total := ft_total t;
     ft_completed := ft_completed t; ft_notified := ft_notified t; ft_results := ft_results t |}.

Definition tracker_sink_count (t : FanOutTracker) : nat := length (ft_sinks t).
Definition tracker_max_fan_out (t : FanOutTracker) : Z := ft_max_fan_out t.
Definition tracker_sinks (t : FanOutTracker) : list SinkConfig := ft_sinks t.
Definition inflight_count (t : FanOutTracker) : Z := ft_inflight t.

Definition tracker_exhausted (t : FanOutTracker) : bool := ft_max_fan_out t <=? ft_inflight t.

(** [try_acquire_slot] is a load and a [compare_exchange]: two accesses, between
    which other tasks may change the counter (FanOutSlots.v). *)
Definition slot_load (t : FanOutTracker) : option Z :=
  let current := ft_inflight t in
  if ft_max_fan_out t <=? current then None else Some current.

Definition slot_exchange (current : Z) (t : FanOutTracker) : bool * FanOutTracker :=
  if ft_inflight t =? current then (true, ft_with_inflight (u8_wrap (current + 1)) t) else (false, t).

Definition try_acquire_slot (t : FanOutTracker) : bool * FanOutTracker :=
  match slot_load t with
  | None => (false, t)
  | Some current => slot_exchange current t
  end.

Definition release_slot (t : FanOutTracker) : FanOutTracker :=
  ft_with_inflight (u8_wrap (ft_inflight t - 1)) t.

Definition tracker_on_sink_complete (callback : nat) (t : FanOutTracker) : Z * FanOutTracker :=
  let r := on_sink_complete callback (ft_callback_registry t) in (r.1, ft_with_registry r.2 t).

Definition emit_completion (branch_id : Z) (result : BranchResult) (t : FanOutTracker)
    : option (nat * BranchResult) * FanOutTracker :=
  let r := emit branch_id result (ft_callback_registry t) in (r.1, ft_with_registry r.2 t).

Definition register_branch (t : FanOutTracker) : Z * FanOutTracker :=
  (ft_total t,
   {| ft_max_fan_out := ft_max_fan_out t; ft_sinks := ft_sinks t; ft_inflight := ft_inflight t;
      ft_callback_registry := ft_callback_registry t;
      ft_total := u8_wrap (ft_total t + 1); ft_completed := ft_completed t;
      ft_notified := ft_notified t; ft_results := ft_results t |}).

Definition record_branch_result (branch_id : Z) (r : BranchResult) (t : FanOutTracker)
    : FanOutTracker :=
  let prev := ft_completed t in
  {| ft_max_fan_out := ft_max_fan_out t; ft_sinks := ft_sinks t; ft_inflight := ft_inflight t;
     ft_callback_registry := ft_callback_registry t; ft_total := ft_total t;
     ft_completed := u8_wrap (prev + 1);
     ft_notified := ft_notified t || (ft_total t <=? u8_wrap (prev + 1));
     ft_results := ft_results t ++ [(branch_id, r)] |}.

(** One look of [wait_all] at the counters. *)
Definition wait_all_poll (t : FanOutTracker) : option BranchResults :=
  if (ft_total t <=? ft_completed t) && (0 <? ft_completed t) then Some (ft_results t) else None.

(** ** [FanOutBuilderRust] (execution/fan_out.rs) *)

Record FanOutBuilder := {
  fb_group_name : string;
  fb_sink_topics : list string;
  fb_mode : HandlerMode;
  fb_timeout_ms : option Z;
  fb_max_fan_out : option Z
}.

Definition builder_max_fan_out (n : Z) (b : FanOutBuilder) : FanOutBuilder :=
  {| fb_group_name := fb_group_name b; fb_sink_topics := fb_sink_topics b; fb_mode := fb_mode b;
     fb_timeout_ms := fb_timeout_ms b; fb_max_fan_out := Some (Z.min n 64) |}.

(** ** Dispatch (process_fan_out) *)

Definition branch_result (r : ExecutionResult) : BranchResult :=
  match r with
  | ResOk => BranchOk
  | ResError reason exception _ => BranchError reason exception
  | ResTimeout info => BranchTimeout (timeout_ms info)
  | ResRejected _ _ => BranchError (ReasonTerminal HandlerPanic) "Rejected"
  end.

(** The letters of the waiting task: the results, in the order of completion,
    are paired with the sinks, in the order of the configuration. *)
Definition branch_letter (p o now fan_out_id : Z) (x : Z * BranchResult) (t : string)
    : option DlqMetadata :=
  match x.2 with
  | BranchOk => None
  | BranchError _ exception =>
      Some (dlq_metadata_new t p o exception 1 now now None None (Some x.1) (Some fan_out_id))
  | BranchTimeout ms =>
      Some (dlq_metadata_new t p o ("sink timeout after " +:+ pretty ms +:+ "ms") 1 now now
              (Some ms) None (Some x.1) (Some fan_out_id))
  end.

Definition fan_out_letters (p o now fan_out_id : Z) (results : BranchResults)
    (sink_topics : list string) : list DlqMetadata :=
  omap (λ xt, branch_letter p o now fan_out_id xt.1 xt.2) (zip results sink_topics).

Inductive branch_status := BrSpawned | BrStarted (id : Z) | BrFinished.

(** One dispatch: the branches of the sinks and the task that waits. *)
Record fan_out_run := {
  fr_tracker : FanOutTracker;
  fr_branches : list branch_status;
  fr_waited : option BranchResults
}.

(** [encode_hex]: two lowercase digits per byte. *)
Definition hex_digit (n : N) : ascii :=
  ascii_of_N (if (n <? 10)%N then 48 + n else 87 + n)%N.

Definition encode_hex (bytes : list byte) : string :=
  string_of_list_ascii
    (mjoin ((λ b, [hex_digit (N.div (Byte.to_N b) 16); hex_digit (N.modulo (Byte.to_N b) 16)]) <$> bytes)).

(** What a dispatch is started with: the worker, its number and the trace of the
    message; and, of the call of one branch, the random bytes of its identifiers and the
    behaviour of the callable. *)
Record dispatch_ids := { di_worker_id : nat; di_fan_out_id : Z; di_trace_id : option string }.

Record branch_call := {
  bc_trace_bytes : list byte;
  bc_span_bytes : list byte;
  bc_callback : Callback
}.

Inductive fan_out_event :=
| FoStart (i : nat)                       (* branch [i] is first polled *)
| FoFinish (i : nat) (call : branch_call) (* its handler is done *)
| FoPoll.                                 (* the waiting task is polled *)

Section dispatch.
Context (config : FanOutConfig) (msg : OwnedMessage) (ids : dispatch_ids).

(** Spawning runs nothing: the branches register when they start. *)
Definition fan_out_init : fan_out_run :=
  {| fr_tracker := tracker_new (fo_max_fan_out config);
     fr_branches := (λ _, BrSpawned) <$> fo_sinks config;
     fr_waited := None |}.

(** The context of a branch: the trace of the message, or a new one, with a new
    span. *)
Definition sink_context (s : SinkConfig) (id : Z) (call : branch_call) : ExecutionContext :=
  with_trace (sink_topic s) (partition msg) (offset msg) (di_worker_id ids)
    {| trace_id := Some (default (encode_hex (bc_trace_bytes call)) (di_trace_id ids));
       span_id := Some (encode_hex (bc_span_bytes call)); trace_flags := Some "01" |}
    (Some id) (Some (di_fan_out_id ids)) "".

Definition sink_result (i : nat) (id : Z) (call : branch_call) : BranchResult :=
  match fo_sinks config !! i with
  | Some s =>
      branch_result (invoke_mode_with_timeout_override (sink_handler s) (sink_context s id call) msg
                       (sink_timeout s) (bc_callback call)).1
  | None => BranchOk
  end.

Definition fan_out_step (s : fan_out_run) (ev : fan_out_event) : fan_out_run :=
  match ev with
  | FoStart i =>
      match fr_branches s !! i with
      | Some BrSpawned =>
          let '(id, t) := register_branch (fr_tracker s) in
          {| fr_tracker := t; fr_branches := <[i := BrStarted id]> (fr_branches s);
             fr_waited := fr_waited s |}
      | _ => s
      end
  | FoFinish i call =>
      match fr_branches s !! i with
      | Some (BrStarted id) =>
          {| fr_tracker := release_slot (record_branch_result id (sink_result i id call) (fr_tracker s));
             fr_branches := <[i := BrFinished]> (fr_branches s);
             fr_waited := fr_waited s |}
      | _ => s
      end
  | FoPoll =>
      match fr_waited s with
      | Some _ => s
      | None => {| fr_tracker := fr_tracker s; fr_branches := fr_branches s;
                   fr_waited := wait_all_poll (fr_tracker s) |}
      end
  end.

End dispatch.

(** [process_fan_out]: nothing is spawned for a handler without a fan-out
    configuration, or when the slots are exhausted. *)
Definition process_fan_out (fan_out : option FanOutConfig) (msg : OwnedMessage)
    (ids : dispatch_ids) (evs : list fan_out_event) : option fan_out_run :=
  match fan_out with
  | None => None
  | Some config =>
      if config_exhausted config then None
      else Some (foldl (fan_out_step config msg ids) (fan_out_init config) evs)
  end.

(** ** What the waiting task reports *)

Definition BRANCH_OUTCOME_OK : string := "ok".
Definition BRANCH_OUTCOME_ERROR : string := "error".
Definition BRANCH_OUTCOME_TIMEOUT : string := "timeout".

(** [FanOutMetrics::outcome_from_result]. *)
Definition outcome_from_result (r : BranchResult) : string :=
  match r with
  | BranchOk => BRANCH_OUTCOME_OK
  | BranchError _ _ => BRANCH_OUTCOME_ERROR
  | BranchTimeout _ => BRANCH_OUTCOME_TIMEOUT
  end.

Section report.
Context {R S : Type} `{DlqRouter R} (router : R) (to_rfc3339 : Z → string) `{MetricsSink S}.

Definition report_metrics (fan_out_id : Z) (pairs : list ((Z * BranchResult) * string)) (sink : S) : S :=
  foldl (λ s xt, record_branch_completion fan_out_id xt.2 (outcome_from_result xt.1.2) s) sink pairs.

Definition report_letters (msg : OwnedMessage) (fan_out_id now : Z)
    (pairs : list ((Z * BranchResult) * string)) (dlq : SharedDlqProducer) : SharedDlqProducer :=
  foldl (λ p xt, match branch_letter (partition msg) (offset msg) now fan_out_id xt.1 xt.2 with
                 | Some m => produce_letter router to_rfc3339 m msg p
                 | None => p
                 end) dlq pairs.

Definition fan_out_report (config : FanOutConfig) (msg : OwnedMessage) (fan_out_id now : Z)
    (results : BranchResults) (sink : S) (dlq : SharedDlqProducer) : S * SharedDlqProducer :=
  let pairs := zip results (sink_topic <$> fo_sinks config) in
  (report_metrics fan_out_id pairs sink, report_letters msg fan_out_id now pairs dlq).

End report.

(** ** Lemmas *)

Definition started_id (b : branch_status) : option Z :=
  match b with BrStarted id => Some id | _ => None end.

Definition registered_branch (b : branch_status) : bool :=
  match b with BrSpawned => false | _ => true end.

Definition finished_branch (b : branch_status) : bool :=
  match b with BrFinished => true | _ => false end.

Definition count (f : branch_status → bool) (l : list branch_status) : nat :=
  length (List.filter f l).

Lemma split_at {A : Type} (l : list A) i x y :
  l !! i = Some x → ∃ l1 l2, l = l1 ++ x :: l2 ∧ <[i := y]> l = l1 ++ y :: l2.
Proof.
  intros Hl. exists (take i l), (drop (S i) l). split; [by rewrite take_drop_middle|].
  by rewrite insert_take_drop by (by apply lookup_lt_Some in Hl).
Qed.

Lemma count_app f l1 l2 : count f (l1 ++ l2) = (count f l1 + count f l2)%nat.
Proof. unfold count. by rewrite List.filter_app, length_app. Qed.

Lemma count_cons f x l : count f (x :: l) = ((if f x then 1 else 0) + count f l)%nat.
Proof. unfold count. simpl. by destruct (f x). Qed.

Lemma count_le f l : (count f l ≤ length l)%nat.
Proof. induction l as [|x l IH]; [done|]. rewrite count_cons. simpl. destruct (f x); lia. Qed.

Lemma started_app l1 l2 : omap started_id (l1 ++ l2) = omap started_id l1 ++ omap started_id l2.
Proof. apply omap_app. Qed.

(** The tracker of a dispatch with at most 255 sinks. *)
Record dispatch_inv (s : fan_out_run) : Prop := {
  dv_size : (length (fr_branches s) ≤ 255)%nat;
  dv_total : ft_total (fr_tracker s) = Z.of_nat (count registered_branch (fr_branches s));
  dv_completed : ft_completed (fr_tracker s) = Z.of_nat (count finished_branch (fr_branches s));
  dv_results : length (ft_results (fr_tracker s)) = count finished_branch (fr_branches s);
  dv_ids : (ft_results (fr_tracker s)).*1 ++ omap started_id (fr_branches s) ≡ₚ
           seqZ 0 (ft_total (fr_tracker s));
  dv_inflight : ft_inflight (fr_tracker s) =
                u8_wrap (- Z.of_nat (count finished_branch (fr_branches s)))
}.

Lemma init_inv config : (length (fo_sinks config) ≤ 255)%nat → dispatch_inv (fan_out_init config).
Proof.
  intros Hn.
  assert (Hc : ∀ f l, f BrSpawned = false → count f ((λ _ : SinkConfig, BrSpawned) <$> l) = 0%nat).
  { intros f l Hf. unfold count. induction l as [|x l IH]; [done|]. simpl. by rewrite Hf. }
  assert (Ho : ∀ l, omap started_id ((λ _ : SinkConfig, BrSpawned) <$> l) = []).
  { intros l. by induction l. }
  split; simpl; rewrite ?length_fmap, ?Hc, ?Ho; done.
Qed.

Lemma u8_pred n : (n < 255)%nat → u8_wrap (u8_wrap (- Z.of_nat n) - 1) = u8_wrap (- Z.of_nat (S n)).
Proof.
  intros _. unfold u8_wrap. rewrite Zminus_mod_idemp_l. f_equal. lia.
Qed.

Lemma step_inv config msg ids s ev : dispatch_inv s → dispatch_inv (fan_out_step config msg ids s ev).
Proof.
  intros [Hn Ht Hc Hr Hids Hi]. destruct ev as [i|i call|]; simpl.
  - destruct (fr_branches s !! i) as [[| |]|] eqn:E; try done.
    destruct (split_at _ _ _ (BrStarted (ft_total (fr_tracker s))) E) as (l1 & l2 & El & Ei).
    assert (Hlt : (count registered_branch (fr_branches s) < 255)%nat).
    { rewrite El, count_app, count_cons. simpl.
      pose proof (count_le registered_branch l1). pose proof (count_le registered_branch l2).
      rewrite El, length_app in Hn. simpl in Hn. lia. }
    assert (Hw : u8_wrap (ft_total (fr_tracker s) + 1) = ft_total (fr_tracker s) + 1).
    { apply u8_wrap_id. unfold u8_range. rewrite Ht. lia. }
    split; simpl; rewrite ?length_insert, ?Hw; [done| | | | |]; rewrite ?Ei; rewrite El in *;
      rewrite ?count_app, ?count_cons in *; simpl in *; try lia.
    + rewrite started_app in Hids. rewrite started_app. simpl in *.
      rewrite Ht, seqZ_app by lia. rewrite <- Ht, <- Hids.
      rewrite <- (Permutation_middle (omap started_id l1)), <- Permutation_middle.
      by rewrite (Permutation_app_comm _ (seqZ _ 1)).
  - destruct (fr_branches s !! i) as [[|id|]|] eqn:E; try done.
    destruct (split_at _ _ _ BrFinished E) as (l1 & l2 & El & Ei).
    assert (Hlt : (count finished_branch (fr_branches s) < 255)%nat).
    { rewrite El, count_app, count_cons. simpl.
      pose proof (count_le finished_branch l1). pose proof (count_le finished_branch l2).
      rewrite El, length_app in Hn. simpl in Hn. lia. }
    assert (Hw : u8_wrap (ft_completed (fr_tracker s) + 1) = ft_completed (fr_tracker s) + 1).
    { apply u8_wrap_id. unfold u8_range. rewrite Hc. lia. }
    assert (Hcnt : count finished_branch (<[i := BrFinished]> (fr_branches s)) =
                   S (count finished_branch (fr_branches s))).
    { rewrite Ei, El, !count_app, !count_cons. simpl. lia. }
    split; simpl; rewrite ?length_insert, ?Hw, ?Hcnt; [done| | | | |].
    + rewrite Ht, Ei, El, !count_app, !count_cons. done.
    + rewrite Hc. lia.
    + rewrite length_app. simpl. lia.
    + rewrite <- Hids, Ei, El, !started_app, fmap_app. simpl.
      rewrite <- app_assoc. f_equiv. simpl. by rewrite Permutation_middle.
    + rewrite Hi. by apply u8_pred.
  - destruct (fr_waited s); by split.
Qed.

Lemma run_inv config msg ids evs s :
  (length (fo_sinks config) ≤ 255)%nat → process_fan_out (Some config) msg ids evs = Some s → dispatch_inv s.
Proof.
  intros Hn. unfold process_fan_out. destruct (config_exhausted config); [done|]. intros [= <-].
  generalize (init_inv config Hn). generalize (fan_out_init config).
  induction evs as [|ev evs IH]; intros s0 Hs; [done|]. simpl. by apply IH, step_inv.
Qed.

(** Registered is started or finished. *)
Lemma registered_count l :
  count registered_branch l = (length (omap started_id l) + count finished_branch l)%nat.
Proof.
  induction l as [|[|id|] l IH]; [done|..]; rewrite !count_cons;
    cbn [registered_branch finished_branch omap list_omap started_id length] in *; lia.
Qed.

Lemma start_step config msg ids s i :
  length (fr_branches s) = length (fo_sinks config) →
  (∀ j, (j < i)%nat → ∃ b, fr_branches s !! j = Some b ∧ registered_branch b = true) →
  (∀ j, (i ≤ j < length (fo_sinks config))%nat → fr_branches s !! j = Some BrSpawned) →
  (i < length (fo_sinks config))%nat →
  let s' := fan_out_step config msg ids s (FoStart i) in
  length (fr_branches s') = length (fo_sinks config) ∧
  (∀ j, (j < S i)%nat → ∃ b, fr_branches s' !! j = Some b ∧ registered_branch b = true) ∧
  (∀ j, (S i ≤ j < length (fo_sinks config))%nat → fr_branches s' !! j = Some BrSpawned).
Proof.
  intros Hlen Hlo Hhi Hi. simpl. rewrite (Hhi i) by lia. simpl. split_and!.
  - by rewrite length_insert.
  - intros j Hj. destruct (decide (i = j)) as [<-|].
    + eexists. rewrite list_lookup_insert_eq by lia. done.
    + rewrite list_lookup_insert_ne by done. apply Hlo. lia.
  - intros j Hj. rewrite list_lookup_insert_ne by lia. apply Hhi. lia.
Qed.

Lemma all_registered_count l :
  (∀ j, (j < length l)%nat → ∃ b, l !! j = Some b ∧ registered_branch b = true) →
  count registered_branch l = length l.
Proof.
  induction l as [|x l IH]; intros Hall; [done|]. rewrite count_cons. simpl.
  destruct (Hall 0%nat) as (b & [= <-] & ->); [simpl; lia|]. rewrite IH; [lia|].
  intros j Hj. apply (Hall (S j)). simpl. lia.
Qed.

(** Every branch may be running at once. *)
Lemma start_all_registered config msg ids :
  count registered_branch (fr_branches (foldl (fan_out_step config msg ids) (fan_out_init config)
    (FoStart <$> seq 0 (length (fo_sinks config))))) = length (fo_sinks config).
Proof.
  set (n := length (fo_sinks config)).
  assert (Hgen : ∀ k, (k ≤ n)%nat →
    let s := foldl (fan_out_step config msg ids) (fan_out_init config) (FoStart <$> seq 0 k) in
    length (fr_branches s) = n ∧
    (∀ j, (j < k)%nat → ∃ b, fr_branches s !! j = Some b ∧ registered_branch b = true) ∧
    (∀ j, (k ≤ j < n)%nat → fr_branches s !! j = Some BrSpawned)).
  { induction k as [|k IH]; intros Hk.
    - simpl. rewrite length_fmap. split_and!; [done|lia|]. intros j Hj.
      rewrite list_lookup_fmap. destruct (lookup_lt_is_Some_2 (fo_sinks config) j) as [x ->]; [fold n; lia|done].
    - destruct IH as (Hl & Hlo & Hhi); [lia|]. rewrite seq_S, fmap_app, foldl_app.
      apply (start_step config msg ids _ k Hl Hlo Hhi). fold n. lia. }
  destruct (Hgen n) as (Hl & Hlo & _); [lia|]. rewrite all_registered_count; [done|]. by rewrite Hl.
Qed.

(** ** The properties *)

(** What one look of [wait_all] finds. *)
Lemma polled_results s rs :
  dispatch_inv s → wait_all_poll (fr_tracker s) = Some rs →
  (∀ i id, fr_branches s !! i ≠ Some (BrStarted id)) ∧
  rs.*1 ≡ₚ seqZ 0 (Z.of_nat (length rs)) ∧
  length rs = count finished_branch (fr_branches s) ∧ (0 < length rs)%nat.
Proof.
  intros [_ Ht Hc Hr Hids _] Hw. unfold wait_all_poll in Hw.
  destruct (Z.leb_spec (ft_total (fr_tracker s)) (ft_completed (fr_tracker s))) as [Hle|]; [|done].
  destruct (Z.ltb_spec 0 (ft_completed (fr_tracker s))) as [Hpos|]; [|done].
  simpl in Hw. injection Hw as <-.
  pose proof (registered_count (fr_branches s)) as Hreg.
  assert (Hnone : omap started_id (fr_branches s) = []).
  { apply length_zero_iff_nil. lia. }
  rewrite Hnone, app_nil_r in Hids. rewrite Hnone in Hreg. simpl in Hreg.
  split_and!; [|rewrite Hids; f_equiv; lia|done|lia].
  intros i id Hi. assert (id ∈ omap started_id (fr_branches s)) as Hin.
  { apply list_elem_of_omap. exists (BrStarted id). split; [by eapply list_elem_of_lookup_2|done]. }
  rewrite Hnone in Hin. inversion Hin.
Qed.

(** what [wait_all] waits for.  Whenever the waiting task gets its results,
    no branch is running and the results are those of the branches that have
    started, each once, under the identifiers 0, 1, ... of their start order: all
    of them if all had started, and without those that were spawned but had not
    yet been polled. *)
Theorem wait_all_returns_started_branches config msg ids evs s rs :
  (length (fo_sinks config) ≤ 255)%nat →
  process_fan_out (Some config) msg ids evs = Some s →
  wait_all_poll (fr_tracker s) = Some rs →
  (∀ i id, fr_branches s !! i ≠ Some (BrStarted id)) ∧
  rs.*1 ≡ₚ seqZ 0 (Z.of_nat (length rs)) ∧
  length rs = count finished_branch (fr_branches s) ∧ (0 < length rs)%nat.
Proof. intros Hn Hrun. exact (polled_results _ _ (run_inv _ _ _ _ _ Hn Hrun)). Qed.

(** What the waiting task has are the results there were when it looked. *)
Definition waited_inv (config : FanOutConfig) (s : fan_out_run) : Prop :=
  length (fr_branches s) = length (fo_sinks config) ∧
  (∀ rs, fr_waited s = Some rs → rs `prefix_of` ft_results (fr_tracker s) ∧
     rs.*1 ≡ₚ seqZ 0 (Z.of_nat (length rs)) ∧ (0 < length rs)%nat).

Lemma waited_step config msg ids s ev :
  dispatch_inv s → waited_inv config s → waited_inv config (fan_out_step config msg ids s ev).
Proof.
  intros Hi [Hl Hw]. destruct ev as [i|i call|]; simpl.
  - destruct (fr_branches s !! i) as [[]|]; [|done..]. split; simpl; [by rewrite length_insert|done].
  - destruct (fr_branches s !! i) as [[]|]; try done. split; simpl; [by rewrite length_insert|].
    intros rs Hrs. destruct (Hw rs Hrs) as (P & ? & ?). split_and!; [by apply prefix_app_r|done|done].
  - destruct (fr_waited s) eqn:E; [by split; rewrite ?E in *|]. split; [done|]. simpl. intros rs Hrs.
    destruct (polled_results _ _ Hi Hrs) as (_ & H1 & _ & H2). split_and!; [|done|done].
    unfold wait_all_poll in Hrs. case_match; [|done]. by injection Hrs as <-.
Qed.

Lemma waited_results config msg ids evs s rs :
  (length (fo_sinks config) ≤ 255)%nat → process_fan_out (Some config) msg ids evs = Some s →
  fr_waited s = Some rs →
  (0 < length rs ≤ length (fo_sinks config))%nat ∧ rs.*1 ≡ₚ seqZ 0 (Z.of_nat (length rs)).
Proof.
  intros Hn Hrun Hw. pose proof (run_inv _ _ _ _ _ Hn Hrun) as Hi.
  assert (waited_inv config s) as [Hl Hp].
  { unfold process_fan_out in Hrun. destruct (config_exhausted config); [done|]. injection Hrun as <-.
    assert (waited_inv config (fan_out_init config)) as H0 by (split; simpl; [by rewrite length_fmap|done]).
    pose proof (init_inv config Hn) as H1. revert H0 H1. generalize (fan_out_init config). clear.
    induction evs as [|ev evs IH]; intros s0 H0 H1; [done|]. apply IH; [by apply waited_step|by apply step_inv]. }
  destruct (Hp rs Hw) as (P & Hids & Hpos). split; [|done]. split; [done|].
  apply prefix_length in P. rewrite (dv_results _ Hi) in P.
  pose proof (count_le finished_branch (fr_branches s)). lia.
Qed.

Lemma report_metrics_counts id pairs : ∀ s : PrometheusSink,
  counters (report_metrics id pairs s) !! "kafpy.fanout.branch_total" =
  (λ n, n + length pairs)%nat <$> counters s !! "kafpy.fanout.branch_total".
Proof.
  induction pairs as [|x pairs IH]; intros s.
  - simpl. destruct (counters s !! _); simpl; [|done]. by rewrite Nat.add_0_r.
  - change (report_metrics id (x :: pairs) s) with
      (report_metrics id pairs (record_branch_completion id x.2 (outcome_from_result x.1.2) s)).
    rewrite IH. cbn [record_branch_completion record_counter prometheus_sink counters]. rewrite lookup_alter_eq.
    destruct (counters s !! _); simpl; [|done]. f_equal. lia.
Qed.

(** Reporting the pairs is offering the letters. *)
Lemma report_letters_eq `{DlqRouter R} (router : R) to_rfc3339 msg id now results topics : ∀ dlq,
  report_letters router to_rfc3339 msg id now (zip results topics) dlq =
  foldl (λ p m, produce_letter router to_rfc3339 m msg p) dlq
    (fan_out_letters (partition msg) (offset msg) now id results topics).
Proof.
  unfold report_letters, fan_out_letters. generalize (zip results topics). intros l.
  induction l as [|x l IH]; intros dlq; [done|]. cbn [foldl]. rewrite IH.
  cbn [omap list_omap]. by destruct (branch_letter _ _ _ _ _ _).
Qed.

(** The results that are failures. *)
Definition failed (x : Z * BranchResult) : Prop := x.2 ≠ BranchOk.
#[export] Instance failed_dec x : Decision (failed x).
Proof. unfold failed. destruct x as [? []]; simpl; [right|left|left]; congruence. Defined.

Lemma letters_of_failures p o now id results : ∀ topics, (length results ≤ length topics)%nat →
  (λ m, (original m, branch_id m, fan_out_id m)) <$> fan_out_letters p o now id results topics =
  (λ xt, ({| om_topic := xt.2; om_partition := p; om_offset := o |}, Some xt.1.1, Some id)) <$>
    filter (λ xt, failed xt.1) (zip results topics) ∧
  length (fan_out_letters p o now id results topics) = length (filter failed results).
Proof.
  unfold fan_out_letters. induction results as [|x rs IH]; intros [|t ts] Hl; simpl in Hl; try lia; [done..|].
  destruct (IH ts) as [IHe IHl]; [lia|]. cbn [zip zip_with omap list_omap].
  destruct x as [i [|reason ex|ms]]; cbn [branch_letter fst snd];
    [rewrite !filter_cons_False by (unfold failed; simpl; tauto)|
     rewrite !filter_cons_True by (unfold failed; simpl; done)..];
    cbn [fmap list_fmap length]; rewrite ?IHe, ?IHl; done.
Qed.


(** the slots of a fan-out are never taken.  Branches release a slot without
    acquiring one, so the byte of branches in flight runs below zero: after k
    completions it is 256 - k.  Acquiring a slot of the manager gives it back at
    once, so a manager with a slot is never exhausted, and the number of branches
    of a dispatch is the number of sinks whatever the maximal degree. *)
Theorem fan_out_slots_are_not_held :
  (∀ config msg ids evs s, (length (fo_sinks config) ≤ 255)%nat →
     process_fan_out (Some config) msg ids evs = Some s →
     ft_inflight (fr_tracker s) = u8_wrap (- Z.of_nat (count finished_branch (fr_branches s)))) ∧
  (∀ m m', slot_acquire m = Some m' → m' = m) ∧
  (∀ max t, 0 < max → ∃ m, slot_acquire (slot_manager_new max t) = Some m ∧
     sm_available m = Z.min max 64) ∧
  (∀ config msg ids, config_exhausted config = false → ∃ s,
     process_fan_out (Some config) msg ids (FoStart <$> seq 0 (length (fo_sinks config))) = Some s ∧
     count registered_branch (fr_branches s) = length (fo_sinks config)).
Proof.
  split_and!.
  - intros config msg ids evs s Hn Hrun. by destruct (run_inv _ _ _ _ _ Hn Hrun).
  - intros m m'. unfold slot_acquire. case_match; [|done]. intros [= <-]. destruct m. simpl. f_equal. lia.
  - intros max t Hm. unfold slot_acquire, slot_manager_new. simpl.
    destruct (Z.ltb_spec 0 (Z.min max 64)); [|lia]. eexists. split; [done|]. simpl. lia.
  - intros config msg ids He. unfold process_fan_out. rewrite He. eexists. split; [done|].
    apply start_all_registered.
Qed.

(** failures of sinks are lost or reported for the wrong sink.  With two
    sinks, when the first branch completes before the second has been polled, the
    waiting task returns without the second, whose failure gets no letter.  And
    when both have started and the second fails before the first succeeds, the
    letter of the failure names the topic of the first sink. *)
Theorem sink_failures_misreported config msg ids a b ca cb reason exception p o now id :
  fo_sinks config = [a; b] →
  config_exhausted config = false →
  sink_result config msg ids 0 0 ca = BranchOk →
  sink_result config msg ids 1 1 cb = BranchError reason exception →
  (∃ s rs, process_fan_out (Some config) msg ids [FoStart 0; FoFinish 0 ca; FoPoll; FoStart 1; FoFinish 1 cb; FoPoll]
             = Some s ∧ fr_waited s = Some rs ∧
           fan_out_letters p o now id rs [sink_topic a; sink_topic b] = []) ∧
  (∃ s rs m, process_fan_out (Some config) msg ids [FoStart 0; FoStart 1; FoFinish 1 cb; FoPoll; FoFinish 0 ca; FoPoll]
             = Some s ∧ fr_waited s = Some rs ∧
           fan_out_letters p o now id rs [sink_topic a; sink_topic b] = [m] ∧
           om_topic (original m) = sink_topic a).
Proof.
  intros Hs He Ha Hb. unfold process_fan_out. rewrite He.
  unfold fan_out_init. rewrite Hs. split.
  - eexists _, _. split; [done|]. simpl. rewrite Ha. simpl. done.
  - eexists _, _, _. split; [done|]. simpl. change (u8_wrap (0 + 1)) with 1.
    rewrite Ha, Hb. simpl. done.
Qed.

(** ** Witnesses *)

Definition demo_sink (t : string) : SinkConfig :=
  {| sink_topic := t; sink_handler := demo_handler None; sink_timeout := None |}.

Definition demo_config : FanOutConfig :=
  {| fo_sinks := [demo_sink "a"; demo_sink "b"]; fo_max_fan_out := 1;
     fo_slot_manager := Some (slot_manager_new 1 "t") |}.

Definition demo_ids : dispatch_ids :=
  {| di_worker_id := 0; di_fan_out_id := 1; di_trace_id := None |}.

Definition demo_branch (o : PyOutcome) : branch_call :=
  {| bc_trace_bytes := [x00; xff]; bc_span_bytes := [x0a];
     bc_callback := λ _, {| py_outcome := o; py_duration := 1 |} |}.

Definition good_call : branch_call := demo_branch PyReturned.
Definition failing_call : branch_call := demo_branch value_error.

Definition demo_dispatch (evs : list fan_out_event) : fan_out_run :=
  default (fan_out_init demo_config) (process_fan_out (Some demo_config) (fake "t" 0 7) demo_ids evs).

Lemma wait_all_returns_started_branches_witness :
  (0 < length [(0, BranchError (ReasonNonRetryable Validation) "ValueError")])%nat ∧
  fr_branches (demo_dispatch [FoStart 1; FoFinish 1 failing_call]) !! 1%nat ≠ Some (BrStarted 0).
Proof.
  edestruct (wait_all_returns_started_branches demo_config (fake "t" 0 7) demo_ids
            [FoStart 1; FoFinish 1 failing_call]
            (demo_dispatch [FoStart 1; FoFinish 1 failing_call])
            [(0, BranchError (ReasonNonRetryable Validation) "ValueError")]) as (H1 & _ & _ & H2).
  - simpl. lia.
  - vm_compute. reflexivity.
  - vm_compute. reflexivity.
  - split; [exact H2|]. exact (H1 1%nat 0).
Defined.


Lemma sink_failures_misreported_witness :
  ∃ s rs m, process_fan_out (Some demo_config) (fake "t" 0 7) demo_ids
    [FoStart 0; FoStart 1; FoFinish 1 failing_call; FoPoll; FoFinish 0 good_call; FoPoll] = Some s ∧
    fr_waited s = Some rs ∧ fan_out_letters 0 7 0 1 rs ["a"; "b"] = [m] ∧ om_topic (original m) = "a".
Proof.
  edestruct (sink_failures_misreported demo_config (fake "t" 0 7) demo_ids (demo_sink "a") (demo_sink "b")
    good_call failing_call (ReasonNonRetryable Validation) "ValueError" 0 7 0 1) as [_ H].
  - reflexivity.
  - reflexivity.
  - vm_compute. reflexivity.
  - vm_compute. reflexivity.
  - exact H.
Defined.
