(* ===== verification/FanOutSlots.v ===== *)
(** * The slots and the callbacks of a fan-out tracker (src/worker_pool/fan_out.rs)

    What [FanOutTracker] promises to tasks that take a slot before a branch and
    give it back after, while others do the same; and what its callback registry
    promises to those that wait for a branch.  The dispatcher of fan-outs uses
    neither (FanOut.v). *)

From stdpp Require Import base gmap sets list strings.
From S2P Require Import Prelude Execution FanOut.

(** ** Tasks that take slots

    A call of [try_acquire_slot] is two accesses of the counter. *)

Inductive caller :=
| CallerIdle
| CallerLoaded (current : Z)       (* between the load and the exchange *)
| CallerHolding                    (* was answered true *)
| CallerRefused.                   (* was answered false *)

Record slot_run := { sr_tracker : FanOutTracker; sr_callers : list caller }.

Inductive slot_event :=
| SlLoad (i : nat)
| SlExchange (i : nat)
| SlRelease (i : nat).

Definition slot_step (s : slot_run) (ev : slot_event) : slot_run :=
  let goto i t c := {| sr_tracker := t; sr_callers := <[i := c]> (sr_callers s) |} in
  match ev with
  | SlLoad i =>
      match sr_callers s !! i with
      | Some CallerIdle | Some CallerRefused =>
          goto i (sr_tracker s)
            (match slot_load (sr_tracker s) with Some c => CallerLoaded c | None => CallerRefused end)
      | _ => s
      end
  | SlExchange i =>
      match sr_callers s !! i with
      | Some (CallerLoaded c) =>
          let r := slot_exchange c (sr_tracker s) in goto i r.2 (if r.1 then CallerHolding else CallerRefused)
      | _ => s
      end
  | SlRelease i =>
      match sr_callers s !! i with
      | Some CallerHolding => goto i (release_slot (sr_tracker s)) CallerIdle
      | _ => s
      end
  end.

Definition slot_init (max_fan_out : Z) (n : nat) : slot_run :=
  {| sr_tracker := tracker_new max_fan_out; sr_callers := replicate n CallerIdle |}.

Definition holding (c : caller) : bool := match c with CallerHolding => true | _ => false end.

Definition holders (s : slot_run) : nat := length (List.filter holding (sr_callers s)).

(** A call that no other task comes between. *)
Lemma slot_call_alone s i :
  sr_callers s !! i = Some CallerIdle →
  (slot_load (sr_tracker s) ≠ None →
   foldl slot_step s [SlLoad i; SlExchange i] =
   {| sr_tracker := (try_acquire_slot (sr_tracker s)).2;
      sr_callers := <[i := if (try_acquire_slot (sr_tracker s)).1 then CallerHolding else CallerRefused]>
                      (sr_callers s) |}).
Proof.
  intros Hi Hl. cbn [foldl]. unfold slot_step at 2. rewrite Hi. unfold try_acquire_slot.
  destruct (slot_load _) as [c|]; [|done]. unfold slot_step. cbn [sr_callers sr_tracker].
  rewrite list_lookup_insert_eq by (by apply lookup_lt_Some in Hi). by rewrite list_insert_insert_eq.
Qed.

(** ** The counter is the number of holders *)

Lemma holders_update (l : list caller) i c c' :
  l !! i = Some c →
  (length (List.filter holding (<[i := c']> l)) + (if holding c then 1 else 0) =
   length (List.filter holding l) + (if holding c' then 1 else 0))%nat.
Proof.
  intros Hi. destruct (split_at _ _ _ c' Hi) as (l1 & l2 & -> & ->).
  rewrite !List.filter_app, !length_app. simpl. destruct (holding c), (holding c'); simpl; lia.
Qed.

Lemma holders_positive (l : list caller) i :
  l !! i = Some CallerHolding → (0 < length (List.filter holding l))%nat.
Proof. intros Hi. pose proof (holders_update l i _ CallerIdle Hi). simpl in *. lia. Qed.

Record slot_inv (max : Z) (s : slot_run) : Prop := {
  si_max : ft_max_fan_out (sr_tracker s) = Z.min max 64;
  si_count : ft_inflight (sr_tracker s) = Z.of_nat (holders s);
  si_bound : Z.of_nat (holders s) ≤ Z.min max 64;
  si_loaded : ∀ i c, sr_callers s !! i = Some (CallerLoaded c) → c < Z.min max 64
}.

Lemma slot_init_inv max n : 0 ≤ max → slot_inv max (slot_init max n).
Proof.
  intros Hm. assert (holders (slot_init max n) = 0%nat) as Hh.
  { unfold holders. simpl. by induction n. }
  split; rewrite ?Hh; simpl; [done|done|lia|].
  intros i c [? _]%lookup_replicate. done.
Qed.

(** A caller that moves keeps the bound on what the others have loaded. *)
Lemma loaded_insert (l : list caller) (P : Z → Prop) i c :
  (∀ j d, l !! j = Some (CallerLoaded d) → P d) → (∀ d, c = CallerLoaded d → P d) →
  ∀ j d, <[i := c]> l !! j = Some (CallerLoaded d) → P d.
Proof.
  intros Hl Hc j d. destruct (decide (i = j)) as [<-|].
  - destruct (decide (i < length l)%nat).
    + rewrite list_lookup_insert_eq by done. intros [= ->]. by apply Hc.
    + rewrite list_insert_ge by lia. apply Hl.
  - rewrite list_lookup_insert_ne by done. apply Hl.
Qed.

Lemma slot_step_inv max s ev : slot_inv max s → slot_inv max (slot_step s ev).
Proof.
  intros [Hm Hc Hb Hl]. unfold holders in *.
  destruct ev as [i|i|i]; simpl; destruct (sr_callers s !! i) as [c|] eqn:Ei; try done.
  - destruct c; try done.
    all: pose proof (λ c', holders_update _ _ _ c' Ei) as Hu; cbn [holding] in Hu.
    all: unfold slot_load; destruct (Z.leb_spec (ft_max_fan_out (sr_tracker s)) (ft_inflight (sr_tracker s)));
      split; unfold holders; cbn [sr_tracker sr_callers]; try done.
    all: try (specialize (Hu CallerRefused); cbn [holding] in Hu; lia).
    all: try (match goal with |- context [CallerLoaded ?d] => specialize (Hu (CallerLoaded d)) end;
              cbn [holding] in Hu; lia).
    all: apply (loaded_insert _ (λ c, c < Z.min max 64) _ _ Hl); intros d [= <-]; lia.
  - destruct c as [|current| |]; try done. pose proof (Hl _ _ Ei) as Hcur.
    pose proof (λ c', holders_update _ _ _ c' Ei) as Hu; cbn [holding] in Hu.
    unfold slot_exchange. destruct (Z.eqb_spec (ft_inflight (sr_tracker s)) current) as [<-|Hne].
    + specialize (Hu CallerHolding). cbn [holding] in Hu.
      assert (u8_wrap (ft_inflight (sr_tracker s) + 1) = ft_inflight (sr_tracker s) + 1) as Hw.
      { apply u8_wrap_id. unfold u8_range. lia. }
      split; unfold holders; cbn [fst snd sr_tracker sr_callers ft_with_inflight ft_max_fan_out ft_inflight]; [done|lia|lia|].
      by apply (loaded_insert _ (λ c, c < Z.min max 64) _ _ Hl).
    + specialize (Hu CallerRefused). cbn [holding] in Hu.
      split; unfold holders; cbn [fst snd sr_tracker sr_callers]; [done|lia|lia|].
      by apply (loaded_insert _ (λ c, c < Z.min max 64) _ _ Hl).
  - destruct c; try done. pose proof (holders_positive _ _ Ei).
    pose proof (holders_update _ _ _ CallerIdle Ei) as Hu. cbn [holding] in Hu.
    assert (u8_wrap (ft_inflight (sr_tracker s) - 1) = ft_inflight (sr_tracker s) - 1) as Hw.
    { apply u8_wrap_id. unfold u8_range. lia. }
    split; unfold holders, release_slot; cbn [sr_tracker sr_callers ft_with_inflight ft_max_fan_out ft_inflight]; [done|lia|lia|].
    by apply (loaded_insert _ (λ c, c < Z.min max 64) _ _ Hl).
Qed.

Lemma slot_run_inv max evs s : slot_inv max s → slot_inv max (foldl slot_step s evs).
Proof. revert s. induction evs as [|ev evs IH]; intros s Hs; [done|]. by apply IH, slot_step_inv. Qed.

(** ** Somebody gets a slot *)

Definition takes (ev : slot_event) : Prop := match ev with SlRelease _ => False | _ => True end.

(** Nobody holds a slot, so nobody was refused and every load has seen zero. *)
Definition fresh (s : slot_run) : Prop :=
  ft_inflight (sr_tracker s) = 0 ∧ ∀ i c, sr_callers s !! i = Some c → c = CallerIdle ∨ c = CallerLoaded 0.

Lemma fresh_step max s ev :
  0 < max → slot_inv max s → takes ev → fresh s →
  fresh (slot_step s ev) ∨ (0 < holders (slot_step s ev))%nat.
Proof.
  intros Hmax Hs Ht [H0 Hf]. destruct ev as [i|i|i]; [| |done]; simpl;
    destruct (sr_callers s !! i) as [c|] eqn:Ei; try (by left);
    destruct (Hf _ _ Ei) as [->| ->]; try (by left).
  - left. unfold slot_load. rewrite (si_max _ _ Hs), H0.
    destruct (Z.leb_spec (Z.min max 64) 0); [lia|]. split; [done|]. cbn [sr_callers].
    intros j c. destruct (decide (i = j)) as [<-|].
    + rewrite list_lookup_insert_eq by (by apply lookup_lt_Some in Ei). intros [= <-]. by right.
    + rewrite list_lookup_insert_ne by done. apply Hf.
  - right. unfold slot_exchange. rewrite H0. simpl. unfold holders. simpl.
    pose proof (holders_update _ _ _ CallerHolding Ei) as Hu. simpl in Hu. lia.
Qed.

Lemma holders_grow s ev : takes ev → (holders s ≤ holders (slot_step s ev))%nat.
Proof.
  intros Ht. destruct ev as [i|i|i]; [| |done]; simpl;
    destruct (sr_callers s !! i) as [[]|] eqn:Ei; try done; unfold holders; simpl;
    match goal with |- context [<[i := ?c']> _] => pose proof (holders_update _ _ _ c' Ei) as Hu end;
    cbn [holding] in Hu; repeat case_match; lia.
Qed.

Lemma fresh_run max evs s :
  0 < max → slot_inv max s → Forall takes evs → fresh s ∨ (0 < holders s)%nat →
  fresh (foldl slot_step s evs) ∨ (0 < holders (foldl slot_step s evs))%nat.
Proof.
  intros Hmax. revert s. induction evs as [|ev evs IH]; intros s Hs Ht Hf; [done|].
  apply Forall_cons in Ht as [Ht Hts]. apply IH; [by apply slot_step_inv|done|].
  destruct Hf as [Hf|Hf]; [by apply (fresh_step max)|]. right. pose proof (holders_grow s ev Ht). lia.
Qed.

(** ** The properties *)

(** Slots under contention.  However many tasks take and give back slots, and
    however the two halves of their calls interleave, the byte of branches in
    flight is the number of tasks that hold one, it never exceeds the degree nor
    64, and giving one back never runs below zero.  When nobody gives a slot back
    and somebody's call is over, a slot is held: one of the callers that race for
    the counter wins. *)
Theorem slots_bounded_under_contention max n evs :
  0 < max →
  let s := foldl slot_step (slot_init max n) evs in
  ft_inflight (sr_tracker s) = Z.of_nat (holders s) ∧ Z.of_nat (holders s) ≤ Z.min max 64 ∧
  (Forall takes evs → (∃ i, sr_callers s !! i = Some CallerRefused) → (0 < holders s)%nat).
Proof.
  intros Hmax s. assert (slot_inv max s) as Hs by (apply slot_run_inv, slot_init_inv; lia).
  split_and!; [apply Hs|apply Hs|]. intros Ht [i Hi].
  destruct (fresh_run max evs (slot_init max n)) as [[_ Hf]|Hf]; try done.
  - apply slot_init_inv. lia.
  - left. split; [done|]. intros j c [-> _]%lookup_replicate. by left.
  - by destruct (Hf _ _ Hi).
Qed.

(** A caller that loses the race is refused although slots are free: the
    exchange is not tried again. *)
Theorem lost_race_is_refused :
  let s := foldl slot_step (slot_init 64 2) [SlLoad 0; SlLoad 1; SlExchange 0; SlExchange 1] in
  sr_callers s = [CallerHolding; CallerRefused] ∧ tracker_exhausted (sr_tracker s) = false.
Proof. by vm_compute. Qed.

(** ** The callback registry *)

Inductive registry_op :=
| RegRegister (callback : nat)
| RegEmit (branch_id : Z) (result : BranchResult).

(** The registry, the identifiers given out with their callbacks, and the calls
    made with the identifiers they were made for. *)
Record registry_run := {
  rr_registry : CallbackRegistry;
  rr_given : list (Z * nat);
  rr_calls : list (Z * (nat * BranchResult))
}.

Definition registry_step (s : registry_run) (op : registry_op) : registry_run :=
  match op with
  | RegRegister callback =>
      let r := on_sink_complete callback (rr_registry s) in
      {| rr_registry := r.2; rr_given := rr_given s ++ [(r.1, callback)]; rr_calls := rr_calls s |}
  | RegEmit id result =>
      let r := emit id result (rr_registry s) in
      {| rr_registry := r.2; rr_given := rr_given s;
         rr_calls := rr_calls s ++ option_list ((λ c, (id, c)) <$> r.1) |}
  end.

Definition registry_start : registry_run :=
  {| rr_registry := registry_new; rr_given := []; rr_calls := [] |}.

Record registry_inv (s : registry_run) : Prop := {
  ri_next : cb_next_branch_id (rr_registry s) = Z.of_nat (length (rr_given s)) + 1;
  ri_ids : (rr_given s).*1 = seqZ 1 (Z.of_nat (length (rr_given s)));
  ri_waiting : ∀ id c, cb_callbacks (rr_registry s) !! id = Some c →
    (id, c) ∈ rr_given s ∧ id ∉ (rr_calls s).*1;
  ri_calls : Forall (λ x, (x.1, x.2.1) ∈ rr_given s) (rr_calls s);
  ri_once : NoDup (rr_calls s).*1
}.

Lemma registry_step_inv s op :
  Z.of_nat (length (rr_given s)) + 2 < 2 ^ 64 → registry_inv s → registry_inv (registry_step s op).
Proof.
  intros Hlen [Hn Hi Hw Hc Ho]. destruct op as [cb|id res].
  - assert (cb_next_branch_id (rr_registry s) ∉ (rr_given s).*1) as Hnew.
    { rewrite Hi, elem_of_seqZ. lia. }
    split; simpl; rewrite ?length_app; simpl; [| | | |done].
    + rewrite Hn. unfold u64_wrap. rewrite Z.mod_small; lia.
    + rewrite fmap_app, Hi, Nat2Z.inj_add, seqZ_app by lia. simpl. rewrite Hn.
      by rewrite (Z.add_comm 1).
    + intros id c. destruct (decide (id = cb_next_branch_id (rr_registry s))) as [->|].
      * rewrite lookup_insert_eq. intros [= <-]. split; [set_solver|]. intros Hin. apply Hnew.
        apply list_elem_of_fmap in Hin as ([id [c r]] & -> & Hin). rewrite Forall_forall in Hc.
        apply Hc in Hin. simpl in *. apply list_elem_of_fmap. by exists (id, c).
      * rewrite lookup_insert_ne by done. intros H%Hw. set_solver.
    + eapply Forall_impl; [exact Hc|]. set_solver.
  - split; simpl; [done|done| | |].
    + intros i c H. apply lookup_delete_Some in H as [Hne H]. apply Hw in H as [Hg Hx]. split; [done|].
      rewrite fmap_app, elem_of_app. intros [?|Hin]; [done|].
      destruct (cb_callbacks (rr_registry s) !! id); simpl in Hin; set_solver.
    + apply Forall_app. split; [done|]. destruct (cb_callbacks (rr_registry s) !! id) as [c|] eqn:E; [|done].
      simpl. repeat constructor. simpl. by apply Hw.
    + rewrite fmap_app. destruct (cb_callbacks (rr_registry s) !! id) as [c|] eqn:E; simpl; [|by rewrite app_nil_r].
      apply NoDup_app. split_and!; [done| |apply NoDup_singleton].
      intros x Hx ->%list_elem_of_singleton. by apply Hw in E as [_ ?].
Qed.

(** A callback is called at most once, with its own identifier.  The identifiers
    given out are 1, 2, ... in order (up to 2^64 of them); whatever identifiers
    results are emitted for, known or not, repeated or not, each identifier is
    called for at most once, and the callback called is the one registered under
    it. *)
Theorem callbacks_called_at_most_once ops :
  Z.of_nat (length ops) + 2 < 2 ^ 64 →
  let s := foldl registry_step registry_start ops in
  (rr_given s).*1 = seqZ 1 (Z.of_nat (length (rr_given s))) ∧
  NoDup (rr_calls s).*1 ∧ Forall (λ x, (x.1, x.2.1) ∈ rr_given s) (rr_calls s).
Proof.
  intros Hlen s. cut (registry_inv s); [by intros [_ ? _ ? ?]|]. subst s.
  assert (registry_inv registry_start) as H0.
  { split; simpl; [done|done|intros ? ? H; by rewrite lookup_empty in H|constructor|constructor]. }
  assert (Z.of_nat (length (rr_given registry_start) + length ops) + 2 < 2 ^ 64) as Hb by done.
  clear Hlen. revert H0 Hb. generalize registry_start.
  induction ops as [|op ops IH]; intros s Hs Hb; [done|]. cbn [foldl length] in *. apply IH.
  - apply registry_step_inv; [lia|done].
  - destruct op; simpl; rewrite ?length_app; simpl; lia.
Qed.

(** ** Witnesses *)

Lemma slots_bounded_under_contention_witness :
  0 < 1 ∧
  (0 < holders (foldl slot_step (slot_init 1 2) [SlLoad 0; SlExchange 0; SlLoad 1]))%nat.
Proof.
  split; [lia|].
  apply (slots_bounded_under_contention 1 2 [SlLoad 0; SlExchange 0; SlLoad 1]); [lia| |].
  - repeat constructor.
  - exists 1%nat. by vm_compute.
Defined.

Lemma callbacks_called_at_most_once_witness :
  NoDup (rr_calls (foldl registry_step registry_start
    [RegRegister 7; RegEmit 1 BranchOk; RegEmit 1 BranchOk])).*1.
Proof.
  apply (callbacks_called_at_most_once [RegRegister 7; RegEmit 1 BranchOk; RegEmit 1 BranchOk]).
  simpl. lia.
Defined.
