(* ===== verification/Pool.v ===== *)
(** * Worker pool and runtime (src/worker_pool/pool.rs, concurrency.rs, src/runtime/builder.rs)

    Which worker gets which topic, the per-handler concurrency permits, and the
    shutdown of the whole runtime as a transition system: the main task, the
    workers, the dispatcher, the committer, the signal handler and [stop]. *)

From stdpp Require Import base gmap sets list strings pretty relations.
From S2P Require Import Prelude F64 Failure Message Shutdown Runner Dlq OffsetTracker Retry Queue Execution.

(** ** Creation of the pool *)

Inductive WorkerKind := KindSingle | KindBatch (h : PythonHandler).

Record PoolWorker := { pw_id : nat; pw_topic : string; pw_kind : WorkerKind }.

Definition all_batch {HO : HashOrder string} (handlers : gmap string PythonHandler) : bool :=
  forallb (λ x, bool_decide (h_mode x.2 = BatchSync)) (hash_iter handlers).

(** One worker of the loop of [WorkerPool::new]. *)
Definition spawn_worker (batch : bool) (handlers : gmap string PythonHandler)
    (acc : outcome (list PoolWorker)) (x : nat * string) : outcome (list PoolWorker) :=
  let? ws := acc in
  if batch then
    match handlers !! x.2 with
    | Some h => Ret (ws ++ [{| pw_id := x.1; pw_topic := x.2; pw_kind := KindBatch h |}])
    | None => Panic
    end
  else Ret (ws ++ [{| pw_id := x.1; pw_topic := x.2; pw_kind := KindSingle |}]).

(** [WorkerPool::new]: the receivers past the first [n_workers] are dropped,
    which closes their channels. *)
Definition worker_pool_new {HO : HashOrder string} (n_workers : nat) (receivers : list string)
    (handlers : gmap string PythonHandler) (qm : QueueManager)
    : outcome (list PoolWorker * QueueManager) :=
  let? ws := foldl (spawn_worker (all_batch handlers) handlers) (Ret [])
               (take n_workers (imap pair receivers)) in
  Ret (ws, foldl (λ qm t, queue_close t qm) qm (drop n_workers receivers)).

(** ** [HandlerConcurrency] (concurrency.rs)

    A semaphore is the number of its free permits. *)

Record HandlerConcurrency := { hc_semaphores : gmap string Z; hc_default_limit : Z }.

Definition handler_concurrency_new (limit : Z) : HandlerConcurrency :=
  {| hc_semaphores := ∅; hc_default_limit := limit |}.

Definition set_limit (id : string) (limit : Z) (hc : HandlerConcurrency) : HandlerConcurrency :=
  {| hc_semaphores := <[id := limit]> (hc_semaphores hc); hc_default_limit := hc_default_limit hc |}.

(** [acquire]: [None] while the caller has to wait; the permit goes back when
    it is dropped ([hc_release]). *)
Definition hc_acquire (id : string) (hc : HandlerConcurrency) : option HandlerConcurrency :=
  let free := default (hc_default_limit hc) (hc_semaphores hc !! id) in
  if 0 <? free then
    Some {| hc_semaphores := <[id := free - 1]> (hc_semaphores hc);
            hc_default_limit := hc_default_limit hc |}
  else None.

Definition hc_release (id : string) (hc : HandlerConcurrency) : HandlerConcurrency :=
  {| hc_semaphores := alter (λ n, n + 1) id (hc_semaphores hc); hc_default_limit := hc_default_limit hc |}.

Definition hc_available (id : string) (hc : HandlerConcurrency) : option Z := hc_semaphores hc !! id.

(** ** The shutdown protocol *)

(** Where the main task is: in the loop of [WorkerPool::run], in [shutdown]
    before and after the workers are aborted, or awaiting the two other tasks
    in [Runtime::run]. *)
Inductive main_status :=
| MainCheck | MainJoin | MainShutdown | MainDrained | MainDispatcher | MainCommitter | MainDone.

(** The task of [run_with_sigterm]. *)
Inductive signal_status := SigWaiting | SigReceived | SigDrained | SigCancelled | SigDone.

Record rt_state := {
  rt_coord : ShutdownCoordinator;
  rt_token : bool;                (* the worker shutdown token is cancelled *)
  rt_workers : nat;               (* workers still running *)
  rt_exited : nat;                (* exited and not yet joined *)
  rt_runner_stopped : bool;
  rt_dispatcher_done : bool;
  rt_committer_done : bool;
  rt_main : main_status;
  rt_signal : signal_status
}.

Definition rt_init (drain_timeout_secs : Z) (workers : nat) : rt_state :=
  {| rt_coord := coordinator_new drain_timeout_secs; rt_token := false; rt_workers := workers; rt_exited := 0;
     rt_runner_stopped := false; rt_dispatcher_done := false; rt_committer_done := false;
     rt_main := MainCheck; rt_signal := SigWaiting |}.

Definition rt_with_main (m : main_status) (s : rt_state) : rt_state :=
  {| rt_coord := rt_coord s; rt_token := rt_token s; rt_workers := rt_workers s;
     rt_exited := rt_exited s; rt_runner_stopped := rt_runner_stopped s;
     rt_dispatcher_done := rt_dispatcher_done s; rt_committer_done := rt_committer_done s;
     rt_main := m; rt_signal := rt_signal s |}.

Definition rt_with_signal (c : ShutdownCoordinator) (token stopped : bool) (g : signal_status)
    (s : rt_state) : rt_state :=
  {| rt_coord := c; rt_token := token; rt_workers := rt_workers s;
     rt_exited := rt_exited s; rt_runner_stopped := stopped;
     rt_dispatcher_done := rt_dispatcher_done s; rt_committer_done := rt_committer_done s;
     rt_main := rt_main s; rt_signal := g |}.

Definition rt_with_workers (workers exited : nat) (m : main_status) (s : rt_state) : rt_state :=
  {| rt_coord := rt_coord s; rt_token := rt_token s; rt_workers := workers;
     rt_exited := exited; rt_runner_stopped := rt_runner_stopped s;
     rt_dispatcher_done := rt_dispatcher_done s; rt_committer_done := rt_committer_done s;
     rt_main := m; rt_signal := rt_signal s |}.

Definition rt_with_tasks (dispatcher committer : bool) (s : rt_state) : rt_state :=
  {| rt_coord := rt_coord s; rt_token := rt_token s; rt_workers := rt_workers s;
     rt_exited := rt_exited s; rt_runner_stopped := rt_runner_stopped s;
     rt_dispatcher_done := dispatcher; rt_committer_done := committer;
     rt_main := rt_main s; rt_signal := rt_signal s |}.

(** The end of [WorkerPool::shutdown]: only a draining coordinator is taken to
    its last phase; then [Runtime::run] stops the consumer runner. *)
Definition finish_shutdown (s : rt_state) : outcome rt_state :=
  let? c := if decide (phase (rt_coord s) = Draining)
            then coord_run [CBeginFinalizing; CSetDone] (rt_coord s) else Ret (rt_coord s) in
  Ret {| rt_coord := c; rt_token := rt_token s; rt_workers := rt_workers s;
         rt_exited := rt_exited s; rt_runner_stopped := true;
         rt_dispatcher_done := rt_dispatcher_done s; rt_committer_done := rt_committer_done s;
         rt_main := MainDispatcher; rt_signal := rt_signal s |}.

(** One step of one task; [api] allows the calls of [Consumer.stop]. *)
Inductive rt_step (api : bool) : rt_state → rt_state → Prop :=
(* the signal handler *)
| rs_signal s : rt_signal s = SigWaiting →
    rt_step api s (rt_with_signal (rt_coord s) (rt_token s) (rt_runner_stopped s) SigReceived s)
| rs_drain s c tokens : rt_signal s = SigReceived → begin_draining (rt_coord s) = Ret (c, tokens) →
    rt_step api s (rt_with_signal c (rt_token s) (rt_runner_stopped s) SigDrained s)
| rs_cancel s : rt_signal s = SigDrained →
    rt_step api s (rt_with_signal (rt_coord s) true (rt_runner_stopped s) SigCancelled s)
| rs_stop_runner s : rt_signal s = SigCancelled →
    rt_step api s (rt_with_signal (rt_coord s) (rt_token s) true SigDone s)
(* Consumer.stop *)
| rs_api_stop s : api = true → rt_token s = false →
    rt_step api s (rt_with_signal (rt_coord s) true (rt_runner_stopped s) (rt_signal s) s)
(* a worker sees the token *)
| rs_worker_exit s n : rt_token s = true → rt_workers s = S n →
    rt_step api s (rt_with_workers n (S (rt_exited s)) (rt_main s) s)
(* the main task *)
| rs_check_run s : rt_main s = MainCheck → rt_token s = false → rt_step api s (rt_with_main MainJoin s)
| rs_check_stop s : rt_main s = MainCheck → rt_token s = true →
    rt_step api s (rt_with_main MainShutdown s)
| rs_join s n : rt_main s = MainJoin → rt_exited s = S n →
    rt_step api s (rt_with_workers (rt_workers s) n MainCheck s)
| rs_join_empty s : rt_main s = MainJoin → rt_exited s = O → rt_workers s = O →
    rt_step api s (rt_with_main MainCheck s)
| rs_abort_workers s : rt_main s = MainShutdown →
    rt_step api s (rt_with_workers 0 0 MainDrained s)
| rs_finish s s' : rt_main s = MainDrained → finish_shutdown s = Ret s' → rt_step api s s'
| rs_await_dispatcher s : rt_main s = MainDispatcher → rt_dispatcher_done s = true →
    rt_step api s (rt_with_main MainCommitter s)
| rs_await_committer s : rt_main s = MainCommitter → rt_committer_done s = true →
    rt_step api s (rt_with_main MainDone s)
(* the dispatcher sees its stream end, the committer sees the last phase *)
| rs_dispatcher s : rt_runner_stopped s = true → rt_dispatcher_done s = false →
    rt_step api s (rt_with_tasks true (rt_committer_done s) s)
| rs_committer s : is_done (rt_coord s) = true → rt_committer_done s = false →
    rt_step api s (rt_with_tasks (rt_dispatcher_done s) true s).

(** The Windows variant of [run_with_sigterm]: its task ends once the draining
    phase has begun, without cancelling the token or stopping the runner. *)
Definition rt_step_windows (api : bool) (s s' : rt_state) : Prop :=
  rt_step api s s' ∧ rt_signal s' ≠ SigCancelled ∧ rt_signal s' ≠ SigDone.

(** ** Lemmas *)

Definition before_finish (m : main_status) : Prop :=
  match m with MainCheck | MainJoin | MainShutdown | MainDrained => True | _ => False end.

Definition signal_rank (g : signal_status) : nat :=
  match g with SigWaiting => 4 | SigReceived => 3 | SigDrained => 2 | SigCancelled => 1 | SigDone => 0 end.

Definition main_rank (m : main_status) : nat :=
  match m with
  | MainJoin => 6 | MainCheck => 5 | MainShutdown => 4 | MainDrained => 3 | MainDispatcher => 2
  | MainCommitter => 1 | MainDone => 0
  end.

Definition rt_rank (s : rt_state) : nat :=
  signal_rank (rt_signal s) + 3 * rt_workers s + 2 * rt_exited s + main_rank (rt_main s) +
  (if rt_dispatcher_done s then 0 else 1) + (if rt_committer_done s then 0 else 1).

(** What holds in every run without [stop]. *)
Record sig_inv (s : rt_state) : Prop := {
  si_waiting : (3 ≤ signal_rank (rt_signal s))%nat →
    phase (rt_coord s) = Running ∧ before_finish (rt_main s);
  si_phase : (signal_rank (rt_signal s) < 3)%nat →
    (phase (rt_coord s) = Draining ∧ before_finish (rt_main s)) ∨
    (phase (rt_coord s) = Done ∧ ¬ before_finish (rt_main s));
  si_token : rt_token s = true → (signal_rank (rt_signal s) < 2)%nat;
  si_main : rt_main s ≠ MainCheck → rt_main s ≠ MainJoin → rt_token s = true;
  si_runner : ¬ before_finish (rt_main s) → rt_runner_stopped s = true;
  si_dispatcher : rt_main s = MainCommitter ∨ rt_main s = MainDone → rt_dispatcher_done s = true
}.

Lemma rt_init_inv secs n : sig_inv (rt_init secs n).
Proof. split; simpl; try done; try lia; try tauto; by intros [?|?]. Qed.

Lemma begin_draining_phase c c' tokens :
  begin_draining c = Ret (c', tokens) → phase c = Running ∧ phase c' = Draining.
Proof. unfold begin_draining. case_decide; intros; by simplify_eq. Qed.

Lemma finish_shutdown_spec s s' :
  finish_shutdown s = Ret s' →
  rt_main s' = MainDispatcher ∧ rt_runner_stopped s' = true ∧ rt_token s' = rt_token s ∧
  rt_workers s' = rt_workers s ∧ rt_exited s' = rt_exited s ∧ rt_signal s' = rt_signal s ∧
  rt_dispatcher_done s' = rt_dispatcher_done s ∧ rt_committer_done s' = rt_committer_done s ∧
  phase (rt_coord s') = (if decide (phase (rt_coord s) = Draining) then Done else phase (rt_coord s)).
Proof.
  unfold finish_shutdown. destruct (decide (phase (rt_coord s) = Draining)) as [E|E].
  - simpl. unfold begin_finalizing. rewrite decide_True by done. simpl. intros [= <-]. done.
  - intros [= <-]. done.
Qed.

(** [shutdown] never panics at its end. *)
Lemma finish_shutdown_ret s : ∃ s', finish_shutdown s = Ret s'.
Proof.
  unfold finish_shutdown. destruct (decide (phase (rt_coord s) = Draining)) as [E|E]; [|by eexists].
  simpl. unfold begin_finalizing. rewrite decide_True by done. by eexists.
Qed.

(** One field of the invariant after a step. *)
Ltac inv_field W P K :=
  intros;
  first [ assumption | discriminate | tauto | lia
        | apply W; lia | apply P; lia
        | match goal with T : _ = true |- _ => specialize (K T); lia end
        | match goal with D : _ ∨ _ |- _ => destruct D; discriminate end
        | congruence ].

Lemma rt_step_inv s s' : rt_step false s s' → sig_inv s → sig_inv s'.
Proof.
  intros Hst [W P K M R D].
  destruct Hst as [s G|s c t G B|s G|s G|s A|s n T Hw|s G T|s G T|s n G E|s G E Hw|s G|s s' G F|s G Hd|s G Hc|s Hr Hd|s Hd Hc];
    simpl in *; try rewrite G in *; simpl in *; try done.
  all: try solve [split; simpl; inv_field W P K].
  - destruct (begin_draining_phase _ _ _ B) as [Hr Hc]. destruct W as [_ Hm]; [lia|].
    split; simpl; inv_field W P K.
  - assert (T : rt_token s = true) by (by apply M). specialize (K T).
    split; simpl; intros; try done; try lia; try tauto; by destruct H.
  - assert (T : rt_token s = true) by (by apply M).
    pose proof (finish_shutdown_spec _ _ F) as (E1&E2&E3&E4&E5&E6&E7&E8&E9). specialize (K T).
    destruct P as [[P _]|[_ P]]; [lia| |tauto]. rewrite decide_True in E9 by done.
    split; rewrite ?E1, ?E2, ?E3, ?E6; simpl; intros; try done; try lia; [right; split; tauto|].
    by destruct H.
  - split; simpl; intros; try tauto; by apply M.
  - split; simpl; intros; try tauto; by apply M.
Qed.

(** Every step after the token was cancelled makes progress. *)
Lemma rt_step_rank api s s' :
  rt_step api s s' → rt_token s = true → (rt_rank s' < rt_rank s)%nat ∧ rt_token s' = true.
Proof.
  intros Hst T.
  destruct Hst as [s G|s c t G B|s G|s G|s A T0|s n T0 Hw|s G T0|s G T0|s n G E|s G E Hw|s G|s s' G F|s G Hd|s G Hc|s Hr Hd|s Hd Hc];
    try (by rewrite T in T0).
  all: try (unfold rt_rank; simpl; rewrite ?G, ?E, ?Hw, ?Hd, ?Hc; simpl; split; [lia|done]).
  destruct (finish_shutdown_spec _ _ F) as (E1&E2&E3&E4&E5&E6&E7&E8&E9).
  unfold rt_rank. rewrite E1, E3, E4, E5, E6, E7, E8, G. simpl. split; [lia|done].
Qed.

Lemma rt_terminates api s : rt_token s = true → sn (rt_step api) s.
Proof.
  remember (rt_rank s) as r eqn:Hr. revert s Hr.
  induction (lt_wf r) as [r _ IH]. intros s -> T. constructor. intros s' Hst.
  destruct (rt_step_rank _ _ _ Hst T). by eapply IH.
Qed.

(** A state that can do nothing more is one where [Runtime::run] returned. *)
Lemma rt_not_stuck s : sig_inv s → rt_token s = true → nf (rt_step false) s → rt_main s = MainDone.
Proof.
  intros [W P K M R D] T Hnf. specialize (K T).
  destruct (rt_main s) eqn:G; [| | | | | |done]; exfalso; apply Hnf; simpl in *.
  - eexists. by apply rs_check_stop.
  - destruct (rt_exited s) eqn:E; [|eexists; by eapply rs_join].
    destruct (rt_workers s) eqn:Hw; [eexists; by apply rs_join_empty|eexists; by eapply rs_worker_exit].
  - eexists. by apply rs_abort_workers.
  - destruct (finish_shutdown_ret s) as [s' F]. eexists. by eapply rs_finish.
  - destruct (rt_dispatcher_done s) eqn:Hd; eexists; [by apply rs_await_dispatcher|].
    apply rs_dispatcher; tauto.
  - destruct (rt_committer_done s) eqn:Hc; eexists; [by apply rs_await_committer|].
    apply rs_committer; [|done]. unfold is_done. case_bool_decide; [done|]. destruct P as [P|P]; [lia|tauto|tauto].
Qed.

Lemma sig_inv_rtc s s' : rtc (rt_step false) s s' → sig_inv s → sig_inv s'.
Proof. induction 1; [done|]. eauto using rt_step_inv. Qed.

(** Once the last phase is missed it is never reached. *)
Definition missed_done (s : rt_state) : Prop :=
  phase (rt_coord s) ≠ Done ∧ rt_committer_done s = false ∧
  (rt_main s = MainDispatcher ∨ rt_main s = MainCommitter).

Lemma missed_done_step api s s' : rt_step api s s' → missed_done s → missed_done s'.
Proof.
  intros Hst (P & C & M).
  destruct Hst as [s G|s c t G B|s G|s G|s A T0|s n T0 Hw|s G T0|s G T0|s n G E|s G E Hw|s G|s s' G F|s G Hd|s G Hc|s Hr Hd|s Hd Hc];
    try (by destruct M; congruence); try done.
  - destruct (begin_draining_phase _ _ _ B) as [_ Hc]. split; [simpl; by rewrite Hc|done].
  - split; [done|]. split; [done|by right].
  - unfold is_done in Hd. by case_bool_decide.
Qed.

Lemma missed_done_rtc api s s' : rtc (rt_step api) s s' → missed_done s → missed_done s'.
Proof. induction 1; [done|]. eauto using missed_done_step. Qed.

(** The committer only ends after the coordinator is done. *)
Lemma committer_done_phase api s s' :
  rt_step api s s' → (rt_committer_done s = true → phase (rt_coord s) = Done) →
  rt_committer_done s' = true → phase (rt_coord s') = Done.
Proof.
  intros Hst I.
  destruct Hst as [s G|s c t G B|s G|s G|s A T0|s n T0 Hw|s G T0|s G T0|s n G E|s G E Hw|s G|s s' G F|s G Hd|s G Hc|s Hr Hd|s Hd Hc];
    try done.
  - destruct (begin_draining_phase _ _ _ B) as [Hr _]. intros T. specialize (I T). congruence.
  - destruct (finish_shutdown_spec _ _ F) as (E1&E2&E3&E4&E5&E6&E7&E8&E9).
    rewrite E8, E9. intros T. rewrite (I T). by rewrite decide_False.
  - unfold is_done in Hd. by case_bool_decide.
Qed.

Lemma committer_done_reachable api secs n s :
  rtc (rt_step api) (rt_init secs n) s → rt_committer_done s = true → phase (rt_coord s) = Done.
Proof.
  intros H. cut (∀ s0, rtc (rt_step api) s0 s →
    (rt_committer_done s0 = true → phase (rt_coord s0) = Done) →
    rt_committer_done s = true → phase (rt_coord s) = Done).
  { intros K. by apply (K _ H). }
  clear H. induction 1; [done|]. intros I. apply IHrtc. by eapply committer_done_phase.
Qed.

Definition kind_for (batch : bool) (handlers : gmap string PythonHandler) (t : string)
    : option WorkerKind :=
  if batch then KindBatch <$> handlers !! t else Some KindSingle.

Lemma spawn_worker_panic batch handlers l : foldl (spawn_worker batch handlers) Panic l = Panic.
Proof. by induction l. Qed.

(** The loop gives each pair exactly one worker. *)
Lemma spawn_workers_spec batch handlers l acc ws :
  foldl (spawn_worker batch handlers) (Ret acc) l = Ret ws →
  ∃ new, ws = acc ++ new ∧
    Forall2 (λ x w, pw_id w = x.1 ∧ pw_topic w = x.2 ∧
               kind_for batch handlers x.2 = Some (pw_kind w)) l new.
Proof.
  revert acc. induction l as [|x l IH]; simpl; intros acc; [intros [= <-]; exists []; by rewrite app_nil_r|].
  intros H.
  assert (∃ k, kind_for batch handlers x.2 = Some k ∧
     foldl (spawn_worker batch handlers)
       (Ret (acc ++ [{| pw_id := x.1; pw_topic := x.2; pw_kind := k |}])) l = Ret ws) as (k & Hk & H').
  { unfold kind_for. revert H. unfold spawn_worker. destruct batch; [|by eauto].
    simpl. destruct (handlers !! x.2); simpl; [by eauto|]. fold (spawn_worker true handlers).
    by rewrite spawn_worker_panic. }
  destruct (IH _ H') as (new & -> & Hf). eexists (_ :: new). rewrite <- app_assoc. split; [done|].
  by constructor.
Qed.

Lemma queue_close_all ts qm t :
  foldl (λ qm t, queue_close t qm) qm ts !! t =
  (if decide (t ∈ ts) then (λ e, {| sender := ch_close (sender e); metadata := metadata e |}) <$> qm !! t
   else qm !! t).
Proof.
  revert qm. induction ts as [|t' ts IH]; intros qm; simpl; [done|]. rewrite IH.
  unfold queue_close. destruct (decide (t = t')) as [->|N].
  - rewrite lookup_alter_eq. rewrite (decide_True (P := t' ∈ t' :: ts)) by set_solver.
    destruct (decide _); [|done]. by destruct (qm !! t').
  - rewrite lookup_alter_ne by done.
    destruct (decide (t ∈ ts)); [rewrite decide_True by set_solver|rewrite decide_False by set_solver]; done.
Qed.

Lemma send_closed m e qm :
  qm !! topic m = Some e → ch_closed (sender e) = true → semaphore (metadata e) = None →
  (send m qm).1 = Err (QueueClosed (topic m)).
Proof.
  intros He Hc Hs. unfold send. rewrite He. unfold try_acquire_semaphore. rewrite Hs.
  cbn [negb]. unfold try_send. by rewrite Hc.
Qed.

(** The whole of [WorkerPool::new]. *)
Lemma worker_pool_new_spec {HO : HashOrder string} n receivers handlers qm ws qm' :
  worker_pool_new n receivers handlers qm = Ret (ws, qm') →
  map pw_topic ws = take n receivers ∧
  map pw_id ws = seq 0 (Nat.min n (length receivers)) ∧
  Forall (λ w, kind_for (all_batch handlers) handlers (pw_topic w) = Some (pw_kind w)) ws ∧
  (∀ t, qm' !! t =
     if decide (t ∈ drop n receivers)
     then (λ e, {| sender := ch_close (sender e); metadata := metadata e |}) <$> qm !! t
     else qm !! t).
Proof.
  intros H. unfold worker_pool_new in H.
  destruct (foldl (spawn_worker _ _) _ _) as [ws0|] eqn:F; simpl in H; [|done].
  injection H as -> <-. destruct (spawn_workers_spec _ _ _ _ _ F) as (new & -> & Hf). simpl.
  split_and!.
  - transitivity (take n (imap pair receivers)).*2; [|by rewrite fmap_take, enumerate_snd]. clear F.
    induction Hf as [|x w l l' (H1&H2&H3) Hf IH]; simpl; [done|]. by rewrite IH, H2.
  - transitivity (take n (imap pair receivers)).*1; [|by rewrite fmap_take, enumerate_fst, take_seq].
    clear F. induction Hf as [|x w l l' (H1&H2&H3) Hf IH]; simpl; [done|]. by rewrite IH, H1.
  - clear F. induction Hf as [|x w l l' (H1&H2&H3) Hf IH]; constructor; [by rewrite H2|done].
  - intros t. apply queue_close_all.
Qed.

(** It does not panic when every topic has a handler. *)
Lemma worker_pool_new_total {HO : HashOrder string} n receivers handlers qm :
  (∀ t, t ∈ receivers → is_Some (handlers !! t)) →
  ∃ r, worker_pool_new n receivers handlers qm = Ret r.
Proof.
  intros Hh. unfold worker_pool_new.
  assert (Hx : ∀ x, x ∈ take n (imap pair receivers) → is_Some (handlers !! x.2)).
  { intros x Hx. apply Hh. rewrite <- (enumerate_snd receivers).
    apply list_elem_of_fmap. exists x. split; [done|]. by apply (subseteq_take n) in Hx. }
  assert (∀ l acc, (∀ x, x ∈ l → is_Some (handlers !! x.2)) →
    ∃ ws, foldl (spawn_worker (all_batch handlers) handlers) (Ret acc) l = Ret ws) as T.
  { induction l as [|x l IH]; intros acc Hl; [by eexists|]. cbn [foldl]. unfold spawn_worker at 2. simpl.
    destruct (Hl x) as [h E]; [by left|]. rewrite E.
    destruct (all_batch handlers); apply IH; intros y Hy; apply Hl; by right. }
  destruct (T _ [] Hx) as [ws E]. rewrite E. by eexists.
Qed.

(** ** Properties *)

(** after a signal [Runtime::run] returns.  Once the signal handler has
    cancelled the worker token, no interleaving of the tasks goes on for ever,
    and where nothing can move any more the main task has returned, the
    coordinator is in its last phase (so the committer did its final round) and
    no worker is left. *)
Theorem sigterm_shutdown_completes secs n s :
  rtc (rt_step false) (rt_init secs n) s → rt_token s = true →
  sn (rt_step false) s ∧
  ∀ s', rtc (rt_step false) s s' → nf (rt_step false) s' →
    rt_main s' = MainDone ∧ phase (rt_coord s') = Done ∧ rt_workers s' = O.
Proof.
  intros H0 T. split; [by apply rt_terminates|]. intros s' H1 Hnf.
  assert (I : sig_inv s') by (apply (sig_inv_rtc (rt_init secs n)); [by etrans|apply rt_init_inv]).
  assert (T' : rt_token s' = true).
  { clear H0 I Hnf. induction H1; [done|]. apply IHrtc. by eapply rt_step_rank. }
  assert (M : rt_main s' = MainDone) by (by apply rt_not_stuck). split; [done|]. split.
  - destruct (si_phase _ I) as [[_ B]|[P _]]; [pose proof (si_token _ I T'); lia| |done].
    by rewrite M in B.
  - destruct (rt_workers s') eqn:W; [done|]. exfalso. apply Hnf. eexists. by eapply rs_worker_exit.
Qed.

(** What holds once [Runtime::run] is past the workers, the dispatcher, the
    committer. *)
Definition ended_inv (s : rt_state) : Prop :=
  (rt_main s ∈ [MainDrained; MainDispatcher; MainCommitter; MainDone] → rt_workers s = O) ∧
  (rt_main s ∈ [MainCommitter; MainDone] → rt_dispatcher_done s = true) ∧
  (rt_main s = MainDone → rt_committer_done s = true) ∧
  (rt_committer_done s = true → phase (rt_coord s) = Done).

Lemma ended_inv_step api s s' : rt_step api s s' → ended_inv s → ended_inv s'.
Proof.
  intros Hst (I1 & I2 & I3 & I4). pose proof (committer_done_phase _ _ _ Hst I4) as I4'.
  destruct Hst as [s G|s c t G B|s G|s G|s A T0|s n T0 Hw|s G T0|s G T0|s n G E|s G E Hw|s G|s s' G F|s G Hd|s G Hc|s Hr Hd|s Hd Hc];
    try (split_and!; [exact I1|exact I2|exact I3|exact I4']).
  - split_and!; [|exact I2|exact I3|exact I4']. intros M. specialize (I1 M). simpl in *. congruence.
  - split_and!; [..|exact I4']; simpl; set_solver.
  - split_and!; [..|exact I4']; simpl; set_solver.
  - split_and!; [..|exact I4']; simpl; set_solver.
  - split_and!; [..|exact I4']; simpl; set_solver.
  - split_and!; [..|exact I4']; simpl; set_solver.
  - destruct (finish_shutdown_spec _ _ F) as (E1&_&_&E4&_&_&_&E8&_).
    split_and!; [..|exact I4']; rewrite ?E1; [|set_solver|done]. intros _. rewrite E4. apply I1. rewrite G. set_solver.
  - split_and!; [..|exact I4']; simpl; [|done|done]. intros _. apply I1. rewrite G. set_solver.
  - split_and!; [..|exact I4']; simpl; [|intros _; apply I2; rewrite G; set_solver|done].
    intros _. apply I1. rewrite G. set_solver.
  - split_and!; [exact I1|done|exact I3|exact I4'].
  - split_and!; [exact I1|exact I2|done|exact I4'].
Qed.

Lemma ended_inv_reachable api secs n s : rtc (rt_step api) (rt_init secs n) s → ended_inv s.
Proof.
  intros Hr. assert (ended_inv (rt_init secs n)) as Hi by (split_and!; simpl; set_solver).
  induction Hr; [done|]. eauto using ended_inv_step.
Qed.

(** [Consumer.stop] cancels the worker token but does not start the
    draining phase.  If the workers are gone before a signal comes, the
    coordinator never reaches its last phase: the committer never does its
    final round and [Runtime::run], hence [Consumer.start], never returns. *)
Theorem stop_without_signal_hangs secs n s s' :
  rtc (rt_step true) (rt_init secs n) s → rt_main s = MainDispatcher → phase (rt_coord s) ≠ Done →
  rtc (rt_step true) s s' → rt_main s' ≠ MainDone ∧ rt_committer_done s' = false.
Proof.
  intros H0 M P H1.
  assert (missed_done s) as I.
  { split; [done|]. split; [|by left]. destruct (rt_committer_done s) eqn:C; [|done].
    by pose proof (committer_done_reachable _ _ _ _ H0 C). }
  destruct (missed_done_rtc _ _ _ H1 I) as (_ & C & [E|E]); by rewrite E.
Qed.

(** Before the signal task has begun to drain, the phases do not move, the
    committer does not end, and neither does the main task. *)
Definition unsignalled (s : rt_state) : Prop :=
  (3 ≤ signal_rank (rt_signal s))%nat → phase (rt_coord s) = Running ∧ rt_committer_done s = false ∧ rt_main s ≠ MainDone.

Lemma unsignalled_step api s s' : rt_step api s s' → unsignalled s → unsignalled s'.
Proof.
  unfold unsignalled. intros Hst Hi.
  destruct Hst as [s G'|s c t G' B|s G'|s G'|s A T0|s k T0 Hw|s G' T0|s G' T0|s k G' E|s G' E Hw|s G'|s s' G' F|s G' Hd|s G' Hc|s Hr Hd|s Hd Hc].
  all: try (destruct (finish_shutdown_spec _ _ F) as (E1 & _ & _ & _ & _ & E2 & _ & E3 & E4); rewrite E1, E2, E3, E4).
  all: simpl in *; intros HG; try lia; try (destruct Hi as (P & C & M); [rewrite ?G'; simpl; lia|]).
  all: try (split_and!; [by rewrite ?P|exact C|congruence]).
  unfold is_done in Hd. rewrite P in Hd. by case_bool_decide.
Qed.

Lemma unsignalled_reachable api secs n s : rtc (rt_step api) (rt_init secs n) s → unsignalled s.
Proof.
  intros Hr. assert (unsignalled (rt_init secs n)) as Hi by done.
  induction Hr; [done|]. eauto using unsignalled_step.
Qed.

(** On Windows Ctrl-C does not end the runtime: the workers never see a cancelled
    token, the main task never leaves the loop of [WorkerPool::run], and neither
    the dispatcher nor the committer ends. *)
Theorem windows_ctrl_c_hangs secs n s :
  rtc (rt_step_windows false) (rt_init secs n) s →
  rt_token s = false ∧ (rt_main s = MainCheck ∨ rt_main s = MainJoin) ∧ rt_workers s = n ∧
  rt_dispatcher_done s = false ∧ rt_committer_done s = false.
Proof.
  intros Hr.
  set (P := λ s, rt_token s = false ∧ (rt_main s = MainCheck ∨ rt_main s = MainJoin) ∧ rt_workers s = n ∧
    rt_dispatcher_done s = false ∧ rt_committer_done s = false ∧ rt_runner_stopped s = false ∧
    (phase (rt_coord s) = Running ∨ phase (rt_coord s) = Draining) ∧
    (rt_signal s = SigWaiting ∨ rt_signal s = SigReceived ∨ rt_signal s = SigDrained)).
  assert (P s) as (?&?&?&?&?&_); [|by split_and!].
  assert (P (rt_init secs n)) as Hi by (repeat split; auto).
  induction Hr as [|s1 s2 s3 (Hst & N1 & N2) _ IH]; [done|]. apply IH. clear IH s3.
  destruct Hi as (T & M & W & D & C & Rs & Ph & G).
  destruct Hst as [s G'|s c t G' B|s G'|s G'|s A T0|s k T0 Hw|s G' T0|s G' T0|s k G' E|s G' E Hw|s G'|s s' G' F|s G' Hd|s G' Hc|s Hr Hd|s Hd Hc];
    simpl in *; try congruence; try (destruct M; congruence); try by (repeat split; auto 10).
  - destruct (begin_draining_phase _ _ _ B) as [_ Hc]. repeat split; auto 10.
  - unfold is_done in Hd. case_bool_decide; [|done]. destruct Ph; congruence.
Qed.

(** [WorkerPool::new] gives each of the first [n_workers] topics one worker
    (a batch worker with the topic's handler when every handler is a batch
    handler) and leaves its queue alone.  The topics after them have no worker
    and a closed queue: every message for them is refused. *)
Theorem topics_beyond_workers_are_dropped {HO : HashOrder string} n receivers handlers qm ws qm' :
  NoDup receivers → worker_pool_new n receivers handlers qm = Ret (ws, qm') →
  map pw_topic ws = take n receivers ∧
  map pw_id ws = seq 0 (Nat.min n (length receivers)) ∧
  Forall (λ w, kind_for (all_batch handlers) handlers (pw_topic w) = Some (pw_kind w)) ws ∧
  (∀ t, t ∈ take n receivers → qm' !! t = qm !! t) ∧
  (∀ m e, topic m ∈ drop n receivers → qm !! topic m = Some e → semaphore (metadata e) = None →
     (send m qm').1 = Err (QueueClosed (topic m))).
Proof.
  intros ND H. destruct (worker_pool_new_spec _ _ _ _ _ _ H) as (H1 & H2 & H3 & H4).
  assert (ND' := ND). rewrite <- (take_drop n receivers) in ND'. apply NoDup_app in ND' as (_ & Hdis & _).
  split_and!; [done..| |].
  - intros t Ht. rewrite H4, decide_False; [done|]. by apply Hdis.
  - intros m e Hm He Hs. eapply send_closed; [rewrite H4, decide_True, He by done; done|done|done].
Qed.

(** ** Concrete runs *)

Definition after_cancel : rt_state :=
  {| rt_coord := match begin_draining (coordinator_new 30) with Ret r => r.1 | Panic => coordinator_new 30 end;
     rt_token := true;
     rt_workers := 1; rt_exited := 0; rt_runner_stopped := false; rt_dispatcher_done := false;
     rt_committer_done := false; rt_main := MainJoin; rt_signal := SigCancelled |}.

Lemma sigterm_shutdown_completes_witness :
  rtc (rt_step false) (rt_init 30 1) after_cancel ∧ sn (rt_step false) after_cancel.
Proof.
  assert (R : rtc (rt_step false) (rt_init 30 1) after_cancel).
  { eapply rtc_l; [by apply rs_check_run|]. eapply rtc_l; [by apply rs_signal|].
    eapply rtc_l; [by eapply rs_drain|]. eapply rtc_l; [by apply rs_cancel|].
    apply rtc_refl. }
  split; [exact R|]. exact (proj1 (sigterm_shutdown_completes 30 1 after_cancel R eq_refl)).
Defined.

Definition after_stop : rt_state :=
  {| rt_coord := coordinator_new 30; rt_token := true;
     rt_workers := 0; rt_exited := 0; rt_runner_stopped := true; rt_dispatcher_done := false;
     rt_committer_done := false; rt_main := MainDispatcher; rt_signal := SigWaiting |}.

Lemma stop_without_signal_hangs_witness :
  rtc (rt_step true) (rt_init 30 2) after_stop ∧
  rt_main (rt_with_tasks true false after_stop) ≠ MainDone.
Proof.
  assert (R : rtc (rt_step true) (rt_init 30 2) after_stop).
  { eapply rtc_l; [by apply rs_api_stop|]. eapply rtc_l; [by apply rs_check_stop|].
    eapply rtc_l; [by apply rs_abort_workers|]. eapply rtc_l; [by apply rs_finish|].
    apply rtc_refl. }
  split; [exact R|].
  refine (proj1 (stop_without_signal_hangs 30 2 after_stop _ R eq_refl _ _)); [discriminate|].
  apply rtc_once. exact (rs_dispatcher true after_stop eq_refl eq_refl).
Defined.

Definition two_queues : QueueManager :=
  match (let? q := register_handler_with_semaphore "a" 1000 None queue_manager_new in
         register_handler_with_semaphore "b" 1000 None q) with
  | Ret q => q
  | Panic => ∅
  end.

Definition single_handler : PythonHandler :=
  {| h_retry_policy := None; h_mode := SingleSync; h_batch_policy := None;
     handler_timeout := None; h_name := "h"; h_middleware := None |}.

Definition two_handlers : gmap string PythonHandler :=
  <["a" := single_handler]> (<["b" := single_handler]> ∅).

Definition msg_for_b : OwnedMessage :=
  {| topic := "b"; partition := 0; offset := 7; key := None; payload := None;
     timestamp := NotAvailable; headers := [] |}.

Definition queues_after_new : QueueManager :=
  match @worker_pool_new (hash_order_canonical _) 1 ["a"; "b"] two_handlers two_queues with
  | Ret r => r.2
  | Panic => ∅
  end.

(** One worker, two topics: the second topic is closed. *)
Lemma topics_beyond_workers_are_dropped_witness :
  (send msg_for_b queues_after_new).1 = Err (QueueClosed "b").
Proof.
  assert (ND : NoDup ["a"; "b"]) by (by apply (bool_decide_unpack _)).
  edestruct (@topics_beyond_workers_are_dropped (hash_order_canonical _) 1 ["a"; "b"] two_handlers
    two_queues [{| pw_id := 0; pw_topic := "a"; pw_kind := KindSingle |}] queues_after_new ND)
    as (_ & _ & _ & _ & H); [vm_compute; reflexivity|].
  eapply (H msg_for_b); [by left| vm_compute; reflexivity|reflexivity].
Defined.
