(* ===== verification/Context.v ===== *)
(** * Rebalance callbacks (src/consumer/context.rs, start of src/consumer/runner.rs)

    The offsets fetched before polling starts, and the callbacks that store and
    commit on revocation and seek on assignment.  The tracker is shared with the
    workers and only read here. *)

From stdpp Require Import base gmap sets list strings pretty.
From S2P Require Import Prelude Failure Message Shutdown Runner Dlq OffsetTracker OffsetProofs.

(** ** [CustomConsumerContext] *)

Record CustomConsumerContext := {
  pause_state : gmap string bool;
  startup_offsets : gmap TopicPartitionKey Z
}.

Definition consumer_context_new : CustomConsumerContext :=
  {| pause_state := ∅; startup_offsets := ∅ |}.

Definition seed_startup_offsets (offsets : gmap TopicPartitionKey Z) (c : CustomConsumerContext)
    : CustomConsumerContext :=
  {| pause_state := pause_state c; startup_offsets := offsets |}.

(** ** Offsets fetched by [ConsumerRunner::new]

    [fetch_metadata] gives the partition lists of the answer's topics and
    [committed_offsets] one element per partition asked for, [None] when it is
    not a plain offset; both answers may fail. *)
Section prefetch.
Context (fetch_metadata : string → option (list (list Z)))
        (committed_offsets : list TopicPartitionKey → option (list (TopicPartitionKey * option Z))).

Definition record_committed (m : gmap TopicPartitionKey Z) (e : TopicPartitionKey * option Z)
    : gmap TopicPartitionKey Z :=
  match e.2 with Some o => <[e.1 := o]> m | None => m end.

Definition prefetch_meta (t : string) (m : gmap TopicPartitionKey Z) (parts : list Z)
    : gmap TopicPartitionKey Z :=
  let tpl := (λ p, (t, p)) <$> parts in
  if bool_decide (tpl = []) then m
  else match committed_offsets tpl with
  | Some es => foldl record_committed m es
  | None => m
  end.

Definition prefetch_topic (m : gmap TopicPartitionKey Z) (t : string) : gmap TopicPartitionKey Z :=
  match fetch_metadata t with
  | Some metas => foldl (prefetch_meta t) m metas
  | None => m
  end.

(** The context is seeded only when something was found. *)
Definition prefetch_offsets (topics : list string) (c : CustomConsumerContext)
    : CustomConsumerContext :=
  let m := foldl prefetch_topic ∅ topics in
  if bool_decide (m = ∅) then c else seed_startup_offsets m c.

End prefetch.

(** ** The callbacks *)

Inductive Rebalance :=
| Assign (tpl : list TopicPartitionKey)
| Revoke (tpl : list TopicPartitionKey)
| RebalanceError.

Section callbacks.
Context (rd : RdCall → bool) (tracker : OffsetTracker).

(** One revoked partition: the cursor is stored and, if that succeeds,
    committed synchronously; the pause flag goes in any case. *)
Definition revoke_partition (s : CustomConsumerContext * rd_trace) (k : TopicPartitionKey)
    : CustomConsumerContext * rd_trace :=
  let '(c, tr) := s in
  let tr :=
    match highest_contiguous k.1 k.2 tracker with
    | Some o =>
        let tr := tr ++ [RdStoreOffset k.1 k.2 o] in
        if rd (RdStoreOffset k.1 k.2 o) then tr ++ [RdCommitState Sync] else tr
    | None => tr
    end in
  ({| pause_state := delete (pause_key k.1 k.2) (pause_state c);
      startup_offsets := startup_offsets c |}, tr).

Definition pre_rebalance (r : Rebalance) (c : CustomConsumerContext) (tr : rd_trace)
    : CustomConsumerContext * rd_trace :=
  match r with
  | Revoke tpl => foldl revoke_partition (c, tr) tpl
  | Assign _ | RebalanceError => (c, tr)
  end.

(** Where an assigned partition is positioned: after the tracker's cursor, or
    else at the offset fetched at startup. *)
Definition seek_to (c : CustomConsumerContext) (k : TopicPartitionKey) : option Z :=
  let in_memory := tracker_committed_offset k.1 k.2 tracker in
  if 0 <=? in_memory then Some (i64_wrap (in_memory + 1)) else startup_offsets c !! k.

Definition assign_partition (c : CustomConsumerContext) (tr : rd_trace) (k : TopicPartitionKey)
    : rd_trace :=
  match seek_to c k with
  | Some o => tr ++ [RdSeek k.1 k.2 o]
  | None => tr
  end.

Definition post_rebalance (r : Rebalance) (c : CustomConsumerContext) (tr : rd_trace) : rd_trace :=
  match r with
  | Assign tpl => foldl (assign_partition c) tr tpl
  | Revoke _ | RebalanceError => tr
  end.

End callbacks.

(** ** Lemmas *)

(** The calls of one revoked partition. *)
Definition revoke_calls (rd : RdCall → bool) (t : OffsetTracker) (k : TopicPartitionKey) : rd_trace :=
  match highest_contiguous k.1 k.2 t with
  | Some o => RdStoreOffset k.1 k.2 o :: (if rd (RdStoreOffset k.1 k.2 o) then [RdCommitState Sync] else [])
  | None => []
  end.

Lemma revoke_partition_eq rd t k c tr :
  revoke_partition rd t (c, tr) k =
  ({| pause_state := delete (pause_key k.1 k.2) (pause_state c);
      startup_offsets := startup_offsets c |}, tr ++ revoke_calls rd t k).
Proof.
  unfold revoke_partition, revoke_calls. destruct (highest_contiguous k.1 k.2 t) as [o|];
    [|by rewrite app_nil_r]. destruct (rd _); by rewrite <- ?app_assoc.
Qed.

Lemma revoke_all rd t tpl c tr :
  let r := foldl (revoke_partition rd t) (c, tr) tpl in
  r.2 = tr ++ mjoin (revoke_calls rd t <$> tpl) ∧ startup_offsets r.1 = startup_offsets c ∧
  (∀ key, pause_state r.1 !! key =
     if decide (key ∈ (λ k, pause_key k.1 k.2) <$> tpl) then None else pause_state c !! key).
Proof.
  revert c tr. induction tpl as [|k tpl IH]; intros c tr; cbn [foldl].
  { split; [by rewrite app_nil_r|]. done. }
  rewrite revoke_partition_eq.
  destruct (IH {| pause_state := delete (pause_key k.1 k.2) (pause_state c);
                  startup_offsets := startup_offsets c |} (tr ++ revoke_calls rd t k)) as (H1 & H2 & H3).
  split; [|split; [exact H2|]].
  - by rewrite H1, fmap_cons, <- app_assoc.
  - intros key. rewrite H3. simpl. destruct (decide (key = pause_key k.1 k.2)) as [->|N].
    + rewrite lookup_delete_eq. rewrite (decide_True (P := _ ∈ _ :: _)) by by left.
      by destruct (decide _).
    + rewrite lookup_delete_ne by done.
      destruct (decide (key ∈ (λ k, pause_key k.1 k.2) <$> tpl)) as [H|H];
        destruct (decide (key ∈ _ :: _)) as [H'|H']; try done.
      * exfalso. apply H'. by right.
      * exfalso. apply elem_of_cons in H' as [?|?]; done.
Qed.

Lemma assign_all t c tpl tr :
  foldl (assign_partition t c) tr tpl =
  tr ++ omap (λ k, RdSeek k.1 k.2 <$> seek_to t c k) tpl.
Proof.
  revert tr. induction tpl as [|k tpl IH]; intros tr; simpl; [by rewrite app_nil_r|].
  rewrite IH. unfold assign_partition. destruct (seek_to t c k); simpl; [|done].
  by rewrite <- app_assoc.
Qed.

Lemma elem_of_revoke_calls rd t tpl tp p o :
  RdStoreOffset tp p o ∈ mjoin (revoke_calls rd t <$> tpl) ↔
  (tp, p) ∈ tpl ∧ highest_contiguous tp p t = Some o.
Proof.
  rewrite list_elem_of_join. split.
  - intros (l & Hin & Hl). apply list_elem_of_fmap in Hl as ([tp' p'] & -> & Hk).
    unfold revoke_calls in Hin. simpl in Hin.
    destruct (highest_contiguous tp' p' t) as [o'|] eqn:E; [|by apply not_elem_of_nil in Hin].
    apply elem_of_cons in Hin as [[= -> -> ->]|Hin]; [done|].
    destruct (rd _); [apply list_elem_of_singleton in Hin; done|by apply not_elem_of_nil in Hin].
  - intros [Hk Ho]. exists (revoke_calls rd t (tp, p)). split; [|by apply list_elem_of_fmap_2].
    unfold revoke_calls. simpl. rewrite Ho. by left.
Qed.

(** The partition is registered exactly when it was acknowledged, and then has
    a cursor of its own. *)
Lemma tracker_cursor ops t tp p :
  Forall op_ok ops → tracker_run ops offset_tracker_new = Ret t →
  (first_ack (events_of (tp, p) ops) = None → tracker_committed_offset tp p t = -1) ∧
  (∀ b, first_ack (events_of (tp, p) ops) = Some b →
     0 ≤ b ≤ tracker_committed_offset tp p t ∧
     ∀ x, b ≤ x ≤ tracker_committed_offset tp p t → TAck tp p x ∈ ops).
Proof.
  intros Hok Hr. unfold tracker_committed_offset.
  destruct (partitions t !! (tp, p)) as [s|] eqn:Hs; simpl.
  - destruct (tracker_partition_inv _ _ _ _ Hok Hr Hs) as [I [b Hb]]. rewrite Hb.
    split; [done|]. intros b' [= <-]. rewrite <- first_ack_drop in Hb.
    split; [by apply (hi_base _ _ I)|]. intros x Hx.
    apply (elem_of_events_ack (tp, p)), elem_of_drop_fails. by eapply (hi_safe _ _ I).
  - split; [done|]. intros b Hb. exfalso. rewrite (tracker_run_partition _ _ _ Hr) in Hs.
    unfold partition_after in Hs. rewrite <- first_ack_drop in Hb. by destruct (drop_fails _).
Qed.

Lemma elem_of_assign_calls t c (tpl : list TopicPartitionKey) tp p o :
  RdSeek tp p o ∈ omap (λ k, RdSeek k.1 k.2 <$> seek_to t c k) tpl ↔
  (tp, p) ∈ tpl ∧ seek_to t c (tp, p) = Some o.
Proof.
  rewrite list_elem_of_omap. split.
  - intros ([tp' p'] & Hin & E). simpl in E. destruct (seek_to t c (tp', p')) eqn:Es; [|done].
    by simplify_eq/=.
  - intros [Hin E]. exists (tp, p). by rewrite E.
Qed.


(** ** Concrete run *)

Definition demo_context : CustomConsumerContext :=
  {| pause_state := {["t-0" := true]}; startup_offsets := {[("u", 1) := 40]} |}.

Definition demo_ops : list tracker_op :=
  [TAck "t" 0 10; TAck "t" 0 12; TAck "t" 0 11; TFailReason "t" 0 13 (ReasonTerminal PoisonMessage)].

Definition demo_tracker : OffsetTracker :=
  match tracker_run demo_ops offset_tracker_new with Ret t => t | Panic => offset_tracker_new end.

