(* ===== verification/Config.v ===== *)
(** * Configuration (src/consumer/config.rs, src/config.rs, src/bindings.rs)

    The builder of the consumer configuration, the settings it hands to rdkafka,
    and the configuration that Python passes in. *)

From stdpp Require Import base gmap sets list strings pretty.
From S2P Require Import Prelude F64 Retry.

(** ** The configuration of the consumer core *)

Inductive AutoOffsetReset := Earliest | Latest.

Definition reset_as_str (r : AutoOffsetReset) : string :=
  match r with Earliest => "earliest" | Latest => "latest" end.

Inductive PartitionAssignmentStrategy := RoundRobin | Range | CooperativeSticky.

Definition strategy_as_str (s : PartitionAssignmentStrategy) : string :=
  match s with
  | RoundRobin => "roundrobin"
  | Range => "range"
  | CooperativeSticky => "cooperative-sticky"
  end.

Inductive BuildError := MissingField (name : string) | NoTopics | InvalidField (name : string).

Record ConsumerConfig := {
  brokers : string;
  group_id : string;
  topics : list string;
  auto_offset_reset : AutoOffsetReset;
  enable_auto_commit : bool;
  enable_auto_offset_store : bool;
  session_timeout_ms : Z;
  bootstrap_timeout_ms : option Z;
  heartbeat_interval_ms : Z;
  max_poll_interval_ms : Z;
  security_protocol : option string;
  sasl_mechanism : option string;
  sasl_username : option string;
  sasl_password : option string;
  fetch_min_bytes : Z;
  max_partition_fetch_bytes : Z;
  partition_assignment_strategy : PartitionAssignmentStrategy;
  retry_backoff_ms : Z;
  default_retry_policy : RetryPolicy;
  dlq_topic_prefix : string;
  drain_timeout_secs : Z
}.

(** ** [ConsumerConfigBuilder] *)

Record ConsumerConfigBuilder := {
  b_brokers : option string;
  b_group_id : option string;
  b_topics : list string;
  b_auto_offset_reset : AutoOffsetReset;
  b_enable_auto_commit : bool;
  b_enable_auto_offset_store : bool;
  b_session_timeout_ms : Z;
  b_bootstrap_timeout_ms : option Z;
  b_heartbeat_interval_ms : Z;
  b_max_poll_interval_ms : Z;
  b_security_protocol : option string;
  b_sasl_mechanism : option string;
  b_sasl_username : option string;
  b_sasl_password : option string;
  b_fetch_min_bytes : Z;
  b_max_partition_fetch_bytes : Z;
  b_partition_assignment_strategy : PartitionAssignmentStrategy;
  b_retry_backoff_ms : Z;
  b_default_retry_policy : RetryPolicy;
  b_dlq_topic_prefix : string;
  b_drain_timeout_secs : Z
}.

(** The setters: one constructor per method of the builder. *)
Inductive builder_call :=
| SetBrokers (s : string)
| SetGroupId (s : string)
| SetTopics (l : list string)
| AddTopic (t : string)
| SetAutoOffsetReset (r : AutoOffsetReset)
| SetAutoCommit (b : bool)
| SetAutoOffsetStore (b : bool)
| SetSessionTimeout (d : Z)
| SetBootstrapTimeout (d : Z)
| SetHeartbeatInterval (d : Z)
| SetMaxPollInterval (d : Z)
| SetSecurityProtocol (s : string)
| SetSasl (mechanism username password : string)
| SetFetchMinBytes (n : Z)
| SetMaxPartitionFetchBytes (n : Z)
| SetStrategy (s : PartitionAssignmentStrategy)
| SetRetryBackoff (d : Z)
| SetRetryPolicy (p : RetryPolicy)
| SetDlqTopicPrefix (s : string)
| SetDrainTimeout (secs : Z).

(** [as_millis() as u32]. *)
Definition millis_u32 (d : Z) : Z := u32_wrap (as_millis d).

(** [ConsumerConfigBuilder::new]. *)
Definition consumer_builder_new : ConsumerConfigBuilder :=
  {| b_brokers := None;
     b_group_id := None;
     b_topics := [];
     b_auto_offset_reset := Latest;
     b_enable_auto_commit := false;
     b_enable_auto_offset_store := false;
     b_session_timeout_ms := 45000;
     b_bootstrap_timeout_ms := None;
     b_heartbeat_interval_ms := 3000;
     b_max_poll_interval_ms := 300000;
     b_security_protocol := None;
     b_sasl_mechanism := None; b_sasl_username := None; b_sasl_password := None;
     b_fetch_min_bytes := 1048576;
     b_max_partition_fetch_bytes := 10485760;
     b_partition_assignment_strategy := CooperativeSticky;
     b_retry_backoff_ms := 100;
     b_default_retry_policy := retry_policy_default;
     b_dlq_topic_prefix := "dlq.";
     b_drain_timeout_secs := 30 |}.

(** What one setter does to each field. *)
Definition builder_set (b : ConsumerConfigBuilder) (c : builder_call) : ConsumerConfigBuilder :=
  {| b_brokers := match c with SetBrokers s => Some s | _ => b_brokers b end;
     b_group_id := match c with SetGroupId s => Some s | _ => b_group_id b end;
     b_topics := match c with SetTopics l => l | AddTopic t => b_topics b ++ [t] | _ => b_topics b end;
     b_auto_offset_reset :=
       match c with SetAutoOffsetReset x => x | _ => b_auto_offset_reset b end;
     b_enable_auto_commit := match c with SetAutoCommit x => x | _ => b_enable_auto_commit b end;
     b_enable_auto_offset_store :=
       match c with SetAutoOffsetStore x => x | _ => b_enable_auto_offset_store b end;
     b_session_timeout_ms :=
       match c with SetSessionTimeout d => millis_u32 d | _ => b_session_timeout_ms b end;
     b_bootstrap_timeout_ms :=
       match c with SetBootstrapTimeout d => Some (millis_u32 d) | _ => b_bootstrap_timeout_ms b end;
     b_heartbeat_interval_ms :=
       match c with SetHeartbeatInterval d => millis_u32 d | _ => b_heartbeat_interval_ms b end;
     b_max_poll_interval_ms :=
       match c with SetMaxPollInterval d => millis_u32 d | _ => b_max_poll_interval_ms b end;
     b_security_protocol :=
       match c with SetSecurityProtocol s => Some s | _ => b_security_protocol b end;
     b_sasl_mechanism := match c with SetSasl m _ _ => Some m | _ => b_sasl_mechanism b end;
     b_sasl_username := match c with SetSasl _ u _ => Some u | _ => b_sasl_username b end;
     b_sasl_password := match c with SetSasl _ _ p => Some p | _ => b_sasl_password b end;
     b_fetch_min_bytes := match c with SetFetchMinBytes n => n | _ => b_fetch_min_bytes b end;
     b_max_partition_fetch_bytes :=
       match c with SetMaxPartitionFetchBytes n => n | _ => b_max_partition_fetch_bytes b end;
     b_partition_assignment_strategy :=
       match c with SetStrategy s => s | _ => b_partition_assignment_strategy b end;
     b_retry_backoff_ms :=
       match c with SetRetryBackoff d => millis_u32 d | _ => b_retry_backoff_ms b end;
     b_default_retry_policy :=
       match c with SetRetryPolicy p => p | _ => b_default_retry_policy b end;
     b_dlq_topic_prefix := match c with SetDlqTopicPrefix s => s | _ => b_dlq_topic_prefix b end;
     b_drain_timeout_secs := match c with SetDrainTimeout n => n | _ => b_drain_timeout_secs b end |}.

(** [ConsumerConfigBuilder::build]. *)
Definition build_config (b : ConsumerConfigBuilder) : result ConsumerConfig BuildError :=
  match b_brokers b with
  | None => Err (MissingField "brokers")
  | Some br =>
      match b_group_id b with
      | None => Err (MissingField "group_id")
      | Some g =>
          if bool_decide (b_topics b = []) then Err NoTopics
          else Ok {| brokers := br; group_id := g; topics := b_topics b;
                     auto_offset_reset := b_auto_offset_reset b;
                     enable_auto_commit := b_enable_auto_commit b;
                     enable_auto_offset_store := b_enable_auto_offset_store b;
                     session_timeout_ms := b_session_timeout_ms b;
                     bootstrap_timeout_ms := b_bootstrap_timeout_ms b;
                     heartbeat_interval_ms := b_heartbeat_interval_ms b;
                     max_poll_interval_ms := b_max_poll_interval_ms b;
                     security_protocol := b_security_protocol b;
                     sasl_mechanism := b_sasl_mechanism b;
                     sasl_username := b_sasl_username b;
                     sasl_password := b_sasl_password b;
                     fetch_min_bytes := b_fetch_min_bytes b;
                     max_partition_fetch_bytes := b_max_partition_fetch_bytes b;
                     partition_assignment_strategy := b_partition_assignment_strategy b;
                     retry_backoff_ms := b_retry_backoff_ms b;
                     default_retry_policy := b_default_retry_policy b;
                     dlq_topic_prefix := b_dlq_topic_prefix b;
                     drain_timeout_secs := b_drain_timeout_secs b |}
      end
  end.

(** ** Settings of the broker client

    [ClientConfig] is a map: setting a key again replaces its value. *)

Abbreviation ClientConfig := (gmap string string).

Definition client_set (cfg : ClientConfig) (kv : string * string) : ClientConfig :=
  <[kv.1 := kv.2]> cfg.

Definition bool_str (b : bool) : string := if b then "true" else "false".

(** The calls of [into_rdkafka_config], in order. *)
Definition rdkafka_settings (c : ConsumerConfig) : list (string * string) :=
  [("bootstrap.servers", brokers c);
   ("group.id", group_id c);
   ("auto.offset.reset", reset_as_str (auto_offset_reset c));
   ("enable.auto.commit", bool_str (enable_auto_commit c));
   ("enable.auto.offset.store", bool_str (enable_auto_offset_store c));
   ("session.timeout.ms", pretty (session_timeout_ms c));
   ("heartbeat.interval.ms", pretty (heartbeat_interval_ms c));
   ("max.poll.interval.ms", pretty (max_poll_interval_ms c));
   ("fetch.min.bytes", pretty (fetch_min_bytes c));
   ("enable.partition.eof", "false");
   ("max.partition.fetch.bytes", pretty (max_partition_fetch_bytes c));
   ("fetch.message.max.bytes", pretty (fetch_min_bytes c));
   ("queued.min.messages", "100000");
   ("queued.max.messages.kbytes", "65536");
   ("fetch.wait.max.ms", "500");
   ("fetch.error.backoff.ms", "500");
   ("reconnect.backoff.ms", "100");
   ("retry.backoff.ms", pretty (retry_backoff_ms c));
   ("reconnect.backoff.max.ms", "10000");
   ("partition.assignment.strategy", strategy_as_str (partition_assignment_strategy c))] ++
  option_list (pair "security.protocol" <$> security_protocol c) ++
  option_list (pair "sasl.mechanism" <$> sasl_mechanism c) ++
  option_list (pair "sasl.username" <$> sasl_username c) ++
  option_list (pair "sasl.password" <$> sasl_password c) ++
  option_list ((λ ms, ("bootstrap.timeout.ms", pretty ms)) <$> bootstrap_timeout_ms c).

Definition into_rdkafka_config (c : ConsumerConfig) : ClientConfig :=
  foldl client_set ∅ (rdkafka_settings c).

(** ** The configuration that Python passes (src/config.rs, src/bindings.rs) *)

Record PyRetryPolicy := {
  py_max_attempts : Z;
  py_base_delay_ms : Z;
  py_max_delay_ms : Z;
  py_jitter_factor : f64
}.

Definition retry_to_rust (p : PyRetryPolicy) : RetryPolicy :=
  retry_policy_new (py_max_attempts p) (from_millis (py_base_delay_ms p))
    (from_millis (py_max_delay_ms p)) (py_jitter_factor p).

(** Observability settings: they are stored and converted, and read by nothing. *)
Inductive LogFormat := Json | Pretty | Simple.

Record ObservabilityConfig := {
  otlp_endpoint : option string;
  service_name : string;
  sampling_ratio : f64;
  log_format : LogFormat
}.

Definition observability_default : ObservabilityConfig :=
  {| otlp_endpoint := None; service_name := "kafpy"; sampling_ratio := f64_one;
     log_format := Pretty |}.

Record PyObservabilityConfig := {
  py_otlp_endpoint : option string;
  py_service_name : string;
  py_sampling_ratio : f64;
  py_log_format : string
}.

(** The constructor with the defaults of its Python signature. *)
Definition py_observability_default : PyObservabilityConfig :=
  {| py_otlp_endpoint := None; py_service_name := "kafpy"; py_sampling_ratio := f64_one;
     py_log_format := "pretty" |}.

Definition observability_to_rust (c : PyObservabilityConfig) : ObservabilityConfig :=
  {| otlp_endpoint := py_otlp_endpoint c; service_name := py_service_name c;
     sampling_ratio := py_sampling_ratio c;
     log_format := match py_log_format c with
                   | "json" => Json
                   | "simple" => Simple
                   | _ => Pretty
                   end |}.

(** The defaults of [RetryPolicy] in Python. *)
Definition py_retry_default : PyRetryPolicy :=
  {| py_max_attempts := 3; py_base_delay_ms := 100; py_max_delay_ms := 30000;
     py_jitter_factor := f64_tenth |}.

Record PyConsumerConfig := {
  py_brokers : string;
  py_group_id : string;
  py_topics : list string;
  py_auto_offset_reset : string;
  py_enable_auto_commit : bool;
  py_session_timeout_ms : Z;
  py_bootstrap_timeout_ms : option Z;
  py_heartbeat_interval_ms : Z;
  py_max_poll_interval_ms : Z;
  py_security_protocol : option string;
  py_sasl_mechanism : option string;
  py_sasl_username : option string;
  py_sasl_password : option string;
  py_fetch_min_bytes : Z;
  py_max_partition_fetch_bytes : Z;
  py_partition_assignment_strategy : string;
  py_retry_backoff_ms : Z;
  py_message_batch_size : Z;
  py_default_retry_policy : option PyRetryPolicy;
  py_dlq_topic_prefix : option string;
  py_drain_timeout_secs : option Z;
  py_num_workers : option Z;
  py_enable_auto_offset_store : option bool;
  py_observability_config : option PyObservabilityConfig;
  py_handler_timeout_ms : option Z
}.

(** The constructor with the defaults of its Python signature. *)
Definition py_consumer_config (servers group : string) (ts : list string) : PyConsumerConfig :=
  {| py_brokers := servers; py_group_id := group; py_topics := ts;
     py_auto_offset_reset := "earliest"; py_enable_auto_commit := false;
     py_session_timeout_ms := 30000; py_bootstrap_timeout_ms := None;
     py_heartbeat_interval_ms := 3000; py_max_poll_interval_ms := 300000;
     py_security_protocol := None; py_sasl_mechanism := None;
     py_sasl_username := None; py_sasl_password := None;
     py_fetch_min_bytes := 1; py_max_partition_fetch_bytes := 1048576;
     py_partition_assignment_strategy := "roundrobin"; py_retry_backoff_ms := 100;
     py_message_batch_size := 100; py_default_retry_policy := None;
     py_dlq_topic_prefix := None; py_drain_timeout_secs := None; py_num_workers := None;
     py_enable_auto_offset_store := None; py_observability_config := None;
     py_handler_timeout_ms := None |}.

(** The calls [RuntimeBuilder::build] makes on the builder. *)
Definition runtime_builder_calls (c : PyConsumerConfig) : list builder_call :=
  [SetBrokers (py_brokers c);
   SetGroupId (py_group_id c);
   SetTopics (py_topics c);
   SetAutoOffsetReset
     (if decide (py_auto_offset_reset c = "earliest") then Earliest else Latest);
   SetAutoCommit (py_enable_auto_commit c);
   SetSessionTimeout (from_millis (py_session_timeout_ms c));
   SetHeartbeatInterval (from_millis (py_heartbeat_interval_ms c));
   SetMaxPollInterval (from_millis (py_max_poll_interval_ms c))] ++
  option_list ((λ p, SetRetryPolicy (retry_to_rust p)) <$> py_default_retry_policy c) ++
  option_list (SetDlqTopicPrefix <$> py_dlq_topic_prefix c) ++
  option_list (SetDrainTimeout <$> py_drain_timeout_secs c).

Definition runtime_config (c : PyConsumerConfig) : result ConsumerConfig BuildError :=
  build_config (foldl builder_set consumer_builder_new (runtime_builder_calls c)).

(** ** Lemmas *)

Lemma millis_u32_id ms : 0 ≤ ms < 2 ^ 32 → millis_u32 (from_millis ms) = ms.
Proof.
  intros H. unfold millis_u32, as_millis, from_millis, u32_wrap.
  rewrite Z.div_mul by lia. by apply Z.mod_small.
Qed.

(** A setting that no later call makes again keeps its value. *)
Lemma client_settings_lookup (l : list (string * string)) (cfg : ClientConfig) k :
  foldl client_set cfg l !! k =
  match last (filter (λ kv, kv.1 = k) l) with Some kv => Some kv.2 | None => cfg !! k end.
Proof.
  induction l as [|[k' v] l IH] using rev_ind; [done|].
  rewrite foldl_app, filter_app. simpl. unfold client_set at 1. simpl.
  destruct (decide (k' = k)) as [->|N].
  - rewrite lookup_insert_eq. rewrite filter_cons_True by done. rewrite filter_nil.
    by rewrite last_snoc.
  - rewrite lookup_insert_ne by done. rewrite filter_cons_False by done.
    rewrite filter_nil, app_nil_r. apply IH.
Qed.

(** The configuration the runtime is built with, field by field. *)
Definition wired_config (c : PyConsumerConfig) : ConsumerConfig :=
  {| brokers := py_brokers c; group_id := py_group_id c; topics := py_topics c;
     auto_offset_reset := if decide (py_auto_offset_reset c = "earliest") then Earliest else Latest;
     enable_auto_commit := py_enable_auto_commit c;
     enable_auto_offset_store := false;
     session_timeout_ms := millis_u32 (from_millis (py_session_timeout_ms c));
     bootstrap_timeout_ms := None;
     heartbeat_interval_ms := millis_u32 (from_millis (py_heartbeat_interval_ms c));
     max_poll_interval_ms := millis_u32 (from_millis (py_max_poll_interval_ms c));
     security_protocol := None; sasl_mechanism := None; sasl_username := None; sasl_password := None;
     fetch_min_bytes := 1048576; max_partition_fetch_bytes := 10485760;
     partition_assignment_strategy := CooperativeSticky;
     retry_backoff_ms := 100;
     default_retry_policy := default retry_policy_default (retry_to_rust <$> py_default_retry_policy c);
     dlq_topic_prefix := default "dlq." (py_dlq_topic_prefix c);
     drain_timeout_secs := default 30 (py_drain_timeout_secs c) |}.

Lemma runtime_config_eq c :
  runtime_config c = if bool_decide (py_topics c = []) then Err NoTopics else Ok (wired_config c).
Proof.
  unfold runtime_config, runtime_builder_calls, wired_config.
  destruct (py_default_retry_policy c), (py_dlq_topic_prefix c), (py_drain_timeout_secs c);
    reflexivity.
Qed.

(** Looks up one key in a chain of settings. *)
Ltac setting :=
  unfold into_rdkafka_config, rdkafka_settings, client_set;
  cbn [foldl app option_list fmap option_fmap option_map fst snd
       security_protocol sasl_mechanism sasl_username sasl_password bootstrap_timeout_ms wired_config];
  repeat (rewrite lookup_insert_ne by discriminate);
  first [rewrite lookup_insert_eq; reflexivity | reflexivity].

(** ** Properties *)

(** which Python settings reach the broker client.  A configuration is
    refused exactly when it names no topic.  The servers, the group, the reset
    policy, auto-commit and the three timeouts arrive as they are given.  The
    security protocol, the SASL credentials and the bootstrap timeout never do;
    the fetch sizes, the assignment strategy, the retry back-off and the offset
    store flag are constants, whatever Python asked for; and the maximal size of a
    fetched message is the minimal fetch size. *)
Theorem python_settings_reaching_the_client c :
  0 ≤ py_session_timeout_ms c < 2 ^ 32 → 0 ≤ py_heartbeat_interval_ms c < 2 ^ 32 →
  0 ≤ py_max_poll_interval_ms c < 2 ^ 32 →
  (py_topics c = [] → runtime_config c = Err NoTopics) ∧
  (py_topics c ≠ [] → ∃ r, runtime_config c = Ok r ∧ topics r = py_topics c ∧
     let cfg := into_rdkafka_config r in
     cfg !! "bootstrap.servers" = Some (py_brokers c) ∧
     cfg !! "group.id" = Some (py_group_id c) ∧
     cfg !! "enable.auto.commit" = Some (bool_str (py_enable_auto_commit c)) ∧
     cfg !! "session.timeout.ms" = Some (pretty (py_session_timeout_ms c)) ∧
     cfg !! "heartbeat.interval.ms" = Some (pretty (py_heartbeat_interval_ms c)) ∧
     cfg !! "max.poll.interval.ms" = Some (pretty (py_max_poll_interval_ms c)) ∧
     cfg !! "auto.offset.reset" =
       Some (if decide (py_auto_offset_reset c = "earliest") then "earliest" else "latest") ∧
     cfg !! "security.protocol" = None ∧ cfg !! "sasl.mechanism" = None ∧
     cfg !! "sasl.username" = None ∧ cfg !! "sasl.password" = None ∧
     cfg !! "bootstrap.timeout.ms" = None ∧
     cfg !! "enable.auto.offset.store" = Some "false" ∧
     cfg !! "fetch.min.bytes" = Some "1048576" ∧
     cfg !! "fetch.message.max.bytes" = Some "1048576" ∧
     cfg !! "max.partition.fetch.bytes" = Some "10485760" ∧
     cfg !! "partition.assignment.strategy" = Some "cooperative-sticky" ∧
     cfg !! "retry.backoff.ms" = Some "100").
Proof.
  intros Hs Hh Hp. rewrite runtime_config_eq. split; [by intros ->|].
  intros Ht. rewrite bool_decide_false by done. eexists. split; [done|]. split; [done|].
  rewrite <- (millis_u32_id _ Hs), <- (millis_u32_id _ Hh), <- (millis_u32_id _ Hp).
  split_and!; try setting.
  transitivity (Some (reset_as_str (auto_offset_reset (wired_config c)))); [setting|].
  simpl. by destruct (decide _).
Qed.

(** ** Concrete configuration *)

Definition secured : PyConsumerConfig :=
  let d := py_consumer_config "broker:9093" "g" ["t"] in
  {| py_brokers := py_brokers d; py_group_id := py_group_id d; py_topics := py_topics d;
     py_auto_offset_reset := py_auto_offset_reset d;
     py_enable_auto_commit := py_enable_auto_commit d;
     py_session_timeout_ms := py_session_timeout_ms d; py_bootstrap_timeout_ms := Some 5000;
     py_heartbeat_interval_ms := py_heartbeat_interval_ms d;
     py_max_poll_interval_ms := py_max_poll_interval_ms d;
     py_security_protocol := Some "SASL_SSL"; py_sasl_mechanism := Some "PLAIN";
     py_sasl_username := Some "user"; py_sasl_password := Some "secret";
     py_fetch_min_bytes := py_fetch_min_bytes d;
     py_max_partition_fetch_bytes := py_max_partition_fetch_bytes d;
     py_partition_assignment_strategy := py_partition_assignment_strategy d;
     py_retry_backoff_ms := py_retry_backoff_ms d;
     py_message_batch_size := py_message_batch_size d;
     py_default_retry_policy := None; py_dlq_topic_prefix := None; py_drain_timeout_secs := None;
     py_num_workers := None; py_enable_auto_offset_store := Some true; py_observability_config := None;
     py_handler_timeout_ms := None |}.

Lemma python_settings_reaching_the_client_witness :
  into_rdkafka_config (wired_config secured) !! "security.protocol" = None.
Proof.
  destruct (python_settings_reaching_the_client secured) as [_ H]; [simpl; lia..|].
  destruct H as (r & Hr & _ & H); [discriminate|].
  assert (r = wired_config secured) as -> by (rewrite runtime_config_eq in Hr; by injection Hr).
  apply H.
Defined.
