(* ===== verification/Builder.v ===== *)
(** * Registration and assembly (src/consumer/runtime.rs, src/execution/fan_out.rs, src/runtime/builder.rs)

    The Python-facing consumer with its registered handlers and fan-out groups,
    and [RuntimeBuilder::build], which turns it into a running pool. *)

From Stdlib Require Import Ascii.
From stdpp Require Import base gmap sets list strings pretty.
From S2P Require Import Prelude F64 FromStr Failure Message Shutdown Runner Dlq OffsetTracker Retry Queue Dispatcher Execution PoolState Worker Batch FanOut Pool Context Config.

(** ** [Consumer] *)

(** [HandlerMetadata] of consumer/runtime.rs; the callback, an opaque Python
    object, is left out. *)
Record PyHandlerMetadata := {
  pm_mode : HandlerMode;
  pm_batch_max_size : option Z;
  pm_batch_max_wait_ms : option Z;
  pm_timeout_ms : option Z;
  pm_concurrency : option Z;
  pm_middleware : option (list string);
  pm_fan_out_config : option FanOutConfig
}.

Record PyConsumer := {
  pc_config : PyConsumerConfig;
  pc_handlers : gmap string PyHandlerMetadata;
  pc_fan_out_handlers : gmap string FanOutHandler;
  pc_shutdown_token : bool
}.

Definition py_consumer_new (c : PyConsumerConfig) : PyConsumer :=
  {| pc_config := c; pc_handlers := ∅; pc_fan_out_handlers := ∅; pc_shutdown_token := false |}.

Definition insert_handler (t : string) (m : PyHandlerMetadata) (pc : PyConsumer) : PyConsumer :=
  {| pc_config := pc_config pc; pc_handlers := <[t := m]> (pc_handlers pc);
     pc_fan_out_handlers := pc_fan_out_handlers pc; pc_shutdown_token := pc_shutdown_token pc |}.

(** [add_handler]; [env_mode] is KAFPY_HANDLER_MODE_DEFAULT. *)
Definition add_handler (env_mode : option string) (t : string) (mode : option string)
    (batch_max_size batch_max_wait_ms timeout concurrency : option Z)
    (middleware : option (list string)) (pc : PyConsumer) : PyConsumer :=
  let resolved_mode := match mode with Some m => Some m | None => env_mode end in
  insert_handler t
    {| pm_mode := mode_from_opt_str resolved_mode;
       pm_batch_max_size := batch_max_size; pm_batch_max_wait_ms := batch_max_wait_ms;
       pm_timeout_ms := timeout; pm_concurrency := concurrency; pm_middleware := middleware;
       pm_fan_out_config := None |} pc.

(** [add_handler_with_fan_out]. *)
Definition add_handler_with_fan_out (t : string) (h : FanOutHandler) (c : FanOutConfig)
    (pc : PyConsumer) : PyConsumer :=
  let pc := insert_handler t
    {| pm_mode := SingleSync; pm_batch_max_size := None; pm_batch_max_wait_ms := None;
       pm_timeout_ms := None; pm_concurrency := None; pm_middleware := None;
       pm_fan_out_config := Some c |} pc in
  {| pc_config := pc_config pc; pc_handlers := pc_handlers pc;
     pc_fan_out_handlers := <[t := h]> (pc_fan_out_handlers pc);
     pc_shutdown_token := pc_shutdown_token pc |}.

(** The handler [register_into_consumer] makes for one sink topic. *)
Definition fan_out_sink_handler (b : FanOutBuilder) (t : string) : FanOutHandler :=
  fan_out_handler_new
    {| h_retry_policy := None; h_mode := fb_mode b; h_batch_policy := None;
       handler_timeout := from_millis <$> fb_timeout_ms b;
       h_name := fb_group_name b +:+ "[" +:+ t +:+ "]"; h_middleware := None |}.

Definition fan_out_sink_config (max : Z) : FanOutConfig :=
  {| fo_sinks := []; fo_max_fan_out := max; fo_slot_manager := None |}.

(** [register_into_consumer], without the identifier it draws from a counter. *)
Definition register_into_consumer (b : FanOutBuilder) (max : Z) (pc : PyConsumer) : PyConsumer :=
  foldl (λ pc t, add_handler_with_fan_out t (fan_out_sink_handler b t) (fan_out_sink_config max) pc)
    pc (fb_sink_topics b).

(** [register_fanout]. *)
Definition register_fanout (group : string) (sinks : list string) (max_fan_out timeout : option Z)
    (pc : PyConsumer) : PyConsumer :=
  let b := {| fb_group_name := group; fb_sink_topics := sinks; fb_mode := mode_from_opt_str None;
              fb_timeout_ms := timeout; fb_max_fan_out := None |} in
  register_into_consumer b (Z.min (default 4 max_fan_out) 64) pc.

(** [stop]. *)
Definition py_stop (pc : PyConsumer) : PyConsumer :=
  {| pc_config := pc_config pc; pc_handlers := pc_handlers pc;
     pc_fan_out_handlers := pc_fan_out_handlers pc; pc_shutdown_token := true |}.

(** [__enter__] answers the consumer itself; [__exit__] stops it and suppresses no
    exception. *)
Definition py_enter (pc : PyConsumer) : PyConsumer := pc.
Definition py_exit (pc : PyConsumer) : bool * PyConsumer := (false, py_stop pc).

(** The calls Python makes before [start]. *)
Inductive py_call :=
| CallAddHandler (t : string) (mode : option string)
    (batch_max_size batch_max_wait_ms timeout concurrency : option Z) (middleware : option (list string))
| CallRegisterFanout (group : string) (sinks : list string) (max_fan_out timeout : option Z)
| CallStop.

Definition py_step (env_mode : option string) (pc : PyConsumer) (c : py_call) : PyConsumer :=
  match c with
  | CallAddHandler t mode size wait timeout concurrency mw =>
      add_handler env_mode t mode size wait timeout concurrency mw pc
  | CallRegisterFanout group sinks max timeout => register_fanout group sinks max timeout pc
  | CallStop => py_stop pc
  end.

Definition py_run (env_mode : option string) (c : PyConsumerConfig) (calls : list py_call) : PyConsumer :=
  foldl (py_step env_mode) (py_consumer_new c) calls.

(** ** [RuntimeBuilder::build] *)

(** The errors of [ConsumerError] that assembling can return. *)
Inductive RuntimeError :=
| ErrConfig (e : BuildError)
| ErrKafka (text : string)
| ErrSubscription (broker message : string).

(** The [Display] texts. *)
Definition build_error_text (e : BuildError) : string :=
  match e with
  | MissingField name => "missing required field: " +:+ name
  | NoTopics => "at least one topic must be specified"
  | InvalidField name => "invalid field: " +:+ name
  end.

Definition runtime_error_text (e : RuntimeError) : string :=
  match e with
  | ErrConfig e => "config error: " +:+ build_error_text e
  | ErrKafka text => "kafka error: " +:+ text
  | ErrSubscription broker message =>
      "failed to subscribe to topics at broker '" +:+ broker +:+ "': " +:+ message
  end.

(** What rdkafka answers while a runtime is assembled: whether the dead-letter
    producer can be created, the errors of creating and subscribing the consumer,
    and the offsets committed before. *)
Record kafka_answers := {
  ka_dlq : bool;
  ka_create : ClientConfig → option string;
  ka_subscribe : list string → option string;
  ka_metadata : string → option (list (list Z));
  ka_committed : list TopicPartitionKey → option (list (TopicPartitionKey * option Z))
}.

(** [ConsumerRunner::new], with the context it makes. *)
Definition runner_new (k : kafka_answers) (c : ConsumerConfig) : result CustomConsumerContext RuntimeError :=
  match ka_create k (into_rdkafka_config c) with
  | Some text => Err (ErrKafka text)
  | None =>
      match ka_subscribe k (topics c) with
      | Some message => Err (ErrSubscription (brokers c) message)
      | None => Ok (prefetch_offsets (ka_metadata k) (ka_committed k) (topics c) consumer_context_new)
      end
  end.

Record Runtime := {
  rn_config : ConsumerConfig;
  rn_client : ClientConfig;
  rn_context : CustomConsumerContext;
  rn_dispatcher : ConsumerDispatcher;
  rn_handlers : gmap string FanOutHandler;
  rn_workers : list PoolWorker;
  rn_states : WorkerPoolState;
  rn_retry : RetryCoordinator;
  rn_router : DefaultDlqRouter;
  rn_coordinator : ShutdownCoordinator;
  rn_concurrency : HandlerConcurrency;
  rn_tracker : OffsetTracker;
  rn_token : bool                 (* the token of the workers, which [stop] cancels *)
}.

Definition queue_capacity (c : PyConsumerConfig) : Z :=
  Z.max (usize_wrap (py_message_batch_size c * 10)) 1000.

(** The handler of one topic: a fan-out handler made earlier, or one built from
    the metadata, whose own timeout comes before the global one. *)
Definition topic_handler (c : PyConsumerConfig) (policy : RetryPolicy)
    (fan_out : gmap string FanOutHandler) (t : string) (m : PyHandlerMetadata) : FanOutHandler :=
  match fan_out !! t with
  | Some h => h
  | None =>
      fan_out_handler_new
        {| h_retry_policy := Some policy;
           h_mode := pm_mode m;
           h_batch_policy :=
             (λ size, {| max_batch_size := size;
                         max_batch_wait_ms := default 1000 (pm_batch_max_wait_ms m) |})
             <$> pm_batch_max_size m;
           handler_timeout :=
             match from_millis <$> pm_timeout_ms m with
             | Some d => Some d
             | None => from_millis <$> py_handler_timeout_ms c
             end;
           h_name := t;
           h_middleware := pm_middleware m |}
  end.

Definition handler_map (pc : PyConsumer) (policy : RetryPolicy) : gmap string FanOutHandler :=
  map_imap (λ t m, Some (topic_handler (pc_config pc) policy (pc_fan_out_handlers pc) t m))
    (pc_handlers pc).

(** KAFPY_HANDLER_CONCURRENCY_DEFAULT, when it is a positive number. *)
Definition default_concurrency (env : option string) : Z :=
  match env ≫= (λ s, result_ok (parse_usize s)) with
  | Some v => if 0 <? v then v else 4
  | None => 4
  end.

Definition limit_handler (hc : HandlerConcurrency) (x : string * PyHandlerMetadata)
    : HandlerConcurrency :=
  match pm_concurrency x.2 with
  | Some v => if 0 <? v then set_limit x.1 v hc else hc
  | None => hc
  end.

Section build.
Context {HO : HashOrder string}.

(** The answers of the broker client, and the environment. *)
Context (kafka : kafka_answers) (env_concurrency : option string).

(** The queues, one per handler, in the order of the handler map. *)
Definition register_topics (pc : PyConsumer) : outcome ConsumerDispatcher :=
  ofold (λ d t, register_handler t (queue_capacity (pc_config pc)) None d)
    consumer_dispatcher_new (hash_keys (pc_handlers pc)).

Definition build (pc : PyConsumer) : outcome (result Runtime RuntimeError) :=
  match runtime_config (pc_config pc) with
  | Err e => Ret (Err (ErrConfig e))
  | Ok config =>
      if negb (ka_dlq kafka) then Panic
      else match runner_new kafka config with
      | Err e => Ret (Err e)
      | Ok context =>
        let? d := register_topics pc in
        let handlers := handler_map pc (default_retry_policy config) in
        let n_workers := Z.to_nat (default 4 (py_num_workers (pc_config pc))) in
        let? pool := worker_pool_new n_workers
          (hash_keys (pc_handlers pc)) (fh_handler <$> handlers) (dispatcher d) in
        Ret (Ok {|
          rn_config := config;
          rn_client := into_rdkafka_config config;
          rn_context := context;
          rn_dispatcher := cd_with_queues pool.2 d;
          rn_handlers := handlers;
          rn_workers := pool.1;
          rn_states := pool_state_new n_workers;
          rn_retry := retry_coordinator_new (default_retry_policy config);
          rn_router := {| Dlq.dlq_topic_prefix := dlq_topic_prefix config |};
          rn_coordinator := coordinator_new (drain_timeout_secs config);
          rn_concurrency :=
            foldl limit_handler (handler_concurrency_new (default_concurrency env_concurrency))
              (hash_iter (pc_handlers pc));
          rn_tracker :=
            set_commit_sender {| w_value := ("", 0); w_version := 0 |} (set_runner offset_tracker_new);
          rn_token := pc_shutdown_token pc
        |})
      end
  end.

(** [start]: its errors are Python's RuntimeError with these texts; with a
    runtime it runs [run_with_sigterm] to its end.  [tokio] is the error of
    creating the executor. *)
Definition py_start (tokio : option string) (pc : PyConsumer) : outcome (result Runtime string) :=
  match tokio with
  | Some text => Ret (Err text)
  | None =>
      let? r := build pc in
      Ret (match r with Ok rt => Ok rt | Err e => Err (runtime_error_text e) end)
  end.

End build.

(** ** Lemmas: what a history of calls leaves *)

(** What one call registers for topic [t]. *)
Definition fan_out_call (t : string) (c : py_call) : option FanOutHandler :=
  match c with
  | CallRegisterFanout group sinks _ timeout =>
      if decide (t ∈ sinks) then
        Some (fan_out_sink_handler
          {| fb_group_name := group; fb_sink_topics := sinks; fb_mode := SingleSync;
             fb_timeout_ms := timeout; fb_max_fan_out := None |} t)
      else None
  | _ => None
  end.

Definition add_call (env_mode : option string) (t : string) (c : py_call) : option PyHandlerMetadata :=
  match c with
  | CallAddHandler t' mode size wait timeout concurrency mw =>
      if decide (t' = t) then
        Some {| pm_mode := mode_from_opt_str (match mode with Some m => Some m | None => env_mode end);
                pm_batch_max_size := size; pm_batch_max_wait_ms := wait; pm_timeout_ms := timeout;
                pm_concurrency := concurrency; pm_middleware := mw; pm_fan_out_config := None |}
      else None
  | _ => None
  end.

(** The last of the calls that registers something. *)
Definition last_of {A : Type} (f : py_call → option A) (calls : list py_call) : option A :=
  last (omap f calls).

Lemma last_of_snoc {A : Type} (f : py_call → option A) calls c :
  last_of f (calls ++ [c]) = match f c with Some a => Some a | None => last_of f calls end.
Proof.
  unfold last_of. rewrite omap_app. simpl. destruct (f c); [apply last_snoc|by rewrite app_nil_r].
Qed.

Lemma register_into_consumer_lookup b max pc t :
  let pc' := register_into_consumer b max pc in
  pc_config pc' = pc_config pc ∧
  pc_fan_out_handlers pc' !! t =
    (if decide (t ∈ fb_sink_topics b) then Some (fan_out_sink_handler b t)
     else pc_fan_out_handlers pc !! t) ∧
  (t ∈ fb_sink_topics b → is_Some (pc_handlers pc' !! t)) ∧
  (t ∉ fb_sink_topics b → pc_handlers pc' !! t = pc_handlers pc !! t).
Proof.
  unfold register_into_consumer. induction (fb_sink_topics b) as [|t' ts IH] using rev_ind; cbn zeta.
  { cbn [foldl]. rewrite decide_False by apply not_elem_of_nil. split_and!; try done.
    by intros []%not_elem_of_nil. }
  rewrite foldl_app. cbn [foldl]. cbn zeta in IH. destruct IH as (H1 & H2 & H3 & H4).
  set (pc0 := foldl _ pc ts) in *.
  unfold add_handler_with_fan_out, insert_handler. cbn [pc_config pc_fan_out_handlers pc_handlers].
  split; [exact H1|]. destruct (decide (t = t')) as [->|N].
  - rewrite !lookup_insert_eq. rewrite decide_True by set_solver. split_and!; [done|by eauto|].
    intros []. set_solver.
  - rewrite !lookup_insert_ne by done. rewrite H2.
    destruct (decide (t ∈ ts)) as [Hin|Hin];
      [rewrite decide_True by set_solver|rewrite decide_False by set_solver];
      (split; [done|]; split; intros; [apply H3; set_solver|apply H4; set_solver]).
Qed.

(** The consumer after a history of calls. *)
Record consumer_inv (env_mode : option string) (c : PyConsumerConfig) (calls : list py_call)
    (pc : PyConsumer) : Prop := {
  ci_config : pc_config pc = c;
  ci_fan_out : ∀ t, pc_fan_out_handlers pc !! t = last_of (fan_out_call t) calls;
  ci_shadow : ∀ t, is_Some (last_of (fan_out_call t) calls) → is_Some (pc_handlers pc !! t);
  ci_handler : ∀ t, last_of (fan_out_call t) calls = None →
    pc_handlers pc !! t = last_of (add_call env_mode t) calls
}.

Lemma py_run_inv env_mode c calls : consumer_inv env_mode c calls (py_run env_mode c calls).
Proof.
  unfold py_run. induction calls as [|call calls [I1 I2 I3 I4]] using rev_ind.
  { split; try done. by intros t [? ?]. }
  rewrite foldl_app. cbn [foldl]. set (pc := foldl _ _ _) in *.
  destruct call as [t' mode size wait timeout conc mw|g sinks max timeout|]; cbn [py_step].
  - split; [done| | |]; intros t; rewrite ?last_of_snoc; cbn [fan_out_call add_call]; [done|..];
      unfold add_handler, insert_handler; cbn [pc_handlers].
    + intros H. destruct (decide (t' = t)) as [->|]; [rewrite lookup_insert_eq; by eauto|].
      rewrite lookup_insert_ne by done. by apply I3.
    + intros H. destruct (decide (t' = t)) as [->|]; [by rewrite lookup_insert_eq|].
      rewrite lookup_insert_ne by done. by apply I4.
  - unfold register_fanout.
    match goal with |- context [register_into_consumer ?b _ pc] =>
      pose proof (register_into_consumer_lookup b (Z.min (default 4 max) 64) pc) as R end.
    split; [destruct (R "") as [-> _]; exact I1|..]; intros t; rewrite !last_of_snoc; cbn [fan_out_call add_call];
      destruct (R t) as (_ & R2 & R3 & R4); cbn [fb_sink_topics] in R2, R3, R4.
    + rewrite R2. by destruct (decide _).
    + destruct (decide (t ∈ sinks)); [by intros _; apply R3|]. rewrite R4 by done. apply I3.
    + destruct (decide (t ∈ sinks)); [done|]. rewrite R4 by done. apply I4.
  - split; [done|..]; intros t; rewrite !last_of_snoc; cbn [fan_out_call add_call]; by auto.
Qed.

(** Only [stop] cancels the token. *)
Lemma py_run_token env_mode c calls :
  pc_shutdown_token (py_run env_mode c calls) = true → CallStop ∈ calls.
Proof.
  unfold py_run. induction calls as [|call calls IH] using rev_ind; [done|].
  rewrite foldl_app, elem_of_app. cbn [foldl]. set (pc := foldl _ _ _) in *.
  destruct call as [t' mode size wait timeout conc mw|g sinks max timeout|]; cbn [py_step]; [by left; apply IH| |by right; left].
  intros Ht. left. apply IH. revert Ht. unfold register_fanout, register_into_consumer. cbn [fb_sink_topics].
  generalize pc. induction sinks as [|t ts IHs]; intros pc0; [done|]. cbn [foldl]. intros Ht. by apply IHs in Ht.
Qed.

Lemma fan_out_call_empty t c h : fan_out_call t c = Some h → fh_fan_out h = None.
Proof. destruct c; simpl; try done. case_decide; [|done]. by intros [= <-]. Qed.

Lemma last_of_Some {A : Type} (f : py_call → option A) calls a :
  last_of f calls = Some a → ∃ c, c ∈ calls ∧ f c = Some a.
Proof.
  unfold last_of. intros H%last_Some. destruct H as [l H].
  assert (a ∈ omap f calls) as Hin by (rewrite H; set_solver).
  by apply list_elem_of_omap in Hin.
Qed.

(** A queue as [register_handler] creates it. *)
Definition fresh_queue (cap : Z) (e : HandlerEntry) : Prop :=
  ch_capacity (sender e) = cap ∧ ch_buffer (sender e) = [] ∧ ch_closed (sender e) = false ∧
  semaphore (metadata e) = None.

Lemma register_topics_spec cap ts d :
  cap ≠ 0 → ∃ d', ofold (λ d t, register_handler t cap None d) d ts = Ret d' ∧
    (∀ t, t ∈ ts → ∃ e, dispatcher d' !! t = Some e ∧ fresh_queue cap e) ∧
    (∀ t, t ∉ ts → dispatcher d' !! t = dispatcher d !! t).
Proof.
  intros Hc. revert d. induction ts as [|t ts IH]; intros d; cbn [ofold].
  { exists d. split; [done|]. split; [by intros t []%not_elem_of_nil|done]. }
  unfold register_handler at 1, register_handler_with_semaphore.
  destruct (Z.eqb_spec cap 0); [done|]. cbn [obind].
  set (d1 := {| dispatcher := _ |}). destruct (IH d1) as (d' & -> & H1 & H2). exists d'. split; [done|].
  split.
  - intros t' [->|Ht]%elem_of_cons; [|by apply H1].
    destruct (decide (t ∈ ts)) as [Hin|Hn]; [by apply H1|].
    rewrite (H2 _ Hn). simpl. rewrite lookup_insert_eq. eexists. split; [done|]. done.
  - intros t' Hn. apply not_elem_of_cons in Hn as [Hne Hn]. rewrite (H2 _ Hn). simpl.
    by rewrite lookup_insert_ne.
Qed.

Lemma handler_map_lookup pc policy t :
  handler_map pc policy !! t =
  topic_handler (pc_config pc) policy (pc_fan_out_handlers pc) t <$> pc_handlers pc !! t.
Proof. unfold handler_map. rewrite map_lookup_imap. by destruct (pc_handlers pc !! t). Qed.

(** A successful [build], taken apart. *)
Lemma build_inv {HO : HashOrder string} kafka env pc rt :
  build kafka env pc = Ret (Ok rt) →
  ∃ d qm,
    register_topics pc = Ret d ∧
    rn_handlers rt = handler_map pc (default_retry_policy (rn_config rt)) ∧
    worker_pool_new (Z.to_nat (default 4 (py_num_workers (pc_config pc))))
      (hash_keys (pc_handlers pc)) (fh_handler <$> rn_handlers rt) (dispatcher d) = Ret (rn_workers rt, qm) ∧
    dispatcher (rn_dispatcher rt) = qm ∧
    runtime_config (pc_config pc) = Ok (rn_config rt).
Proof.
  unfold build. destruct (runtime_config (pc_config pc)) as [config|]; [|done].
  destruct (ka_dlq kafka); [|done]. cbn [negb]. destruct (runner_new kafka config) as [ctx|]; [|done].
  destruct (register_topics pc) as [d|]; [|done]. cbn [obind].
  destruct (worker_pool_new _ _ _ _) as [[ws qm]|] eqn:E; [|done]. intros [= <-].
  exists d, qm. done.
Qed.

(** ** The permits of the workers *)

(** The permits left to a handler. *)
Definition hc_free (id : string) (hc : HandlerConcurrency) : Z :=
  default (hc_default_limit hc) (hc_semaphores hc !! id).

Lemma limits_positive hc l :
  (∀ id, 0 < hc_free id hc) → ∀ id, 0 < hc_free id (foldl limit_handler hc l).
Proof.
  revert hc. induction l as [|x l IH]; intros hc Hp; [done|]. cbn [foldl]. apply IH. intros id. unfold limit_handler.
  destruct (pm_concurrency x.2) as [v|]; [|done]. destruct (Z.ltb_spec 0 v) as [Hv|]; [|done].
  unfold hc_free, set_limit. cbn [hc_semaphores hc_default_limit]. destruct (decide (x.1 = id)) as [<-|].
  - by rewrite lookup_insert_eq.
  - rewrite lookup_insert_ne by done. apply Hp.
Qed.

Lemma default_concurrency_positive env : 0 < default_concurrency env.
Proof.
  unfold default_concurrency. destruct (env ≫= _) as [v|]; [|done]. by destruct (Z.ltb_spec 0 v).
Qed.

(** The permits that workers of other topics hold do not keep a worker waiting:
    with one worker per topic, the permit of a call is always free. *)
Lemma worker_gets_its_permit {HO : HashOrder string} kafka env pc rt held t :
  build kafka env pc = Ret (Ok rt) → t ∉ held →
  is_Some (hc_acquire t (foldl (λ hc id, default hc (hc_acquire id hc)) (rn_concurrency rt) held)).
Proof.
  intros Hb Ht.
  assert (0 < hc_free t (rn_concurrency rt)) as Hp.
  { unfold build in Hb. destruct (runtime_config (pc_config pc)) as [config|]; [|done].
    destruct (ka_dlq kafka); [|done]. cbn [negb] in Hb. destruct (runner_new kafka config) as [ctx|]; [|done].
    destruct (register_topics pc) as [d|]; [|done]. cbn [obind] in Hb.
    destruct (worker_pool_new _ _ _ _) as [[ws qm]|] eqn:E; [|done]. injection Hb as <-. cbn [rn_concurrency].
    apply limits_positive. intros id. apply default_concurrency_positive. }
  revert Hp. generalize (rn_concurrency rt). clear Hb. induction held as [|id held IH]; intros hc Hp; cbn [foldl].
  - unfold hc_acquire. fold (hc_free t hc). apply Z.ltb_lt in Hp. by rewrite Hp.
  - apply not_elem_of_cons in Ht as [Hne Ht]. apply (IH Ht). unfold hc_acquire. destruct (0 <? _); [|done].
    cbn [default]. unfold hc_free. cbn. by rewrite lookup_insert_ne.
Qed.

(** The parts that are made new, and those that are handed on. *)
Lemma build_fields {HO : HashOrder string} kafka env pc rt :
  build kafka env pc = Ret (Ok rt) →
  rn_coordinator rt = coordinator_new (drain_timeout_secs (rn_config rt)) ∧
  rn_token rt = pc_shutdown_token pc ∧ partitions (rn_tracker rt) = ∅ ∧
  runner_new kafka (rn_config rt) = Ok (rn_context rt).
Proof.
  unfold build. destruct (runtime_config (pc_config pc)) as [config|]; [|done].
  destruct (ka_dlq kafka); [|done]. cbn [negb]. destruct (runner_new kafka config) as [ctx|] eqn:E; [|done].
  destruct (register_topics pc) as [d|]; [|done]. cbn [obind].
  destruct (worker_pool_new _ _ _ _) as [[ws qm]|]; [|done]. by intros [= <-].
Qed.

(** [build] returns a runtime when a topic is configured and the clients exist. *)
Lemma build_defined {HO : HashOrder string} kafka ctx env_mode env c calls :
  py_topics c ≠ [] → ka_dlq kafka = true → runner_new kafka (wired_config c) = Ok ctx →
  ∃ rt, build kafka env (py_run env_mode c calls) = Ret (Ok rt).
Proof.
  intros Ht Hdlq Hrun. set (pc := py_run env_mode c calls).
  pose proof (ci_config _ _ _ _ (py_run_inv env_mode c calls)) as Hc. fold pc in Hc.
  destruct (register_topics_spec (queue_capacity c) (hash_keys (pc_handlers pc)) consumer_dispatcher_new)
    as (d & Hd & _); [unfold queue_capacity; lia|].
  set (hm := handler_map pc (default_retry_policy (wired_config c))).
  destruct (worker_pool_new_total (Z.to_nat (default 4 (py_num_workers c)))
    (hash_keys (pc_handlers pc)) (fh_handler <$> hm) (dispatcher d)) as [[ws qm] Hw].
  { intros t Hk%elem_of_hash_keys. unfold hm. rewrite lookup_fmap, handler_map_lookup.
    destruct Hk as [m ->]. by eexists. }
  eexists. unfold build. rewrite Hc, runtime_config_eq, bool_decide_false, Hdlq, Hrun by done. cbn [negb].
  unfold register_topics. rewrite Hc, Hd. cbn [obind]. fold hm. by rewrite Hw.
Qed.

(** What a runtime that was built consists of. *)
Lemma build_pool {HO : HashOrder string} kafka env_mode env c calls rt :
  let pc := py_run env_mode c calls in
  build kafka env pc = Ret (Ok rt) →
    dom (rn_handlers rt) = dom (pc_handlers pc) ∧
    length (rn_workers rt) =
      Nat.min (Z.to_nat (default 4 (py_num_workers c))) (size (pc_handlers pc)) ∧
    NoDup (map pw_topic (rn_workers rt)) ∧
    (∀ t, t ∈ map pw_topic (rn_workers rt) →
       ∃ e, dispatcher (rn_dispatcher rt) !! t = Some e ∧ fresh_queue (queue_capacity c) e ∧
            1000 ≤ queue_capacity c) ∧
    (∀ t, t ∈ dom (pc_handlers pc) → t ∉ map pw_topic (rn_workers rt) →
       ∃ e, dispatcher (rn_dispatcher rt) !! t = Some e ∧ ch_closed (sender e) = true).
Proof.
  intros pc H. pose proof (ci_config _ _ _ _ (py_run_inv env_mode c calls)) as Hc. fold pc in Hc.
  assert (Hcap : 1000 ≤ queue_capacity c) by (unfold queue_capacity; lia).
  destruct (build_inv _ _ _ _ H) as (d' & qm & Hd' & Hm & Hw & Hq' & _). fold pc in Hd', Hm, Hw.
  destruct (register_topics_spec (queue_capacity c) (hash_keys (pc_handlers pc)) consumer_dispatcher_new)
    as (d & Hd & Hq & _); [lia|].
  unfold register_topics in Hd'. rewrite Hc, Hd in Hd'. injection Hd' as <-.
  rewrite Hc in Hw. destruct (worker_pool_new_spec _ _ _ _ _ _ Hw) as (H1 & H2 & _ & H4).
  subst qm.
  assert (ND := hash_keys_nodup (pc_handlers pc)).
  assert (Hlen : length (hash_keys (pc_handlers pc)) = size (pc_handlers pc)).
  { unfold hash_keys. rewrite length_fmap, hash_iter_perm. apply length_map_to_list. }
  assert (Htd : ∀ t, t ∈ hash_keys (pc_handlers pc) →
    t ∈ take (Z.to_nat (default 4 (py_num_workers c))) (hash_keys (pc_handlers pc)) ∨
    t ∈ drop (Z.to_nat (default 4 (py_num_workers c))) (hash_keys (pc_handlers pc))).
  { intros t Hin. by rewrite <- elem_of_app, take_drop. }
  assert (Hdis := ND). rewrite <- (take_drop (Z.to_nat (default 4 (py_num_workers c)))) in Hdis.
  apply NoDup_app in Hdis as (NDt & Hdis & _).
  split_and!.
  - apply set_eq. intros t. rewrite !elem_of_dom, Hm, handler_map_lookup. by rewrite fmap_is_Some.
  - rewrite <- (length_map pw_topic), H1, length_take, Hlen. done.
  - by rewrite H1.
  - rewrite H1. intros t Hin. destruct (Hq t) as (e & He & Hf); [by apply (subseteq_take _ _ _ Hin)|].
    exists e. rewrite H4, decide_False by (by apply Hdis). done.
  - rewrite H1. intros t Hk Hn. apply elem_of_dom, elem_of_hash_keys in Hk.
    destruct (Hq t Hk) as (e & He & _). destruct (Htd t Hk) as [|Hdrop]; [done|].
    rewrite H4, decide_True, He by done. by eexists.
Qed.

(** ** Properties *)


(** which handler serves a topic, and that no registered fan-out is ever
    dispatched.  In a runtime built after any calls, a topic named by a fan-out
    registration is served by the handler of the last such registration, even
    when [add_handler] was called for it later; any other by the last handler
    added for it, with its own timeout or else the global one and the retry
    policy of the configuration.  None of these handlers has a fan-out
    configuration, so no message of any topic is ever dispatched to sinks. *)
Theorem registered_handlers_never_fan_out {HO : HashOrder string} kafka env_mode env c calls rt t :
  build kafka env (py_run env_mode c calls) = Ret (Ok rt) →
  (∀ h, last_of (fan_out_call t) calls = Some h → rn_handlers rt !! t = Some h) ∧
  (last_of (fan_out_call t) calls = None →
     rn_handlers rt !! t =
     topic_handler c (default_retry_policy (wired_config c)) ∅ t <$> last_of (add_call env_mode t) calls) ∧
  (∀ h msg ids evs, rn_handlers rt !! t = Some h → process_fan_out (fh_fan_out h) msg ids evs = None).
Proof.
  intros H. destruct (build_inv _ _ _ _ H) as (d & qm & _ & Hm & _ & _ & Hcfg).
  destruct (py_run_inv env_mode c calls) as [I1 I2 I3 I4].
  rewrite I1, runtime_config_eq in Hcfg. case_bool_decide; [done|]. injection Hcfg as Hcfg.
  rewrite Hm, <- Hcfg, handler_map_lookup, I1. clear Hm Hcfg H.
  unfold topic_handler. rewrite I2.
  destruct (last_of (fan_out_call t) calls) as [h|] eqn:F.
  - destruct (I3 t) as [m ->]; [by rewrite F|]. cbn. split_and!; [by intros h' [= <-]|done|].
    intros h' msg ids evs [= <-]. apply last_of_Some in F as (call & _ & F).
    by rewrite (fan_out_call_empty _ _ _ F).
  - rewrite (I4 t F). split_and!; [done| |].
    + intros _. rewrite lookup_empty. done.
    + intros h msg ids evs Hh. apply fmap_Some in Hh as (m & _ & ->). done.
Qed.

(** a batch handler needs a batch size.  In a pool of batch handlers only,
    the worker of a topic whose handler was added without [batch_max_size]
    panics when it starts; with one it starts.  If any handler is not a batch
    handler, every worker is a single-message worker, also those of batch
    handlers. *)
Theorem batch_handler_without_size_panics {HO : HashOrder string} kafka env_mode env c calls rt w m :
  build kafka env (py_run env_mode c calls) = Ret (Ok rt) →
  w ∈ rn_workers rt →
  last_of (fan_out_call (pw_topic w)) calls = None →
  last_of (add_call env_mode (pw_topic w)) calls = Some m →
  (all_batch (fh_handler <$> rn_handlers rt) = false → pw_kind w = KindSingle) ∧
  (all_batch (fh_handler <$> rn_handlers rt) = true → ∃ h, pw_kind w = KindBatch h ∧
     ∀ i (e : worker_env (T := OffsetTracker)),
       is_ret (batch_worker_start h i e) = bool_decide (is_Some (pm_batch_max_size m))).
Proof.
  intros H Hw Hf Hm. destruct (build_inv _ _ _ _ H) as (d & qm & _ & Hh & Hp & _ & Hcfg).
  destruct (worker_pool_new_spec _ _ _ _ _ _ Hp) as (_ & _ & Hk & _).
  rewrite Forall_forall in Hk. specialize (Hk w Hw). unfold kind_for in Hk.
  destruct (all_batch _); (split; intros ?; try done); [|by injection Hk as <-].
  destruct (py_run_inv env_mode c calls) as [I1 I2 I3 I4].
  rewrite lookup_fmap, Hh, handler_map_lookup, (I4 _ Hf), Hm in Hk. cbn [fmap option_fmap option_map] in Hk.
  unfold topic_handler in Hk. rewrite I2, Hf in Hk. cbn in Hk. injection Hk as <-.
  eexists. split; [done|]. intros i e. unfold batch_worker_start. cbn.
  by destruct (pm_batch_max_size m).
Qed.

(** ** Concrete runs *)

(** A fan-out over two topics, a later handler for one of them, a batch handler. *)
Definition demo_calls : list py_call :=
  [CallRegisterFanout "g" ["a"; "b"] None (Some 50);
   CallAddHandler "a" None None None (Some 10) None None;
   CallAddHandler "c" (Some "batch_sync") None None None None None].

Definition demo_py_config : PyConsumerConfig := py_consumer_config "broker:9092" "g" ["a"; "b"; "c"].

(** A broker that answers everything and knows no committed offset. *)
Definition demo_kafka : kafka_answers :=
  {| ka_dlq := true; ka_create := λ _, None; ka_subscribe := λ _, None; ka_metadata := λ _, None;
     ka_committed := λ _, None |}.

Abbreviation demo_build calls :=
  (@build (hash_order_canonical string) demo_kafka (Some "8") (py_run None demo_py_config calls)).


(** The handler of "a" is the one of the fan-out, not the one added later. *)
Lemma registered_handlers_never_fan_out_witness :
  ∃ rt h, demo_build demo_calls = Ret (Ok rt) ∧ rn_handlers rt !! "a" = Some h ∧
          h_name (fh_handler h) = "g[a]" ∧
          process_fan_out (fh_fan_out h) (fake "a" 0 7) demo_ids [FoStart 0; FoPoll] = None.
Proof.
  destruct (build_defined (HO := hash_order_canonical string) demo_kafka consumer_context_new None (Some "8") demo_py_config demo_calls)
    as [rt E]; [discriminate|reflexivity|vm_compute; reflexivity|].
  destruct (@registered_handlers_never_fan_out (hash_order_canonical string) demo_kafka None (Some "8")
    demo_py_config demo_calls rt "a" E) as (H1 & _ & H3).
  assert (is_Some (last_of (fan_out_call "a") demo_calls)) as [h F] by (vm_compute; eauto).
  exists rt, h. split; [exact E|]. split; [apply H1, F|]. split.
  - vm_compute in F. injection F as <-. vm_compute. reflexivity.
  - apply H3, H1, F.
Defined.

Definition batch_calls : list py_call := [CallAddHandler "c" (Some "batch_sync") None None None None None].

Lemma batch_handler_without_size_panics_witness :
  ∃ rt w h, demo_build batch_calls = Ret (Ok rt) ∧ w ∈ rn_workers rt ∧ pw_kind w = KindBatch h ∧
    ∀ i (e : worker_env (T := OffsetTracker)), is_ret (batch_worker_start h i e) = false.
Proof.
  destruct (build_defined (HO := hash_order_canonical string) demo_kafka consumer_context_new None (Some "8") demo_py_config batch_calls)
    as [rt E]; [discriminate|reflexivity|vm_compute; reflexivity|].
  destruct (build_inv _ _ _ _ E) as (d & qm & _ & Hm & Hw & _).
  assert (A : all_batch (HO := hash_order_canonical string) (fh_handler <$> rn_handlers rt) = true)
    by (rewrite Hm; vm_compute; reflexivity).
  destruct (worker_pool_new_spec _ _ _ _ _ _ Hw) as (L & _).
  destruct (rn_workers rt) as [|w ws] eqn:W; [discriminate L|].
  assert (Lw : pw_topic w = "c") by (injection L as Lw _; rewrite Lw; reflexivity).
  assert (w ∈ rn_workers rt) as Hin by (rewrite W; left).
  destruct (@batch_handler_without_size_panics (hash_order_canonical string) demo_kafka None (Some "8")
    demo_py_config batch_calls rt w
    {| pm_mode := BatchSync; pm_batch_max_size := None; pm_batch_max_wait_ms := None;
       pm_timeout_ms := None; pm_concurrency := None; pm_middleware := None;
       pm_fan_out_config := None |} E Hin) as [_ H].
  - rewrite Lw. vm_compute. reflexivity.
  - rewrite Lw. vm_compute. reflexivity.
  - destruct (H A) as (h & Hk & Hp). exists rt, w, h. split; [exact E|]. split; [exact Hin|]. split; [exact Hk|].
    intros i e. rewrite Hp. reflexivity.
Defined.
