(* ===== verification/PyConfig.v ===== *)
(** * Configuration objects of the Python API (src/config.rs)

    The consumer and the producer configuration as Python makes them: by
    constructor, by the readers of environment variables, and by the builder
    classes.  The consumer configuration itself is in Config.v. *)

From Stdlib Require Import Ascii.
From stdpp Require Import base gmap sets list strings pretty.
From S2P Require Import Prelude F64 FromStr Retry Config.

(** ** The environment

    A variable whose value is not Unicode reads as an absent one. *)

Abbreviation Env := (gmap string string).

(** What the file system and the dotenv library answer. *)
Record dotenv_io := {
  de_current_dir : bool;                        (* the working directory can be read *)
  de_file_exists : bool;                        (* it holds a file [.env] *)
  de_from_path : Env → result Env string;       (* [dotenvy::from_path] *)
  de_dotenv : Env → Env                         (* [dotenvy::dotenv().ok()] *)
}.

Inductive ConfigError :=
| CfgRuntime (message : string)
| CfgInt (e : ParseIntError)
| CfgBool (e : ParseBoolError).

Definition load_dotenv (d : dotenv_io) (e : Env) : result Env ConfigError :=
  if de_current_dir d then
    if de_file_exists d then map_err CfgRuntime (de_from_path d e) else Ok e
  else Ok (de_dotenv d e).

(** [env::var(k).unwrap_or_else(d)], parsed or not. *)
Definition var (e : Env) (k d : string) : string := default d (e !! k).
Definition var_bool (e : Env) (k d : string) : result bool ConfigError :=
  map_err CfgBool (parse_bool (var e k d)).
Definition var_u32 (e : Env) (k d : string) : result Z ConfigError :=
  map_err CfgInt (parse_u32 (var e k d)).
Definition var_u64 (e : Env) (k d : string) : result Z ConfigError :=
  map_err CfgInt (parse_u64 (var e k d)).
Definition var_usize (e : Env) (k d : string) : result Z ConfigError :=
  map_err CfgInt (parse_usize (var e k d)).

(** [env::var(k).ok().map(parse).transpose()]. *)
Definition opt_parsed {A E : Type} (parse : string → result A E) (f : E → ConfigError)
    (e : Env) (k : string) : result (option A) ConfigError :=
  match e !! k with
  | None => Ok None
  | Some s => let! a := map_err f (parse s) in Ok (Some a)
  end.
Definition opt_u32 := opt_parsed parse_u32 CfgInt.
Definition opt_u64 := opt_parsed parse_u64 CfgInt.
Definition opt_bool := opt_parsed parse_bool CfgBool.

(** ** [ConsumerConfig::from_env] *)

Definition consumer_from_env (e : Env) : result PyConsumerConfig ConfigError :=
  let! enable_auto_commit := var_bool e "KAFKA_ENABLE_AUTO_COMMIT" "false" in
  let! session_timeout_ms := var_u32 e "KAFKA_SESSION_TIMEOUT_MS" "30000" in
  let! bootstrap_timeout_ms := opt_u32 e "KAFKA_BOOTSTRAP_TIMEOUT_MS" in
  let! heartbeat_interval_ms := var_u32 e "KAFKA_HEARTBEAT_INTERVAL_MS" "3000" in
  let! max_poll_interval_ms := var_u32 e "KAFKA_MAX_POLL_INTERVAL_MS" "300000" in
  let! fetch_min_bytes := var_u32 e "KAFKA_FETCH_MIN_BYTES" "1" in
  let! max_partition_fetch_bytes := var_u32 e "KAFKA_MAX_PARTITION_FETCH_BYTES" "1048576" in
  let! retry_backoff_ms := var_u32 e "KAFKA_RETRY_BACKOFF_MS" "100" in
  let! message_batch_size := var_usize e "KAFKA_MESSAGE_BATCH_SIZE" "100" in
  let! drain_timeout_secs := opt_u64 e "KAFKA_DRAIN_TIMEOUT_SECS" in
  let! num_workers := opt_u32 e "KAFKA_NUM_WORKERS" in
  let! enable_auto_offset_store := opt_bool e "KAFKA_ENABLE_AUTO_OFFSET_STORE" in
  let! handler_timeout_ms := opt_u64 e "KAFKA_HANDLER_TIMEOUT_MS" in
  Ok {| py_brokers := var e "KAFKA_BROKERS" "localhost:9092";
        py_group_id := var e "KAFKA_GROUP_ID" "rust-consumer-group";
        py_topics := trim <$> str_split "," (var e "KAFKA_TOPICS" "transactions,events");
        py_auto_offset_reset := var e "KAFKA_AUTO_OFFSET_RESET" "earliest";
        py_enable_auto_commit := enable_auto_commit;
        py_session_timeout_ms := session_timeout_ms;
        py_bootstrap_timeout_ms := bootstrap_timeout_ms;
        py_heartbeat_interval_ms := heartbeat_interval_ms;
        py_max_poll_interval_ms := max_poll_interval_ms;
        py_security_protocol := e !! "KAFKA_SECURITY_PROTOCOL";
        py_sasl_mechanism := e !! "KAFKA_SASL_MECHANISM";
        py_sasl_username := e !! "KAFKA_SASL_USERNAME";
        py_sasl_password := e !! "KAFKA_SASL_PASSWORD";
        py_fetch_min_bytes := fetch_min_bytes;
        py_max_partition_fetch_bytes := max_partition_fetch_bytes;
        py_partition_assignment_strategy :=
          var e "KAFKA_PARTITION_ASSIGNMENT_STRATEGY" "roundrobin";
        py_retry_backoff_ms := retry_backoff_ms;
        py_message_batch_size := message_batch_size;
        py_default_retry_policy := None;
        py_dlq_topic_prefix := e !! "KAFKA_DLQ_TOPIC_PREFIX";
        py_drain_timeout_secs := drain_timeout_secs;
        py_num_workers := num_workers;
        py_enable_auto_offset_store := enable_auto_offset_store;
        py_observability_config := None;
        py_handler_timeout_ms := handler_timeout_ms |}.

Definition consumer_config_from_env (d : dotenv_io) (e : Env)
    : result PyConsumerConfig ConfigError :=
  let! e := load_dotenv d e in consumer_from_env e.

(** ** [ProducerConfig] *)

Record ProducerConfig := {
  pr_brokers : string;
  pr_message_timeout_ms : Z;
  pr_queue_buffering_max_messages : Z;
  pr_queue_buffering_max_kbytes : Z;
  pr_batch_num_messages : Z;
  pr_compression_type : string;
  pr_linger_ms : Z;
  pr_request_timeout_ms : Z;
  pr_retry_backoff_ms : Z;
  pr_retries : Z;
  pr_max_in_flight : Z;
  pr_enable_idempotence : bool;
  pr_acks : string;
  pr_security_protocol : option string;
  pr_sasl_mechanism : option string;
  pr_sasl_username : option string;
  pr_sasl_password : option string
}.

(** The constructor with the defaults of its Python signature. *)
Definition producer_config (servers : string) : ProducerConfig :=
  {| pr_brokers := servers;
     pr_message_timeout_ms := 30000;
     pr_queue_buffering_max_messages := 100000;
     pr_queue_buffering_max_kbytes := 1048576;
     pr_batch_num_messages := 10000;
     pr_compression_type := "snappy";
     pr_linger_ms := 5;
     pr_request_timeout_ms := 30000;
     pr_retry_backoff_ms := 100;
     pr_retries := 2147483647;
     pr_max_in_flight := 5;
     pr_enable_idempotence := true;
     pr_acks := "all";
     pr_security_protocol := None;
     pr_sasl_mechanism := None;
     pr_sasl_username := None;
     pr_sasl_password := None |}.

Definition producer_from_env (e : Env) : result ProducerConfig ConfigError :=
  let! message_timeout_ms := var_u64 e "PRODUCER_MESSAGE_TIMEOUT_MS" "30000" in
  let! queue_buffering_max_messages := var_u32 e "PRODUCER_QUEUE_BUFFERING_MAX_MESSAGES" "100000" in
  let! queue_buffering_max_kbytes := var_u32 e "PRODUCER_QUEUE_BUFFERING_MAX_KBYTES" "1048576" in
  let! batch_num_messages := var_u32 e "PRODUCER_BATCH_NUM_MESSAGES" "10000" in
  let! linger_ms := var_u32 e "PRODUCER_LINGER_MS" "5" in
  let! request_timeout_ms := var_u32 e "PRODUCER_REQUEST_TIMEOUT_MS" "30000" in
  let! retry_backoff_ms := var_u32 e "PRODUCER_RETRY_BACKOFF_MS" "100" in
  let! retries := var_u32 e "PRODUCER_RETRIES" "2147483647" in
  let! max_in_flight := var_u32 e "PRODUCER_MAX_IN_FLIGHT" "5" in
  let! enable_idempotence := var_bool e "PRODUCER_ENABLE_IDEMPOTENCE" "true" in
  Ok {| pr_brokers := var e "KAFKA_BROKERS" "localhost:9092";
        pr_message_timeout_ms := message_timeout_ms;
        pr_queue_buffering_max_messages := queue_buffering_max_messages;
        pr_queue_buffering_max_kbytes := queue_buffering_max_kbytes;
        pr_batch_num_messages := batch_num_messages;
        pr_compression_type := var e "PRODUCER_COMPRESSION_TYPE" "snappy";
        pr_linger_ms := linger_ms;
        pr_request_timeout_ms := request_timeout_ms;
        pr_retry_backoff_ms := retry_backoff_ms;
        pr_retries := retries;
        pr_max_in_flight := max_in_flight;
        pr_enable_idempotence := enable_idempotence;
        pr_acks := var e "PRODUCER_ACKS" "all";
        pr_security_protocol := e !! "KAFKA_SECURITY_PROTOCOL";
        pr_sasl_mechanism := e !! "KAFKA_SASL_MECHANISM";
        pr_sasl_username := e !! "KAFKA_SASL_USERNAME";
        pr_sasl_password := e !! "KAFKA_SASL_PASSWORD" |}.

Definition producer_config_from_env (d : dotenv_io) (e : Env) : result ProducerConfig ConfigError :=
  let! e := load_dotenv d e in producer_from_env e.

(** ** The builder classes

    A setter changes the object it is called on and returns a clone of it.
    Errors are [ValueError]s with their message. *)

Definition required (name : string) (v : option string) : result string string :=
  match v with Some s => Ok s | None => Err ("missing required field: " +:+ name) end.

Record PyConsumerConfigBuilder := {
  cb_brokers : option string;
  cb_group_id : option string;
  cb_topics : list string;
  cb_auto_offset_reset : string;
  cb_enable_auto_commit : bool;
  cb_session_timeout_ms : Z;
  cb_bootstrap_timeout_ms : option Z;
  cb_heartbeat_interval_ms : Z;
  cb_max_poll_interval_ms : Z;
  cb_security_protocol : option string;
  cb_sasl_mechanism : option string;
  cb_sasl_username : option string;
  cb_sasl_password : option string;
  cb_fetch_min_bytes : Z;
  cb_max_partition_fetch_bytes : Z;
  cb_partition_assignment_strategy : string;
  cb_retry_backoff_ms : Z;
  cb_message_batch_size : Z;
  cb_default_retry_policy : option PyRetryPolicy;
  cb_dlq_topic_prefix : option string;
  cb_drain_timeout_secs : option Z;
  cb_num_workers : option Z;
  cb_enable_auto_offset_store : option bool;
  cb_observability_config : option PyObservabilityConfig;
  cb_handler_timeout_ms : option Z
}.

Inductive pyconsumer_builder_call :=
| CbBrokers (x : string)
| CbGroupId (x : string)
| CbTopics (x : list string)
| CbAddTopic (t : string)
| CbAutoOffsetReset (x : string)
| CbEnableAutoCommit (x : bool)
| CbSessionTimeoutMs (x : Z)
| CbBootstrapTimeoutMs (x : Z)
| CbHeartbeatIntervalMs (x : Z)
| CbMaxPollIntervalMs (x : Z)
| CbSecurityProtocol (x : string)
| CbSaslMechanism (mechanism username password : string)
| CbFetchMinBytes (x : Z)
| CbMaxPartitionFetchBytes (x : Z)
| CbPartitionAssignmentStrategy (x : string)
| CbRetryBackoffMs (x : Z)
| CbMessageBatchSize (x : Z)
| CbDefaultRetryPolicy (x : PyRetryPolicy)
| CbDlqTopicPrefix (x : string)
| CbDrainTimeoutSecs (x : Z)
| CbNumWorkers (x : Z)
| CbEnableAutoOffsetStore (x : bool)
| CbObservabilityConfig (x : PyObservabilityConfig)
| CbHandlerTimeoutMs (x : Z).

Definition pyconsumer_builder_new : PyConsumerConfigBuilder :=
  {| cb_brokers := None;
     cb_group_id := None;
     cb_topics := [];
     cb_auto_offset_reset := "earliest";
     cb_enable_auto_commit := false;
     cb_session_timeout_ms := 30000;
     cb_bootstrap_timeout_ms := None;
     cb_heartbeat_interval_ms := 3000;
     cb_max_poll_interval_ms := 300000;
     cb_security_protocol := None;
     cb_sasl_mechanism := None;
     cb_sasl_username := None;
     cb_sasl_password := None;
     cb_fetch_min_bytes := 1;
     cb_max_partition_fetch_bytes := 1048576;
     cb_partition_assignment_strategy := "roundrobin";
     cb_retry_backoff_ms := 100;
     cb_message_batch_size := 100;
     cb_default_retry_policy := None;
     cb_dlq_topic_prefix := None;
     cb_drain_timeout_secs := None;
     cb_num_workers := None;
     cb_enable_auto_offset_store := None;
     cb_observability_config := None;
     cb_handler_timeout_ms := None |}.

Definition pyconsumer_builder_set (b : PyConsumerConfigBuilder) (c : pyconsumer_builder_call)
    : PyConsumerConfigBuilder :=
  {| cb_brokers := match c with CbBrokers x => Some x | _ => cb_brokers b end;
     cb_group_id := match c with CbGroupId x => Some x | _ => cb_group_id b end;
     cb_topics :=
       match c with CbTopics x => x | CbAddTopic t => cb_topics b ++ [t] | _ => cb_topics b end;
     cb_auto_offset_reset :=
       match c with CbAutoOffsetReset x => x | _ => cb_auto_offset_reset b end;
     cb_enable_auto_commit :=
       match c with CbEnableAutoCommit x => x | _ => cb_enable_auto_commit b end;
     cb_session_timeout_ms :=
       match c with CbSessionTimeoutMs x => x | _ => cb_session_timeout_ms b end;
     cb_bootstrap_timeout_ms :=
       match c with CbBootstrapTimeoutMs x => Some x | _ => cb_bootstrap_timeout_ms b end;
     cb_heartbeat_interval_ms :=
       match c with CbHeartbeatIntervalMs x => x | _ => cb_heartbeat_interval_ms b end;
     cb_max_poll_interval_ms :=
       match c with CbMaxPollIntervalMs x => x | _ => cb_max_poll_interval_ms b end;
     cb_security_protocol :=
       match c with CbSecurityProtocol x => Some x | _ => cb_security_protocol b end;
     cb_sasl_mechanism :=
       match c with CbSaslMechanism m _ _ => Some m | _ => cb_sasl_mechanism b end;
     cb_sasl_username := match c with CbSaslMechanism _ u _ => Some u | _ => cb_sasl_username b end;
     cb_sasl_password := match c with CbSaslMechanism _ _ p => Some p | _ => cb_sasl_password b end;
     cb_fetch_min_bytes := match c with CbFetchMinBytes x => x | _ => cb_fetch_min_bytes b end;
     cb_max_partition_fetch_bytes :=
       match c with CbMaxPartitionFetchBytes x => x | _ => cb_max_partition_fetch_bytes b end;
     cb_partition_assignment_strategy :=
       match c with CbPartitionAssignmentStrategy x => x
       | _ => cb_partition_assignment_strategy b end;
     cb_retry_backoff_ms := match c with CbRetryBackoffMs x => x | _ => cb_retry_backoff_ms b end;
     cb_message_batch_size :=
       match c with CbMessageBatchSize x => x | _ => cb_message_batch_size b end;
     cb_default_retry_policy :=
       match c with CbDefaultRetryPolicy x => Some x | _ => cb_default_retry_policy b end;
     cb_dlq_topic_prefix :=
       match c with CbDlqTopicPrefix x => Some x | _ => cb_dlq_topic_prefix b end;
     cb_drain_timeout_secs :=
       match c with CbDrainTimeoutSecs x => Some x | _ => cb_drain_timeout_secs b end;
     cb_num_workers := match c with CbNumWorkers x => Some x | _ => cb_num_workers b end;
     cb_enable_auto_offset_store :=
       match c with CbEnableAutoOffsetStore x => Some x | _ => cb_enable_auto_offset_store b end;
     cb_observability_config :=
       match c with CbObservabilityConfig x => Some x | _ => cb_observability_config b end;
     cb_handler_timeout_ms :=
       match c with CbHandlerTimeoutMs x => Some x | _ => cb_handler_timeout_ms b end |}.

Definition make_consumer_builder_clone (b : PyConsumerConfigBuilder) : PyConsumerConfigBuilder :=
  {| cb_brokers := cb_brokers b;
     cb_group_id := cb_group_id b;
     cb_topics := cb_topics b;
     cb_auto_offset_reset := cb_auto_offset_reset b;
     cb_enable_auto_commit := cb_enable_auto_commit b;
     cb_session_timeout_ms := cb_session_timeout_ms b;
     cb_bootstrap_timeout_ms := cb_bootstrap_timeout_ms b;
     cb_heartbeat_interval_ms := cb_heartbeat_interval_ms b;
     cb_max_poll_interval_ms := cb_max_poll_interval_ms b;
     cb_security_protocol := cb_security_protocol b;
     cb_sasl_mechanism := cb_sasl_mechanism b;
     cb_sasl_username := cb_sasl_username b;
     cb_sasl_password := cb_sasl_password b;
     cb_fetch_min_bytes := cb_fetch_min_bytes b;
     cb_max_partition_fetch_bytes := cb_max_partition_fetch_bytes b;
     cb_partition_assignment_strategy := cb_partition_assignment_strategy b;
     cb_retry_backoff_ms := cb_retry_backoff_ms b;
     cb_message_batch_size := cb_message_batch_size b;
     cb_default_retry_policy := cb_default_retry_policy b;
     cb_dlq_topic_prefix := cb_dlq_topic_prefix b;
     cb_drain_timeout_secs := cb_drain_timeout_secs b;
     cb_num_workers := cb_num_workers b;
     cb_enable_auto_offset_store := cb_enable_auto_offset_store b;
     cb_observability_config := cb_observability_config b;
     cb_handler_timeout_ms := cb_handler_timeout_ms b |}.

Definition pyconsumer_builder_build (b : PyConsumerConfigBuilder)
    : result PyConsumerConfig string :=
  let! brokers := required "brokers" (cb_brokers b) in
  let! group_id := required "group_id" (cb_group_id b) in
  if bool_decide (cb_topics b = []) then Err "at least one topic must be specified"
  else Ok {| py_brokers := brokers;
          py_group_id := group_id;
          py_topics := cb_topics b;
          py_auto_offset_reset := cb_auto_offset_reset b;
          py_enable_auto_commit := cb_enable_auto_commit b;
          py_session_timeout_ms := cb_session_timeout_ms b;
          py_bootstrap_timeout_ms := cb_bootstrap_timeout_ms b;
          py_heartbeat_interval_ms := cb_heartbeat_interval_ms b;
          py_max_poll_interval_ms := cb_max_poll_interval_ms b;
          py_security_protocol := cb_security_protocol b;
          py_sasl_mechanism := cb_sasl_mechanism b;
          py_sasl_username := cb_sasl_username b;
          py_sasl_password := cb_sasl_password b;
          py_fetch_min_bytes := cb_fetch_min_bytes b;
          py_max_partition_fetch_bytes := cb_max_partition_fetch_bytes b;
          py_partition_assignment_strategy := cb_partition_assignment_strategy b;
          py_retry_backoff_ms := cb_retry_backoff_ms b;
          py_message_batch_size := cb_message_batch_size b;
          py_default_retry_policy := cb_default_retry_policy b;
          py_dlq_topic_prefix := cb_dlq_topic_prefix b;
          py_drain_timeout_secs := cb_drain_timeout_secs b;
          py_num_workers := cb_num_workers b;
          py_enable_auto_offset_store := cb_enable_auto_offset_store b;
          py_observability_config := cb_observability_config b;
          py_handler_timeout_ms := cb_handler_timeout_ms b |}.

Record ProducerConfigBuilder := {
  pb_brokers : option string;
  pb_message_timeout_ms : Z;
  pb_queue_buffering_max_messages : Z;
  pb_queue_buffering_max_kbytes : Z;
  pb_batch_num_messages : Z;
  pb_compression_type : string;
  pb_linger_ms : Z;
  pb_request_timeout_ms : Z;
  pb_retry_backoff_ms : Z;
  pb_retries : Z;
  pb_max_in_flight : Z;
  pb_enable_idempotence : bool;
  pb_acks : string;
  pb_security_protocol : option string;
  pb_sasl_mechanism : option string;
  pb_sasl_username : option string;
  pb_sasl_password : option string
}.

Inductive producer_builder_call :=
| PbBrokers (x : string)
| PbMessageTimeoutMs (x : Z)
| PbQueueBufferingMaxMessages (x : Z)
| PbQueueBufferingMaxKbytes (x : Z)
| PbBatchNumMessages (x : Z)
| PbCompressionType (x : string)
| PbLingerMs (x : Z)
| PbRequestTimeoutMs (x : Z)
| PbRetryBackoffMs (x : Z)
| PbRetries (x : Z)
| PbMaxInFlight (x : Z)
| PbEnableIdempotence (x : bool)
| PbAcks (x : string)
| PbSecurityProtocol (x : string)
| PbSaslMechanism (mechanism username password : string).

Definition producer_builder_new : ProducerConfigBuilder :=
  {| pb_brokers := None;
     pb_message_timeout_ms := 30000;
     pb_queue_buffering_max_messages := 100000;
     pb_queue_buffering_max_kbytes := 1048576;
     pb_batch_num_messages := 10000;
     pb_compression_type := "snappy";
     pb_linger_ms := 5;
     pb_request_timeout_ms := 30000;
     pb_retry_backoff_ms := 100;
     pb_retries := 2147483647;
     pb_max_in_flight := 5;
     pb_enable_idempotence := true;
     pb_acks := "all";
     pb_security_protocol := None;
     pb_sasl_mechanism := None;
     pb_sasl_username := None;
     pb_sasl_password := None |}.

Definition producer_builder_set (b : ProducerConfigBuilder) (c : producer_builder_call)
    : ProducerConfigBuilder :=
  {| pb_brokers := match c with PbBrokers x => Some x | _ => pb_brokers b end;
     pb_message_timeout_ms :=
       match c with PbMessageTimeoutMs x => x | _ => pb_message_timeout_ms b end;
     pb_queue_buffering_max_messages :=
       match c with PbQueueBufferingMaxMessages x => x | _ => pb_queue_buffering_max_messages b end;
     pb_queue_buffering_max_kbytes :=
       match c with PbQueueBufferingMaxKbytes x => x | _ => pb_queue_buffering_max_kbytes b end;
     pb_batch_num_messages :=
       match c with PbBatchNumMessages x => x | _ => pb_batch_num_messages b end;
     pb_compression_type :=
       match c with PbCompressionType x => x | _ => pb_compression_type b end;
     pb_linger_ms := match c with PbLingerMs x => x | _ => pb_linger_ms b end;
     pb_request_timeout_ms :=
       match c with PbRequestTimeoutMs x => x | _ => pb_request_timeout_ms b end;
     pb_retry_backoff_ms := match c with PbRetryBackoffMs x => x | _ => pb_retry_backoff_ms b end;
     pb_retries := match c with PbRetries x => x | _ => pb_retries b end;
     pb_max_in_flight := match c with PbMaxInFlight x => x | _ => pb_max_in_flight b end;
     pb_enable_idempotence :=
       match c with PbEnableIdempotence x => x | _ => pb_enable_idempotence b end;
     pb_acks := match c with PbAcks x => x | _ => pb_acks b end;
     pb_security_protocol :=
       match c with PbSecurityProtocol x => Some x | _ => pb_security_protocol b end;
     pb_sasl_mechanism :=
       match c with PbSaslMechanism m _ _ => Some m | _ => pb_sasl_mechanism b end;
     pb_sasl_username := match c with PbSaslMechanism _ u _ => Some u | _ => pb_sasl_username b end;
     pb_sasl_password :=
       match c with PbSaslMechanism _ _ p => Some p | _ => pb_sasl_password b end |}.

Definition make_producer_builder_clone (b : ProducerConfigBuilder) : ProducerConfigBuilder :=
  {| pb_brokers := pb_brokers b;
     pb_message_timeout_ms := pb_message_timeout_ms b;
     pb_queue_buffering_max_messages := pb_queue_buffering_max_messages b;
     pb_queue_buffering_max_kbytes := pb_queue_buffering_max_kbytes b;
     pb_batch_num_messages := pb_batch_num_messages b;
     pb_compression_type := pb_compression_type b;
     pb_linger_ms := pb_linger_ms b;
     pb_request_timeout_ms := pb_request_timeout_ms b;
     pb_retry_backoff_ms := pb_retry_backoff_ms b;
     pb_retries := pb_retries b;
     pb_max_in_flight := pb_max_in_flight b;
     pb_enable_idempotence := pb_enable_idempotence b;
     pb_acks := pb_acks b;
     pb_security_protocol := pb_security_protocol b;
     pb_sasl_mechanism := pb_sasl_mechanism b;
     pb_sasl_username := pb_sasl_username b;
     pb_sasl_password := pb_sasl_password b |}.

Definition producer_builder_build (b : ProducerConfigBuilder) : result ProducerConfig string :=
  let! brokers := required "brokers" (pb_brokers b) in
  Ok {| pr_brokers := brokers;
          pr_message_timeout_ms := pb_message_timeout_ms b;
          pr_queue_buffering_max_messages := pb_queue_buffering_max_messages b;
          pr_queue_buffering_max_kbytes := pb_queue_buffering_max_kbytes b;
          pr_batch_num_messages := pb_batch_num_messages b;
          pr_compression_type := pb_compression_type b;
          pr_linger_ms := pb_linger_ms b;
          pr_request_timeout_ms := pb_request_timeout_ms b;
          pr_retry_backoff_ms := pb_retry_backoff_ms b;
          pr_retries := pb_retries b;
          pr_max_in_flight := pb_max_in_flight b;
          pr_enable_idempotence := pb_enable_idempotence b;
          pr_acks := pb_acks b;
          pr_security_protocol := pb_security_protocol b;
          pr_sasl_mechanism := pb_sasl_mechanism b;
          pr_sasl_username := pb_sasl_username b;
          pr_sasl_password := pb_sasl_password b |}.


(** ** Builder objects

    The builders live in the heap of Python: a call on object [i] changes that
    object and puts a clone of it in a new one, which it returns. *)

Section objects.
Context {B C : Type} (set : B → C → B) (clone : B → B).

Definition object_call (h : list B) (i : nat) (c : C) : list B * nat :=
  match h !! i with
  | Some b => let b' := set b c in (<[i := b']> h ++ [clone b'], length h)
  | None => (h, i)
  end.

(** [b.x(..).y(..)]: each call on the object the previous one returned. *)
Fixpoint fluent (h : list B) (i : nat) (cs : list C) : list B * nat :=
  match cs with
  | [] => (h, i)
  | c :: cs => let r := object_call h i c in fluent r.1 r.2 cs
  end.

(** [b.x(..); b.y(..)]: every call on the same object. *)
Fixpoint statements (h : list B) (i : nat) (cs : list C) : list B :=
  match cs with
  | [] => h
  | c :: cs => statements (object_call h i c).1 i cs
  end.

Hypothesis clone_id : ∀ b, clone b = b.

Lemma object_call_spec h i c b :
  h !! i = Some b →
  (object_call h i c).1 !! (object_call h i c).2 = Some (set b c) ∧
  (object_call h i c).1 !! i = Some (set b c) ∧
  (∀ j, j ≠ i → (j < length h)%nat → (object_call h i c).1 !! j = h !! j) ∧
  (length h ≤ length (object_call h i c).1)%nat ∧ (object_call h i c).2 = length h.
Proof.
  intros Hb. pose proof (lookup_lt_Some _ _ _ Hb) as Hlt.
  unfold object_call. rewrite Hb. simpl. rewrite clone_id. split_and!.
  - rewrite lookup_app_r by (rewrite length_insert; lia).
    by rewrite length_insert, Nat.sub_diag.
  - rewrite lookup_app_l by (rewrite length_insert; lia). by apply list_lookup_insert_eq.
  - intros j Hj Hl. rewrite lookup_app_l by (rewrite length_insert; lia).
    by apply list_lookup_insert_ne.
  - rewrite length_app, length_insert. lia.
  - done.
Qed.

Lemma statements_spec cs : ∀ h i b,
  h !! i = Some b →
  statements h i cs !! i = Some (foldl set b cs) ∧
  (∀ j, j ≠ i → (j < length h)%nat → statements h i cs !! j = h !! j).
Proof.
  induction cs as [|c cs IH]; intros h i b Hb; [done|]. cbn [statements foldl].
  destruct (object_call_spec h i c b Hb) as (_ & Hi & Hj & Hl & _).
  destruct (IH _ _ _ Hi) as [H1 H2]. split; [done|].
  intros j Hji Hlt. rewrite H2 by (done || lia). by apply Hj.
Qed.

(** The last object of a chain has every call; the first one only the first. *)
Lemma fluent_spec cs : ∀ h i b,
  h !! i = Some b →
  (fluent h i cs).1 !! (fluent h i cs).2 = Some (foldl set b cs) ∧
  (∀ j, j ≠ i → (j < length h)%nat → (fluent h i cs).1 !! j = h !! j) ∧
  (fluent h i cs).1 !! i = Some (foldl set b (take 1 cs)).
Proof.
  induction cs as [|c cs IH]; intros h i b Hb; [done|]. cbn [fluent foldl].
  destruct (object_call_spec h i c b Hb) as (Hr & Hi & Hj & Hl & Hn).
  pose proof (lookup_lt_Some _ _ _ Hb) as Hlt.
  destruct (IH _ _ _ Hr) as (H1 & H2 & H3). split_and!; [done| |].
  - intros j Hji Hl'. rewrite H2 by lia. by apply Hj.
  - rewrite H2 by lia. simpl. destruct cs; exact Hi.
Qed.

End objects.

(** The calls that rebuild a configuration. *)
Definition consumer_calls (c : PyConsumerConfig) : list pyconsumer_builder_call :=
  [CbBrokers (py_brokers c);
   CbGroupId (py_group_id c);
   CbTopics (py_topics c);
   CbAutoOffsetReset (py_auto_offset_reset c);
   CbEnableAutoCommit (py_enable_auto_commit c);
   CbSessionTimeoutMs (py_session_timeout_ms c)] ++
  option_list (CbBootstrapTimeoutMs <$> py_bootstrap_timeout_ms c) ++
  [CbHeartbeatIntervalMs (py_heartbeat_interval_ms c);
   CbMaxPollIntervalMs (py_max_poll_interval_ms c)] ++
  option_list (CbSecurityProtocol <$> py_security_protocol c) ++
  (match py_sasl_mechanism c, py_sasl_username c, py_sasl_password c with
   | Some m, Some u, Some p => [CbSaslMechanism m u p]
   | _, _, _ => []
   end) ++
  [CbFetchMinBytes (py_fetch_min_bytes c);
   CbMaxPartitionFetchBytes (py_max_partition_fetch_bytes c);
   CbPartitionAssignmentStrategy (py_partition_assignment_strategy c);
   CbRetryBackoffMs (py_retry_backoff_ms c);
   CbMessageBatchSize (py_message_batch_size c)] ++
  option_list (CbDefaultRetryPolicy <$> py_default_retry_policy c) ++
  option_list (CbDlqTopicPrefix <$> py_dlq_topic_prefix c) ++
  option_list (CbDrainTimeoutSecs <$> py_drain_timeout_secs c) ++
  option_list (CbNumWorkers <$> py_num_workers c) ++
  option_list (CbEnableAutoOffsetStore <$> py_enable_auto_offset_store c) ++
  option_list (CbObservabilityConfig <$> py_observability_config c) ++
  option_list (CbHandlerTimeoutMs <$> py_handler_timeout_ms c).

Definition producer_calls (c : ProducerConfig) : list producer_builder_call :=
  [PbBrokers (pr_brokers c);
   PbMessageTimeoutMs (pr_message_timeout_ms c);
   PbQueueBufferingMaxMessages (pr_queue_buffering_max_messages c);
   PbQueueBufferingMaxKbytes (pr_queue_buffering_max_kbytes c);
   PbBatchNumMessages (pr_batch_num_messages c);
   PbCompressionType (pr_compression_type c);
   PbLingerMs (pr_linger_ms c);
   PbRequestTimeoutMs (pr_request_timeout_ms c);
   PbRetryBackoffMs (pr_retry_backoff_ms c);
   PbRetries (pr_retries c);
   PbMaxInFlight (pr_max_in_flight c);
   PbEnableIdempotence (pr_enable_idempotence c);
   PbAcks (pr_acks c)] ++
  option_list (PbSecurityProtocol <$> pr_security_protocol c) ++
  (match pr_sasl_mechanism c, pr_sasl_username c, pr_sasl_password c with
   | Some m, Some u, Some p => [PbSaslMechanism m u p]
   | _, _, _ => []
   end).

(** ** Values a configuration can have *)

Definition opt_in (max : Z) (o : option Z) : Prop := ∀ n, o = Some n → 0 ≤ n ≤ max.

(** Every number is one of the type of its field. *)
Record consumer_typed (c : PyConsumerConfig) : Prop := {
  ct_session_timeout_ms : 0 ≤ py_session_timeout_ms c ≤ u32_max;
  ct_bootstrap_timeout_ms : opt_in u32_max (py_bootstrap_timeout_ms c);
  ct_heartbeat_interval_ms : 0 ≤ py_heartbeat_interval_ms c ≤ u32_max;
  ct_max_poll_interval_ms : 0 ≤ py_max_poll_interval_ms c ≤ u32_max;
  ct_fetch_min_bytes : 0 ≤ py_fetch_min_bytes c ≤ u32_max;
  ct_max_partition_fetch_bytes : 0 ≤ py_max_partition_fetch_bytes c ≤ u32_max;
  ct_retry_backoff_ms : 0 ≤ py_retry_backoff_ms c ≤ u32_max;
  ct_message_batch_size : 0 ≤ py_message_batch_size c ≤ u64_max;
  ct_drain_timeout_secs : opt_in u64_max (py_drain_timeout_secs c);
  ct_num_workers : opt_in u32_max (py_num_workers c);
  ct_handler_timeout_ms : opt_in u64_max (py_handler_timeout_ms c)
}.

Record producer_typed (c : ProducerConfig) : Prop := {
  pt_message_timeout_ms : 0 ≤ pr_message_timeout_ms c ≤ u64_max;
  pt_queue_buffering_max_messages : 0 ≤ pr_queue_buffering_max_messages c ≤ u32_max;
  pt_queue_buffering_max_kbytes : 0 ≤ pr_queue_buffering_max_kbytes c ≤ u32_max;
  pt_batch_num_messages : 0 ≤ pr_batch_num_messages c ≤ u32_max;
  pt_linger_ms : 0 ≤ pr_linger_ms c ≤ u32_max;
  pt_request_timeout_ms : 0 ≤ pr_request_timeout_ms c ≤ u32_max;
  pt_retry_backoff_ms : 0 ≤ pr_retry_backoff_ms c ≤ u32_max;
  pt_retries : 0 ≤ pr_retries c ≤ u32_max;
  pt_max_in_flight : 0 ≤ pr_max_in_flight c ≤ u32_max
}.

(** What a reader finds in the environment, field by field. *)
Record consumer_reads (e : Env) (c : PyConsumerConfig) : Prop := {
  cr_brokers : py_brokers c = var e "KAFKA_BROKERS" "localhost:9092";
  cr_group_id : py_group_id c = var e "KAFKA_GROUP_ID" "rust-consumer-group";
  cr_topics : py_topics c = trim <$> str_split "," (var e "KAFKA_TOPICS" "transactions,events");
  cr_auto_offset_reset : py_auto_offset_reset c = var e "KAFKA_AUTO_OFFSET_RESET" "earliest";
  cr_enable_auto_commit : var_bool e "KAFKA_ENABLE_AUTO_COMMIT" "false" =
    Ok (py_enable_auto_commit c);
  cr_session_timeout_ms : var_u32 e "KAFKA_SESSION_TIMEOUT_MS" "30000" =
    Ok (py_session_timeout_ms c);
  cr_bootstrap_timeout_ms : opt_u32 e "KAFKA_BOOTSTRAP_TIMEOUT_MS" = Ok (py_bootstrap_timeout_ms c);
  cr_heartbeat_interval_ms : var_u32 e "KAFKA_HEARTBEAT_INTERVAL_MS" "3000" =
    Ok (py_heartbeat_interval_ms c);
  cr_max_poll_interval_ms : var_u32 e "KAFKA_MAX_POLL_INTERVAL_MS" "300000" =
    Ok (py_max_poll_interval_ms c);
  cr_security_protocol : py_security_protocol c = e !! "KAFKA_SECURITY_PROTOCOL";
  cr_sasl_mechanism : py_sasl_mechanism c = e !! "KAFKA_SASL_MECHANISM";
  cr_sasl_username : py_sasl_username c = e !! "KAFKA_SASL_USERNAME";
  cr_sasl_password : py_sasl_password c = e !! "KAFKA_SASL_PASSWORD";
  cr_fetch_min_bytes : var_u32 e "KAFKA_FETCH_MIN_BYTES" "1" = Ok (py_fetch_min_bytes c);
  cr_max_partition_fetch_bytes : var_u32 e "KAFKA_MAX_PARTITION_FETCH_BYTES" "1048576" =
    Ok (py_max_partition_fetch_bytes c);
  cr_partition_assignment_strategy : py_partition_assignment_strategy c =
      var e "KAFKA_PARTITION_ASSIGNMENT_STRATEGY" "roundrobin";
  cr_retry_backoff_ms : var_u32 e "KAFKA_RETRY_BACKOFF_MS" "100" = Ok (py_retry_backoff_ms c);
  cr_message_batch_size : var_usize e "KAFKA_MESSAGE_BATCH_SIZE" "100" =
    Ok (py_message_batch_size c);
  cr_default_retry_policy : py_default_retry_policy c = None;
  cr_dlq_topic_prefix : py_dlq_topic_prefix c = e !! "KAFKA_DLQ_TOPIC_PREFIX";
  cr_drain_timeout_secs : opt_u64 e "KAFKA_DRAIN_TIMEOUT_SECS" = Ok (py_drain_timeout_secs c);
  cr_num_workers : opt_u32 e "KAFKA_NUM_WORKERS" = Ok (py_num_workers c);
  cr_enable_auto_offset_store : opt_bool e "KAFKA_ENABLE_AUTO_OFFSET_STORE" =
    Ok (py_enable_auto_offset_store c);
  cr_observability_config : py_observability_config c = None;
  cr_handler_timeout_ms : opt_u64 e "KAFKA_HANDLER_TIMEOUT_MS" = Ok (py_handler_timeout_ms c)
}.

Record producer_reads (e : Env) (c : ProducerConfig) : Prop := {
  rr_brokers : pr_brokers c = var e "KAFKA_BROKERS" "localhost:9092";
  rr_message_timeout_ms : var_u64 e "PRODUCER_MESSAGE_TIMEOUT_MS" "30000" =
    Ok (pr_message_timeout_ms c);
  rr_queue_buffering_max_messages : var_u32 e "PRODUCER_QUEUE_BUFFERING_MAX_MESSAGES" "100000" =
    Ok (pr_queue_buffering_max_messages c);
  rr_queue_buffering_max_kbytes : var_u32 e "PRODUCER_QUEUE_BUFFERING_MAX_KBYTES" "1048576" =
    Ok (pr_queue_buffering_max_kbytes c);
  rr_batch_num_messages : var_u32 e "PRODUCER_BATCH_NUM_MESSAGES" "10000" =
    Ok (pr_batch_num_messages c);
  rr_compression_type : pr_compression_type c = var e "PRODUCER_COMPRESSION_TYPE" "snappy";
  rr_linger_ms : var_u32 e "PRODUCER_LINGER_MS" "5" = Ok (pr_linger_ms c);
  rr_request_timeout_ms : var_u32 e "PRODUCER_REQUEST_TIMEOUT_MS" "30000" =
    Ok (pr_request_timeout_ms c);
  rr_retry_backoff_ms : var_u32 e "PRODUCER_RETRY_BACKOFF_MS" "100" = Ok (pr_retry_backoff_ms c);
  rr_retries : var_u32 e "PRODUCER_RETRIES" "2147483647" = Ok (pr_retries c);
  rr_max_in_flight : var_u32 e "PRODUCER_MAX_IN_FLIGHT" "5" = Ok (pr_max_in_flight c);
  rr_enable_idempotence : var_bool e "PRODUCER_ENABLE_IDEMPOTENCE" "true" =
    Ok (pr_enable_idempotence c);
  rr_acks : pr_acks c = var e "PRODUCER_ACKS" "all";
  rr_security_protocol : pr_security_protocol c = e !! "KAFKA_SECURITY_PROTOCOL";
  rr_sasl_mechanism : pr_sasl_mechanism c = e !! "KAFKA_SASL_MECHANISM";
  rr_sasl_username : pr_sasl_username c = e !! "KAFKA_SASL_USERNAME";
  rr_sasl_password : pr_sasl_password c = e !! "KAFKA_SASL_PASSWORD"
}.

(** ** The environment that shows a configuration *)

Fixpoint env_of (l : list (string * option string)) : Env :=
  match l with
  | [] => ∅
  | (k, v) :: l => partial_alter (λ _, v) k (env_of l)
  end.

Fixpoint shown (k : string) (l : list (string * option string)) : option string :=
  match l with
  | [] => None
  | (k', v) :: l => if String.eqb k' k then v else shown k l
  end.

Fixpoint join_topics (l : list string) : string :=
  match l with
  | [] => ""
  | [t] => t
  | t :: l => t +:+ "," +:+ join_topics l
  end.

Definition consumer_env (c : PyConsumerConfig) : Env :=
  env_of [
    ("KAFKA_BROKERS", Some (py_brokers c));
    ("KAFKA_GROUP_ID", Some (py_group_id c));
    ("KAFKA_TOPICS", Some (join_topics (py_topics c)));
    ("KAFKA_AUTO_OFFSET_RESET", Some (py_auto_offset_reset c));
    ("KAFKA_ENABLE_AUTO_COMMIT", Some (bool_to_string (py_enable_auto_commit c)));
    ("KAFKA_SESSION_TIMEOUT_MS", Some (pretty (py_session_timeout_ms c)));
    ("KAFKA_BOOTSTRAP_TIMEOUT_MS", pretty <$> py_bootstrap_timeout_ms c);
    ("KAFKA_HEARTBEAT_INTERVAL_MS", Some (pretty (py_heartbeat_interval_ms c)));
    ("KAFKA_MAX_POLL_INTERVAL_MS", Some (pretty (py_max_poll_interval_ms c)));
    ("KAFKA_SECURITY_PROTOCOL", py_security_protocol c);
    ("KAFKA_SASL_MECHANISM", py_sasl_mechanism c);
    ("KAFKA_SASL_USERNAME", py_sasl_username c);
    ("KAFKA_SASL_PASSWORD", py_sasl_password c);
    ("KAFKA_FETCH_MIN_BYTES", Some (pretty (py_fetch_min_bytes c)));
    ("KAFKA_MAX_PARTITION_FETCH_BYTES", Some (pretty (py_max_partition_fetch_bytes c)));
    ("KAFKA_PARTITION_ASSIGNMENT_STRATEGY", Some (py_partition_assignment_strategy c));
    ("KAFKA_RETRY_BACKOFF_MS", Some (pretty (py_retry_backoff_ms c)));
    ("KAFKA_MESSAGE_BATCH_SIZE", Some (pretty (py_message_batch_size c)));
    ("KAFKA_DLQ_TOPIC_PREFIX", py_dlq_topic_prefix c);
    ("KAFKA_DRAIN_TIMEOUT_SECS", pretty <$> py_drain_timeout_secs c);
    ("KAFKA_NUM_WORKERS", pretty <$> py_num_workers c);
    ("KAFKA_ENABLE_AUTO_OFFSET_STORE", bool_to_string <$> py_enable_auto_offset_store c);
    ("KAFKA_HANDLER_TIMEOUT_MS", pretty <$> py_handler_timeout_ms c)].

Definition producer_env (c : ProducerConfig) : Env :=
  env_of [
    ("KAFKA_BROKERS", Some (pr_brokers c));
    ("PRODUCER_MESSAGE_TIMEOUT_MS", Some (pretty (pr_message_timeout_ms c)));
    ("PRODUCER_QUEUE_BUFFERING_MAX_MESSAGES", Some (pretty (pr_queue_buffering_max_messages c)));
    ("PRODUCER_QUEUE_BUFFERING_MAX_KBYTES", Some (pretty (pr_queue_buffering_max_kbytes c)));
    ("PRODUCER_BATCH_NUM_MESSAGES", Some (pretty (pr_batch_num_messages c)));
    ("PRODUCER_COMPRESSION_TYPE", Some (pr_compression_type c));
    ("PRODUCER_LINGER_MS", Some (pretty (pr_linger_ms c)));
    ("PRODUCER_REQUEST_TIMEOUT_MS", Some (pretty (pr_request_timeout_ms c)));
    ("PRODUCER_RETRY_BACKOFF_MS", Some (pretty (pr_retry_backoff_ms c)));
    ("PRODUCER_RETRIES", Some (pretty (pr_retries c)));
    ("PRODUCER_MAX_IN_FLIGHT", Some (pretty (pr_max_in_flight c)));
    ("PRODUCER_ENABLE_IDEMPOTENCE", Some (bool_to_string (pr_enable_idempotence c)));
    ("PRODUCER_ACKS", Some (pr_acks c));
    ("KAFKA_SECURITY_PROTOCOL", pr_security_protocol c);
    ("KAFKA_SASL_MECHANISM", pr_sasl_mechanism c);
    ("KAFKA_SASL_USERNAME", pr_sasl_username c);
    ("KAFKA_SASL_PASSWORD", pr_sasl_password c)].

(** ** Lemmas *)

Lemma consumer_clone_id b : make_consumer_builder_clone b = b.
Proof. by destruct b. Qed.

Lemma producer_clone_id b : make_producer_builder_clone b = b.
Proof. by destruct b. Qed.

(** A reader succeeds exactly when every field reads, and with these values. *)
Lemma consumer_from_env_reads e c : consumer_from_env e = Ok c ↔ consumer_reads e c.
Proof.
  split.
  - unfold consumer_from_env. intros H. repeat (apply rbind_Ok in H as (? & ? & H)).
    injection H as <-. by split.
  - intros []. unfold consumer_from_env.
    repeat match goal with H : _ = Ok _ |- _ => rewrite H; clear H; cbn [rbind] end.
    destruct c; simpl in *. by subst.
Qed.

Lemma producer_from_env_reads e c : producer_from_env e = Ok c ↔ producer_reads e c.
Proof.
  split.
  - unfold producer_from_env. intros H. repeat (apply rbind_Ok in H as (? & ? & H)).
    injection H as <-. by split.
  - intros []. unfold producer_from_env.
    repeat match goal with H : _ = Ok _ |- _ => rewrite H; clear H; cbn [rbind] end.
    destruct c; simpl in *. by subst.
Qed.

Lemma map_err_Ok {A E F : Type} (f : E → F) (x : result A E) a : map_err f x = Ok a ↔ x = Ok a.
Proof. destruct x; simpl; naive_solver. Qed.

Lemma opt_parsed_range max f e k o :
  0 ≤ max → opt_parsed (parse_uint max) f e k = Ok o → opt_in max o.
Proof.
  intros Hm. unfold opt_parsed. destruct (e !! k); intros H n ->; [|done].
  apply rbind_Ok in H as (m & H & [= <-]). apply map_err_Ok in H. by apply parse_uint_range in H.
Qed.

Lemma consumer_reads_typed e c : consumer_reads e c → consumer_typed c.
Proof.
  intros R. split;
    first [eapply opt_parsed_range; [|apply R]; done
          | eapply parse_uint_range; [|apply (map_err_Ok CfgInt); apply R]; done].
Qed.

Lemma producer_reads_typed e c : producer_reads e c → producer_typed c.
Proof.
  intros R. split; (eapply parse_uint_range; [|apply (map_err_Ok CfgInt); apply R]; done).
Qed.

Lemma lookup_env_of l k : env_of l !! k = shown k l.
Proof.
  induction l as [|[k' v] l IH]; [done|]. simpl. destruct (String.eqb_spec k' k) as [->|N].
  - apply lookup_partial_alter_eq.
  - rewrite lookup_partial_alter_ne by done. exact IH.
Qed.

Lemma opt_parsed_shown {A E : Type} (parse : string → result A E) f l k (print : A → string) o :
  shown k l = print <$> o → (∀ a, o = Some a → parse (print a) = Ok a) →
  opt_parsed parse f (env_of l) k = Ok o.
Proof.
  intros Hs Hp. unfold opt_parsed. rewrite lookup_env_of, Hs.
  destruct o as [a|]; [|done]. simpl. by rewrite (Hp a eq_refl).
Qed.

Lemma parsed_shown {A E : Type} (parse : string → result A E) (f : E → ConfigError) l k d
    (print : A → string) a :
  shown k l = Some (print a) → parse (print a) = Ok a →
  map_err f (parse (var (env_of l) k d)) = Ok a.
Proof. intros Hs Hp. unfold var. rewrite lookup_env_of, Hs. simpl. by rewrite Hp. Qed.

(** A list of topics that its text shows: no comma inside a topic, no white
    space around one. *)
Definition plain_topics (l : list string) : Prop :=
  l ≠ [] ∧ Forall (λ t, char_free "," t ∧ trim t = t) l.

Lemma join_topics_split l : plain_topics l → trim <$> str_split "," (join_topics l) = l.
Proof.
  intros [Hn Hl]. induction Hl as [|t l [Hc Ht] Hl IH]; [done|]. simpl.
  destruct l as [|u l]; [unfold char_free in Hc; rewrite Hc; simpl; by rewrite Ht|].
  rewrite str_split_sep by done. rewrite fmap_cons, Ht, IH by done. done.
Qed.

Ltac read_shown :=
  first
    [ eapply parsed_shown; [reflexivity|by apply parse_bool_to_string || by apply parse_uint_pretty]
    | eapply opt_parsed_shown; [reflexivity|intros ? ?; by apply parse_bool_to_string || apply parse_uint_pretty; eauto]
    | by rewrite lookup_env_of
    | by unfold var; rewrite lookup_env_of ].

Lemma consumer_env_reads c :
  consumer_typed c → plain_topics (py_topics c) →
  py_default_retry_policy c = None → py_observability_config c = None →
  consumer_reads (consumer_env c) c.
Proof.
  intros [] Ht Hp Ho. unfold consumer_env. split; try done; try read_shown.
  unfold var. rewrite lookup_env_of. symmetry. by apply join_topics_split.
Qed.

Lemma producer_env_reads c : producer_typed c → producer_reads (producer_env c) c.
Proof. intros []. unfold producer_env. split; read_shown. Qed.

(** A call that sets another field. *)
Lemma foldl_optional_skip {B C A V : Type} (p : B → V) (set : B → C → B) (k : A → C) o b :
  (∀ b x, p (set b (k x)) = p b) → p (foldl set b (option_list (k <$> o))) = p b.
Proof. intros H. destruct o; [apply H|done]. Qed.

Lemma call_sets {B C V : Type} (p : B → V) (set : B → C → B) c b v :
  (∀ b, p (set b c) = v) → p (set b c) = v.
Proof. auto. Qed.

Lemma call_skip {B C V : Type} (p : B → V) (set : B → C → B) c b v :
  (∀ b, p (set b c) = p b) → p b = v → p (set b c) = v.
Proof. intros H <-. apply H. Qed.

Lemma foldl_optional_sets {B C A V : Type} (p : B → option V) (set : B → C → B) (k : A → C)
    (f : A → V) o b :
  (∀ b x, p (set b (k x)) = Some (f x)) → p b = None →
  p (foldl set b (option_list (k <$> o))) = f <$> o.
Proof. intros H Hb. destruct o; [apply H|done]. Qed.

(** The value of one field after a list of setter calls: the last call that
    sets it. *)
Ltac last_call :=
  repeat first
    [ eapply call_sets; intros ?; reflexivity
    | eapply call_skip; [intros ?; reflexivity|]
    | rewrite foldl_optional_skip by (intros ? ?; reflexivity)
    | rewrite <- option_fmap_id; eapply foldl_optional_sets; [intros ? ?; reflexivity|] ];
  try reflexivity.

Definition sasl_complete {A : Type} (m u p : option A) : Prop :=
  (is_Some m ∧ is_Some u ∧ is_Some p) ∨ (m = None ∧ u = None ∧ p = None).

Lemma consumer_eta (c : PyConsumerConfig) :
  {| py_brokers := py_brokers c;
     py_group_id := py_group_id c;
     py_topics := py_topics c;
     py_auto_offset_reset := py_auto_offset_reset c;
     py_enable_auto_commit := py_enable_auto_commit c;
     py_session_timeout_ms := py_session_timeout_ms c;
     py_bootstrap_timeout_ms := py_bootstrap_timeout_ms c;
     py_heartbeat_interval_ms := py_heartbeat_interval_ms c;
     py_max_poll_interval_ms := py_max_poll_interval_ms c;
     py_security_protocol := py_security_protocol c;
     py_sasl_mechanism := py_sasl_mechanism c;
     py_sasl_username := py_sasl_username c;
     py_sasl_password := py_sasl_password c;
     py_fetch_min_bytes := py_fetch_min_bytes c;
     py_max_partition_fetch_bytes := py_max_partition_fetch_bytes c;
     py_partition_assignment_strategy := py_partition_assignment_strategy c;
     py_retry_backoff_ms := py_retry_backoff_ms c;
     py_message_batch_size := py_message_batch_size c;
     py_default_retry_policy := py_default_retry_policy c;
     py_dlq_topic_prefix := py_dlq_topic_prefix c;
     py_drain_timeout_secs := py_drain_timeout_secs c;
     py_num_workers := py_num_workers c;
     py_enable_auto_offset_store := py_enable_auto_offset_store c;
     py_observability_config := py_observability_config c;
     py_handler_timeout_ms := py_handler_timeout_ms c |} = c.
Proof. by destruct c. Qed.

Lemma producer_eta (c : ProducerConfig) :
  {| pr_brokers := pr_brokers c;
     pr_message_timeout_ms := pr_message_timeout_ms c;
     pr_queue_buffering_max_messages := pr_queue_buffering_max_messages c;
     pr_queue_buffering_max_kbytes := pr_queue_buffering_max_kbytes c;
     pr_batch_num_messages := pr_batch_num_messages c;
     pr_compression_type := pr_compression_type c;
     pr_linger_ms := pr_linger_ms c;
     pr_request_timeout_ms := pr_request_timeout_ms c;
     pr_retry_backoff_ms := pr_retry_backoff_ms c;
     pr_retries := pr_retries c;
     pr_max_in_flight := pr_max_in_flight c;
     pr_enable_idempotence := pr_enable_idempotence c;
     pr_acks := pr_acks c;
     pr_security_protocol := pr_security_protocol c;
     pr_sasl_mechanism := pr_sasl_mechanism c;
     pr_sasl_username := pr_sasl_username c;
     pr_sasl_password := pr_sasl_password c |} = c.
Proof. by destruct c. Qed.

(** A chain of setters is at most one call that sets all of SASL. *)
Lemma sasl_calls {A : Type} (k : string → string → string → A) m u p :
  sasl_complete m u p →
  (∃ m' u' p', m = Some m' ∧ u = Some u' ∧ p = Some p' ∧
     match m, u, p with Some m, Some u, Some p => [k m u p] | _, _, _ => [] end = [k m' u' p']) ∨
  (m = None ∧ u = None ∧ p = None ∧
     match m, u, p with Some m, Some u, Some p => [k m u p] | _, _, _ => [] end = []).
Proof. intros [([m' ->] & [u' ->] & [p' ->])|(-> & -> & ->)]; naive_solver. Qed.

Lemma consumer_calls_build c :
  py_topics c ≠ [] →
  sasl_complete (py_sasl_mechanism c) (py_sasl_username c) (py_sasl_password c) →
  pyconsumer_builder_build (foldl pyconsumer_builder_set pyconsumer_builder_new (consumer_calls c)) =
  Ok c.
Proof.
  intros Ht Hs. unfold consumer_calls, pyconsumer_builder_build. rewrite !foldl_app.
  destruct (sasl_calls CbSaslMechanism _ _ _ Hs) as [(m & u & p & Em & Eu & Ep & ->)|(Em & Eu & Ep & ->)];
    cbn [foldl];
    match goal with |- context [required "brokers" (cb_brokers ?b)] => set (B := b) end.
  all: assert (cb_brokers B = Some (py_brokers c)) as -> by (subst B; last_call).
  all: assert (cb_group_id B = Some (py_group_id c)) as -> by (subst B; last_call).
  all: assert (cb_topics B = py_topics c) as -> by (subst B; last_call).
  all: cbn [required rbind]; rewrite bool_decide_false by done.
  all: etransitivity; [|exact (f_equal Ok (consumer_eta c))]; rewrite ?Em, ?Eu, ?Ep.
  all: do 2 f_equal; subst B; last_call.
Qed.

Lemma producer_calls_build c :
  sasl_complete (pr_sasl_mechanism c) (pr_sasl_username c) (pr_sasl_password c) →
  producer_builder_build (foldl producer_builder_set producer_builder_new (producer_calls c)) = Ok c.
Proof.
  intros Hs. unfold producer_calls, producer_builder_build. rewrite !foldl_app.
  destruct (sasl_calls PbSaslMechanism _ _ _ Hs) as [(m & u & p & Em & Eu & Ep & ->)|(Em & Eu & Ep & ->)];
    cbn [foldl];
    match goal with |- context [required "brokers" (pb_brokers ?b)] => set (B := b) end.
  all: assert (pb_brokers B = Some (pr_brokers c)) as -> by (subst B; last_call).
  all: cbn [required rbind].
  all: etransitivity; [|exact (f_equal Ok (producer_eta c))]; rewrite Em, Eu, Ep.
  all: do 2 f_equal; subst B; last_call.
Qed.

(** The variables that are parsed, with their parsers: those with a default and
    those without one. *)
Definition parses {A E : Type} (f : string → result A E) (s : string) : bool := is_ok_result (f s).

Definition consumer_parsed_vars : list (string * (string → bool)) :=
  [("KAFKA_ENABLE_AUTO_COMMIT", parses parse_bool);
   ("KAFKA_SESSION_TIMEOUT_MS", parses parse_u32);
   ("KAFKA_BOOTSTRAP_TIMEOUT_MS", parses parse_u32);
   ("KAFKA_HEARTBEAT_INTERVAL_MS", parses parse_u32);
   ("KAFKA_MAX_POLL_INTERVAL_MS", parses parse_u32);
   ("KAFKA_FETCH_MIN_BYTES", parses parse_u32);
   ("KAFKA_MAX_PARTITION_FETCH_BYTES", parses parse_u32);
   ("KAFKA_RETRY_BACKOFF_MS", parses parse_u32);
   ("KAFKA_MESSAGE_BATCH_SIZE", parses parse_usize);
   ("KAFKA_DRAIN_TIMEOUT_SECS", parses parse_u64);
   ("KAFKA_NUM_WORKERS", parses parse_u32);
   ("KAFKA_ENABLE_AUTO_OFFSET_STORE", parses parse_bool);
   ("KAFKA_HANDLER_TIMEOUT_MS", parses parse_u64)].

Definition producer_parsed_vars : list (string * (string → bool)) :=
  [("PRODUCER_MESSAGE_TIMEOUT_MS", parses parse_u64);
   ("PRODUCER_QUEUE_BUFFERING_MAX_MESSAGES", parses parse_u32);
   ("PRODUCER_QUEUE_BUFFERING_MAX_KBYTES", parses parse_u32);
   ("PRODUCER_BATCH_NUM_MESSAGES", parses parse_u32);
   ("PRODUCER_LINGER_MS", parses parse_u32);
   ("PRODUCER_REQUEST_TIMEOUT_MS", parses parse_u32);
   ("PRODUCER_RETRY_BACKOFF_MS", parses parse_u32);
   ("PRODUCER_RETRIES", parses parse_u32);
   ("PRODUCER_MAX_IN_FLIGHT", parses parse_u32);
   ("PRODUCER_ENABLE_IDEMPOTENCE", parses parse_bool)].

(** No variable that is set is malformed. *)
Definition well_formed (e : Env) (vars : list (string * (string → bool))) : Prop :=
  Forall (λ kp, ∀ s, e !! kp.1 = Some s → kp.2 s = true) vars.

Lemma map_err_defined {A E F : Type} (f : E → F) (x : result A E) :
  is_ok_result (map_err f x) = is_ok_result x.
Proof. by destruct x. Qed.

(** A property of the value of a variable, if it has one. *)
Lemma if_set {A : Type} (o : option A) (P : A → Prop) :
  (∀ a, o = Some a → P a) ↔ match o with Some a => P a | None => True end.
Proof. destruct o; naive_solver. Qed.

Lemma parsed_defined {A E : Type} (parse : string → result A E) (f : E → ConfigError) e k d :
  is_ok_result (parse d) = true →
  is_ok_result (map_err f (parse (var e k d))) = true ↔ (∀ s, e !! k = Some s → parses parse s = true).
Proof.
  intros Hd. rewrite if_set, map_err_defined. unfold var, parses. by destruct (e !! k).
Qed.

Lemma opt_parsed_defined {A E : Type} (parse : string → result A E) (f : E → ConfigError) e k :
  is_ok_result (opt_parsed parse f e k) = true ↔ (∀ s, e !! k = Some s → parses parse s = true).
Proof.
  rewrite if_set. unfold opt_parsed, parses. destruct (e !! k) as [s|]; [|done].
  by destruct (parse s).
Qed.

Lemma rbind_defined {A B E : Type} (x : result A E) (f : A → result B E) (P Q : Prop) :
  (is_ok_result x = true ↔ Q) → (∀ a, is_ok_result (f a) = true ↔ P) →
  is_ok_result (rbind x f) = true ↔ Q ∧ P.
Proof. intros <- H. destruct x; simpl; [rewrite H|]; naive_solver. Qed.

Ltac all_parsed :=
  repeat (apply rbind_defined;
          [first [by apply parsed_defined | by apply opt_parsed_defined]|intros ?]);
  done.

Lemma consumer_from_env_defined e :
  is_ok_result (consumer_from_env e) = true ↔ well_formed e consumer_parsed_vars.
Proof.
  unfold well_formed, consumer_parsed_vars. rewrite !Forall_cons, Forall_nil. cbn [fst snd].
  unfold consumer_from_env. all_parsed.
Qed.

Lemma producer_from_env_defined e :
  is_ok_result (producer_from_env e) = true ↔ well_formed e producer_parsed_vars.
Proof.
  unfold well_formed, producer_parsed_vars. rewrite !Forall_cons, Forall_nil. cbn [fst snd].
  unfold producer_from_env. all_parsed.
Qed.

(** ** The properties *)

(** C29: Reading a configuration from the environment is total and typed.  It fails
    exactly when a variable that is set does not parse as the type of its field,
    whatever the others are, or when the file of variables cannot be loaded; what
    it returns has every number within the width of its type and at least one
    topic. *)
Theorem from_env_well_typed d e :
  (∀ c, consumer_config_from_env d e = Ok c → consumer_typed c ∧ py_topics c ≠ []) ∧
  (∀ c, producer_config_from_env d e = Ok c → producer_typed c) ∧
  (is_ok_result (consumer_config_from_env d e) = true ↔
     ∃ e', load_dotenv d e = Ok e' ∧ well_formed e' consumer_parsed_vars) ∧
  (is_ok_result (producer_config_from_env d e) = true ↔
     ∃ e', load_dotenv d e = Ok e' ∧ well_formed e' producer_parsed_vars).
Proof.
  unfold consumer_config_from_env, producer_config_from_env. split_and!.
  - intros c (e' & _ & H%consumer_from_env_reads)%rbind_Ok.
    split; [by eapply consumer_reads_typed|]. rewrite (cr_topics _ _ H).
    intros Hn%fmap_nil_inv. by eapply str_split_not_nil.
  - intros c (e' & _ & H%producer_from_env_reads)%rbind_Ok. by eapply producer_reads_typed.
  - destruct (load_dotenv d e) as [e'|]; simpl; [|naive_solver].
    rewrite consumer_from_env_defined. naive_solver.
  - destruct (load_dotenv d e) as [e'|]; simpl; [|naive_solver].
    rewrite producer_from_env_defined. naive_solver.
Qed.


(** C34: The builder classes give the configurations of the constructors.  From a
    fresh builder object, the setters that name every setting of a configuration
    build that configuration, whether each is called on the object the previous
    one returned or all on the same object; other builder objects are not
    affected, and after a chain the first object has the first setting alone.
    With the required settings only, the result is what the constructor's
    defaults give, and a missing one is an error that names it. *)
Theorem builders_agree_with_constructors c p (h : list PyConsumerConfigBuilder)
    (k : list ProducerConfigBuilder) i j :
  py_topics c ≠ [] →
  sasl_complete (py_sasl_mechanism c) (py_sasl_username c) (py_sasl_password c) →
  sasl_complete (pr_sasl_mechanism p) (pr_sasl_username p) (pr_sasl_password p) →
  h !! i = Some pyconsumer_builder_new → k !! j = Some producer_builder_new →
  let fc := fluent pyconsumer_builder_set make_consumer_builder_clone h i (consumer_calls c) in
  let sc := statements pyconsumer_builder_set make_consumer_builder_clone h i (consumer_calls c) in
  let fp := fluent producer_builder_set make_producer_builder_clone k j (producer_calls p) in
  let sp := statements producer_builder_set make_producer_builder_clone k j (producer_calls p) in
  pyconsumer_builder_build <$> fc.1 !! fc.2 = Some (Ok c) ∧
  pyconsumer_builder_build <$> sc !! i = Some (Ok c) ∧
  pyconsumer_builder_build <$> fc.1 !! i = Some (Err "missing required field: group_id") ∧
  producer_builder_build <$> fp.1 !! fp.2 = Some (Ok p) ∧
  producer_builder_build <$> sp !! j = Some (Ok p) ∧
  producer_builder_build <$> fp.1 !! j =
    Some (Ok (producer_config (pr_brokers p))) ∧
  (∀ i', i' ≠ i → (i' < length h)%nat → fc.1 !! i' = h !! i' ∧ sc !! i' = h !! i') ∧
  (∀ servers g ts, ts ≠ [] →
     pyconsumer_builder_build (foldl pyconsumer_builder_set pyconsumer_builder_new
       [CbBrokers servers; CbGroupId g; CbTopics ts]) = Ok (py_consumer_config servers g ts)).
Proof.
  intros Ht Hsc Hsp Hi Hj fc sc fp sp.
  destruct (fluent_spec pyconsumer_builder_set _ consumer_clone_id (consumer_calls c) _ _ _ Hi)
    as (F1 & F2 & F3).
  destruct (statements_spec pyconsumer_builder_set _ consumer_clone_id (consumer_calls c) _ _ _ Hi)
    as (S1 & S2).
  destruct (fluent_spec producer_builder_set _ producer_clone_id (producer_calls p) _ _ _ Hj)
    as (G1 & G2 & G3).
  destruct (statements_spec producer_builder_set _ producer_clone_id (producer_calls p) _ _ _ Hj)
    as (T1 & T2).
  subst fc sc fp sp. rewrite F1, S1, F3, G1, T1, G3. cbn [fmap option_fmap option_map].
  rewrite consumer_calls_build, producer_calls_build by done.
  split_and!; try done.
  - intros i' Hn Hl. by rewrite F2, S2.
  - intros servers g ts Hts. unfold pyconsumer_builder_build. simpl.
    by rewrite bool_decide_false.
Qed.

(** ** Witnesses *)

Definition demo_consumer : PyConsumerConfig := py_consumer_config "b:9092" "g" ["a"; "b.c"].
Definition demo_producer : ProducerConfig := producer_config "b:9092".


Lemma builders_agree_with_constructors_witness :
  pyconsumer_builder_build <$>
    statements pyconsumer_builder_set make_consumer_builder_clone [pyconsumer_builder_new] 0
      (consumer_calls demo_consumer) !! 0%nat = Some (Ok demo_consumer).
Proof.
  destruct (builders_agree_with_constructors demo_consumer demo_producer [pyconsumer_builder_new]
    [producer_builder_new] 0 0) as (_ & H & _).
  - done.
  - by right.
  - by right.
  - done.
  - done.
  - exact H.
Defined.
