(* ===== verification/UnitTests.v ===== *)
(** * The unit tests of the repository (src/, tests/)

    The tests that the repository keeps beside its code, run on the model.  A test
    is true when its assertions hold and it neither panics nor waits for ever.
    [unit_tests_of_the_core] says which of them the code does not pass: the model
    and the tests agree on what each test calls, and where they differ it is
    the code that does something else than the test expects.  Left out are the tests
    of derived traits, the performance run, those without an assertion on a value,
    and the one that blocks inside its executor. *)

From stdpp Require Import base gmap sets list strings pretty.
From S2P Require Import Prelude F64 Metrics Failure Message Shutdown Runner Dlq OffsetTracker OffsetProofs Retry Commit Queue Dispatcher Execution PoolState Worker FanOut Pool Context Config Builder PyConfig.

(** The body of a test, which may panic. *)
Definition passes (r : outcome bool) : bool := match r with Ret b => b | Panic => false end.

Definition panics {A : Type} (r : outcome A) : bool := negb (is_ret r).

Definition contains (s sub : string) : bool :=
  match String.index 0 sub s with Some _ => true | None => false end.

(** ** retry/retry_coordinator.rs *)

Definition network_timeout : FailureReason := ReasonRetryable NetworkTimeout.
Definition retry_key : string * Z * Z := ("topic", 0, 100).

Definition retryable_failure_triggers_retry : bool :=
  passes (
    let? r := record_failure retry_key network_timeout f64_half (retry_coordinator_new retry_policy_default) in
    let '((should_retry, should_dlq, delay), rc) := r in
    Ret (should_retry && negb should_dlq && bool_decide (is_Some delay) &&
         (attempt_count retry_key rc =? 1))).

Definition terminal_failure_skips_retry : bool :=
  passes (
    let? r := record_failure retry_key (ReasonTerminal DeserializationFailed) f64_half
        (retry_coordinator_new retry_policy_default) in
    let '((should_retry, should_dlq, delay), rc) := r in
    Ret (negb should_retry && should_dlq && bool_decide (delay = None))).

Definition max_attempts_exceeded_returns_no_retry : bool :=
  passes (
    let rc := retry_coordinator_new (retry_policy_new 2 (from_millis 100) (from_secs 30) f64_tenth) in
    let? r := record_failure retry_key network_timeout f64_half rc in
    let '((retry1, dlq1, _), rc) := r in
    let? r := record_failure retry_key network_timeout f64_half rc in
    let '((retry2, dlq2, _), rc) := r in
    let? r := record_failure retry_key network_timeout f64_half rc in
    let '((retry3, dlq3, delay3), rc) := r in
    Ret (retry1 && negb dlq1 && retry2 && negb dlq2 && negb retry3 && dlq3 && bool_decide (delay3 = None))).

Definition success_clears_retry_state : bool :=
  passes (
    let? r := record_failure retry_key network_timeout f64_half
                       (retry_coordinator_new retry_policy_default) in
    let '(_, rc) := r in
    let rc' := record_success retry_key rc in
    Ret ((attempt_count retry_key rc =? 1) && (attempt_count retry_key rc' =? 0))).

(** ** observability/metrics.rs *)

Definition metric_labels_sorts_lexicographically : bool :=
  let l := insert_label ("mode", "BatchSync")
             (insert_label ("handler_id", "h1") (insert_label ("topic", "my-topic") labels_new)) in
  bool_decide ((as_slice l).*1 = ["handler_id"; "mode"; "topic"]).

Definition metric_labels_empty : bool := bool_decide (as_slice labels_new = []).

(** ** shutdown/shutdown.rs *)

Definition new_starts_in_running : bool :=
  let c := coordinator_new 30 in bool_decide (phase c = Running) && (drain_timeout c =? from_secs 30).

Definition begin_draining_transitions_to_draining : bool :=
  passes (
    let? r := begin_draining (coordinator_new 30) in
    let '(c, (disp, work, comm)) := r in
    Ret (bool_decide (phase c = Draining) && negb disp && negb work && negb comm)).

Definition begin_draining_then_finalizing : bool :=
  passes (
    let? r := begin_draining (coordinator_new 30) in
    let '(c, _) := r in
    let? c := begin_finalizing c in
    Ret (bool_decide (phase c = Finalizing))).

Definition finalizing_then_done : bool :=
  passes (
    let? r := begin_draining (coordinator_new 30) in
    let '(c, _) := r in
    let? c := begin_finalizing c in
    let? c := set_done c in
    Ret (bool_decide (phase c = Done) && is_done c)).

Definition is_done_false_until_done : bool :=
  passes (
    let c0 := coordinator_new 30 in
    let? r := begin_draining c0 in
    let '(c1, _) := r in
    let? c2 := begin_finalizing c1 in
    let? c3 := set_done c2 in
    Ret (negb (is_done c0) && negb (is_done c1) && negb (is_done c2) && is_done c3)).

Definition double_begin_draining_panics : bool :=
  panics (let? r := begin_draining (coordinator_new 30) in let '(c, _) := r in begin_draining c).

Definition finalize_without_drain_panics : bool := panics (begin_finalizing (coordinator_new 30)).

Definition done_without_finalize_panics : bool :=
  panics (let? r := begin_draining (coordinator_new 30) in let '(c, _) := r in set_done c).

Definition shutdown_phase_display : bool :=
  bool_decide (phase_display <$> [Running; Draining; Finalizing; Done] =
               ["Running"; "Draining"; "Finalizing"; "Done"]).

Definition custom_drain_timeout : bool := drain_timeout (coordinator_new 60) =? from_secs 60.

(** ** offset/commit_task.rs: [now] is any instant *)

Definition commit_config_default_values : bool :=
  (commit_interval_ms commit_config_default =? 100) && (commit_max_messages commit_config_default =? 100).

Definition throttle_interval_not_ready (now : Z) : bool :=
  cs_should_commit commit_config_default now committer_state_new.

Definition throttle_batch_not_exceeded (now : Z) : bool :=
  cs_should_commit commit_config_default now {| last_commit := Some now; message_count := 0 |}.

Definition throttle_batch_exceeded (now : Z) : bool :=
  cs_should_commit commit_config_default now {| last_commit := Some now; message_count := 100 |}.

(** ** offset/offset_tracker.rs *)

Definition acks (l : list (Z * Z)) (t : OffsetTracker) : outcome OffsetTracker :=
  ofold (λ t po, tracker_ack "topic" po.1 po.2 t) t l.

Definition cursor_is (t : OffsetTracker) (p : Z) (o : option Z) : bool :=
  bool_decide (highest_contiguous "topic" p t = o).

Definition sequential_acks_advance_contiguous : bool :=
  passes (
    let? t := acks [(0, 10); (0, 11); (0, 12)] offset_tracker_new in
    Ret (cursor_is t 0 (Some 12))).

Definition out_of_order_acks_buffer_until_gap_fills : bool :=
  passes (
    let? t1 := acks [(0, 10); (0, 12)] offset_tracker_new in
    let? t2 := acks [(0, 11)] t1 in
    Ret (cursor_is t1 0 (Some 10) && cursor_is t2 0 (Some 12))).

Definition should_commit_true_when_next_offset_pending : bool :=
  passes (
    let? t1 := acks [(0, 10)] offset_tracker_new in
    let? t2 := acks [(0, 11)] t1 in
    Ret (should_commit "topic" 0 t1 && cursor_is t2 0 (Some 11) && negb (should_commit "topic" 0 t2))).

Definition failed_offset_does_not_advance_cursor : bool :=
  passes (
    let? t1 := acks [(0, 10); (0, 11); (0, 12)] offset_tracker_new in
    let t2 := tracker_mark_failed "topic" 0 11 t1 in
    Ret (cursor_is t1 0 (Some 12) && cursor_is t2 0 (Some 11) && should_commit "topic" 0 t2)).

Definition new_partition_starts_at_minus_one : bool :=
  (tracker_committed_offset "topic" 0 offset_tracker_new =? -1) && cursor_is offset_tracker_new 0 None.

Definition first_ack_advances_from_minus_one : bool :=
  passes (
    let? t := acks [(0, 0)] offset_tracker_new in
    Ret (cursor_is t 0 (Some 0) && negb (should_commit "topic" 0 t))).

Definition multiple_partitions_independent : bool :=
  passes (
    let? t1 := acks [(0, 5); (1, 10)] offset_tracker_new in
    let? t2 := acks [(0, 7)] t1 in
    let? t3 := acks [(1, 12)] t2 in
    Ret (cursor_is t1 0 (Some 5) && cursor_is t1 1 (Some 10) && cursor_is t2 0 (Some 5) &&
         cursor_is t3 1 (Some 12))).

(** ** worker_pool/fan_out.rs *)

Definition make_dummy_handler (name : string) : PythonHandler :=
  {| h_retry_policy := None; h_mode := SingleSync; h_batch_policy := None; handler_timeout := None;
     h_name := name; h_middleware := None |}.

Definition fan_out_tracker_caps_at_64 : bool :=
  bool_decide ((λ n, tracker_max_fan_out (tracker_new n)) <$> [128; 100; 64; 4] = [64; 64; 64; 4]).

Definition fan_out_tracker_try_acquire_slot_returns_false_when_exhausted : bool :=
  let '(a1, t) := try_acquire_slot (tracker_new 2) in
  let '(a2, t) := try_acquire_slot t in
  let '(a3, t) := try_acquire_slot t in
  a1 && a2 && negb a3 && tracker_exhausted t.

Definition fan_out_tracker_release_slot_decrements_inflight : bool :=
  let t0 := tracker_new 4 in
  let '(a, t1) := try_acquire_slot t0 in
  (inflight_count t0 =? 0) && a && (inflight_count t1 =? 1) && (inflight_count (release_slot t1) =? 0).

Definition fan_out_tracker_is_exhausted : bool :=
  let t0 := tracker_new 1 in
  let '(a, t1) := try_acquire_slot t0 in
  negb (tracker_exhausted t0) && a && tracker_exhausted t1 && negb (tracker_exhausted (release_slot t1)).

Definition fan_out_tracker_register_sink : bool :=
  let t0 := tracker_new 4 in
  let t1 := register_sink "topic-a" (make_dummy_handler "handler-a") None t0 in
  let t2 := register_sink "topic-b" (make_dummy_handler "handler-b") None t1 in
  (tracker_sink_count t0 =? 0)%nat && (tracker_sink_count t2 =? 2)%nat.

Definition callback_registry_generates_unique_branch_ids : bool :=
  let '(id1, r) := on_sink_complete 1 registry_new in
  let '(id2, r) := on_sink_complete 2 r in
  let '(id3, r) := on_sink_complete 3 r in
  negb (id1 =? id2) && negb (id2 =? id3) && negb (id1 =? id3).

Definition callback_registry_emit_invokes_callback : bool :=
  let '(branch_id, r) := on_sink_complete 1 registry_new in
  match (emit branch_id BranchOk r).1 with Some (1%nat, BranchOk) => true | _ => false end.

Definition fan_out_slot_manager_new_caps_at_64 : bool :=
  let m1 := slot_manager_new 128 "test" in
  let m2 := slot_manager_new 4 "test" in
  (slot_available m1 =? 64) && (max_slots m1 =? 64) && (slot_available m2 =? 4) && (max_slots m2 =? 4).

Definition fan_out_config_sink_count : bool :=
  (sink_count
     {| fo_sinks := [{| sink_topic := "topic-a"; sink_handler := make_dummy_handler "h1"; sink_timeout := None |};
                     {| sink_topic := "topic-b"; sink_handler := make_dummy_handler "h2"; sink_timeout := None |}];
        fo_max_fan_out := 4; fo_slot_manager := None |} =? 2)%nat.

Definition fan_out_config_is_exhausted_without_slot_manager : bool :=
  negb (config_exhausted {| fo_sinks := []; fo_max_fan_out := 4; fo_slot_manager := None |}).

(** A call that waits for a permit that nobody gives back never answers. *)
Definition fan_out_slot_manager_acquire_returns_ok : bool :=
  let m0 := slot_manager_new 2 "test-topic" in
  match slot_acquire m0 with
  | None => false
  | Some m1 =>
      (slot_available m0 =? 2) && (slot_available m1 =? 1) &&
      match slot_acquire m1 with Some m2 => slot_available m2 =? 0 | None => false end
  end.

(** [acquire] has an error for a closed semaphore only, and nothing closes it. *)
Definition fan_out_slot_manager_acquire_exhausted_returns_error : bool :=
  match slot_acquire (slot_manager_new 1 "test-topic") with
  | None => false
  | Some m1 => (slot_available m1 =? 0) && match slot_acquire m1 with Some _ | None => false end
  end.

(** ** worker_pool/concurrency.rs: the permits are held to the end of the test *)

Definition completes (r : option bool) : bool := default false r.

Definition handler_concurrency_acquire_and_release : bool :=
  completes (
    hc ← hc_acquire "topic-a" (handler_concurrency_new 2);
    hc ← hc_acquire "topic-a" hc;
    hc ← hc_acquire "topic-a" hc;
    hc ← hc_acquire "topic-a" (hc_release "topic-a" hc);
    Some true).

Definition handler_concurrency_per_handler_isolation : bool :=
  completes (
    hc ← hc_acquire "topic-a" (handler_concurrency_new 1);
    hc ← hc_acquire "topic-b" hc;
    Some true).

Definition handler_concurrency_available : bool :=
  let hc0 := handler_concurrency_new 3 in
  completes (
    hc1 ← hc_acquire "topic-x" hc0;
    hc2 ← hc_acquire "topic-x" hc1;
    Some (bool_decide (hc_available "topic-x" hc0 = Some 3) && bool_decide (hc_available "topic-x" hc1 = Some 2) &&
          bool_decide (hc_available "topic-x" hc2 = Some 1))).

Definition handler_concurrency_unknown_handler : bool :=
  let hc0 := handler_concurrency_new 5 in
  completes (
    hc1 ← hc_acquire "unknown" hc0;
    Some (bool_decide (hc_available "unknown" hc0 = None) && bool_decide (hc_available "unknown" hc1 = Some 5))).

(** ** worker_pool/pool.rs *)

Definition worker_pool_spawns_n_workers : bool :=
  is_ret (worker_pool_new (HO := hash_order_canonical string) 3 ["test"]
            {["test" := make_dummy_handler "test"]} queue_manager_new).

(** ** worker_pool/worker.rs: the token is cancelled before the loop is entered *)

Definition worker_loop_exits_on_cancel_when_idle : bool :=
  wk_stopped (worker_poll 0 true false (idle_worker [])
    {| we_retry := retry_coordinator_new retry_policy_default; we_queues := queue_manager_new;
       we_offsets := offset_tracker_new; we_dlq := dlq_producer_new; we_states := pool_state_new 1;
       we_sink := shared_sink_new; we_log := [] |}).1.

(** ** dispatcher/consumer_dispatcher.rs *)

Definition sent_ok (r : result DispatchOutcome DispatchError) : bool := is_ok_result r.

Definition registered_in (t : string) (cap : Z) (sem : option Z) (k : QueueManager → bool) : bool :=
  passes (let? qm := register_handler_with_semaphore t cap sem queue_manager_new in Ret (k qm)).

Definition pause_partition_carries_topic_name : bool :=
  bool_decide (bp_topic (PausePartition "my-topic" 0) = Some "my-topic").

Definition drop_action_has_no_topic : bool := bool_decide (bp_topic BpDrop = None).

Definition semaphore_blocks_when_no_permit : bool :=
  registered_in "test-topic" 10 (Some 1) (λ qm,
    let '(r1, _, qm) := send_with_policy_and_signal (fake "test-topic" 0 100) qm in
    let '(r2, _, qm) := send_with_policy_and_signal (fake "test-topic" 1 101) qm in
    sent_ok r1 && match r2 with Err (Backpressure _ _) => true | _ => false end).

Definition no_semaphore_allows_unlimited_dispatch : bool :=
  registered_in "test-topic" 100 None (λ qm,
    (foldl (λ s i, let '(r, _, qm) := send_with_policy_and_signal (fake "test-topic" (i `mod` 3) i) s.2 in
                   (s.1 && sent_ok r, qm)) (true, qm) (seqZ 0 50)).1).

Definition send_uses_default_policy : bool :=
  registered_in "test-topic" 10 None (λ qm, sent_ok (send (fake "test-topic" 0 0) qm).1).

Definition get_capacity_returns_registered_capacity : bool :=
  registered_in "test-topic" 42 None (λ qm,
    bool_decide (dispatcher_get_capacity "test-topic" qm = Some 42) &&
    bool_decide (dispatcher_get_capacity "unknown-topic" qm = None)).

(** ** tests/dispatcher_test.rs *)

Definition make_message (t : string) (p o : Z) : OwnedMessage :=
  {| topic := t; partition := p; offset := o; key := None; payload := Some (bytes_of_string "test");
     timestamp := NotAvailable; headers := [] |}.

Definition dispatcher_new_creates_empty_handlers : bool :=
  negb (sent_ok (send (make_message "unknown-topic" 0 0) queue_manager_new).1).

Definition register_handler_allows_sending_after_registration : bool :=
  registered_in "test-topic" 10 None (λ qm, sent_ok (send (make_message "test-topic" 0 1) qm).1).

Definition send_returns_dispatch_outcome_on_success : bool :=
  registered_in "test-topic" 10 None (λ qm,
    match (send (make_message "test-topic" 2 100) qm).1 with
    | Ok o => bool_decide (do_topic o = "test-topic") && (do_partition o =? 2) && (do_offset o =? 100)
    | Err _ => false
    end).

Definition send_returns_handler_not_registered_for_unknown_topic : bool :=
  registered_in "other-topic" 10 None (λ qm,
    match (send (make_message "unknown-topic" 0 1) qm).1 with Err (HandlerNotRegistered _) => true | _ => false end).

Definition send_returns_queue_full_when_channel_full : bool :=
  registered_in "test-topic" 1 None (λ qm,
    let '(r1, qm) := send (make_message "test-topic" 0 1) qm in
    let '(r2, qm) := send (make_message "test-topic" 0 2) qm in
    sent_ok r1 && match r2 with Err (Backpressure _ _) => true | _ => false end).

Definition send_returns_queue_closed_when_receiver_dropped : bool :=
  registered_in "test-topic" 10 None (λ qm,
    match (send (make_message "test-topic" 0 1) (queue_close "test-topic" qm)).1 with
    | Err (QueueClosed _) => true
    | _ => false
    end).

Definition dispatch_error_display_trait : bool :=
  registered_in "test-topic" 10 None (λ qm,
    match (send (make_message "unknown" 0 1) qm).1 with
    | Err e => contains (dispatch_error_text e) "unknown" &&
        (contains (dispatch_error_text e) "HandlerNotRegistered" || contains (dispatch_error_text e) "no handler registered")
    | Ok _ => false
    end).

Definition multiple_topics_independent_queues : bool :=
  passes (
    let? qm := dispatcher_register_handler "topic-a" 10 dispatcher_new in
    let? qm := dispatcher_register_handler "topic-b" 10 qm in
    let '(r1, qm) := send (make_message "topic-a" 0 1) qm in
    Ret (sent_ok r1 && sent_ok (send (make_message "topic-b" 1 2) qm).1)).

Definition dispatch_error_queue_full_variant_exists : bool :=
  contains (dispatch_error_text (QueueFull "my-topic" 10)) "full".

Definition dispatch_error_handler_not_registered_variant_exists : bool :=
  let s := dispatch_error_text (HandlerNotRegistered "my-topic") in contains s "handler" || contains s "registered".

Definition dispatch_error_queue_closed_variant_exists : bool :=
  contains (dispatch_error_text (QueueClosed "my-topic")) "closed".

(** ** tests/builder_test.rs *)

Definition consumer_built (calls : list builder_call) : result ConsumerConfig BuildError :=
  build_config (foldl builder_set consumer_builder_new calls).

Definition fails_with {A E : Type} (text : E → string) (sub : string) (r : result A E) : bool :=
  match r with Err e => contains (text e) sub | Ok _ => false end.

Definition consumer_builder_requires_brokers : bool :=
  fails_with build_error_text "brokers" (consumer_built [SetGroupId "test-group"; SetTopics ["test-topic"]]).

Definition consumer_builder_requires_group_id : bool :=
  fails_with build_error_text "group_id" (consumer_built [SetBrokers "localhost:9092"; SetTopics ["test-topic"]]).

Definition consumer_builder_requires_topics : bool :=
  fails_with build_error_text "topic" (consumer_built [SetBrokers "localhost:9092"; SetGroupId "test-group"]).

Definition consumer_builder_success_with_minimal_fields : bool :=
  match consumer_built [SetBrokers "localhost:9092"; SetGroupId "test-group"; SetTopics ["events"]] with
  | Ok c => bool_decide (brokers c = "localhost:9092") && bool_decide (group_id c = "test-group") &&
            bool_decide (topics c = ["events"])
  | Err _ => false
  end.

Definition consumer_builder_with_all_fields : bool :=
  match consumer_built
    [SetBrokers "localhost:9092"; SetGroupId "test-group"; SetTopics ["events"; "transactions"];
     SetAutoOffsetReset Latest; SetAutoCommit true; SetSessionTimeout (from_secs 60);
     SetHeartbeatInterval (from_secs 5); SetMaxPollInterval (from_secs 600); SetSecurityProtocol "PLAINTEXT";
     SetFetchMinBytes 2048; SetMaxPartitionFetchBytes 2097152; SetStrategy CooperativeSticky;
     SetRetryBackoff (from_millis 200); SetDlqTopicPrefix "dlq."; SetDrainTimeout 60] with
  | Ok c =>
      bool_decide (brokers c = "localhost:9092") && bool_decide (group_id c = "test-group") &&
      (length (topics c) =? 2)%nat && match auto_offset_reset c with Latest => true | _ => false end &&
      enable_auto_commit c && (session_timeout_ms c =? 60000) && (heartbeat_interval_ms c =? 5000) &&
      (max_poll_interval_ms c =? 600000) && bool_decide (security_protocol c = Some "PLAINTEXT") &&
      (fetch_min_bytes c =? 2048) && (max_partition_fetch_bytes c =? 2097152) &&
      match partition_assignment_strategy c with CooperativeSticky => true | _ => false end &&
      (retry_backoff_ms c =? 200) && bool_decide (dlq_topic_prefix c = "dlq.") && (drain_timeout_secs c =? 60)
  | Err _ => false
  end.

Definition producer_built (calls : list producer_builder_call) : result ProducerConfig string :=
  producer_builder_build (foldl producer_builder_set producer_builder_new calls).

Definition producer_builder_requires_brokers : bool := fails_with id "brokers" (producer_built []).

Definition producer_builder_success_with_brokers : bool :=
  match producer_built [PbBrokers "localhost:9092"] with
  | Ok c => bool_decide (pr_brokers c = "localhost:9092")
  | Err _ => false
  end.

Definition producer_builder_with_all_fields : bool :=
  match producer_built
    [PbBrokers "localhost:9092"; PbMessageTimeoutMs 60000; PbQueueBufferingMaxMessages 200000;
     PbQueueBufferingMaxKbytes 2097152; PbBatchNumMessages 20000; PbCompressionType "lz4"; PbLingerMs 10;
     PbRequestTimeoutMs 60000; PbRetryBackoffMs 200; PbRetries 5; PbMaxInFlight 10; PbEnableIdempotence false;
     PbAcks "1"; PbSecurityProtocol "PLAINTEXT"] with
  | Ok c =>
      bool_decide (pr_brokers c = "localhost:9092") && (pr_message_timeout_ms c =? 60000) &&
      (pr_queue_buffering_max_messages c =? 200000) && (pr_queue_buffering_max_kbytes c =? 2097152) &&
      (pr_batch_num_messages c =? 20000) && bool_decide (pr_compression_type c = "lz4") &&
      (pr_linger_ms c =? 10) && (pr_request_timeout_ms c =? 60000) && (pr_retry_backoff_ms c =? 200) &&
      (pr_retries c =? 5) && (pr_max_in_flight c =? 10) && negb (pr_enable_idempotence c) &&
      bool_decide (pr_acks c = "1") && bool_decide (pr_security_protocol c = Some "PLAINTEXT")
  | Err _ => false
  end.


(** ** What they say *)

Definition unit_tests : list (string * bool) :=
  [("retryable_failure_triggers_retry", retryable_failure_triggers_retry);
   ("terminal_failure_skips_retry", terminal_failure_skips_retry);
   ("max_attempts_exceeded_returns_no_retry", max_attempts_exceeded_returns_no_retry);
   ("success_clears_retry_state", success_clears_retry_state);
   ("metric_labels_sorts_lexicographically", metric_labels_sorts_lexicographically);
   ("metric_labels_empty", metric_labels_empty); ("new_starts_in_running", new_starts_in_running);
   ("begin_draining_transitions_to_draining", begin_draining_transitions_to_draining);
   ("begin_draining_then_finalizing", begin_draining_then_finalizing); ("finalizing_then_done", finalizing_then_done);
   ("is_done_false_until_done", is_done_false_until_done); ("double_begin_draining_panics", double_begin_draining_panics);
   ("finalize_without_drain_panics", finalize_without_drain_panics);
   ("done_without_finalize_panics", done_without_finalize_panics); ("shutdown_phase_display", shutdown_phase_display);
   ("custom_drain_timeout", custom_drain_timeout); ("commit_config_default_values", commit_config_default_values);
   ("sequential_acks_advance_contiguous", sequential_acks_advance_contiguous);
   ("out_of_order_acks_buffer_until_gap_fills", out_of_order_acks_buffer_until_gap_fills);
   ("should_commit_true_when_next_offset_pending", should_commit_true_when_next_offset_pending);
   ("failed_offset_does_not_advance_cursor", failed_offset_does_not_advance_cursor);
   ("new_partition_starts_at_minus_one", new_partition_starts_at_minus_one);
   ("first_ack_advances_from_minus_one", first_ack_advances_from_minus_one);
   ("multiple_partitions_independent", multiple_partitions_independent);
   ("fan_out_tracker_caps_at_64", fan_out_tracker_caps_at_64);
   ("fan_out_tracker_try_acquire_slot_returns_false_when_exhausted", fan_out_tracker_try_acquire_slot_returns_false_when_exhausted);
   ("fan_out_tracker_release_slot_decrements_inflight", fan_out_tracker_release_slot_decrements_inflight);
   ("fan_out_tracker_is_exhausted", fan_out_tracker_is_exhausted);
   ("fan_out_tracker_register_sink", fan_out_tracker_register_sink);
   ("callback_registry_generates_unique_branch_ids", callback_registry_generates_unique_branch_ids);
   ("callback_registry_emit_invokes_callback", callback_registry_emit_invokes_callback);
   ("fan_out_slot_manager_new_caps_at_64", fan_out_slot_manager_new_caps_at_64);
   ("fan_out_config_sink_count", fan_out_config_sink_count);
   ("fan_out_config_is_exhausted_without_slot_manager", fan_out_config_is_exhausted_without_slot_manager);
   ("fan_out_slot_manager_acquire_returns_ok", fan_out_slot_manager_acquire_returns_ok);
   ("fan_out_slot_manager_acquire_exhausted_returns_error", fan_out_slot_manager_acquire_exhausted_returns_error);
   ("handler_concurrency_acquire_and_release", handler_concurrency_acquire_and_release);
   ("handler_concurrency_per_handler_isolation", handler_concurrency_per_handler_isolation);
   ("handler_concurrency_available", handler_concurrency_available);
   ("handler_concurrency_unknown_handler", handler_concurrency_unknown_handler);
   ("worker_pool_spawns_n_workers", worker_pool_spawns_n_workers);
   ("worker_loop_exits_on_cancel_when_idle", worker_loop_exits_on_cancel_when_idle);
   ("pause_partition_carries_topic_name", pause_partition_carries_topic_name);
   ("drop_action_has_no_topic", drop_action_has_no_topic);
   ("semaphore_blocks_when_no_permit", semaphore_blocks_when_no_permit);
   ("no_semaphore_allows_unlimited_dispatch", no_semaphore_allows_unlimited_dispatch);
   ("send_uses_default_policy", send_uses_default_policy);
   ("get_capacity_returns_registered_capacity", get_capacity_returns_registered_capacity);
   ("dispatcher_new_creates_empty_handlers", dispatcher_new_creates_empty_handlers);
   ("register_handler_allows_sending_after_registration", register_handler_allows_sending_after_registration);
   ("send_returns_dispatch_outcome_on_success", send_returns_dispatch_outcome_on_success);
   ("send_returns_handler_not_registered_for_unknown_topic", send_returns_handler_not_registered_for_unknown_topic);
   ("send_returns_queue_full_when_channel_full", send_returns_queue_full_when_channel_full);
   ("send_returns_queue_closed_when_receiver_dropped", send_returns_queue_closed_when_receiver_dropped);
   ("dispatch_error_display_trait", dispatch_error_display_trait);
   ("multiple_topics_independent_queues", multiple_topics_independent_queues);
   ("dispatch_error_queue_full_variant_exists", dispatch_error_queue_full_variant_exists);
   ("dispatch_error_handler_not_registered_variant_exists", dispatch_error_handler_not_registered_variant_exists);
   ("dispatch_error_queue_closed_variant_exists", dispatch_error_queue_closed_variant_exists);
   ("consumer_builder_requires_brokers", consumer_builder_requires_brokers);
   ("consumer_builder_requires_group_id", consumer_builder_requires_group_id);
   ("consumer_builder_requires_topics", consumer_builder_requires_topics);
   ("consumer_builder_success_with_minimal_fields", consumer_builder_success_with_minimal_fields);
   ("consumer_builder_with_all_fields", consumer_builder_with_all_fields);
   ("producer_builder_requires_brokers", producer_builder_requires_brokers);
   ("producer_builder_success_with_brokers", producer_builder_success_with_brokers);
   ("producer_builder_with_all_fields", producer_builder_with_all_fields)].

Definition failing (ts : list (string * bool)) : list string := (filter (λ t, t.2 = false) ts).*1.

(** Of the tests of the repository that are about what the code computes, the code
    passes all but eleven: those that expect a retry more than the policy has
    attempts, a cursor that moves over a gap or back, no commit after a commit, a
    slot or a permit that is held or free when it is not, and a commit right after
    another. *)
Theorem unit_tests_of_the_core now :
  failing unit_tests =
    ["max_attempts_exceeded_returns_no_retry"; "should_commit_true_when_next_offset_pending";
     "failed_offset_does_not_advance_cursor"; "first_ack_advances_from_minus_one";
     "multiple_partitions_independent"; "fan_out_slot_manager_acquire_returns_ok";
     "fan_out_slot_manager_acquire_exhausted_returns_error"; "handler_concurrency_acquire_and_release";
     "handler_concurrency_available"; "handler_concurrency_unknown_handler"] ∧
  throttle_interval_not_ready now = true ∧ throttle_batch_not_exceeded now = false ∧
  throttle_batch_exceeded now = true.
Proof.
  split; [by vm_compute|]. split_and!; [done| |].
  - unfold throttle_batch_not_exceeded, cs_should_commit, saturating_sub. simpl. by rewrite Z.sub_diag.
  - unfold throttle_batch_exceeded, cs_should_commit. simpl. by rewrite orb_true_r.
Qed.
