(* ===== verification/Producer.v ===== *)
(** * Producer (src/producer/runtime.rs)

    The Python-facing producer: its methods put tasks in the channel of a worker
    thread and wait for their answers; the thread runs them one by one on
    rdkafka's producer.  Calls from several threads, the worker threads, and a
    second [init] are interleaved freely. *)

From Stdlib Require Import Strings.Byte.
From stdpp Require Import base gmap sets list strings pretty sorting.
From S2P Require Import Prelude F64 FromStr Config PyConfig.

(** ** The settings of the client ([create_producer]) *)

Definition producer_settings (c : ProducerConfig) : list (string * string) :=
  [("bootstrap.servers", pr_brokers c);
   ("message.timeout.ms", pretty (pr_message_timeout_ms c));
   ("queue.buffering.max.messages", pretty (pr_queue_buffering_max_messages c));
   ("queue.buffering.max.kbytes", pretty (pr_queue_buffering_max_kbytes c));
   ("batch.num.messages", pretty (pr_batch_num_messages c));
   ("compression.type", pr_compression_type c);
   ("linger.ms", pretty (pr_linger_ms c));
   ("request.timeout.ms", pretty (pr_request_timeout_ms c));
   ("retry.backoff.ms", pretty (pr_retry_backoff_ms c));
   ("retries", pretty (pr_retries c));
   ("max.in.flight.requests.per.connection", pretty (pr_max_in_flight c));
   ("enable.idempotence", bool_to_string (pr_enable_idempotence c));
   ("acks", pr_acks c)] ++
  option_list (pair "security.protocol" <$> pr_security_protocol c) ++
  option_list (pair "sasl.mechanism" <$> pr_sasl_mechanism c) ++
  option_list (pair "sasl.username" <$> pr_sasl_username c) ++
  option_list (pair "sasl.password" <$> pr_sasl_password c).

Definition producer_client_config (c : ProducerConfig) : ClientConfig :=
  foldl client_set ∅ (producer_settings c).

(** ** Records and tasks *)

(** rdkafka's [FutureRecord]. *)
Record FutureRecord := {
  rec_topic : string;
  rec_key : option (list byte);
  rec_payload : option (list byte);
  rec_partition : option Z;
  rec_headers : option (list (string * option (list byte)))
}.

Record SendArgs := {
  sd_topic : string;
  sd_key : option (list byte);
  sd_payload : option (list byte);
  sd_partition : option Z;
  sd_headers : option (list (string * list byte))
}.

Inductive ProducerTask :=
| TaskInit
| TaskSend (a : SendArgs)
| TaskFlush (timeout_ms : Z)
| TaskInFlightCount.

(** What a method returns to Python: a value or the text of a [RuntimeError]. *)
Inductive Answer :=
| AnsUnit
| AnsDelivered (partition offset : Z)
| AnsCount (n : Z)
| AnsError (message : string).

(** The record of [do_send]: headers are inserted one after the other. *)
Definition record_of (a : SendArgs) : FutureRecord :=
  {| rec_topic := sd_topic a; rec_key := sd_key a; rec_payload := sd_payload a;
     rec_partition := sd_partition a;
     rec_headers := foldl (λ hs kv, hs ++ [(kv.1, Some kv.2)]) [] <$> sd_headers a |}.

Definition send_timeout_ms : Z := 30000.
Definition CHANNEL_CAPACITY : nat := 100.

(** [flush]: ten seconds unless the caller says otherwise. *)
Definition flush_task (timeout_ms : option Z) : ProducerTask := TaskFlush (default 10000 timeout_ms).

Section producer.

(** rdkafka's producer: what it answers to a creation, a delivery, a flush and
    a count.  An error is given by its [Debug] text. *)
Context {P : Type} (p_create : ClientConfig → result P string)
  (p_send : FutureRecord → Z → P → result (Z * Z) string * P)
  (p_flush : Z → P → result unit string * P) (p_in_flight : P → Z).

Context (config : ProducerConfig).

Definition do_send (a : SendArgs) (client : option P) : Answer * option P * list FutureRecord :=
  match client with
  | None => (AnsError "Producer not initialized", None, [])
  | Some p =>
      let '(r, p) := p_send (record_of a) send_timeout_ms p in
      (match r with
       | Ok (part, off) => AnsDelivered part off
       | Err e => AnsError ("Failed to deliver message: " +:+ e)
       end, Some p, [record_of a])
  end.

Definition do_flush (timeout_ms : Z) (client : option P) : Answer * option P :=
  match client with
  | None => (AnsError "Producer not initialized", None)
  | Some p =>
      let '(r, p) := p_flush timeout_ms p in
      (match r with
       | Ok _ => AnsUnit
       | Err e => AnsError ("Failed to flush producer: " +:+ e)
       end, Some p)
  end.

Definition do_in_flight_count (client : option P) : Answer :=
  match client with
  | None => AnsError "Producer not initialized"
  | Some p => AnsCount (p_in_flight p)
  end.

(** One round of the worker thread: the answer, the client, and the records
    given to it. *)
Definition run_task (t : ProducerTask) (client : option P) : Answer * option P * list FutureRecord :=
  match t with
  | TaskInit =>
      match p_create (producer_client_config config) with
      | Ok p => (AnsUnit, Some p, [])
      | Err e => (AnsError e, client, [])
      end
  | TaskSend a => do_send a client
  | TaskFlush ms => let '(a, c) := do_flush ms client in (a, c, [])
  | TaskInFlightCount => (do_in_flight_count client, client, [])
  end.

(** ** The producer object and its worker threads *)

Inductive thread_status := ThSpawned | ThRunning | ThExited.

(** A worker thread with the tasks in its channel, each with the call that waits
    for it; [th_taken] is the history of the calls taken out of the channel. *)
Record thread := {
  th_status : thread_status;
  th_queue : list (nat * ProducerTask);
  th_taken : list nat
}.

(** [py_calls] is the history of the calls, by number, with their tasks,
    [py_answers] of the answers, and [py_records] of the records given to the
    client. *)
Record PyProducer := {
  py_client : option P;
  py_task_tx : option nat;
  py_threads : list thread;
  py_calls : list ProducerTask;
  py_answers : list (nat * Answer);
  py_records : list FutureRecord
}.

Definition producer_new : PyProducer :=
  {| py_client := None; py_task_tx := None; py_threads := []; py_calls := []; py_answers := [];
     py_records := [] |}.

Inductive producer_event :=
| EvSpawn                         (* [init] makes a channel and its thread *)
| EvCall (t : ProducerTask)       (* a method sends its task *)
| EvStart (w : nat) (rt_ok : bool) (* a thread builds its tokio runtime *)
| EvTask (w : nat)                (* a thread runs its next task *)
| EvExit (w : nat)                (* a thread finds its channel empty and closed *)
| EvDrop.                         (* the object is dropped *)

(** The methods: each sends its task and waits for the answer. *)
Definition producer_send (a : SendArgs) : producer_event := EvCall (TaskSend a).
Definition send_sync (a : SendArgs) : producer_event := producer_send a.
Definition producer_flush (timeout_ms : option Z) : producer_event := EvCall (flush_task timeout_ms).
Definition in_flight_count : producer_event := EvCall TaskInFlightCount.

Definition died (t : ProducerTask) : Answer :=
  AnsError match t with
           | TaskInit => "Worker thread died during producer init"
           | _ => "Worker thread died unexpectedly"
           end.

Definition closed (t : ProducerTask) : Answer :=
  AnsError match t with TaskInit => "Worker channel closed" | _ => "channel closed" end.

Definition with_thread (w : nat) (th : thread) (s : PyProducer) : PyProducer :=
  {| py_client := py_client s; py_task_tx := py_task_tx s; py_threads := <[w := th]> (py_threads s);
     py_calls := py_calls s; py_answers := py_answers s; py_records := py_records s |}.

Definition with_tx (tx : option nat) (ths : list thread) (s : PyProducer) : PyProducer :=
  {| py_client := py_client s; py_task_tx := tx; py_threads := ths; py_calls := py_calls s;
     py_answers := py_answers s; py_records := py_records s |}.

Definition with_answers (l : list (nat * Answer)) (s : PyProducer) : PyProducer :=
  {| py_client := py_client s; py_task_tx := py_task_tx s; py_threads := py_threads s;
     py_calls := py_calls s; py_answers := py_answers s ++ l; py_records := py_records s |}.

Definition with_call (t : ProducerTask) (s : PyProducer) : PyProducer :=
  {| py_client := py_client s; py_task_tx := py_task_tx s; py_threads := py_threads s;
     py_calls := py_calls s ++ [t]; py_answers := py_answers s; py_records := py_records s |}.

(** One step, [None] when the event cannot happen: a call blocks while the
    channel is full, and [init] would wait for ever without a channel. *)
Definition producer_step (ev : producer_event) (s : PyProducer) : option PyProducer :=
  match ev with
  | EvSpawn =>
      Some (with_tx (Some (length (py_threads s)))
              (py_threads s ++ [{| th_status := ThSpawned; th_queue := []; th_taken := [] |}]) s)
  | EvCall t =>
      let id := length (py_calls s) in
      match py_task_tx s with
      | None =>
          match t with
          | TaskInit => None
          | _ => Some (with_answers [(id, AnsError "Producer not initialized")] (with_call t s))
          end
      | Some w =>
          match py_threads s !! w with
          | None => None
          | Some th =>
              match th_status th with
              | ThExited => Some (with_answers [(id, closed t)] (with_call t s))
              | _ =>
                  if (CHANNEL_CAPACITY <=? length (th_queue th))%nat then None
                  else Some (with_thread w
                         {| th_status := th_status th; th_queue := th_queue th ++ [(id, t)];
                            th_taken := th_taken th |}
                         (with_call t s))
              end
          end
      end
  | EvStart w rt_ok =>
      match py_threads s !! w with
      | Some {| th_status := ThSpawned; th_queue := q; th_taken := l |} =>
          if rt_ok : bool then
            Some (with_thread w {| th_status := ThRunning; th_queue := q; th_taken := l |} s)
          else Some (with_thread w {| th_status := ThExited; th_queue := []; th_taken := l ++ q.*1 |}
                       (with_answers ((λ it, (it.1, died it.2)) <$> q) s))
      | _ => None
      end
  | EvTask w =>
      match py_threads s !! w with
      | Some {| th_status := ThRunning; th_queue := (id, t) :: q; th_taken := l |} =>
          let '(a, client, recs) := run_task t (py_client s) in
          Some {| py_client := client; py_task_tx := py_task_tx s;
                  py_threads :=
                    <[w := {| th_status := ThRunning; th_queue := q; th_taken := l ++ [id] |}]>
                      (py_threads s);
                  py_calls := py_calls s; py_answers := py_answers s ++ [(id, a)];
                  py_records := py_records s ++ recs |}
      | _ => None
      end
  | EvExit w =>
      match py_threads s !! w with
      | Some {| th_status := ThRunning; th_queue := []; th_taken := l |} =>
          if decide (py_task_tx s = Some w) then None
          else Some (with_thread w {| th_status := ThExited; th_queue := []; th_taken := l |} s)
      | _ => None
      end
  | EvDrop => Some (with_tx None (py_threads s) s)
  end.

Definition producer_steps (evs : list producer_event) (s : PyProducer) : option PyProducer :=
  foldl (λ s ev, s ≫= producer_step ev) (Some s) evs.

(** A call that is alone: its task is run before it returns. *)
Definition call_alone (t : ProducerTask) (s : PyProducer) : option PyProducer :=
  s' ← producer_step (EvCall t) s;
  match py_task_tx s with
  | Some w => match producer_step (EvTask w) s' with Some s'' => Some s'' | None => Some s' end
  | None => Some s'
  end.

Definition calls_alone (ts : list ProducerTask) (s : PyProducer) : option PyProducer :=
  foldl (λ s t, s ≫= call_alone t) (Some s) ts.

(** ** Lemmas *)

(** Every call has one answer or waits in one channel, and every thread takes
    the calls in the order in which they were made. *)
Definition waiting (ths : list thread) : list nat := mjoin ((λ th, (th_queue th).*1) <$> ths).

Record producer_inv (s : PyProducer) : Prop := {
  pi_once : (py_answers s).*1 ++ waiting (py_threads s) ≡ₚ seq 0 (length (py_calls s));
  pi_order : ∀ w th, py_threads s !! w = Some th → StronglySorted lt (th_taken th ++ (th_queue th).*1);
  pi_below : ∀ w th id, py_threads s !! w = Some th → id ∈ th_taken th ++ (th_queue th).*1 →
             (id < length (py_calls s))%nat;
  pi_tasks : ∀ w th id t, py_threads s !! w = Some th → (id, t) ∈ th_queue th →
             py_calls s !! id = Some t;
  pi_exited : ∀ w th, py_threads s !! w = Some th → th_status th = ThExited → th_queue th = []
}.

Lemma waiting_insert ths w th th' :
  ths !! w = Some th →
  ∃ l, waiting ths ≡ₚ (th_queue th).*1 ++ l ∧ waiting (<[w := th']> ths) ≡ₚ (th_queue th').*1 ++ l.
Proof.
  intros Hw. exists (waiting (take w ths) ++ waiting (drop (S w) ths)). unfold waiting.
  rewrite insert_take_drop by (by apply lookup_lt_Some in Hw).
  rewrite <- (take_drop_middle ths w th Hw) at 1.
  rewrite !fmap_app, !fmap_cons, !join_app. simpl. split; solve_Permutation.
Qed.

Lemma waiting_snoc ths th : waiting (ths ++ [th]) = waiting ths ++ (th_queue th).*1.
Proof. unfold waiting. rewrite fmap_app, join_app. simpl. by rewrite app_nil_r. Qed.

Lemma sorted_snoc (l : list nat) n :
  StronglySorted lt l → (∀ x, x ∈ l → (x < n)%nat) → StronglySorted lt (l ++ [n]).
Proof.
  induction 1 as [|x l Hs IH Hx]; intros Hn; simpl; [by repeat constructor|].
  constructor; [apply IH; intros; apply Hn; by right|].
  rewrite Forall_app. split; [done|]. constructor; [|done]. apply Hn. by left.
Qed.

(** A thread that takes some of its calls, which are answered. *)
Lemma inv_update s s' w th th' A :
  producer_inv s → py_threads s !! w = Some th → py_threads s' = <[w := th']> (py_threads s) →
  py_calls s' = py_calls s → py_answers s' = py_answers s ++ A →
  th_taken th' ++ (th_queue th').*1 = th_taken th ++ (th_queue th).*1 →
  A.*1 ++ (th_queue th').*1 ≡ₚ (th_queue th).*1 → th_queue th' ⊆ th_queue th →
  (th_status th' = ThExited → th_queue th' = []) → producer_inv s'.
Proof.
  intros [Ho Hs Hb Ht He] Hw Hths Hc Ha Htk Hp Hsub Hex.
  assert (Hlk : ∀ v u, py_threads s' !! v = Some u → (v = w ∧ u = th') ∨ py_threads s !! v = Some u).
  { intros v u. rewrite Hths. destruct (decide (w = v)) as [<-|N].
    - rewrite list_lookup_insert_eq by (by eapply lookup_lt_Some). intros [= <-]. by left.
    - rewrite list_lookup_insert_ne by done. by right. }
  split; rewrite ?Hc.
  - rewrite <- Ho, Hths, Ha, fmap_app.
    destruct (waiting_insert (py_threads s) w th th' Hw) as (l & -> & ->).
    rewrite <- Hp. solve_Permutation.
  - intros v u [[-> ->]|H]%Hlk; [rewrite Htk|]; by eapply Hs.
  - intros v u id [[-> ->]|H]%Hlk; [rewrite Htk|]; by eapply Hb.
  - intros v u id t [[-> ->]|H]%Hlk Hin; [eapply (Ht w th); [done|by apply Hsub]|by eapply Ht].
  - intros v u [[-> ->]|H]%Hlk; [done|by eapply He].
Qed.

(** A call that is answered at once. *)
Lemma inv_refused s t a : producer_inv s →
  producer_inv (with_answers [(length (py_calls s), a)] (with_call t s)).
Proof.
  intros [Ho Hs Hb Ht He]. split; simpl; [| |intros v u id Hv Hin|intros v u id t' Hv Hin|]; try done.
  - rewrite length_app, seq_app, fmap_app, <- Ho. simpl. solve_Permutation.
  - rewrite length_app. specialize (Hb _ _ _ Hv Hin). lia.
  - apply lookup_app_l_Some. by eapply Ht.
Qed.

(** A call that is put in a channel. *)
Lemma inv_accepted s w th t :
  producer_inv s → py_threads s !! w = Some th → th_status th ≠ ThExited →
  producer_inv (with_thread w
    {| th_status := th_status th; th_queue := th_queue th ++ [(length (py_calls s), t)];
       th_taken := th_taken th |} (with_call t s)).
Proof.
  intros [Ho Hs Hb Ht He] Hw Hn.
  assert (Hlk : ∀ th' v u, <[w := th']> (py_threads s) !! v = Some u →
                (v = w ∧ u = th') ∨ py_threads s !! v = Some u).
  { intros th' v u. destruct (decide (w = v)) as [<-|N].
    - rewrite list_lookup_insert_eq by (by eapply lookup_lt_Some). intros [= <-]. by left.
    - rewrite list_lookup_insert_ne by done. by right. }
  split; simpl.
  - rewrite length_app, seq_app, <- Ho. simpl. set (th' := {| th_status := _ |}).
    destruct (waiting_insert (py_threads s) w th th' Hw) as (l & -> & ->). subst th'. simpl.
    rewrite fmap_app. simpl. solve_Permutation.
  - intros v u [[-> ->]|H]%Hlk; [|by eapply Hs]. simpl. rewrite fmap_app, app_assoc. simpl.
    apply sorted_snoc; [by eapply Hs|]. intros x Hx. by eapply Hb.
  - intros v u id [[-> ->]|H]%Hlk; rewrite length_app; simpl.
    + rewrite fmap_app, app_assoc. simpl. intros [Hin|Hin]%elem_of_app.
      * specialize (Hb _ _ _ Hw Hin). lia.
      * apply list_elem_of_singleton in Hin. lia.
    + intros Hin. specialize (Hb _ _ _ H Hin). lia.
  - intros v u id t' [[-> ->]|H]%Hlk; simpl.
    + intros [Hin|Hin]%elem_of_app.
      * apply lookup_app_l_Some. by eapply Ht.
      * apply list_elem_of_singleton in Hin as [= -> ->]. by rewrite lookup_app_r, Nat.sub_diag by lia.
    + intros Hin. apply lookup_app_l_Some. by eapply Ht.
  - intros v u [[-> ->]|H]%Hlk; [done|by eapply He].
Qed.

Lemma inv_spawn s tx : producer_inv s →
  producer_inv (with_tx tx (py_threads s ++ [{| th_status := ThSpawned; th_queue := []; th_taken := [] |}]) s).
Proof.
  intros [Ho Hs Hb Ht He].
  assert (Hlk : ∀ v u, (py_threads s ++ [{| th_status := ThSpawned; th_queue := []; th_taken := [] |}]) !! v
                = Some u → (th_queue u = [] ∧ th_taken u = []) ∨ py_threads s !! v = Some u).
  { intros v u [H|[_ H]]%lookup_app_Some; [by right|]. left.
    apply list_lookup_singleton_Some in H as [_ <-]. done. }
  split; simpl.
  - by rewrite waiting_snoc, app_nil_r.
  - intros v u [[Hq Hk]|H]%Hlk; [rewrite Hq, Hk; constructor|by eapply Hs].
  - intros v u id [[Hq Hk]|H]%Hlk; [rewrite Hq, Hk; by intros ?%not_elem_of_nil|by eapply Hb].
  - intros v u id t [[Hq _]|H]%Hlk; [rewrite Hq; by intros ?%not_elem_of_nil|by eapply Ht].
  - intros v u [[Hq _]|H]%Hlk; [done|by eapply He].
Qed.

Lemma producer_step_inv ev s s' : producer_inv s → producer_step ev s = Some s' → producer_inv s'.
Proof.
  intros Hinv Hstep. destruct ev as [|t|w rt_ok|w|w|]; cbn [producer_step] in Hstep.
  - injection Hstep as <-. by apply inv_spawn.
  - destruct (py_task_tx s) as [w|].
    + destruct (py_threads s !! w) as [th|] eqn:Hw; [|done].
      destruct (th_status th) eqn:Hst.
      3: { injection Hstep as <-. by apply inv_refused. }
      all: destruct (_ <=? _)%nat; [done|]; injection Hstep as <-;
        rewrite <- Hst; apply inv_accepted; [done|done|by rewrite Hst].
    + destruct t; try done; injection Hstep as <-; by apply inv_refused.
  - destruct (py_threads s !! w) as [[[] q l]|] eqn:Hw; try done.
    destruct rt_ok; injection Hstep as <-.
    + eapply (inv_update _ _ _ _ _ [] Hinv Hw); simpl; try done. by rewrite app_nil_r.
    + eapply (inv_update _ _ _ _ _ ((λ it, (it.1, died it.2)) <$> q) Hinv Hw); simpl; try done.
      * by rewrite app_nil_r.
      * rewrite app_nil_r, <- list_fmap_compose. done.
      * set_solver.
  - destruct (py_threads s !! w) as [[[] [|[id t] q] l]|] eqn:Hw; try done.
    destruct (run_task t (py_client s)) as [[a cl] recs]. injection Hstep as <-.
    eapply (inv_update _ _ _ _ _ [(id, a)] Hinv Hw); try reflexivity; simpl; [by rewrite <- app_assoc|set_solver|done].
  - destruct (py_threads s !! w) as [[[] [|] l]|] eqn:Hw; try done. case_decide; [done|].
    injection Hstep as <-. eapply (inv_update _ _ _ _ _ [] Hinv Hw); simpl; try done. by rewrite app_nil_r.
  - injection Hstep as <-. destruct Hinv. by split.
Qed.

Lemma producer_steps_cons ev evs s :
  producer_steps (ev :: evs) s = match producer_step ev s with
                                 | Some s' => producer_steps evs s' | None => None end.
Proof.
  unfold producer_steps. cbn [foldl]. change (Some s ≫= producer_step ev) with (producer_step ev s).
  destruct (producer_step ev s) as [s'|]; [done|]. by induction evs as [|ev' evs IH].
Qed.

Lemma producer_steps_inv evs : ∀ s s', producer_inv s → producer_steps evs s = Some s' → producer_inv s'.
Proof.
  induction evs as [|ev evs IH]; intros s s' Hi Hr; [by injection Hr as <-|].
  rewrite producer_steps_cons in Hr. destruct (producer_step ev s) as [s1|] eqn:E; [|done].
  eapply IH, Hr. by eapply producer_step_inv.
Qed.

Lemma producer_new_inv : producer_inv producer_new.
Proof. split; simpl; [done|..]; intros w th; by rewrite lookup_nil. Qed.

(** A call that no other call disturbs: its thread runs it and answers. *)
Definition ready (w : nat) (s : PyProducer) : Prop :=
  py_task_tx s = Some w ∧
  ∃ l, py_threads s !! w = Some {| th_status := ThRunning; th_queue := []; th_taken := l |}.

Lemma call_alone_ready w t s :
  ready w s →
  let r := run_task t (py_client s) in
  ∃ s', call_alone t s = Some s' ∧ ready w s' ∧ py_client s' = r.1.2 ∧
    py_calls s' = py_calls s ++ [t] ∧
    py_answers s' = py_answers s ++ [(length (py_calls s), r.1.1)] ∧
    py_records s' = py_records s ++ r.2.
Proof.
  intros [Htx [l Hw]]. unfold call_alone. cbn [producer_step]. rewrite Htx, Hw. cbn [th_status].
  cbn [th_queue length]. change (CHANNEL_CAPACITY <=? 0)%nat with false.
  cbn [producer_step mbind option_bind with_thread with_call py_threads].
  rewrite list_lookup_insert_eq by (by eapply lookup_lt_Some). cbn [app th_taken].
  change (py_client (with_thread _ _ _)) with (py_client s).
  destruct (run_task t (py_client s)) as [[a cl] recs]. eexists. split; [done|].
  cbn [py_client py_calls py_answers py_records fst snd]. split_and!; try done.
  split; [done|]. eexists. cbn [py_threads].
  rewrite list_insert_insert_eq. by rewrite list_lookup_insert_eq by (by eapply lookup_lt_Some).
Qed.

(** The answers of a client to records that are sent one after the other. *)
Fixpoint deliver (l : list SendArgs) (p : P) : list Answer * P :=
  match l with
  | [] => ([], p)
  | a :: l =>
      let '(r, p) := p_send (record_of a) send_timeout_ms p in
      let '(rs, p) := deliver l p in
      (match r with
       | Ok (part, off) => AnsDelivered part off
       | Err e => AnsError ("Failed to deliver message: " +:+ e)
       end :: rs, p)
  end.

Lemma calls_alone_cons t ts s :
  calls_alone (t :: ts) s = match call_alone t s with Some s' => calls_alone ts s' | None => None end.
Proof.
  unfold calls_alone. cbn [foldl]. change (Some s ≫= call_alone t) with (call_alone t s).
  destruct (call_alone t s) as [s'|]; [done|]. by induction ts.
Qed.

Lemma sends_alone w l : ∀ s p,
  ready w s → py_client s = Some p →
  ∃ s', calls_alone (TaskSend <$> l) s = Some s' ∧ ready w s' ∧
    py_client s' = Some (deliver l p).2 ∧
    py_answers s' = py_answers s ++ zip (seq (length (py_calls s)) (length l)) (deliver l p).1 ∧
    py_records s' = py_records s ++ (record_of <$> l).
Proof.
  induction l as [|a l IH]; intros s p Hr Hc.
  { exists s. simpl. by rewrite !app_nil_r. }
  rewrite fmap_cons, calls_alone_cons.
  destruct (call_alone_ready w (TaskSend a) s Hr) as (s1 & -> & Hr1 & Hc1 & Hn1 & Ha1 & Hrec1).
  rewrite Hc in Hc1, Ha1, Hrec1. cbn [run_task do_send] in *. cbn [deliver].
  destruct (p_send (record_of a) send_timeout_ms p) as [r p1].
  destruct (IH s1 p1 Hr1 Hc1) as (s2 & H2 & Hr2 & Hc2 & Ha2 & Hrec2).
  exists s2. destruct (deliver l p1) as [rs p2]. split_and!; [done|done|done| |].
  - rewrite Ha2, Ha1, Hn1, length_app. simpl. rewrite <- app_assoc. simpl.
    by rewrite Nat.add_1_r.
  - rewrite Hrec2, Hrec1. simpl. by rewrite <- app_assoc.
Qed.

(** ** The properties *)

(** C24: Every call is answered once, and in order.  Whatever the calls, the threads
    and the repeated initialisations, each call made so far has exactly one
    answer or waits in exactly one channel; every thread takes the calls in the
    order in which they were made; and a thread with waiting calls can always go
    on, so that when no thread has a task every call has been answered. *)
Theorem producer_calls_answered_once evs s :
  producer_steps evs producer_new = Some s →
  (py_answers s).*1 ++ waiting (py_threads s) ≡ₚ seq 0 (length (py_calls s)) ∧
  (∀ w th, py_threads s !! w = Some th →
     StronglySorted lt (th_taken th ++ (th_queue th).*1) ∧
     (th_queue th ≠ [] → is_Some (producer_step (EvTask w) s) ∨
                         ∀ rt_ok, is_Some (producer_step (EvStart w rt_ok) s))) ∧
  ((∀ w th, py_threads s !! w = Some th → th_queue th = []) →
     (py_answers s).*1 ≡ₚ seq 0 (length (py_calls s))).
Proof.
  intros Hr. destruct (producer_steps_inv _ _ _ producer_new_inv Hr) as [Ho Hs Hb Ht He].
  split_and!; [done| |].
  - intros w th Hw. split; [by eapply Hs|]. intros Hq. cbn [producer_step]. rewrite Hw.
    destruct th as [[] q l]; simpl in *.
    + right. intros []; eauto.
    + left. destruct q as [|[id t] q]; [done|]. destruct (run_task t (py_client s)) as [[]]. eauto.
    + exfalso. by apply Hq, (He _ _ Hw).
  - intros Hq. rewrite <- Ho. assert (waiting (py_threads s) = []) as ->; [|by rewrite app_nil_r].
    unfold waiting. clear -Hq. induction (py_threads s) as [|th ths IH]; [done|]. simpl.
    rewrite (Hq 0%nat th eq_refl). apply IH. intros w. apply (Hq (S w)).
Qed.


End producer.

Definition producer_keys : list string :=
  ["bootstrap.servers"; "message.timeout.ms"; "queue.buffering.max.messages";
   "queue.buffering.max.kbytes"; "batch.num.messages"; "compression.type"; "linger.ms";
   "request.timeout.ms"; "retry.backoff.ms"; "retries"; "max.in.flight.requests.per.connection";
   "enable.idempotence"; "acks"; "security.protocol"; "sasl.mechanism"; "sasl.username";
   "sasl.password"].

Lemma producer_settings_keys c : Forall (λ kv, kv.1 ∈ producer_keys) (producer_settings c).
Proof.
  destruct c as [????????????? o1 o2 o3 o4].
  destruct o1, o2, o3, o4; apply (bool_decide_unpack _); by vm_compute.
Qed.

(** Every producer setting reaches the client.  The client is created with
    each setting of the configuration under its key, numbers in decimal, the
    security settings when they are given, and with no other key. *)
Theorem producer_settings_reach_client c :
  let m := producer_client_config c in
  m !! "bootstrap.servers" = Some (pr_brokers c) ∧
  m !! "message.timeout.ms" = Some (pretty (pr_message_timeout_ms c)) ∧
  m !! "queue.buffering.max.messages" = Some (pretty (pr_queue_buffering_max_messages c)) ∧
  m !! "queue.buffering.max.kbytes" = Some (pretty (pr_queue_buffering_max_kbytes c)) ∧
  m !! "batch.num.messages" = Some (pretty (pr_batch_num_messages c)) ∧
  m !! "compression.type" = Some (pr_compression_type c) ∧
  m !! "linger.ms" = Some (pretty (pr_linger_ms c)) ∧
  m !! "request.timeout.ms" = Some (pretty (pr_request_timeout_ms c)) ∧
  m !! "retry.backoff.ms" = Some (pretty (pr_retry_backoff_ms c)) ∧
  m !! "retries" = Some (pretty (pr_retries c)) ∧
  m !! "max.in.flight.requests.per.connection" = Some (pretty (pr_max_in_flight c)) ∧
  m !! "enable.idempotence" = Some (bool_to_string (pr_enable_idempotence c)) ∧
  m !! "acks" = Some (pr_acks c) ∧
  m !! "security.protocol" = pr_security_protocol c ∧
  m !! "sasl.mechanism" = pr_sasl_mechanism c ∧
  m !! "sasl.username" = pr_sasl_username c ∧
  m !! "sasl.password" = pr_sasl_password c ∧
  (∀ k, is_Some (m !! k) → k ∈ producer_keys).
Proof.
  intros m. subst m. unfold producer_client_config. split_and!.
  1-17: destruct c as [????????????? o1 o2 o3 o4]; destruct o1, o2, o3, o4; reflexivity.
  intros k. rewrite client_settings_lookup, lookup_empty.
  destruct (last _) as [kv|] eqn:E; [|by intros []]. intros _.
  apply last_Some_elem_of, list_elem_of_filter in E as [<- Hin].
  pose proof (producer_settings_keys c) as Hk. rewrite Forall_forall in Hk. by apply Hk.
Qed.

(** ** Witnesses *)

(** A client that delivers every record to partition 0. *)
Definition demo_send (r : FutureRecord) (_ : Z) (p : list FutureRecord)
    : result (Z * Z) string * list FutureRecord := (Ok (0, Z.of_nat (length p)), p ++ [r]).

Abbreviation demo_step :=
  (producer_steps (λ _, Ok []) demo_send (λ _ p, (Ok tt, p)) (λ _, 0) demo_producer).

Definition demo_send_args (t : string) : SendArgs :=
  {| sd_topic := t; sd_key := None; sd_payload := Some []; sd_partition := None;
     sd_headers := Some [("h", [])] |}.

(** A call before [init], an initialisation, and two calls of which one waits. *)
Definition demo_events : list producer_event :=
  [in_flight_count; EvSpawn; EvStart 0 true; EvCall TaskInit;
   send_sync (demo_send_args "t"); EvTask 0; EvTask 0; producer_flush None].

Definition demo_producer_state : PyProducer (P := list FutureRecord) :=
  default producer_new (demo_step demo_events producer_new).

Lemma producer_calls_answered_once_witness :
  (py_answers demo_producer_state).*1 ++ waiting (py_threads demo_producer_state) ≡ₚ seq 0 4.
Proof.
  destruct (producer_calls_answered_once (λ _, Ok []) demo_send (λ _ p, (Ok tt, p)) (λ _, 0)
    demo_producer demo_events demo_producer_state) as [H _].
  - vm_compute. reflexivity.
  - exact H.
Defined.

Definition demo_ready : PyProducer (P := list FutureRecord) :=
  default producer_new
    (demo_step [EvSpawn; EvStart 0 true; EvCall TaskInit; EvTask 0] producer_new).

