(* ===== verification/Logging.v ===== *)
(** * Logging (src/log.rs)

    The bridge from the [log] macros of the core to Python's [logging] module:
    a builder, filters by target, a cache of Python loggers and of their
    levels, a bounded channel and the thread that empties it.  Python's
    [logging] is a parameter. *)

From Stdlib Require Import Ascii String.
From stdpp Require Import base gmap sets list strings sorting.
From S2P Require Import Prelude.

(** ** Levels

    The levels of the [log] crate, from the most to the least severe, and its
    filters. *)

Inductive Level := Error | Warn | Info | Debug | Trace.
Inductive LevelFilter := Off | UpTo (l : Level).

Definition level_num (l : Level) : Z :=
  match l with Error => 1 | Warn => 2 | Info => 3 | Debug => 4 | Trace => 5 end.
Definition filter_num (f : LevelFilter) : Z := match f with Off => 0 | UpTo l => level_num l end.

(** [level <= filter]. *)
Definition passes (l : Level) (f : LevelFilter) : bool := level_num l <=? filter_num f.
Definition filter_max (a b : LevelFilter) : LevelFilter :=
  if filter_num a <=? filter_num b then b else a.
(** [LevelFilter::max()]. *)
Definition filter_top : LevelFilter := UpTo Trace.

(** The level of Python. *)
Definition map_level (l : Level) : Z :=
  match l with Error => 40 | Warn => 30 | Info => 20 | Debug => 10 | Trace => 5 end.

(** ** Targets *)

(** [str::split("::")]. *)
Fixpoint split_colons (s : string) : list string :=
  match s with
  | EmptyString => [EmptyString]
  | String a s' =>
      match split_colons s' with
      | w :: ws =>
          match s' with
          | String b s'' =>
              if Ascii.eqb a ":" && Ascii.eqb b ":" then EmptyString :: split_colons s''
              else String a w :: ws
          | EmptyString => String a w :: ws
          end
      | [] => [String a EmptyString]
      end
  end.

(** [str::find("::")]. *)
Fixpoint find_colons (s : string) : option nat :=
  match s with
  | String a s' =>
      match s' with
      | String b _ => if Ascii.eqb a ":" && Ascii.eqb b ":" then Some 0%nat else S <$> find_colons s'
      | EmptyString => None
      end
  | EmptyString => None
  end.

(** [str::replace("::", ".")]. *)
Definition dotted (s : string) : string := String.concat "." (split_colons s).

(** ** The cache *)

Inductive Caching := Nothing | Loggers | LoggersAndLevels.
#[export] Instance caching_eq_dec : EqDecision Caching.
Proof. solve_decision. Defined.

Section cache.
Context {L : Type}.

Record CacheEntry := { ce_filter : LevelFilter; ce_logger : L }.

Inductive CacheNode :=
| Node (local : option CacheEntry) (children : gmap string CacheNode).

Definition node_local (n : CacheNode) : option CacheEntry := let (l, _) := n in l.
Definition node_children (n : CacheNode) : gmap string CacheNode := let (_, c) := n in c.
Definition node_default : CacheNode := Node None ∅.

Fixpoint store_to_cache_recursive (path : list string) (entry : CacheEntry) (n : CacheNode) : CacheNode :=
  match path with
  | segment :: path =>
      let child := default node_default (node_children n !! segment) in
      Node (node_local n)
        (<[segment := store_to_cache_recursive path entry child]> (node_children n))
  | [] => Node (Some entry) (node_children n)
  end.

Fixpoint lookup_path (path : list string) (n : CacheNode) : option CacheNode :=
  match path with
  | segment :: path => node_children n !! segment ≫= lookup_path path
  | [] => Some n
  end.

End cache.
Arguments CacheEntry : clear implicits.
Arguments CacheNode : clear implicits.

(** ** The state of the logger *)

Record LoggerState := {
  top_filter : LevelFilter;
  filters : gmap string LevelFilter;
  prefix : option string;
  caching : Caching
}.

Record OwnedRecord := {
  or_level : Level;
  or_target : string;
  or_message : string;
  or_file : option string;
  or_line : option Z
}.

Definition lookup {L : Type} (st : LoggerState) (target : string) (root : CacheNode L) : option (CacheNode L) :=
  if decide (caching st = Nothing) then None else lookup_path (split_colons target) root.

(** The loop of [filter_for]; every round starts after the separator it found. *)
Fixpoint filter_scan (fuel : nat) (fs : gmap string LevelFilter) (target : string) (start : nat)
    (f : LevelFilter) : LevelFilter :=
  match fuel with
  | O => f
  | S fuel =>
      match find_colons (substring start (String.length target - start) target) with
      | Some e =>
          filter_scan fuel fs target (start + e + 2)
            (default f (fs !! substring 0 (start + e) target))
      | None => f
      end
  end.

Definition filter_for (st : LoggerState) (target : string) : LevelFilter :=
  let f := filter_scan (S (String.length target)) (filters st) target 0 (top_filter st) in
  default f (filters st !! target).

Definition cached {L : Type} (cache : option (CacheNode L)) : option (CacheEntry L) :=
  cache ≫= node_local.

Definition enabled_inner {L : Type} (st : LoggerState) (level : Level) (target : string)
    (cache : option (CacheNode L)) : bool :=
  let cache_filter := default filter_top (ce_filter <$> cached cache) in
  passes level cache_filter && passes level (filter_for st target).

Definition store_to_cache {L : Type} (target : string) (entry : CacheEntry L) (orig : CacheNode L) : CacheNode L :=
  store_to_cache_recursive (split_colons target) entry orig.

(** The name of the Python logger of a target. *)
Definition python_name (st : LoggerState) (target : string) : string :=
  match prefix st with
  | Some p => p +:+ "." +:+ dotted target
  | None => dotted target
  end.

(** ** Python's [logging]

    [W] is the state of the interpreter, [L] a logger object, [R] a log record
    and [X] an exception. *)

Class PythonLogging (W L R X : Type) := {
  getLogger : string → W → result L X * W;
  isEnabledFor : L → Z → W → result bool X * W;
  makeRecord : L → string → Z → option string → Z → string → W → result R X * W;
  handle : L → R → W → result unit X * W
}.

Section python.
Context {W L R X : Type} `{PythonLogging W L R X}.

(** A call that can raise. *)
Definition pbind {A B : Type} (m : W → result A X * W) (k : A → W → result B X * W) (w : W) :
    result B X * W :=
  match m w with
  | (Ok a, w) => k a w
  | (Err e, w) => (Err e, w)
  end.

Definition pret {A : Type} (a : A) (w : W) : result A X * W := (Ok a, w).

Definition is_enabled_for (logger : L) (level : Level) : W → result bool X * W :=
  isEnabledFor logger (map_level level).

(** The least severe level that is enabled. *)
Fixpoint first_enabled (ls : list Level) (logger : L) : W → result LevelFilter X * W :=
  match ls with
  | [] => pret Off
  | l :: ls =>
      pbind (is_enabled_for logger l) (λ b, if b then pret (UpTo l) else first_enabled ls logger)
  end.
Definition extract_max_level : L → W → result LevelFilter X * W :=
  first_enabled [Trace; Debug; Info; Warn; Error].

(** The logger to put in the cache, if any. *)
Definition log_inner (st : LoggerState) (r : OwnedRecord) (cache : option (CacheNode L)) :
    W → result (option L) X * W :=
  let target := python_name st (or_target r) in
  let cached_logger := ce_logger <$> cached cache in
  pbind (match cached_logger with
         | Some l => pret (l, true)
         | None => pbind (getLogger target) (λ l, pret (l, false))
         end) (λ '(logger, is_cached),
  pbind (is_enabled_for logger (or_level r)) (λ enabled,
  pbind (if enabled : bool then
           pbind (makeRecord logger target (map_level (or_level r)) (or_file r)
                    (default 0 (or_line r)) (or_message r)) (handle logger)
         else pret tt) (λ _,
  pret (if negb is_cached && negb (bool_decide (caching st = Nothing)) then Some logger else None)))).

(** Processing of one record by the worker, up to the change of the cache: the
    entry to store, the error indicator left behind and the interpreter.
    [existing] is the indicator found on entry. *)
Definition process_record (st : LoggerState) (root : CacheNode L) (r : OwnedRecord) (existing : option X)
    (w : W) : outcome (option (CacheEntry L) * option X * W) :=
  match log_inner st r (lookup st (or_target r) root) w with
  | (Ok (Some logger), w) =>
      let? f :=
        match caching st with
        | Nothing => Panic
        | Loggers => Ret (filter_top, None, w)
        | LoggersAndLevels =>
            Ret match extract_max_level logger w with
                | (Ok f, w) => (f, None, w)
                | (Err e, w) => (filter_top, Some e, w)
                end
        end in
      let '(f, e, w) := f in
      Ret (Some {| ce_filter := f; ce_logger := logger |},
           match existing with Some x => Some x | None => e end, w)
  | (Ok None, w) => Ret (None, existing, w)
  | (Err e, w) => Ret (None, match existing with Some x => Some x | None => Some e end, w)
  end.

(** ** The installed logger *)

Definition LOG_CHANNEL_CAPACITY : nat := 4096.

(** The worker thread between two of its steps. *)
Inductive worker_phase :=
| WIdle
| WStore (target : string) (entry : CacheEntry L)     (* about to load the cache *)
| WSwap (orig : nat) (new : CacheNode L).             (* about to compare and swap *)

(** The cache is a pointer ([al_ptr]) to a tree; [al_offered] is the history of
    the records logged while the channel had room. *)
Record AsyncLogger := {
  al_state : LoggerState;
  al_max_level : LevelFilter;
  al_ptr : nat;
  al_cache : CacheNode L;
  al_fresh : nat;
  al_chan : list OwnedRecord;
  al_worker : worker_phase;
  al_python : W;
  al_offered : list OwnedRecord
}.

Definition al_with_cache (c : CacheNode L) (s : AsyncLogger) : AsyncLogger :=
  {| al_state := al_state s; al_max_level := al_max_level s; al_ptr := al_fresh s; al_cache := c;
     al_fresh := S (al_fresh s); al_chan := al_chan s; al_worker := al_worker s;
     al_python := al_python s; al_offered := al_offered s |}.

Definition al_with_worker (p : worker_phase) (q : list OwnedRecord) (w : W) (s : AsyncLogger) : AsyncLogger :=
  {| al_state := al_state s; al_max_level := al_max_level s; al_ptr := al_ptr s; al_cache := al_cache s;
     al_fresh := al_fresh s; al_chan := q; al_worker := p; al_python := w; al_offered := al_offered s |}.

Definition al_with_offered (q l : list OwnedRecord) (s : AsyncLogger) : AsyncLogger :=
  {| al_state := al_state s; al_max_level := al_max_level s; al_ptr := al_ptr s; al_cache := al_cache s;
     al_fresh := al_fresh s; al_chan := q; al_worker := al_worker s; al_python := al_python s;
     al_offered := l |}.

Definition enabled (level : Level) (target : string) (s : AsyncLogger) : bool :=
  enabled_inner (al_state s) level target (lookup (al_state s) target (al_cache s)).

(** [Log::log] behind the test of the macros on the global level: the record is
    dropped when the channel is full. *)
Definition log (r : OwnedRecord) (s : AsyncLogger) : AsyncLogger :=
  let room := (length (al_chan s) <? LOG_CHANNEL_CAPACITY)%nat in
  let send := passes (or_level r) (al_max_level s) && enabled (or_level r) (or_target r) s in
  al_with_offered (if send && room then al_chan s ++ [r] else al_chan s)
    (if room then al_offered s ++ [r] else al_offered s) s.

(** [ResetHandle::reset]. *)
Definition reset : AsyncLogger → AsyncLogger := al_with_cache node_default.

Inductive log_event :=
| LgLog (r : OwnedRecord)   (* a macro of the core *)
| LgWork                    (* the next step of the worker *)
| LgReset.

(** A step of the worker.  The thread attaches to the interpreter for each
    record, so it finds no error indicator. *)
Definition log_work (s : AsyncLogger) : outcome AsyncLogger :=
  match al_worker s with
  | WIdle =>
      match al_chan s with
      | [] => Ret s
      | r :: q =>
          let? x := process_record (al_state s) (al_cache s) r None (al_python s) in
          let '(entry, _, w) := x in
          Ret (al_with_worker (match entry with Some e => WStore (or_target r) e | None => WIdle end) q w s)
      end
  | WStore t e =>
      Ret (al_with_worker (WSwap (al_ptr s) (store_to_cache t e (al_cache s))) (al_chan s) (al_python s) s)
  | WSwap orig new =>
      let s := al_with_worker WIdle (al_chan s) (al_python s) s in
      Ret (if decide (al_ptr s = orig) then al_with_cache new s else s)
  end.

Definition log_step (s : AsyncLogger) (ev : log_event) : outcome AsyncLogger :=
  match ev with
  | LgLog r => Ret (log r s)
  | LgWork => log_work s
  | LgReset => Ret (reset s)
  end.

Definition log_run : AsyncLogger → list log_event → outcome AsyncLogger := ofold log_step.

End python.
Arguments AsyncLogger : clear implicits.

(** ** The builder *)

Definition logger_new (c : Caching) : LoggerState :=
  {| top_filter := UpTo Debug; filters := ∅; prefix := None; caching := c |}.

Definition set_filter (f : LevelFilter) (lg : LoggerState) : LoggerState :=
  {| top_filter := f; filters := filters lg; prefix := prefix lg; caching := caching lg |}.

Definition filter_target (target : string) (f : LevelFilter) (lg : LoggerState) : LoggerState :=
  {| top_filter := top_filter lg; filters := <[target := f]> (filters lg); prefix := prefix lg;
     caching := caching lg |}.

Definition set_prefix (p : string) (lg : LoggerState) : LoggerState :=
  {| top_filter := top_filter lg; filters := filters lg; prefix := Some (dotted p);
     caching := caching lg |}.

Section install.
Context `{!HashOrder string}.

(** The level under which the macros do not even look at the logger. *)
Definition install_level (lg : LoggerState) : LevelFilter :=
  filter_max (top_filter lg) (foldl filter_max Off (hash_iter (filters lg)).*2).

Inductive SetLoggerError := SetLogger.

(** [Logger::install] on the global logger of the process. *)
Definition install {W L : Type} (lg : LoggerState) (w : W) (global : option (AsyncLogger W L)) :
    result unit SetLoggerError * option (AsyncLogger W L) :=
  match global with
  | Some _ => (Err SetLogger, global)
  | None =>
      (Ok tt, Some {| al_state := lg; al_max_level := install_level lg; al_ptr := 0;
                      al_cache := node_default; al_fresh := 1; al_chan := []; al_worker := WIdle;
                      al_python := w; al_offered := [] |})
  end.

Definition try_init {W L : Type} : W → option (AsyncLogger W L) →
    result unit SetLoggerError * option (AsyncLogger W L) :=
  install (logger_new LoggersAndLevels).

Definition init {W L : Type} (w : W) (global : option (AsyncLogger W L)) : outcome (option (AsyncLogger W L)) :=
  match try_init w global with
  | (Ok _, g) => Ret g
  | (Err _, _) => Panic
  end.

End install.

(** ** The callback of librdkafka (consumer/context.rs) *)

Inductive RDKafkaLogLevel :=
| RdEmerg | RdAlert | RdCritical | RdError | RdWarning | RdNotice | RdInfo | RdDebug.

Definition rdkafka_level (l : RDKafkaLogLevel) : Level :=
  match l with
  | RdEmerg | RdAlert | RdCritical | RdError => Error
  | RdWarning => Warn
  | RdNotice => Info
  | RdInfo => Debug
  | RdDebug => Trace
  end.

(** The record it logs; the macro adds the place in the source. *)
Definition context_log (l : RDKafkaLogLevel) (fac message : string) (file : option string) (line : option Z) :
    OwnedRecord :=
  {| or_level := rdkafka_level l; or_target := "librdkafka"; or_message := fac +:+ " " +:+ message;
     or_file := file; or_line := line |}.

(** ** Lemmas: targets and their segments *)

Lemma string_ind2 (P : string → Prop) :
  P "" → (∀ a, P (String a "")) →
  (∀ a b s, P s → P (String b s) → P (String a (String b s))) → ∀ s, P s.
Proof.
  intros H0 H1 H2. assert (∀ s, P s ∧ ∀ a, P (String a s)) as H; [|intros s; apply H].
  induction s as [|b s [IH IH']]; split; auto.
Qed.

Lemma split_colons_not_nil s : split_colons s ≠ [].
Proof.
  induction s as [|a|a b s _ _] using string_ind2; [done..|].
  simpl. repeat case_match; done.
Qed.

(** The equation of [split_colons] on two characters. *)
Lemma split_colons_cons2 a b s :
  split_colons (String a (String b s)) =
  if Ascii.eqb a ":" && Ascii.eqb b ":" then "" :: split_colons s
  else match split_colons (String b s) with
       | w :: ws => String a w :: ws
       | [] => [String a ""]
       end.
Proof.
  change (split_colons (String a (String b s))) with
    (match split_colons (String b s) with
     | w :: ws => if Ascii.eqb a ":" && Ascii.eqb b ":" then "" :: split_colons s else String a w :: ws
     | [] => [String a ""]
     end).
  destruct (split_colons (String b s)) eqn:E; [by destruct (split_colons_not_nil (String b s))|done].
Qed.

Lemma eqb_colon a b : Ascii.eqb a ":" && Ascii.eqb b ":" = true → a = ":"%char ∧ b = ":"%char.
Proof. intros [Ha Hb]%andb_prop. split; by apply Ascii.eqb_eq. Qed.

Lemma find_colons_split s :
  match find_colons s with
  | Some e => ∃ w rest, s = w +:+ "::" +:+ rest ∧ String.length w = e ∧
                        split_colons s = w :: split_colons rest
  | None => split_colons s = [s]
  end.
Proof.
  induction s as [|a|a b s _ IH] using string_ind2; [done..|].
  rewrite split_colons_cons2.
  change (find_colons (String a (String b s))) with
    (if Ascii.eqb a ":" && Ascii.eqb b ":" then Some 0%nat else S <$> find_colons (String b s)).
  destruct (Ascii.eqb a ":" && Ascii.eqb b ":") eqn:E.
  - apply eqb_colon in E as [-> ->]. by exists "", s.
  - destruct (find_colons (String b s)) as [e|].
    + destruct IH as (w & rest & -> & <- & ->). by exists (String a w), rest.
    + by rewrite IH.
Qed.

Lemma join_split s : String.concat "::" (split_colons s) = s.
Proof.
  induction s as [|a|a b s IHs IH] using string_ind2; [done..|].
  rewrite split_colons_cons2. destruct (Ascii.eqb a ":" && Ascii.eqb b ":") eqn:E.
  - apply eqb_colon in E as [-> ->]. destruct (split_colons s) eqn:Es; [by destruct (split_colons_not_nil s)|].
    by transitivity ("::" +:+ String.concat "::" (s0 :: l)); [|rewrite IHs].
  - destruct (split_colons (String b s)) as [|w [|w' ws]]; [done| |]; rewrite <- IH; done.
Qed.

Lemma str_app_assoc (a b c : string) : a +:+ (b +:+ c) = (a +:+ b) +:+ c.
Proof.
  induction a as [|x a IH]; [done|].
  change (String x (a +:+ (b +:+ c)) = String x ((a +:+ b) +:+ c)). by rewrite IH.
Qed.

Lemma str_length_app (a b : string) : String.length (a +:+ b) = (String.length a + String.length b)%nat.
Proof.
  induction a as [|x a IH]; [done|].
  change (S (String.length (a +:+ b)) = S (String.length a + String.length b)). by rewrite IH.
Qed.

Lemma substring_all s : substring 0 (String.length s) s = s.
Proof. induction s as [|a s IH]; [done|]. simpl. by rewrite IH. Qed.

Lemma substring_drop p s n :
  n = String.length p → substring n (String.length (p +:+ s) - n) (p +:+ s) = s.
Proof.
  intros ->. induction p as [|a p IH]; simpl; [rewrite Nat.sub_0_r; apply substring_all|apply IH].
Qed.

Lemma substring_take p s n : n = String.length p → substring 0 n (p +:+ s) = p.
Proof.
  intros ->. induction p as [|a p IH]; simpl; [by destruct s|]. by rewrite IH.
Qed.

(** The prefixes of a target that end at a separator, and the target itself. *)
Fixpoint ancestors (segments : list string) : list string :=
  match segments with
  | [] => []
  | w :: ws => w :: ((λ p, w +:+ "::" +:+ p) <$> ancestors ws)
  end.

Lemma filter_scan_ancestors fs fuel : ∀ pre rest f, (String.length rest < fuel)%nat →
  default (filter_scan fuel fs (pre +:+ rest) (String.length pre) f) (fs !! (pre +:+ rest)) =
  foldl (λ f p, default f (fs !! p)) f ((λ p, pre +:+ p) <$> ancestors (split_colons rest)).
Proof.
  induction fuel as [|fuel IH]; intros pre rest f Hf; [lia|].
  cbn [filter_scan]. rewrite (substring_drop pre rest) by done.
  pose proof (find_colons_split rest) as Hs. destruct (find_colons rest) as [e|].
  - destruct Hs as (w & rest' & -> & Hw & ->).
    rewrite !str_app_assoc. rewrite <- (str_app_assoc (pre +:+ w) "::" rest').
    rewrite (substring_take (pre +:+ w)) by (rewrite str_length_app; lia).
    rewrite str_app_assoc.
    replace (String.length pre + e + 2)%nat with (String.length ((pre +:+ w) +:+ "::"))
      by (rewrite !str_length_app; simpl; lia).
    rewrite IH by (rewrite !str_length_app in Hf; simpl in Hf; lia).
    cbn [ancestors fmap list_fmap foldl]. f_equal.
    rewrite <- list_fmap_compose. apply list_fmap_ext. intros i p _. cbn [compose].
    by rewrite !str_app_assoc.
  - rewrite Hs. done.
Qed.

Lemma foldl_default_last {A : Type} (fs : gmap string A) l : ∀ f,
  foldl (λ f p, default f (fs !! p)) f l = default f (last (omap (λ p, fs !! p) l)).
Proof.
  induction l as [|p l IH]; intros f; [done|]. cbn [foldl omap list_omap]. rewrite IH.
  destruct (fs !! p) as [g|]; [|done]. rewrite last_cons. by destruct (last _).
Qed.

(** ** Lemmas: the cache *)

Lemma lookup_store_path {L : Type} (p q : list string) (e : CacheEntry L) : ∀ n,
  lookup_path q (store_to_cache_recursive p e n) ≫= node_local =
  if decide (p = q) then Some e else lookup_path q n ≫= node_local.
Proof.
  revert q. induction p as [|s p IH]; intros [|s' q] n; [done..|].
  cbn [store_to_cache_recursive lookup_path node_children].
  destruct (decide (s = s')) as [->|Hs].
  - rewrite lookup_insert_eq. cbn [mbind option_bind]. rewrite IH.
    destruct (decide (p = q)) as [->|Hp]; [by rewrite decide_True|].
    rewrite decide_False by (intros [=]; done).
    destruct (node_children n !! s') as [c|]; [done|]. cbn [default mbind option_bind].
    by destruct q.
  - rewrite lookup_insert_ne by done. by rewrite decide_False by (intros [=]; done).
Qed.

Lemma split_colons_inj s t : split_colons s = split_colons t → s = t.
Proof. intros E. by rewrite <- (join_split s), E, join_split. Qed.

Lemma cached_default {L : Type} st t : cached (lookup st t (node_default : CacheNode L)) = None.
Proof.
  unfold lookup, cached. destruct (decide _); [done|].
  pose proof (split_colons_not_nil t) as Ht. destruct (split_colons t); [done|].
  simpl. by rewrite lookup_empty.
Qed.

Lemma cached_store {L : Type} st t u (e : CacheEntry L) root : caching st ≠ Nothing →
  cached (lookup st u (store_to_cache t e root)) =
  if decide (t = u) then Some e else cached (lookup st u root).
Proof.
  intros Hc. unfold lookup, cached, store_to_cache. rewrite !decide_False by done.
  rewrite lookup_store_path. destruct (decide (t = u)) as [->|Ht]; [by rewrite decide_True|].
  rewrite decide_False by (intros E; apply Ht, split_colons_inj, E). by rewrite decide_False.
Qed.

Lemma cached_nothing {L : Type} st t (root : CacheNode L) : caching st = Nothing → cached (lookup st t root) = None.
Proof. intros Hc. unfold lookup. by rewrite decide_True. Qed.

(** ** Lemmas: levels *)

Lemma passes_max l a b : passes l (filter_max a b) = passes l a || passes l b.
Proof.
  unfold passes, filter_max. destruct (filter_num a <=? filter_num b) eqn:E;
    rewrite ?Z.leb_le, ?Z.leb_gt in E;
    destruct (level_num l <=? filter_num a) eqn:E1, (level_num l <=? filter_num b) eqn:E2;
    rewrite ?Z.leb_le, ?Z.leb_gt in *; try done; lia.
Qed.

Lemma passes_foldl_max l fs : ∀ a,
  passes l (foldl filter_max a fs) = passes l a || existsb (passes l) fs.
Proof.
  induction fs as [|f fs IH]; intros a; simpl; [by rewrite orb_false_r|].
  by rewrite IH, passes_max, orb_assoc.
Qed.

Lemma passes_top l : passes l filter_top = true.
Proof. by destruct l. Qed.

Lemma filter_for_eq st t :
  filter_for st t =
  default (top_filter st) (last (omap (λ p, filters st !! p) (ancestors (split_colons t)))).
Proof.
  unfold filter_for.
  pose proof (filter_scan_ancestors (filters st) (S (String.length t)) "" t (top_filter st)) as H.
  change ("" +:+ t) with t in H. change (String.length "") with 0%nat in H. rewrite H by lia.
  rewrite foldl_default_last. do 2 f_equal. by rewrite list_fmap_id.
Qed.

(** The macros never drop a record that its filter lets through. *)
Lemma install_level_passes `{!HashOrder string} st t l :
  passes l (filter_for st t) = true → passes l (install_level st) = true.
Proof.
  rewrite filter_for_eq. unfold install_level. rewrite passes_max, passes_foldl_max.
  destruct (last _) as [f|] eqn:E; simpl; intros Hp; [|by rewrite Hp].
  apply last_Some_elem_of, list_elem_of_omap in E as (p & _ & Hf).
  rewrite (proj2 (existsb_exists _ _)); [by rewrite !orb_true_r|].
  exists f. split; [|done]. apply list_elem_of_In, list_elem_of_fmap. exists (p, f).
  split; [done|]. by apply elem_of_hash_iter.
Qed.

(** ** Lemmas: one record

    The laws of a [logging] module that does not raise, and whose loggers and
    levels do not change: [seen] are the records its handlers got. *)

Class LoggingLaws (W L R X : Type) {PL : PythonLogging W L R X} := {
  logger_of : string → L;
  shows : L → Z → bool;
  make : L → string → Z → option string → Z → string → R;
  seen : W → list R;
  getLogger_law name w : ∃ w', getLogger name w = (Ok (logger_of name), w') ∧ seen w' = seen w;
  isEnabledFor_law l n w : ∃ w', isEnabledFor l n w = (Ok (shows l n), w') ∧ seen w' = seen w;
  makeRecord_law l name n file line msg w :
    ∃ w', makeRecord l name n file line msg w = (Ok (make l name n file line msg), w') ∧ seen w' = seen w;
  handle_law l r w : ∃ w', handle l r w = (Ok tt, w') ∧ seen w' = seen w ++ [r]
}.

(** A worker never meets the unreachable case of [process_record]. *)
Lemma process_record_total {W L R X : Type} `{PythonLogging W L R X} st root r existing w :
  is_ret (process_record st root r existing w) = true.
Proof.
  unfold process_record. destruct (log_inner _ _ _ w) as [[[lg|]|e] w'] eqn:E; try done.
  destruct (caching st) eqn:Hc; [exfalso|done|by destruct (extract_max_level lg w') as [[]]]. revert E. unfold log_inner, pbind, pret.
  rewrite Hc. cbn. intros E. repeat case_match; simplify_eq;
    match goal with H : _ && false = true |- _ => by rewrite andb_false_r in H end.
Qed.

Section laws.
Context {W L R X : Type} `{LL : LoggingLaws W L R X} (st : LoggerState).

Definition python_record (r : OwnedRecord) : R :=
  let name := python_name st (or_target r) in
  make (logger_of name) name (map_level (or_level r)) (or_file r) (default 0 (or_line r)) (or_message r).

Definition shown_by_python (r : OwnedRecord) : bool :=
  shows (logger_of (python_name st (or_target r))) (map_level (or_level r)).

(** What the settings of the core and of Python want to see. *)
Definition wanted (r : OwnedRecord) : bool :=
  passes (or_level r) (filter_for st (or_target r)) && shown_by_python r.

Definition entry_ok (t : string) (e : CacheEntry L) : Prop :=
  ce_logger e = logger_of (python_name st t) ∧
  ∀ l, shows (ce_logger e) (map_level l) = true → passes l (ce_filter e) = true.

Definition cache_ok (root : CacheNode L) : Prop :=
  ∀ t e, cached (lookup st t root) = Some e → entry_ok t e.

Lemma first_enabled_law (lg : L) ls : ∀ w, StronglySorted (λ a b, level_num b ≤ level_num a) ls →
  ∃ f w', first_enabled ls lg w = (Ok f, w') ∧ seen w' = seen w ∧
          ∀ l, l ∈ ls → shows lg (map_level l) = true → passes l f = true.
Proof.
  induction ls as [|l ls IH]; intros w Hs; simpl; [exists Off, w; set_solver|].
  destruct (isEnabledFor_law lg (map_level l) w) as (w1 & E1 & S1).
  apply StronglySorted_inv in Hs as [Hs Hl].
  unfold pbind, is_enabled_for. rewrite E1. destruct (shows lg (map_level l)) eqn:Hsh.
  - exists (UpTo l), w1. split_and!; [done..|]. intros l' Hin _. apply Z.leb_le.
    apply elem_of_cons in Hin as [->|Hin]; [done|]. rewrite Forall_forall in Hl. by apply Hl.
  - destruct (IH w1 Hs) as (f & w2 & E2 & S2 & Hf). exists f, w2.
    split_and!; [done|by rewrite S2|]. intros l' [->|Hin]%elem_of_cons Hp; [congruence|by apply Hf].
Qed.

Lemma extract_max_level_law (lg : L) w :
  ∃ f w', extract_max_level lg w = (Ok f, w') ∧ seen w' = seen w ∧
          ∀ l, shows lg (map_level l) = true → passes l f = true.
Proof.
  destruct (first_enabled_law lg [Trace; Debug; Info; Warn; Error] w) as (f & w' & E & Hs & Hf).
  { repeat (constructor; [|repeat (constructor; [simpl; lia|]); constructor]). constructor. }
  exists f, w'. split_and!; [done..|]. intros l. apply Hf. destruct l; set_solver.
Qed.

Lemma log_inner_law r (cache : option (CacheNode L)) w :
  (∀ e, cached cache = Some e → ce_logger e = logger_of (python_name st (or_target r))) →
  ∃ o w', log_inner st r cache w = (Ok o, w') ∧
    seen w' = seen w ++ (if shown_by_python r then [python_record r] else []) ∧
    ∀ lg, o = Some lg → caching st ≠ Nothing ∧ lg = logger_of (python_name st (or_target r)).
Proof.
  intros Hc. unfold log_inner, shown_by_python, python_record.
  set (name := python_name st (or_target r)) in *.
  assert (∃ b w1, match ce_logger <$> cached cache with
                  | Some l => pret (l, true)
                  | None => pbind (getLogger name) (λ l, pret (l, false))
                  end w = (Ok (logger_of name, b), w1) ∧ seen w1 = seen w) as (b & w1 & E1 & S1).
  { destruct (cached cache) as [e|]; simpl.
    - exists true, w. unfold pret. by rewrite (Hc e).
    - destruct (getLogger_law name w) as (w1 & E & S). exists false, w1. unfold pbind, pret. by rewrite E. }
  unfold pbind at 1. rewrite E1. clear E1.
  destruct (isEnabledFor_law (logger_of name) (map_level (or_level r)) w1) as (w2 & E2 & S2).
  unfold pbind at 1, is_enabled_for. rewrite E2.
  assert (∀ o' : option L, o' = (if negb b && negb (bool_decide (caching st = Nothing))
                                then Some (logger_of name) else None) →
          ∀ lg, o' = Some lg → caching st ≠ Nothing ∧ lg = logger_of name) as Ho.
  { intros o' -> lg. destruct b; [done|]. simpl. case_bool_decide; simpl; [done|]. by intros [= ->]. }
  destruct (shows _ _).
  - destruct (makeRecord_law (logger_of name) name (map_level (or_level r)) (or_file r)
                (default 0 (or_line r)) (or_message r) w2) as (w3 & E3 & S3).
    destruct (handle_law (logger_of name) (make (logger_of name) name (map_level (or_level r)) (or_file r)
                (default 0 (or_line r)) (or_message r)) w3) as (w4 & E4 & S4).
    unfold pbind. rewrite E3, E4. unfold pret. do 2 eexists. split_and!; [done|by rewrite S4, S3, S2, S1|].
    by apply Ho.
  - unfold pbind, pret. do 2 eexists. split_and!; [done|by rewrite app_nil_r, S2, S1|]. by apply Ho.
Qed.

Lemma process_record_law root r w : cache_ok root →
  ∃ entry w', process_record st root r None w = Ret (entry, None, w') ∧
    seen w' = seen w ++ (if shown_by_python r then [python_record r] else []) ∧
    ∀ e, entry = Some e → caching st ≠ Nothing ∧ entry_ok (or_target r) e.
Proof.
  intros Hc. destruct (log_inner_law r (lookup st (or_target r) root) w) as (o & w1 & E & S1 & Ho).
  { intros e He. apply (Hc _ _ He). }
  unfold process_record. rewrite E. destruct o as [lg|]; [|by eexists _, w1].
  destruct (Ho lg eq_refl) as [Hn ->]. destruct (caching st) eqn:Hcs; [done| |]; simpl.
  - eexists _, w1. split_and!; [done..|]. intros e [= <-]. split; [done|]. split; [done|].
    intros l _. apply passes_top.
  - destruct (extract_max_level_law (logger_of (python_name st (or_target r))) w1) as (f & w2 & E2 & S2 & Hf).
    rewrite E2. eexists _, w2. split_and!; [done|by rewrite S2|]. by intros e [= <-].
Qed.

End laws.

(** ** Lemmas: the installed logger *)

Section system.
Context {W L R X : Type} `{LL : LoggingLaws W L R X} `{!HashOrder string} (st : LoggerState).

(** Nothing the core and Python want to see is lost: what the handlers got and
    what they still get from the channel is what was offered. *)
Record log_inv (w0 : W) (s : AsyncLogger W L) : Prop := {
  li_state : al_state s = st;
  li_level : al_max_level s = install_level st;
  li_cache : cache_ok st (al_cache s);
  li_worker : match al_worker s with
              | WIdle => True
              | WStore t e => caching st ≠ Nothing ∧ entry_ok st t e
              | WSwap _ new => cache_ok st new
              end;
  li_chan : Forall (λ r, passes (or_level r) (filter_for st (or_target r)) = true) (al_chan s);
  li_seen : seen (al_python s) ++ (python_record st <$> filter (λ r, wanted st r = true) (al_chan s)) =
            seen w0 ++ (python_record st <$> filter (λ r, wanted st r = true) (al_offered s));
  li_room : (length (al_chan s) ≤ LOG_CHANNEL_CAPACITY)%nat
}.

Lemma cache_ok_default : cache_ok st node_default.
Proof. intros t e. by rewrite cached_default. Qed.

Lemma cache_ok_store root t e : caching st ≠ Nothing → cache_ok st root → entry_ok st t e →
  cache_ok st (store_to_cache t e root).
Proof.
  intros Hc Hr He u e'. rewrite cached_store by done.
  destruct (decide (t = u)) as [->|]; [by intros [= <-]|apply Hr].
Qed.

(** The cache never hides a record that Python would show. *)
Lemma wanted_enabled r w0 s : log_inv w0 s → wanted st r = true →
  passes (or_level r) (al_max_level s) = true ∧ enabled (or_level r) (or_target r) s = true.
Proof.
  intros [Hst Hl Hc _ _ _ _] [Hp Hs]%andb_prop. rewrite Hl. unfold enabled, enabled_inner. rewrite Hst, Hp.
  split; [by apply install_level_passes with (or_target r)|]. rewrite andb_true_r.
  destruct (cached _) as [e|] eqn:E; simpl; [|apply passes_top].
  destruct (Hc _ _ E) as [He Hf]. apply Hf. by rewrite He.
Qed.

Lemma log_preserves r w0 s : log_inv w0 s → log_inv w0 (log r s).
Proof.
  intros Hi. pose proof (wanted_enabled r _ _ Hi) as Hw. destruct Hi as [Hst Hl Hc Hwk Hch Hseen Hroom].
  unfold log. destruct (length (al_chan s) <? LOG_CHANNEL_CAPACITY)%nat eqn:Hlen.
  2: { rewrite andb_false_r. by split. }
  apply Nat.ltb_lt in Hlen. rewrite andb_true_r.
  destruct (passes (or_level r) (al_max_level s) && enabled (or_level r) (or_target r) s) eqn:Hsend.
  - split; simpl; [done..| | |rewrite length_app; simpl; lia].
    + apply Forall_app. split; [done|]. constructor; [|done].
      apply andb_prop in Hsend as [_ Hsend]. unfold enabled, enabled_inner in Hsend. rewrite Hst in Hsend.
      by apply andb_prop in Hsend as [_ Hsend].
    + rewrite !filter_app, !fmap_app, (assoc_L (++)), Hseen. by rewrite <- !app_assoc.
  - split; simpl; [done..| |lia]. rewrite filter_app, filter_cons, decide_False.
    + by rewrite filter_nil, app_nil_r.
    + intros Hwr. destruct (Hw Hwr) as [H1 H2]. by rewrite H1, H2 in Hsend.
Qed.

Lemma work_preserves w0 s s' : log_inv w0 s → log_work s = Ret s' → log_inv w0 s'.
Proof.
  intros [Hst Hl Hc Hwk Hch Hseen Hroom]. unfold log_work. destruct (al_worker s) as [|t e|o n] eqn:Ew.
  - destruct (al_chan s) as [|r q] eqn:Eq.
    { intros [= <-]. split; rewrite ?Eq, ?Ew; done. }
    destruct (process_record_law st (al_cache s) r (al_python s) Hc) as (en & w' & E & S & He).
    rewrite Hst, E. cbn [obind]. intros [= <-]. apply Forall_cons in Hch as [Hr Hch].
    split; simpl; [done..| |done| |simpl in Hroom; lia].
    + destruct en as [e|]; [by apply He|done].
    + rewrite <- Hseen, S, <- app_assoc. f_equal. rewrite filter_cons.
      replace (wanted st r) with (shown_by_python st r) by (unfold wanted; by rewrite Hr).
      by destruct (shown_by_python st r).
  - intros [= <-]. split; simpl; [done..| |done|done|done]. destruct Hwk. by apply cache_ok_store.
  - intros [= <-]. destruct (decide _); split; done.
Qed.

Lemma log_step_preserves w0 s ev s' : log_inv w0 s → log_step s ev = Ret s' → log_inv w0 s'.
Proof.
  intros Hi. destruct ev as [r| |]; simpl.
  - intros [= <-]. by apply log_preserves.
  - by apply work_preserves.
  - intros [= <-]. destruct Hi. split; simpl; try done. apply cache_ok_default.
Qed.

End system.

Lemma log_step_total {W L R X : Type} `{PythonLogging W L R X} (s : AsyncLogger W L) ev :
  is_ret (log_step s ev) = true.
Proof.
  destruct ev as [r| |]; simpl; try done. unfold log_work. destruct (al_worker s); try done.
  destruct (al_chan s) as [|r q]; [done|].
  pose proof (process_record_total (al_state s) (al_cache s) r None (al_python s)) as Ht.
  by destruct (process_record _ _ _ _ _) as [[[? ?] ?]|].
Qed.

Lemma log_run_total {W L R X : Type} `{PythonLogging W L R X} evs : ∀ s : AsyncLogger W L,
  is_ret (log_run s evs) = true.
Proof.
  unfold log_run. induction evs as [|ev evs IH]; intros s; simpl; [done|].
  pose proof (log_step_total s ev) as Ht. destruct (log_step s ev); [apply IH|done].
Qed.

Definition logged (evs : list log_event) : list OwnedRecord :=
  omap (λ ev, match ev with LgLog r => Some r | _ => None end) evs.

Lemma log_run_offered {W L R X : Type} `{PythonLogging W L R X} evs : ∀ s s' : AsyncLogger W L,
  log_run s evs = Ret s' →
  ∃ l, al_offered s' = al_offered s ++ l ∧ l `sublist_of` logged evs ∧
    ((length (al_chan s) + length (logged evs) ≤ LOG_CHANNEL_CAPACITY)%nat → l = logged evs).
Proof.
  unfold log_run. induction evs as [|ev evs IH]; intros s s' Hr; simpl in Hr.
  { injection Hr as <-. exists []. by rewrite app_nil_r. }
  destruct (log_step s ev) as [s1|] eqn:E; [|done]. simpl in Hr.
  destruct (IH _ _ Hr) as (l & Hl & Hsub & Hall). rewrite Hl.
  destruct ev as [r| |]; simpl in E |- *.
  - injection E as <-. unfold log, al_with_offered in *. simpl in *.
    destruct (length (al_chan s) <? LOG_CHANNEL_CAPACITY)%nat eqn:Hlen.
    + exists (r :: l). split; [by rewrite <- app_assoc|]. split; [by apply sublist_skip|].
      intros Hb. rewrite Hall; [done|]. destruct (_ && _); rewrite ?length_app; simpl; lia.
    + apply Nat.ltb_ge in Hlen. exists l. split; [done|]. split; [by apply sublist_cons|]. simpl. lia.
  - exists l. assert (al_offered s1 = al_offered s ∧ (length (al_chan s1) ≤ length (al_chan s))%nat) as [-> Hle].
    { revert E. unfold log_work. destruct (al_worker s).
      - destruct (al_chan s) as [|r q] eqn:Eq; [intros [= <-]; by rewrite Eq|].
        destruct (process_record _ _ _ _ _) as [[[en x] w]|]; simpl; [|done]. intros [= <-]. split; simpl; [done|lia].
      - by intros [= <-].
      - intros [= <-]. by destruct (decide _). }
    split_and!; [done..|]. intros Hb. apply Hall. lia.
  - injection E as <-. by exists l.
Qed.

(** ** Theorems *)

(** C31: For any sequence of log calls, worker steps and cache resets after the
    installation, whatever the caching mode: the worker never panics, and the
    records that Python's handlers got, followed by those that still wait in the
    channel, are the records offered while the channel had room, in order, that
    the filter of their target and the level of their Python logger let
    through.  The cached levels hide nothing, the channel never exceeds its
    capacity, and up to 4096 log calls none is lost.  (While the Python levels do
    not change, and no logging call raises.) *)
Theorem records_reach_python {W L R X : Type} `{LoggingLaws W L R X} `{!HashOrder string}
    (lg : LoggerState) (w : W) (s0 : AsyncLogger W L) (evs : list log_event) :
  install lg w None = (Ok tt, Some s0) →
  ∃ s, log_run s0 evs = Ret s ∧
    seen (al_python s) ++ (python_record lg <$> filter (λ r, wanted lg r = true) (al_chan s)) =
    seen w ++ (python_record lg <$> filter (λ r, wanted lg r = true) (al_offered s)) ∧
    al_offered s `sublist_of` logged evs ∧
    (length (al_chan s) ≤ LOG_CHANNEL_CAPACITY)%nat ∧
    ((length (logged evs) ≤ LOG_CHANNEL_CAPACITY)%nat → al_offered s = logged evs).
Proof.
  intros [= <-]. destruct (log_run _ evs) as [s|] eqn:E.
  2: { exfalso. apply (f_equal is_ret) in E. by rewrite log_run_total in E. }
  exists s. split; [done|].
  apply log_run_offered in E as Ho. destruct Ho as (l & Ho & Hsub & Hall). simpl in *.
  rewrite Ho. assert (log_inv lg w s) as [].
  { refine (ofold_inv (log_inv lg w) _ _ _ _ _ _ E).
    - intros a ev a' _. apply log_step_preserves.
    - split; simpl; try done; [apply cache_ok_default|lia]. }
  rewrite Ho in *. done.
Qed.

(** The filter of a target is the one set for its longest ancestor that has
    one: the target itself or the part of it before some "::"; the global filter
    when no ancestor has any.  It never lets through a record that the level
    installed for the macros stops. *)
Theorem filter_of_longest_ancestor `{!HashOrder string} (lg : LoggerState) (target : string) :
  filter_for lg target =
    default (top_filter lg)
      (last (omap (λ p, filters lg !! p) (ancestors (split_colons target)))) ∧
  ∀ l, passes l (filter_for lg target) = true → passes l (install_level lg) = true.
Proof. split; [apply filter_for_eq|]. intros l. apply install_level_passes. Qed.

(** C35: The cache is a map from targets to entries, although it is a tree of
    segments: a store changes the entry of its target and no other, a reset
    empties it, with [Caching::Nothing] nothing is ever found, and a reset
    between the load and the compare-and-swap of a store wins. *)
Theorem cache_is_a_map {W L R X : Type} `{PythonLogging W L R X} (lg : LoggerState) t u
    (e : CacheEntry L) root (s : AsyncLogger W L) :
  al_worker s = WStore t e → (al_ptr s < al_fresh s)%nat →
  cached (lookup lg u (store_to_cache t e root)) =
    (if decide (caching lg = Nothing) then None
     else if decide (t = u) then Some e else cached (lookup lg u root)) ∧
  (∃ s1, log_run s [LgWork; LgWork] = Ret s1 ∧
     cached (lookup lg u (al_cache s1)) =
       if decide (caching lg = Nothing) then None
       else if decide (t = u) then Some e else cached (lookup lg u (al_cache s))) ∧
  ∃ s2, log_run s [LgWork; LgReset; LgWork] = Ret s2 ∧ cached (lookup lg u (al_cache s2)) = None.
Proof.
  intros Hw Hp. assert (∀ r, cached (lookup lg u (store_to_cache t e r)) =
    (if decide (caching lg = Nothing) then None
     else if decide (t = u) then Some e else cached (lookup lg u r))) as Hs.
  { intros r. case_decide; [by apply cached_nothing|by apply cached_store]. }
  unfold log_run, ofold, log_step, log_work. rewrite Hw. simpl.
  split_and!; [apply Hs|..]; eexists; (split; [done|]).
  - rewrite decide_True by done. apply Hs.
  - rewrite decide_False by lia. apply cached_default.
Qed.

(** ** Witnesses *)

(** A [logging] module that shows everything from WARNING on. *)
#[local] Instance demo_logging : PythonLogging (list (string * Z * string)) string (string * Z * string) unit := {|
  getLogger n w := (Ok n, w);
  isEnabledFor _ n w := (Ok (30 <=? n), w);
  makeRecord _ name n _ _ msg w := (Ok (name, n, msg), w);
  handle _ r w := (Ok tt, w ++ [r])
|}.

#[local] Program Instance demo_laws : LoggingLaws (list (string * Z * string)) string (string * Z * string) unit := {|
  logger_of n := n;
  shows _ n := 30 <=? n;
  make _ name n _ _ msg := (name, n, msg);
  seen w := w
|}.
Solve Obligations with (intros; eexists; by split).

Definition demo_log (l : Level) (t m : string) : log_event :=
  LgLog {| or_level := l; or_target := t; or_message := m; or_file := None; or_line := None |}.

Definition demo_log_events : list log_event :=
  [demo_log Warn "kafpy::worker" "a"; LgWork; demo_log Info "kafpy::worker" "b"; LgWork; LgWork;
   demo_log Error "kafpy::worker" "c"; LgReset; demo_log Debug "rdkafka" "d"; LgWork].

Definition demo_logger : LoggerState := filter_target "rdkafka" Off (logger_new LoggersAndLevels).

Lemma records_reach_python_witness :
  ∃ s0 s, let _ := hash_order_canonical string in
    install demo_logger [] None = (Ok tt, Some s0) ∧ log_run s0 demo_log_events = Ret s ∧
    seen (al_python s) = [("kafpy.worker", 30, "a")] ∧ (length (al_chan s) = 1)%nat.
Proof.
  pose (HO := hash_order_canonical string). eexists.
  destruct (records_reach_python demo_logger [] _ demo_log_events eq_refl) as (s & Hs & _).
  exists s. simpl. split; [done|]. split; [exact Hs|].
  revert Hs. vm_compute. by intros [= <-].
Defined.

Lemma cache_is_a_map_witness :
  ∃ s1, let _ := hash_order_canonical string in
    log_run {| al_state := demo_logger; al_max_level := UpTo Debug; al_ptr := 0; al_cache := node_default;
               al_fresh := 1; al_chan := []; al_worker := WStore "a::b" {| ce_filter := Off; ce_logger := "a.b" |};
               al_python := []; al_offered := [] |} [LgWork; LgWork] = Ret s1 ∧
    cached (lookup demo_logger "a::b" (al_cache s1)) = Some {| ce_filter := Off; ce_logger := "a.b" |}.
Proof.
  edestruct (cache_is_a_map demo_logger "a::b" "a::b" {| ce_filter := Off; ce_logger := "a.b" |} node_default
    {| al_state := demo_logger; al_max_level := UpTo Debug; al_ptr := 0; al_cache := node_default;
       al_fresh := 1; al_chan := []; al_worker := WStore "a::b" {| ce_filter := Off; ce_logger := "a.b" |};
       al_python := []; al_offered := [] |}) as (_ & (s1 & Hs & Hc) & _); [done|simpl; lia|].
  exists s1. split; [exact Hs|]. rewrite Hc. by vm_compute.
Defined.
