(* ===== verification/Handlers.v ===== *)
(** * Builders of handlers (src/consumer/runtime.rs, src/execution/callback.rs, src/bindings.rs)

    The two builders of handlers, the registration of fan-out groups with the
    identifiers it hands out, and the failure classes shown to Python. *)

From stdpp Require Import base gmap sets list strings.
From S2P Require Import Prelude Failure Retry Execution FanOut Builder.

(** ** [HandlerMetadataBuilder] *)

Inductive metadata_call :=
| MdMode (m : HandlerMode)
| MdBatchMaxSize (n : Z)
| MdBatchMaxWaitMs (n : Z)
| MdTimeoutMs (n : Z)
| MdConcurrency (n : Z)
| MdMiddleware (l : list string)
| MdFanOutConfig (c : FanOutConfig).

(** [HandlerMetadata::new]. *)
Definition metadata_new (mode : HandlerMode) (size wait timeout concurrency : option Z)
    (middleware : option (list string)) (fan_out : option FanOutConfig) : PyHandlerMetadata :=
  {| pm_mode := mode; pm_batch_max_size := size; pm_batch_max_wait_ms := wait;
     pm_timeout_ms := timeout; pm_concurrency := concurrency; pm_middleware := middleware;
     pm_fan_out_config := fan_out |}.

(** [HandlerMetadataBuilder::new]; the builder has the fields of what it builds. *)
Definition metadata_builder_new : PyHandlerMetadata :=
  metadata_new SingleSync None None None None None None.

Definition metadata_set (b : PyHandlerMetadata) (c : metadata_call) : PyHandlerMetadata :=
  match c with
  | MdMode m =>
      metadata_new m (pm_batch_max_size b) (pm_batch_max_wait_ms b) (pm_timeout_ms b)
        (pm_concurrency b) (pm_middleware b) (pm_fan_out_config b)
  | MdBatchMaxSize n =>
      metadata_new (pm_mode b) (Some n) (pm_batch_max_wait_ms b) (pm_timeout_ms b)
        (pm_concurrency b) (pm_middleware b) (pm_fan_out_config b)
  | MdBatchMaxWaitMs n =>
      metadata_new (pm_mode b) (pm_batch_max_size b) (Some n) (pm_timeout_ms b)
        (pm_concurrency b) (pm_middleware b) (pm_fan_out_config b)
  | MdTimeoutMs n =>
      metadata_new (pm_mode b) (pm_batch_max_size b) (pm_batch_max_wait_ms b) (Some n)
        (pm_concurrency b) (pm_middleware b) (pm_fan_out_config b)
  | MdConcurrency n =>
      metadata_new (pm_mode b) (pm_batch_max_size b) (pm_batch_max_wait_ms b) (pm_timeout_ms b)
        (Some n) (pm_middleware b) (pm_fan_out_config b)
  | MdMiddleware l =>
      metadata_new (pm_mode b) (pm_batch_max_size b) (pm_batch_max_wait_ms b) (pm_timeout_ms b)
        (pm_concurrency b) (Some l) (pm_fan_out_config b)
  | MdFanOutConfig c =>
      metadata_new (pm_mode b) (pm_batch_max_size b) (pm_batch_max_wait_ms b) (pm_timeout_ms b)
        (pm_concurrency b) (pm_middleware b) (Some c)
  end.

(** [build]: every field as it is. *)
Definition metadata_build (b : PyHandlerMetadata) : PyHandlerMetadata :=
  metadata_new (pm_mode b) (pm_batch_max_size b) (pm_batch_max_wait_ms b) (pm_timeout_ms b)
    (pm_concurrency b) (pm_middleware b) (pm_fan_out_config b).

(** ** [PythonHandlerBuilder] *)

Inductive handler_call :=
| HcRetryPolicy (p : RetryPolicy)
| HcMode (m : HandlerMode)
| HcBatchPolicy (p : BatchPolicy)
| HcHandlerTimeout (d : Z)
| HcMiddleware (l : list string).

(** [PythonHandler::new]. *)
Definition python_handler_new (policy : option RetryPolicy) (mode : HandlerMode)
    (batch : option BatchPolicy) (timeout : option Z) (name : string)
    (middleware : option (list string)) : PythonHandler :=
  {| h_retry_policy := policy; h_mode := mode; h_batch_policy := batch; handler_timeout := timeout;
     h_name := name; h_middleware := middleware |}.

Definition handler_builder_new (name : string) : PythonHandler :=
  python_handler_new None SingleSync None None name None.

Definition handler_set (b : PythonHandler) (c : handler_call) : PythonHandler :=
  match c with
  | HcRetryPolicy p =>
      python_handler_new (Some p) (h_mode b) (h_batch_policy b) (handler_timeout b) (h_name b) (h_middleware b)
  | HcMode m =>
      python_handler_new (h_retry_policy b) m (h_batch_policy b) (handler_timeout b) (h_name b) (h_middleware b)
  | HcBatchPolicy p =>
      python_handler_new (h_retry_policy b) (h_mode b) (Some p) (handler_timeout b) (h_name b) (h_middleware b)
  | HcHandlerTimeout d =>
      python_handler_new (h_retry_policy b) (h_mode b) (h_batch_policy b) (Some d) (h_name b) (h_middleware b)
  | HcMiddleware l =>
      python_handler_new (h_retry_policy b) (h_mode b) (h_batch_policy b) (handler_timeout b) (h_name b) (Some l)
  end.

(** [build]: without a fan-out. *)
Definition handler_build (b : PythonHandler) : FanOutHandler :=
  fan_out_handler_new
    (python_handler_new (h_retry_policy b) (h_mode b) (h_batch_policy b) (handler_timeout b)
       (h_name b) (h_middleware b)).

(** ** Fan-out groups

    The counter is the process-wide FAN_OUT_COUNTER, which starts at 1. *)

Record FanOutRegistration := {
  fr_group_name : string;
  fr_fan_out_id : Z;
  fr_sink_topics : list string
}.

(** [FanOutBuilderRust::new]. *)
Definition fan_out_builder_new (group : string) (sinks : list string) (mode : HandlerMode)
    (timeout : option Z) : FanOutBuilder :=
  {| fb_group_name := group; fb_sink_topics := sinks; fb_mode := mode; fb_timeout_ms := timeout;
     fb_max_fan_out := None |}.

(** [PyConsumer::register_fanout] with the registration it returns. *)
Definition register_fanout_group (group : string) (sinks : list string) (max_fan_out timeout : option Z)
    (x : Z * PyConsumer) : FanOutRegistration * (Z * PyConsumer) :=
  let '(counter, pc) := x in
  let builder := fan_out_builder_new group sinks (mode_from_opt_str None) timeout in
  let max := Z.min (default 4 max_fan_out) 64 in
  let pc := register_into_consumer builder max pc in
  ({| fr_group_name := fb_group_name builder; fr_fan_out_id := counter; fr_sink_topics := sinks |},
   (u64_wrap (counter + 1), pc)).

(** The groups a program registers, in order. *)
Record fan_out_group := { fg_name : string; fg_sinks : list string; fg_max : option Z; fg_timeout : option Z }.

Fixpoint register_groups (gs : list fan_out_group) (x : Z * PyConsumer)
    : list FanOutRegistration * (Z * PyConsumer) :=
  match gs with
  | [] => ([], x)
  | g :: gs =>
      let '(r, x) := register_fanout_group (fg_name g) (fg_sinks g) (fg_max g) (fg_timeout g) x in
      let '(rs, x) := register_groups gs x in
      (r :: rs, x)
  end.

(** ** Failures as Python sees them (src/bindings.rs) *)

Inductive PyFailureCategory := PyRetryable | PyTerminal | PyNonRetryable.

Definition py_category_repr (c : PyFailureCategory) : string :=
  match c with
  | PyRetryable => "FailureCategory.Retryable"
  | PyTerminal => "FailureCategory.Terminal"
  | PyNonRetryable => "FailureCategory.NonRetryable"
  end.

Definition py_category_from (c : FailureCategory) : PyFailureCategory :=
  match c with Retryable => PyRetryable | Terminal => PyTerminal | NonRetryable => PyNonRetryable end.

Record PyFailureReason := { pf_category : PyFailureCategory; pf_description : string }.

Definition py_reason_from (r : FailureReason) : PyFailureReason :=
  {| pf_category := py_category_from (category r); pf_description := reason_to_string r |}.

(** ** Lemmas *)

(** The last value a history of calls gives to one setter. *)
Definition last_value {A B : Type} (f : A → option B) (calls : list A) : option B := last (omap f calls).

Lemma last_value_snoc {A B : Type} (f : A → option B) calls c :
  last_value f (calls ++ [c]) = match f c with Some b => Some b | None => last_value f calls end.
Proof.
  unfold last_value. rewrite omap_app. simpl. destruct (f c); [apply last_snoc|by rewrite app_nil_r].
Qed.

(** The builders of handlers give what the constructors give.  After any calls
    of its setters, in any order and however often, each builder builds the value
    the constructor makes of the last value given for every field, with the
    single-message mode and nothing else set by default, and without a fan-out. *)
Theorem handler_builders_set_last (mcalls : list metadata_call) (hcalls : list handler_call) name :
  metadata_build (foldl metadata_set metadata_builder_new mcalls) =
    metadata_new
      (default SingleSync (last_value (λ c, match c with MdMode m => Some m | _ => None end) mcalls))
      (last_value (λ c, match c with MdBatchMaxSize n => Some n | _ => None end) mcalls)
      (last_value (λ c, match c with MdBatchMaxWaitMs n => Some n | _ => None end) mcalls)
      (last_value (λ c, match c with MdTimeoutMs n => Some n | _ => None end) mcalls)
      (last_value (λ c, match c with MdConcurrency n => Some n | _ => None end) mcalls)
      (last_value (λ c, match c with MdMiddleware l => Some l | _ => None end) mcalls)
      (last_value (λ c, match c with MdFanOutConfig f => Some f | _ => None end) mcalls) ∧
  handler_build (foldl handler_set (handler_builder_new name) hcalls) =
    fan_out_handler_new (python_handler_new
      (last_value (λ c, match c with HcRetryPolicy p => Some p | _ => None end) hcalls)
      (default SingleSync (last_value (λ c, match c with HcMode m => Some m | _ => None end) hcalls))
      (last_value (λ c, match c with HcBatchPolicy p => Some p | _ => None end) hcalls)
      (last_value (λ c, match c with HcHandlerTimeout d => Some d | _ => None end) hcalls)
      name
      (last_value (λ c, match c with HcMiddleware l => Some l | _ => None end) hcalls)).
Proof.
  split.
  - induction mcalls as [|c calls IH] using rev_ind; [done|].
    rewrite foldl_app. cbn [foldl]. rewrite !last_value_snoc.
    unfold metadata_build in *. unfold metadata_new in *. injection IH as I1 I2 I3 I4 I5 I6 I7.
    destruct c; simpl; unfold metadata_new; simpl; congruence.
  - induction hcalls as [|c calls IH] using rev_ind; [done|].
    rewrite foldl_app. cbn [foldl]. rewrite !last_value_snoc.
    unfold handler_build, fan_out_handler_new, python_handler_new in *. injection IH as I1 I2 I3 I4 I5 I6.
    destruct c; simpl; unfold python_handler_new; simpl; congruence.
Qed.

Lemma register_groups_spec gs counter pc :
  0 ≤ counter → counter + Z.of_nat (length gs) < 2 ^ 64 →
  let x := register_groups gs (counter, pc) in
  fr_fan_out_id <$> x.1 = (λ i, counter + Z.of_nat i) <$> seq 0 (length gs) ∧
  x.2 = (counter + Z.of_nat (length gs),
         foldl (λ pc g, register_fanout (fg_name g) (fg_sinks g) (fg_max g) (fg_timeout g) pc) pc gs).
Proof.
  revert counter pc. induction gs as [|g gs IH]; intros counter pc H0 H1; cbn zeta.
  { simpl. by rewrite Z.add_0_r. }
  cbn [length] in H1. cbn [register_groups]. unfold register_fanout_group. cbn zeta.
  unfold u64_wrap. rewrite Z.mod_small by lia.
  specialize (IH (counter + 1) (register_into_consumer
    (fan_out_builder_new (fg_name g) (fg_sinks g) (mode_from_opt_str None) (fg_timeout g))
    (Z.min (default 4 (fg_max g)) 64) pc) ltac:(lia) ltac:(lia)).
  cbn zeta in IH. destruct (register_groups gs _) as [rs x]. cbn [fst snd] in *.
  destruct IH as [I1 ->]. cbn [length seq foldl]. split.
  - cbn [fmap list_fmap fr_fan_out_id]. f_equal; [lia|]. rewrite I1, <- (fmap_S_seq 0).
    rewrite <- list_fmap_compose. apply list_fmap_ext. intros. simpl. lia.
  - apply (f_equal (λ n, (n, _))). lia.
Qed.

(** Every fan-out group of a process gets an identifier of its own: the groups
    registered from a fresh process on have the identifiers 1, 2, and so on; and
    the consumer is left with the last handler made for each sink topic, named
    after its group. *)
Theorem fan_out_groups_are_told_apart gs c :
  Z.of_nat (length gs) < 2 ^ 64 - 1 →
  let x := register_groups gs (1, py_consumer_new c) in
  fr_fan_out_id <$> x.1 = (λ i, 1 + Z.of_nat i) <$> seq 0 (length gs) ∧
  NoDup (fr_fan_out_id <$> x.1) ∧
  (∀ t, fh_handler <$> pc_fan_out_handlers x.2.2 !! t =
     (λ g, python_handler_new None SingleSync None (from_millis <$> fg_timeout g)
             (fg_name g +:+ "[" +:+ t +:+ "]") None)
       <$> last (filter (λ g, t ∈ fg_sinks g) gs)) ∧
  (∀ t g, g ∈ gs → t ∈ fg_sinks g → is_Some (pc_handlers x.2.2 !! t)).
Proof.
  intros Hl x. destruct (register_groups_spec gs 1 (py_consumer_new c) ltac:(lia) ltac:(lia)) as [E1 E2].
  fold x in E1, E2. rewrite E1, E2. cbn [fst snd]. split; [done|]. split.
  { apply NoDup_fmap_2; [|apply NoDup_seq]. intros i j. lia. }
  clear. induction gs as [|g gs IH] using rev_ind; [split; [done|by intros t g Hg%not_elem_of_nil]|].
  rewrite foldl_app. cbn [foldl]. set (pc := foldl _ _ gs) in *. destruct IH as [I1 I2].
  unfold register_fanout.
  match goal with |- context [register_into_consumer ?b ?m pc] =>
    pose proof (register_into_consumer_lookup b m pc) as R end.
  split.
  - intros t. destruct (R t) as (_ & R2 & _ & _). cbn [fb_sink_topics] in R2.
    rewrite R2, filter_app. cbn. destruct (decide (t ∈ fg_sinks g)); [by rewrite last_snoc|].
    rewrite app_nil_r. apply I1.
  - intros t g' Hg Ht. destruct (R t) as (_ & _ & R3 & R4). cbn [fb_sink_topics] in R3, R4.
    apply elem_of_app in Hg as [Hg|Hg%list_elem_of_singleton]; [|subst; by apply R3].
    destruct (decide (t ∈ fg_sinks g)); [by apply R3|]. rewrite R4 by done. by eapply I2.
Qed.

(** ** Witnesses *)

Abbreviation demo_groups :=
  [{| fg_name := "audit"; fg_sinks := ["a"; "b"]; fg_max := None; fg_timeout := None |};
   {| fg_name := "index"; fg_sinks := ["b"]; fg_max := Some 200; fg_timeout := Some 50 |}].

Lemma fan_out_groups_are_told_apart_witness :
  let x := register_groups demo_groups (1, py_consumer_new demo_py_config) in
  fr_fan_out_id <$> x.1 = [1; 2] ∧
  h_name ∘ fh_handler <$> pc_fan_out_handlers x.2.2 !! "b" = Some "index[b]".
Proof.
  destruct (fan_out_groups_are_told_apart demo_groups demo_py_config) as (H1 & _ & H3 & _);
    [reflexivity|].
  split; [exact H1|]. specialize (H3 "b"). cbn zeta.
  rewrite option_fmap_compose, H3. vm_compute. reflexivity.
Defined.
