(* ===== verification/Task.v ===== *)
(** * The running consumer (src/consumer/runner.rs)

    [ConsumerRunner::run] and [ConsumerTask]: the task that receives, the bounded
    channel it fills, the task that hands every message to a function, and the
    broadcast signal that stops the first one.  Both tasks take steps in any
    interleaving; rdkafka's answers and the function are parameters. *)

From stdpp Require Import base gmap sets list strings.
From S2P Require Import Prelude FromStr Message Shutdown Runner Config.

(** [ConsumerError] of consumer/error.rs; the error types of the broker client
    and of the deserializers are parameters. *)
Inductive ConsumerError {KafkaError Source : Type} :=
| Kafka (e : KafkaError)
| Subscription (broker message : string)
| Receive (handler : string) (timeout_ms : Z) (message : string)
| Serialization (topic : string) (partition offset : Z) (bytes_preview : list Byte.byte)
    (source : Source)
| Processing (topic : string) (partition offset : Z) (message : string)
| NotStarted
| AlreadyStarted
| ConfigError (e : BuildError).
Arguments ConsumerError : clear implicits.

(** What [consumer.recv()] answers. *)
Inductive recv_result :=
| RecvOk (m : BorrowedMessage)
| RecvConsumptionError
| RecvOtherError.

(** Where the receiving task is. *)
Inductive loop_pc :=
| LoopNone                       (* [run] has not been called *)
| LoopRecv                       (* at the outer select *)
| LoopSend (m : OwnedMessage)    (* at the inner select *)
| LoopSleep (ms : Z)
| LoopDone.                      (* left the loop; the sender is dropped *)

(** Where the processing task is. *)
Inductive task_pc :=
| TaskInit                       (* spawned, not polled yet *)
| TaskNext                       (* awaits the next item of the stream *)
| TaskProcess (m : OwnedMessage)
| TaskEnd.                       (* the receiver is dropped *)

Definition RUN_CHANNEL_CAPACITY : nat := 1000.

Section task.
Context {KafkaError Source : Type}.

(** What [process], an [FnMut], answers on a message after the ones it was
    given before. *)
Context (process : list OwnedMessage → OwnedMessage → bool).

(** Whether a clone of the runner lives outside the task. *)
Context (clones : bool).

Record stream_state := {
  ss_loop : loop_pc;
  ss_signal : bool;              (* the receiver of the broadcast has an item *)
  ss_channel : list (result OwnedMessage (ConsumerError KafkaError Source));
  ss_task : task_pc;
  ss_coord : option ShutdownCoordinator;
  ss_owned : bool;               (* the [ConsumerTask] holds its runner *)
  ss_received : list BorrowedMessage;   (* what [recv] returned, in order *)
  ss_handled : list OwnedMessage        (* what [process] was called on, in order *)
}.

Definition with_loop (l : loop_pc) (s : stream_state) : stream_state :=
  {| ss_loop := l; ss_signal := ss_signal s; ss_channel := ss_channel s; ss_task := ss_task s;
     ss_coord := ss_coord s; ss_owned := ss_owned s; ss_received := ss_received s; ss_handled := ss_handled s |}.

(** [ConsumerTask::spawn]: the loop is started by the first poll of the task. *)
Definition task_spawn (coord : option ShutdownCoordinator) : stream_state :=
  {| ss_loop := LoopNone; ss_signal := false; ss_channel := []; ss_task := TaskInit;
     ss_coord := coord; ss_owned := true; ss_received := []; ss_handled := [] |}.

(** [run]: subscribes to the broadcast, so only later signals are seen. *)
Definition run (s : stream_state) : stream_state :=
  {| ss_loop := LoopRecv; ss_signal := false; ss_channel := []; ss_task := TaskNext;
     ss_coord := ss_coord s; ss_owned := ss_owned s; ss_received := ss_received s; ss_handled := ss_handled s |}.

Definition receiver_dropped (s : stream_state) : bool :=
  match ss_task s with TaskEnd => true | _ => false end.

(** [shutdown_rx.recv()] is ready on a signal, and once every sender is gone:
    the runners of the owner, of the running task and of the clones. *)
Definition broadcast_ready (s : stream_state) : bool :=
  ss_signal s || (negb clones && negb (ss_owned s) && receiver_dropped s).

Inductive loop_event :=
| LvSignal                       (* [shutdown_rx.recv()] completes *)
| LvRecv (r : recv_result)       (* [consumer.recv()] completes *)
| LvSend                         (* [tx.send] completes *)
| LvWake.                        (* the sleep is over *)

(** One step of the receiving task, if it can be taken: both selects are biased
    towards the signal, and a send waits for a free slot. *)
Definition loop_step (e : loop_event) (s : stream_state) : option stream_state :=
  match ss_loop s, e with
  | LoopRecv, LvSignal | LoopSend _, LvSignal =>
      if broadcast_ready s then Some (with_loop LoopDone s) else None
  | LoopRecv, LvRecv r =>
      if broadcast_ready s then None
      else match r with
      | RecvOk m =>
          Some {| ss_loop := LoopSend (from_borrowed m); ss_signal := ss_signal s;
                  ss_channel := ss_channel s; ss_task := ss_task s; ss_coord := ss_coord s; ss_owned := ss_owned s;
                  ss_received := ss_received s ++ [m]; ss_handled := ss_handled s |}
      | RecvConsumptionError => Some (with_loop (LoopSleep 100) s)
      | RecvOtherError => Some (with_loop (LoopSleep 500) s)
      end
  | LoopSend m, LvSend =>
      if broadcast_ready s then None
      else if receiver_dropped s then Some (with_loop LoopDone s)
      else if decide (length (ss_channel s) < RUN_CHANNEL_CAPACITY)%nat then
        Some {| ss_loop := LoopRecv; ss_signal := ss_signal s;
                ss_channel := ss_channel s ++ [Ok m]; ss_task := ss_task s;
                ss_coord := ss_coord s; ss_owned := ss_owned s; ss_received := ss_received s; ss_handled := ss_handled s |}
      else None
  | LoopSleep _, LvWake => Some (with_loop LoopRecv s)
  | _, _ => None
  end.

(** The processing task. *)
Definition task_with (t : task_pc) (ch : list (result OwnedMessage (ConsumerError KafkaError Source)))
    (handled : list OwnedMessage) (s : stream_state) : stream_state :=
  {| ss_loop := ss_loop s; ss_signal := ss_signal s; ss_channel := ch; ss_task := t;
     ss_coord := ss_coord s; ss_owned := ss_owned s; ss_received := ss_received s; ss_handled := handled |}.

(** The task returns or is dropped, and the receiver with it. *)
Definition task_end (s : stream_state) : stream_state := task_with TaskEnd [] (ss_handled s) s.

Definition loop_ended (s : stream_state) : bool :=
  match ss_loop s with LoopDone => true | _ => false end.

Inductive task_event :=
| TvStart                        (* the first poll *)
| TvNext                         (* [stream.next()] completes *)
| TvProcessed.                   (* [process(msg)] completes *)

Definition task_step (e : task_event) (s : stream_state) : option stream_state :=
  match ss_task s, e with
  | TaskInit, TvStart => Some (run s)
  | TaskNext, TvNext =>
      match ss_channel s with
      | Ok m :: ch => Some (task_with (TaskProcess m) ch (ss_handled s ++ [m]) s)
      | Err e :: _ => Some (task_end s)
      | [] => if loop_ended s then Some (task_end s) else None
      end
  | TaskProcess m, TvProcessed =>
      if process (removelast (ss_handled s)) m
      then Some (task_with TaskNext (ss_channel s) (ss_handled s) s)
      else Some (task_end s)
  | _, _ => None
  end.

(** [ConsumerStream::poll_next]: the next item, the end once the sender of the
    receiving task is gone, or nothing yet. *)
Definition poll_next (s : stream_state)
    : option (option (result OwnedMessage (ConsumerError KafkaError Source))) :=
  match ss_channel s with
  | item :: _ => Some (Some item)
  | [] => if loop_ended s then Some None else None
  end.

(** [runner.stop()]: a broadcast without a subscriber is lost. *)
Definition task_stop (s : stream_state) : outcome stream_state :=
  let? r := runner_stop (ss_coord s) in
  Ret {| ss_loop := ss_loop s;
         ss_signal := match ss_loop s with LoopNone => false | _ => r.2 || ss_signal s end;
         ss_channel := ss_channel s; ss_task := ss_task s; ss_coord := r.1; ss_owned := ss_owned s;
         ss_received := ss_received s; ss_handled := ss_handled s |}.

(** [handle.abort()]. *)
Definition task_abort (s : stream_state) : stream_state :=
  match ss_task s with TaskEnd => s | _ => task_end s end.

(** [ConsumerTask::shutdown]: it does not wait for the task, and forgets the
    runner it holds. *)
Definition task_shutdown (s : stream_state) : outcome stream_state :=
  let? s := task_stop s in Ret (task_abort s).

(** [Drop for ConsumerTask], and the drop of its fields: the task is detached. *)
Definition task_drop (s : stream_state) : outcome stream_state :=
  let? s := task_stop s in
  Ret {| ss_loop := ss_loop s; ss_signal := ss_signal s; ss_channel := ss_channel s;
         ss_task := ss_task s; ss_coord := ss_coord s; ss_owned := false;
         ss_received := ss_received s; ss_handled := ss_handled s |}.

(** The system: the two tasks, and the calls of the owner. *)
Inductive stream_event :=
| EvLoop (e : loop_event)
| EvTask (e : task_event)
| EvStop
| EvShutdown
| EvDrop.

Definition stream_step (e : stream_event) (s : stream_state) : option stream_state :=
  match e with
  | EvLoop e => loop_step e s
  | EvTask e => task_step e s
  | EvStop => match task_stop s with Ret s => Some s | Panic => None end
  | EvShutdown => match task_shutdown s with Ret s => Some s | Panic => None end
  | EvDrop => match task_drop s with Ret s => Some s | Panic => None end
  end.

Fixpoint stream_run (es : list stream_event) (s : stream_state) : option stream_state :=
  match es with
  | [] => Some s
  | e :: es => stream_step e s ≫= stream_run es
  end.

(** ** The invariant *)

Definition in_hand (s : stream_state) : list OwnedMessage :=
  match ss_loop s with LoopSend m => [m] | _ => [] end.

(** The messages of the channel. *)
Definition in_channel (s : stream_state) : list OwnedMessage := omap result_ok (ss_channel s).

Record stream_inv (s : stream_state) : Prop := {
  si_ok : ss_channel s = Ok <$> in_channel s;
  si_bound : (length (ss_channel s) ≤ RUN_CHANNEL_CAPACITY)%nat;
  si_flow : ∃ rest, from_borrowed <$> ss_received s = ss_handled s ++ in_channel s ++ rest ∧
    (receiver_dropped s = false → (length rest ≤ 1)%nat ∧
       (loop_ended s = false → rest = in_hand s));
  si_none : ss_loop s = LoopNone → ss_received s = [];
  si_init : ss_task s = TaskInit → ss_loop s = LoopNone;
  si_end : ss_task s = TaskEnd → ss_channel s = [];
  si_process : ∀ m, ss_task s = TaskProcess m → last (ss_handled s) = Some m;
  si_done : ∀ i m, ss_handled s !! i = Some m →
    (S i < length (ss_handled s))%nat ∨ ss_task s = TaskNext →
    process (take i (ss_handled s)) m = true
}.

Lemma spawn_inv coord : stream_inv (task_spawn coord).
Proof. split; simpl; try done; [apply Nat.le_0_l|exists []; repeat split; auto]. Qed.

Lemma waiting_ok (ms : list OwnedMessage) :
  omap result_ok (Ok <$> ms : list (result OwnedMessage (ConsumerError KafkaError Source))) = ms.
Proof. induction ms as [|m ms IH]; [done|]. cbn. by f_equal. Qed.

(** Moving within the loop with nothing in hand, or leaving it. *)
Lemma with_loop_inv l s :
  stream_inv s → ss_loop s ≠ LoopNone → l ≠ LoopNone →
  l = LoopDone ∨ loop_ended s = false ∧ in_hand s = [] ∧ in_hand (with_loop l s) = [] →
  stream_inv (with_loop l s).
Proof.
  intros [I1 I2 (rest & I3 & I3') I4 I5 I8 I6 I7] Hs Hl Hc. split; try done.
  - exists rest. split; [done|]. intros Hd. destruct (I3' Hd) as [H1 H2]. split; [done|].
    intros He. destruct Hc as [->|(Hc & E1 & E2)]; [done|]. by rewrite E2, <- E1, H2.
  - intros Hi. destruct (Hs (I5 Hi)).
Qed.

Lemma recv_inv m s :
  stream_inv s → ss_loop s = LoopRecv →
  stream_inv {| ss_loop := LoopSend (from_borrowed m); ss_signal := ss_signal s;
                ss_channel := ss_channel s; ss_task := ss_task s; ss_coord := ss_coord s;
                ss_owned := ss_owned s; ss_received := ss_received s ++ [m];
                ss_handled := ss_handled s |}.
Proof.
  intros [I1 I2 (rest & I3 & I3') I4 I5 I8 I6 I7] Hl. split; try done.
  - exists (rest ++ [from_borrowed m]). simpl. rewrite fmap_app, I3. split; [by rewrite <- !app_assoc|].
    intros Hd. destruct (I3' Hd) as [_ H2]. unfold loop_ended, in_hand in H2. rewrite Hl in H2.
    rewrite H2 by done. split; [simpl; lia|done].
  - intros Hi. specialize (I5 Hi). congruence.
Qed.

Lemma push_inv m s :
  stream_inv s → ss_loop s = LoopSend m → receiver_dropped s = false →
  (length (ss_channel s) < RUN_CHANNEL_CAPACITY)%nat →
  stream_inv {| ss_loop := LoopRecv; ss_signal := ss_signal s; ss_channel := ss_channel s ++ [Ok m];
                ss_task := ss_task s; ss_coord := ss_coord s; ss_owned := ss_owned s;
                ss_received := ss_received s; ss_handled := ss_handled s |}.
Proof.
  intros [I1 I2 (rest & I3 & I3') I4 I5 I8 I6 I7] Hl Hr Hn. unfold in_channel in *. split; try done; simpl.
  - unfold in_channel. simpl. by rewrite omap_app, fmap_app, <- I1.
  - rewrite length_app. simpl. lia.
  - exists []. destruct (I3' Hr) as [_ H2]. unfold loop_ended, in_hand in H2. rewrite Hl in H2.
    rewrite I3, H2 by done. unfold in_channel. simpl. rewrite omap_app, app_nil_r. split; [done|].
    intros _. split; [simpl; lia|done].
  - intros Hi. specialize (I5 Hi). congruence.
  - intros He. unfold receiver_dropped in Hr. by rewrite He in Hr.
Qed.

Lemma loop_step_inv e s s' : stream_inv s → loop_step e s = Some s' → stream_inv s'.
Proof.
  intros I H. unfold loop_step in H.
  destruct (ss_loop s) eqn:El, e; try done; repeat (case_match; try done); injection H as <-;
    first [by apply recv_inv | by apply push_inv | apply with_loop_inv; try done; try congruence; auto];
    right; unfold loop_ended, in_hand; rewrite El; done.
Qed.

Lemma task_end_inv s : stream_inv s → stream_inv (task_end s).
Proof.
  intros [I1 I2 (rest & I3 & I3') I4 I5 I8 I6 I7]. split; try done; simpl.
  - apply Nat.le_0_l.
  - exists (in_channel s ++ rest). done.
  - intros i m Hm Hc. apply I7; [done|]. by destruct Hc as [?|?]; [left|].
Qed.

Lemma task_step_inv e s s' : stream_inv s → task_step e s = Some s' → stream_inv s'.
Proof.
  intros I H. unfold task_step in H. pose proof I as [I1 I2 (rest & I3 & I3') I4 I5 I8 I6 I7].
  destruct (ss_task s) eqn:Et, e; try done.
  - injection H as <-. specialize (I4 (I5 eq_refl)). rewrite I4 in I3.
    symmetry in I3. apply app_eq_nil in I3 as [E1 _].
    split; simpl; try done; [apply Nat.le_0_l| |].
    + exists []. rewrite I4, E1. unfold in_hand. simpl. repeat split; auto.
    + rewrite E1. by intros i m.
  - destruct (ss_channel s) as [|[m|er] ch] eqn:Ec.
    + destruct (loop_ended s); [|done]. injection H as <-. by apply task_end_inv.
    + injection H as <-. unfold in_channel in *. rewrite Ec in I1, I3. cbn in I1, I3.
      injection I1 as I1. split; simpl; try done.
      * simpl in I2. lia.
      * exists rest. unfold in_channel, receiver_dropped, in_hand, loop_ended in *. simpl.
        rewrite I3, <- app_assoc. rewrite Et in I3'. done.
      * intros m' [= <-]. apply last_snoc.
      * intros i m' Hm [Hc|Hc]; [|done]. rewrite length_app in Hc. simpl in Hc.
        rewrite lookup_app_l in Hm by lia. rewrite take_app_le by lia. apply I7; [done|by right].
    + injection H as <-. by apply task_end_inv.
  - destruct (process _ m) eqn:Ep; injection H as <-; [|by apply task_end_inv].
    split; simpl; try done.
    + exists rest. unfold in_channel, receiver_dropped, in_hand, loop_ended in *. simpl.
      rewrite Et in I3'. done.
    + intros i m' Hm _. pose proof (lookup_lt_Some _ _ _ Hm) as Hi.
      destruct (decide (S i < length (ss_handled s))%nat) as [Hc|Hc]; [by apply I7; [|left]|].
      specialize (I6 m eq_refl). apply last_Some in I6 as [hd Ehd]. rewrite Ehd in *.
      rewrite length_app in Hi, Hc. simpl in Hi, Hc. assert (i = length hd) as -> by lia.
      rewrite removelast_last in Ep. rewrite take_app_length.
      rewrite lookup_app_r, Nat.sub_diag in Hm by done. by injection Hm as <-.
Qed.

Lemma task_stop_inv s s' : stream_inv s → task_stop s = Ret s' → stream_inv s'.
Proof.
  intros [] H. unfold task_stop in H. destruct (runner_stop _) as [r|]; [|done].
  cbn [obind] in H. injection H as <-. by split.
Qed.

Lemma stream_step_inv e s s' : stream_inv s → stream_step e s = Some s' → stream_inv s'.
Proof.
  intros I. destruct e; simpl.
  - by apply loop_step_inv.
  - by apply task_step_inv.
  - destruct (task_stop s) eqn:E; [|done]. intros [= <-]. by eapply task_stop_inv.
  - unfold task_shutdown. destruct (task_stop s) as [s1|] eqn:E; [|done]. cbn [obind]. intros [= <-].
    apply task_stop_inv in E; [|done]. unfold task_abort. destruct (ss_task s1); try done; by apply task_end_inv.
  - unfold task_drop. destruct (task_stop s) as [s1|] eqn:E; [|done]. cbn [obind]. intros [= <-].
    apply task_stop_inv in E; [|done]. destruct E. by split.
Qed.

Lemma stream_run_inv es s s' : stream_inv s → stream_run es s = Some s' → stream_inv s'.
Proof.
  revert s. induction es as [|e es IH]; simpl; intros s I H; [by simplify_eq|].
  destruct (stream_step e s) eqn:E; [|done]. simpl in H. eapply IH; [|exact H]. by eapply stream_step_inv.
Qed.

(** ** The end *)

(** A step of the two tasks, not of their owner. *)
Definition own_step (e : stream_event) : Prop :=
  match e with EvLoop _ | EvTask _ => True | _ => False end.

Definition loop_rank (s : stream_state) : nat :=
  match ss_loop s with
  | LoopSleep _ => 2
  | LoopRecv | LoopSend _ => 1
  | LoopNone | LoopDone => 0
  end.

Definition task_rank (s : stream_state) : nat :=
  match ss_task s with
  | TaskNext => 2 * length (ss_channel s) + 1
  | TaskProcess _ => 2 * length (ss_channel s) + 2
  | TaskInit | TaskEnd => 0
  end.

(** A started consumer that has been told to stop. *)
Record stopping (s : stream_state) : Prop := {
  sp_inv : stream_inv s;
  sp_loop : ss_loop s ≠ LoopNone;
  sp_ready : broadcast_ready s = true
}.

(** What is handled once the task has emptied the channel. *)
Definition settled (s : stream_state) : list OwnedMessage :=
  match ss_task s with TaskEnd => ss_handled s | _ => ss_handled s ++ in_channel s end.

Lemma stopping_loop_step e s s' :
  stopping s → loop_step e s = Some s' →
  stopping s' ∧ (loop_rank s' < loop_rank s)%nat ∧ task_rank s' = task_rank s ∧
  ss_received s' = ss_received s ∧ settled s' = settled s.
Proof.
  intros [I Hl Hr] H. pose proof (loop_step_inv _ _ _ I H) as I'. unfold loop_step in H. rewrite Hr in H.
  unfold loop_rank. destruct (ss_loop s) eqn:El, e; try done; simplify_eq/=;
    (split; [by split|split; [lia|done]]).
Qed.

Lemma stopping_task_step e s s' :
  stopping s → task_step e s = Some s' →
  stopping s' ∧ (task_rank s' < task_rank s)%nat ∧ loop_rank s' = loop_rank s ∧
  ss_received s' = ss_received s ∧
  ((∀ hd m, process hd m = true) → settled s' = settled s).
Proof.
  intros [I Hl Hr] H. pose proof (task_step_inv _ _ _ I H) as I'. unfold task_step in H.
  assert (∀ t ch hd, (t = TaskEnd ∨ ss_task s ≠ TaskEnd) → broadcast_ready (task_with t ch hd s) = true) as B.
  { intros t ch hd. unfold broadcast_ready, receiver_dropped in *. simpl.
    destruct (ss_signal s); [done|]. simpl in *.
    destruct (ss_task s); try (by rewrite andb_false_r in Hr). intros [->|?]; done. }
  unfold task_rank, settled, in_channel in *. destruct (ss_task s) eqn:Et, e; try done.
  - destruct Hl. by apply (si_init s I).
  - destruct (ss_channel s) as [|[m|er] ch] eqn:Ec; simpl.
    + destruct (loop_ended s); [|done]. injection H as <-. split; [split; [done|done|by apply B; left]|].
      simpl. rewrite app_nil_r. split_and!; try done; lia.
    + injection H as <-. split; [split; [done|done|by apply B; right]|]. simpl.
      split_and!; try done; [lia|]. by rewrite <- app_assoc.
    + pose proof (si_ok s I) as O. rewrite Ec in O. unfold in_channel in O. rewrite Ec in O. simpl in O.
      match type of O with _ = _ <$> ?l => by destruct l end.
  - destruct (process _ m) eqn:Ep; injection H as <-.
    + split; [split; [done|done|by apply B; right]|]. simpl. split_and!; try done; lia.
    + split; [split; [done|done|by apply B; left]|]. simpl. split_and!; try done; [lia|].
      intros P. by rewrite P in Ep.
Qed.

Lemma stopping_run es s s' :
  stopping s → Forall own_step es → stream_run es s = Some s' →
  stopping s' ∧ (length es + (loop_rank s' + task_rank s') ≤ loop_rank s + task_rank s)%nat ∧
  ss_received s' = ss_received s ∧
  ((∀ hd m, process hd m = true) → settled s' = settled s).
Proof.
  revert s. induction es as [|e es IH]; intros s S F H.
  { simpl in H. simplify_eq. by split_and!. }
  inversion F as [|? ? He Fe]; subst. cbn [stream_run] in H.
  destruct (stream_step e s) as [s1|] eqn:E; [|done]. simpl in H.
  destruct e as [e|e| | |]; try done; simpl in E.
  - apply stopping_loop_step in E as (S1 & R1 & R2 & R3 & R4); [|done].
    destruct (IH s1 S1 Fe H) as (S2 & Q1 & Q2 & Q3). split_and!; try done; [simpl; lia|congruence|].
    intros P. rewrite Q3 by done. done.
  - apply stopping_task_step in E as (S1 & R1 & R2 & R3 & R4); [|done].
    destruct (IH s1 S1 Fe H) as (S2 & Q1 & Q2 & Q3). split_and!; try done; [simpl; lia|congruence|].
    intros P. rewrite Q3, R4 by done. done.
Qed.

(** While one of the tasks has not ended, one of them can move. *)
Lemma stopping_stuck s :
  stopping s → (∀ e, own_step e → stream_step e s = None) →
  ss_loop s = LoopDone ∧ ss_task s = TaskEnd.
Proof.
  intros [I Hl Hr] H.
  assert (ss_loop s = LoopDone) as El.
  { pose proof (H (EvLoop LvSignal) Logic.I) as H1. pose proof (H (EvLoop LvWake) Logic.I) as H2. simpl in H1, H2.
    unfold loop_step in H1, H2. rewrite Hr in H1. by destruct (ss_loop s). }
  split; [done|].
  pose proof (H (EvTask TvNext) Logic.I) as H1. pose proof (H (EvTask TvProcessed) Logic.I) as H2. simpl in H1, H2.
  unfold task_step, loop_ended in H1, H2. rewrite El in H1. destruct (ss_task s) eqn:Et; try done.
  - by rewrite (si_init s I Et) in El.
  - by destruct (ss_channel s) as [|[]].
  - by destruct (process _ m).
Qed.

Lemma task_stop_spec s s' :
  task_stop s = Ret s' →
  ss_loop s' = ss_loop s ∧ ss_channel s' = ss_channel s ∧ ss_task s' = ss_task s ∧
  ss_received s' = ss_received s ∧ ss_handled s' = ss_handled s ∧
  runner_stop (ss_coord s) = Ret (ss_coord s', true) ∧
  (ss_signal s' = true ↔ ss_loop s ≠ LoopNone).
Proof.
  unfold task_stop, runner_stop. destruct (ss_coord s) as [c|]; [destruct (begin_draining c); [|done]|];
    cbn [obind]; intros [= <-]; simpl; split_and!; try done; destruct (ss_loop s); naive_solver.
Qed.

(** ** The properties *)

(** C25: The messages a running consumer hands to its function.  Whatever the broker
    answers and however the two tasks, stops and drops interleave: the function
    has been called on a prefix of the received messages, each once, in order and
    as an owned copy; what follows is in the channel, which never holds an error
    nor more than its thousand slots, and while both tasks live only the message
    in hand is beyond it.  Every message but the last one given to the function
    was processed without an error: the first error halts the consumer. *)
Theorem consumer_task_processes_in_order coord es s :
  stream_run es (task_spawn coord) = Some s →
  (∃ rest, from_borrowed <$> ss_received s = ss_handled s ++ in_channel s ++ rest ∧
     (receiver_dropped s = false → (length rest ≤ 1)%nat ∧ (loop_ended s = false → rest = in_hand s))) ∧
  ss_channel s = Ok <$> in_channel s ∧ (length (ss_channel s) ≤ RUN_CHANNEL_CAPACITY)%nat ∧
  (∀ i m, ss_handled s !! i = Some m → (S i < length (ss_handled s))%nat →
     process (take i (ss_handled s)) m = true).
Proof.
  intros H. apply stream_run_inv in H as [I1 I2 I3 _ _ _ _ I7]; [|apply spawn_inv].
  split_and!; [done..|]. intros i m Hm Hi. apply I7; [done|by left].
Qed.

(** C26: The end of a running consumer.  After a stop of a consumer that has started,
    even one whose channel is full, the two tasks take at most four steps and two
    for every waiting message, and they can only stop moving once the receiving
    loop is left and the processing task has returned; nothing more is received,
    and when no processing fails everything that waited in the channel is handled.
    A shutdown ends the task at once: what waited is dropped and nothing more is
    handled. *)
Theorem consumer_task_stops coord es0 s s1 es s' :
  stream_run es0 (task_spawn coord) = Some s → ss_loop s ≠ LoopNone →
  task_stop s = Ret s1 → Forall own_step es → stream_run es s1 = Some s' →
  (length es ≤ 2 * length (ss_channel s) + 4)%nat ∧
  ((∀ e, own_step e → stream_step e s' = None) → ss_loop s' = LoopDone ∧ ss_task s' = TaskEnd) ∧
  ss_received s' = ss_received s ∧
  ((∀ hd m, process hd m = true) → ss_task s ≠ TaskEnd → ss_task s' = TaskEnd →
     ss_handled s' = ss_handled s ++ in_channel s) ∧
  (∃ s2, task_shutdown s = Ret s2 ∧ ss_task s2 = TaskEnd ∧ ss_channel s2 = [] ∧
     ss_handled s2 = ss_handled s).
Proof.
  intros H0 Hl H1 F H. apply stream_run_inv in H0; [|apply spawn_inv].
  pose proof (task_stop_spec _ _ H1) as (E1 & E2 & E3 & E4 & E5 & _ & E6).
  assert (stopping s1) as S.
  { split; [by eapply task_stop_inv|congruence|]. unfold broadcast_ready. by rewrite (proj2 E6 Hl). }
  pose proof (stopping_run _ _ _ S F H) as (S' & R1 & R2 & R3). split_and!.
  - assert (loop_rank s1 ≤ 2)%nat by (unfold loop_rank; case_match; lia).
    assert (task_rank s1 ≤ 2 * length (ss_channel s) + 2)%nat
      by (unfold task_rank; rewrite E2; case_match; lia). lia.
  - by apply stopping_stuck.
  - congruence.
  - intros P N Et. specialize (R3 P). unfold settled, in_channel in R3. rewrite E2, E3, E5, Et in R3.
    rewrite R3. by destruct (ss_task s).
  - unfold task_shutdown. rewrite H1. cbn [obind]. eexists. split; [done|]. unfold task_abort.
    destruct (ss_task s1) eqn:Et; simpl; split_and!; try done. by apply (si_end s1 (sp_inv s1 S)).
Qed.

(** A stop before the first poll of the task is lost: the receiver of the
    broadcast does not exist yet. *)
Lemma early_stop_is_lost coord s1 s2 :
  task_stop (task_spawn coord) = Ret s1 → task_step TvStart s1 = Some s2 →
  ss_loop s2 = LoopRecv ∧ broadcast_ready s2 = false.
Proof.
  intros H. apply task_stop_spec in H as (_ & _ & E & _). unfold task_step. rewrite E. simpl.
  intros [= <-]. simpl. unfold broadcast_ready. simpl. by rewrite andb_false_r.
Qed.

(** The processing task goes on by what its stream polls. *)
Lemma task_next_polls s :
  ss_task s = TaskNext →
  task_step TvNext s =
    match poll_next s with
    | Some (Some (Ok m)) => Some (task_with (TaskProcess m) (tail (ss_channel s)) (ss_handled s ++ [m]) s)
    | Some (Some (Err _)) | Some None => Some (task_end s)
    | None => None
    end.
Proof. intros Et. unfold task_step, poll_next. rewrite Et. by repeat case_match. Qed.

End task.
Arguments stream_state : clear implicits.

(** ** Witnesses *)

Abbreviation demo_borrowed o :=
  {| b_topic := "orders"; b_partition := 0; b_offset := o; b_key := None; b_payload := None;
     b_timestamp := TsNotAvailable; b_headers := None |}.

(** Three messages, the last one after an error of the broker; the function
    refuses offset 8. *)
Abbreviation demo_process := (λ (_ : list OwnedMessage) (m : OwnedMessage), negb (offset m =? 8)).
Abbreviation demo_stream_events :=
  [EvTask TvStart; EvLoop (LvRecv (RecvOk (demo_borrowed 7))); EvLoop LvSend; EvTask TvNext;
   EvLoop (LvRecv (RecvOk (demo_borrowed 8))); EvTask TvProcessed; EvLoop LvSend;
   EvLoop (LvRecv RecvOtherError); EvLoop LvWake; EvLoop (LvRecv (RecvOk (demo_borrowed 9)));
   EvLoop LvSend].

Lemma consumer_task_processes_in_order_witness :
  ∃ s, stream_run (KafkaError := string) (Source := string) demo_process false
         (demo_stream_events ++ [EvTask TvNext]) (task_spawn None) = Some s ∧
    offset <$> ss_handled s = [7; 8] ∧ offset <$> in_channel s = [9] ∧
    (∀ i m, ss_handled s !! i = Some m → (S i < length (ss_handled s))%nat →
       demo_process (take i (ss_handled s)) m = true).
Proof.
  eexists. split; [vm_compute; reflexivity|]. split; [reflexivity|]. split; [reflexivity|].
  apply (consumer_task_processes_in_order (KafkaError := string) (Source := string) demo_process false
    None (demo_stream_events ++ [EvTask TvNext])). vm_compute. reflexivity.
Defined.

Lemma consumer_task_stops_witness :
  ∃ s s1 s', stream_run (KafkaError := string) (Source := string) (λ _ _, true) false
         demo_stream_events (task_spawn (Some (coordinator_new 30))) = Some s ∧
    task_stop s = Ret s1 ∧
    stream_run (λ _ _, true) false
      [EvTask TvNext; EvLoop LvSignal; EvTask TvProcessed; EvTask TvNext; EvTask TvProcessed; EvTask TvNext]
      s1 = Some s' ∧
    offset <$> ss_handled s' = [7; 8; 9] ∧ ss_task s' = TaskEnd ∧
    ss_handled s' = ss_handled s ++ in_channel s.
Proof.
  eexists _, _, _. split; [vm_compute; reflexivity|]. split; [vm_compute; reflexivity|].
  split; [vm_compute; reflexivity|]. split; [reflexivity|]. split; [reflexivity|].
  refine (proj1 (proj2 (proj2 (proj2 (consumer_task_stops (KafkaError := string) (Source := string)
    (λ _ _, true) false (Some (coordinator_new 30)) demo_stream_events _ _
    [EvTask TvNext; EvLoop LvSignal; EvTask TvProcessed; EvTask TvNext; EvTask TvProcessed; EvTask TvNext]
    _ _ _ _ _ _)))) _ _ _);
    first [vm_compute; reflexivity | discriminate | repeat constructor | done].
Defined.
