(* ===== verification/Pipeline.v ===== *)
(** * The running runtime (src/runtime/builder.rs, src/worker_pool/, src/dispatcher/, src/offset/)

    Every task that [RuntimeBuilder::build] and [Runtime::run_with_sigterm] start,
    as one system: the receiving task, the dispatcher, the workers of both kinds,
    the committer, the rebalance callbacks, the dead-letter producer, the signal task
    and the main task.
    They share the channel of the stream, the queues of the topics, the offset
    tracker, the broker client, the shutdown coordinator and the worker token, and
    any of them may take the next step.  A step ends where its task waits, so
    what happens while a handler runs happens between two steps.  A worker does not
    wait for the permit of its handler: its topic has no other worker, and the limits
    are positive ([worker_gets_its_permit] of Builder). *)

From stdpp Require Import base gmap sets list strings.
From S2P Require Import Prelude F64 Metrics FromStr Failure Message Shutdown Runner Dlq OffsetTracker OffsetProofs Retry Commit Queue Dispatcher Execution PoolState Worker Batch BatchSteps FanOut Pool Context Config Builder Task.

(** ** The state *)

(** A worker task of the pool: one that has not ended is in its loop, and a batch
    worker may have a part of the current branch left to do. *)
Inductive worker_task :=
| SingleTask (w : worker)
    (sleeping : bool)                      (* in the sleep before a retry *)
| BatchTask (h : PythonHandler) (w : batch_worker (T := OffsetTracker)) (todo : list batch_action).

Definition task_stopped (t : worker_task) : bool :=
  match t with SingleTask w _ => wk_stopped w | BatchTask _ w _ => bw_stopped w end.

(** The token of the workers, the workers that have ended and were not joined,
    the main task and the signal task. *)
Record life := {
  lf_token : bool;
  lf_exited : nat;
  lf_main : main_status;
  lf_signal : signal_status
}.

Section pipeline.
Context {KafkaError Source R : Type} `{DlqRouter R} (router : R) (to_rfc3339 : Z → string).
Context {HOs : HashOrder string} {HOk : HashOrder TopicPartitionKey} {HOz : HashOrder Z}.
Context (handlers : gmap string PythonHandler).

(** The topics in the order in which the pool takes them: worker [i] has the
    receiver of the [i]-th. *)
Context (topics : list string).

(** The queues are those of the dispatcher; the receiver of a worker is the
    buffer of its queue.  [sy_commit] has the committer's own state, the
    coordinator and the calls made on the broker client; the tracker is the one of
    [sy_env].  [sy_refused] is the history of the messages that no queue took. *)
Record system := {
  sy_stream : stream_state KafkaError Source;
  sy_disp : ConsumerDispatcher;
  sy_workers : list worker_task;
  sy_env : worker_env (T := OffsetTracker);
  sy_commit : committer_world;
  sy_context : CustomConsumerContext;
  sy_life : life;
  sy_refused : list OwnedMessage
}.

Definition sys_with_stream (st : stream_state KafkaError Source) (s : system) : system :=
  {| sy_stream := st; sy_disp := sy_disp s; sy_workers := sy_workers s; sy_env := sy_env s;
     sy_commit := sy_commit s; sy_context := sy_context s; sy_life := sy_life s;
     sy_refused := sy_refused s |}.

Definition sys_with_commit (w : committer_world) (c : CustomConsumerContext) (s : system) : system :=
  {| sy_stream := sy_stream s; sy_disp := sy_disp s; sy_workers := sy_workers s; sy_env := sy_env s;
     sy_commit := w; sy_context := c; sy_life := sy_life s; sy_refused := sy_refused s |}.

Definition sys_with_env (e : worker_env (T := OffsetTracker)) (s : system) : system :=
  {| sy_stream := sy_stream s; sy_disp := sy_disp s; sy_workers := sy_workers s; sy_env := e;
     sy_commit := sy_commit s; sy_context := sy_context s; sy_life := sy_life s;
     sy_refused := sy_refused s |}.

Definition sys_with_life (l : life) (s : system) : system :=
  {| sy_stream := sy_stream s; sy_disp := sy_disp s; sy_workers := sy_workers s; sy_env := sy_env s;
     sy_commit := sy_commit s; sy_context := sy_context s; sy_life := l; sy_refused := sy_refused s |}.

Definition lf_with_token (b : bool) (l : life) : life :=
  {| lf_token := b; lf_exited := lf_exited l; lf_main := lf_main l; lf_signal := lf_signal l |}.
Definition lf_with_signal (g : signal_status) (l : life) : life :=
  {| lf_token := lf_token l; lf_exited := lf_exited l; lf_main := lf_main l; lf_signal := g |}.
Definition lf_with_main (exited : nat) (m : main_status) (l : life) : life :=
  {| lf_token := lf_token l; lf_exited := exited; lf_main := m; lf_signal := lf_signal l |}.

Definition cw_with_trace (tr : rd_trace) (w : committer_world) : committer_world :=
  {| cw_tracker := cw_tracker w; cw_coord := cw_coord w; cw_state := cw_state w; cw_seen := cw_seen w;
     cw_exited := cw_exited w; cw_clock := cw_clock w; cw_trace := tr |}.

Definition token (s : system) : bool := lf_token (sy_life s).

(** ** The dispatcher takes the next item of its stream ([ConsumerDispatcher::run]) *)

Definition err_unit {A E : Type} (r : result A E) : result A unit :=
  match r with Ok a => Ok a | Err _ => Err tt end.

(** The item was taken from the channel. *)
Definition taken (item : result OwnedMessage (ConsumerError KafkaError Source))
    (ch : list (result OwnedMessage (ConsumerError KafkaError Source)))
    (st : stream_state KafkaError Source) : stream_state KafkaError Source :=
  task_with TaskNext ch (ss_handled st ++ option_list (result_ok item)) st.

Definition refused (item : result OwnedMessage (ConsumerError KafkaError Source)) (qm : QueueManager)
    : list OwnedMessage :=
  match item with
  | Ok m => if is_ok_result (send m qm).1 then [] else [m]
  | Err _ => []
  end.

Definition sys_dispatch (c : client) (s : system) : system :=
  match ss_task (sy_stream s), ss_channel (sy_stream s) with
  | TaskNext, item :: ch =>
      {| sy_stream := taken item ch (sy_stream s);
         sy_disp := run_item c (err_unit item) (sy_disp s);
         sy_workers := sy_workers s; sy_env := sy_env s; sy_commit := sy_commit s;
         sy_context := sy_context s; sy_life := sy_life s;
         sy_refused := sy_refused s ++ refused item (dispatcher (sy_disp s)) |}
  | TaskNext, [] =>
      if loop_ended (sy_stream s) then sys_with_stream (task_end (sy_stream s)) s else s
  | _, _ => s
  end.

(** ** The workers *)

Definition receiver_buffer (tp : string) (qm : QueueManager) : list OwnedMessage :=
  match qm !! tp with Some e => ch_buffer (sender e) | None => [] end.

Definition receiver_closed (tp : string) (qm : QueueManager) : bool :=
  match qm !! tp with Some e => ch_closed (sender e) | None => true end.

Definition set_receiver (tp : string) (rx : list OwnedMessage) (qm : QueueManager) : QueueManager :=
  alter (λ e, {| sender := {| ch_capacity := ch_capacity (sender e); ch_buffer := rx;
                              ch_closed := ch_closed (sender e) |};
                 metadata := metadata e |}) tp qm.

(** Worker [i] took a step and is now [t], with [rx] left in its channel; when it
    has ended its receiver is dropped and its task can be joined. *)
Definition worker_step (i : nat) (tp : string) (rx : list OwnedMessage) (t : worker_task)
    (e : worker_env (T := OffsetTracker)) (s : system) : system :=
  let qm := set_receiver tp rx (we_queues e) in
  let qm := if task_stopped t then queue_close tp qm else qm in
  {| sy_stream := sy_stream s; sy_disp := cd_with_queues qm (sy_disp s);
     sy_workers := <[i := t]> (sy_workers s); sy_env := e; sy_commit := sy_commit s;
     sy_context := sy_context s;
     sy_life := lf_with_main (if task_stopped t then S (lf_exited (sy_life s)) else lf_exited (sy_life s))
                  (lf_main (sy_life s)) (sy_life s);
     sy_refused := sy_refused s |}.

Definition wk_with_rx (rx : list OwnedMessage) (w : worker) : worker :=
  {| wk_state := wk_state w; wk_rx := rx; wk_stopped := wk_stopped w; wk_fanned := wk_fanned w |}.

(** The steps of a single-message worker. *)
Inductive single_step :=
| StepPoll (take : bool)                   (* the wait for a message is over *)
| StepProcess (t : turn)                   (* the call is over *)
| StepWake.                                (* the sleep is over, or cancelled *)

Definition single_act (i : nat) (b : bool) (st : single_step) (w : worker) (sleeping : bool)
    (e : worker_env (T := OffsetTracker)) : outcome (worker * bool * worker_env) :=
  match st with
  | StepPoll take =>
      let '(w, e) := worker_poll i b take w e in Ret (w, sleeping, e)
  | StepProcess t =>
      if sleeping then Ret (w, sleeping, e)
      else
        let? r := worker_process router to_rfc3339 handlers i b t w e in
        Ret (r.1, is_sleeping r.1, r.2)
  | StepWake =>
      if sleeping then let '(w, e) := worker_wake i b w e in Ret (w, false, e)
      else Ret (w, sleeping, e)
  end.

(** The steps of a batch worker: a branch of [select!], or the next part of the
    branch, with what the callable and the random draws answer. *)
Inductive batch_branch := BrDeadline | BrMessage | BrClosed | BrShutdown.

Inductive batch_step :=
| StepBranch (now : Z) (b : batch_branch)
| StepAct (now : Z) (callback : Callback) (jitter : Z → f64).

(** The branch, if it is ready, with what it leaves in the channel. *)
Definition branch_event (cancelled closed : bool) (now : Z) (b : batch_branch) (rx : list OwnedMessage)
    : option (batch_event * list OwnedMessage) :=
  match b, rx with
  | BrDeadline, _ => Some (BDeadline now, rx)
  | BrMessage, m :: rest => Some (BMessage now m, rest)
  | BrMessage, [] => None
  | BrClosed, [] => if closed then Some (BClosed now, []) else None
  | BrClosed, _ :: _ => None
  | BrShutdown, _ => if cancelled then Some (BShutdown now, rx) else None
  end.

Definition bw_with_env (e : worker_env (T := OffsetTracker)) (w : batch_worker (T := OffsetTracker))
    : batch_worker (T := OffsetTracker) :=
  {| bw_id := bw_id w; bw_acc := bw_acc w; bw_state := bw_state w; bw_stopped := bw_stopped w; bw_env := e;
     bw_batches := bw_batches w; bw_received := bw_received w |}.

(** The step of a batch worker, with what it leaves in its channel. *)
Definition batch_task_act (cancelled closed : bool) (st : batch_step) (h : PythonHandler)
    (w : batch_worker (T := OffsetTracker)) (todo : list batch_action) (rx : list OwnedMessage)
    : outcome (batch_worker (T := OffsetTracker) * list batch_action * list OwnedMessage) :=
  match st, todo with
  | StepBranch now b, [] =>
      match branch_event cancelled closed now b rx with
      | Some (ev, rx) => Ret (batch_begin ev w, rx)
      | None => Ret (w, todo, rx)
      end
  | StepAct now callback jitter, a :: todo =>
      let? w := batch_act router to_rfc3339 h (λ _, callback) jitter now a w in Ret (w, todo, rx)
  | _, _ => Ret (w, todo, rx)
  end.

Inductive worker_event :=
| WeSingle (st : single_step)
| WeBatch (st : batch_step).

Definition sys_worker (i : nat) (ev : worker_event) (s : system) : outcome system :=
  match topics !! i, sy_workers s !! i with
  | Some tp, Some t =>
      let qm := dispatcher (sy_disp s) in
      let e := we_with_queues qm (sy_env s) in
      let rx := receiver_buffer tp qm in
      if task_stopped t then Ret s
      else match t, ev with
      | SingleTask w sleeping, WeSingle st =>
          let? r := single_act i (token s) st (wk_with_rx rx w) sleeping e in
          Ret (worker_step i tp (wk_rx r.1.1) (SingleTask r.1.1 r.1.2) r.2 s)
      | BatchTask h w todo, WeBatch st =>
          let? r := batch_task_act (token s) (receiver_closed tp qm) st h (bw_with_env e w) todo rx in
          Ret (worker_step i tp r.2 (BatchTask h r.1.1 r.1.2) (bw_env r.1.1) s)
      | _, _ => Ret s
      end
  | _, _ => Ret s
  end.

(** ** The committer and the rebalance callbacks, on the shared tracker *)

Definition sys_committer (w : committer_world) (s : system) : committer_world :=
  cw_with_tracker (we_offsets (sy_env s)) w.

Definition sys_commit (rd : RdCall → bool) (tick : bool) (d : N) (s : system) : system :=
  sys_with_commit (committer_turn rd commit_config_default tick d (sys_committer (sy_commit s) s))
    (sy_context s) s.

Definition sys_pre_rebalance (rd : RdCall → bool) (r : Rebalance) (s : system) : system :=
  let '(c, tr) := pre_rebalance rd (we_offsets (sy_env s)) r (sy_context s) (cw_trace (sy_commit s)) in
  sys_with_commit (cw_with_trace tr (sy_commit s)) c s.

Definition sys_post_rebalance (r : Rebalance) (s : system) : system :=
  sys_with_commit
    (cw_with_trace (post_rebalance (we_offsets (sy_env s)) r (sy_context s) (cw_trace (sy_commit s))) (sy_commit s))
    (sy_context s) s.

(** ** The background task of the dead-letter producer

    It takes the oldest letter of the channel and waits for the broker, which
    takes it or not. *)

Definition sys_dlq (delivered : bool) (s : system) : system :=
  sys_with_env (we_with_dlq (do_produce delivered (we_dlq (sy_env s))) (sy_env s)) s.

(** ** The signal task ([run_with_sigterm] on Unix) *)

Definition sys_stop (s : system) : outcome system :=
  let? st := task_stop (sy_stream s) in Ret (sys_with_stream st s).

Definition sys_signal (s : system) : outcome system :=
  let l := sy_life s in
  match lf_signal l with
  | SigWaiting => Ret (sys_with_life (lf_with_signal SigReceived l) s)
  | SigReceived =>
      let? r := begin_draining (cw_coord (sy_commit s)) in
      Ret (sys_with_life (lf_with_signal SigDrained l)
             (sys_with_commit (cw_with_coord r.1 (sy_commit s)) (sy_context s) s))
  | SigDrained => Ret (sys_with_life (lf_with_token true (lf_with_signal SigCancelled l)) s)
  | SigCancelled => let? s := sys_stop s in Ret (sys_with_life (lf_with_signal SigDone l) s)
  | SigDone => Ret s
  end.

(** ** The main task ([Runtime::run]) *)

(** [JoinSet::shutdown] drops the tasks where they wait. *)
Definition abort_worker (t : worker_task) : worker_task :=
  match t with
  | SingleTask w _ => SingleTask (wk_set (wk_state w) true w) false
  | BatchTask h w _ => BatchTask h (bw_stop w) []
  end.

Definition running (ts : list worker_task) : nat := length (filter (λ t, task_stopped t = false) ts).

Definition sys_abort (s : system) : system :=
  {| sy_stream := sy_stream s;
     sy_disp := cd_with_queues (foldl (λ qm t, queue_close t qm) (dispatcher (sy_disp s)) topics) (sy_disp s);
     sy_workers := abort_worker <$> sy_workers s; sy_env := sy_env s; sy_commit := sy_commit s;
     sy_context := sy_context s; sy_life := lf_with_main 0 MainDrained (sy_life s);
     sy_refused := sy_refused s |}.

(** The end of [WorkerPool::shutdown], then [ConsumerRunner::stop]. *)
Definition sys_finish (rd : RdCall → bool) (now : Z) (s : system) : outcome system :=
  let t := we_offsets (sy_env s) in
  let e := we_with_dlq (tracker_flush_failed_to_dlq to_rfc3339 router now t (we_dlq (sy_env s))) (sy_env s) in
  let tr := tracker_graceful_shutdown rd t (cw_trace (sy_commit s)) in
  let coord := cw_coord (sy_commit s) in
  let? c := if decide (phase coord = Draining) then coord_run [CBeginFinalizing; CSetDone] coord else Ret coord in
  sys_stop
    {| sy_stream := sy_stream s; sy_disp := sy_disp s; sy_workers := sy_workers s; sy_env := e;
       sy_commit := cw_with_coord c (cw_with_trace tr (sy_commit s)); sy_context := sy_context s;
       sy_life := lf_with_main (lf_exited (sy_life s)) MainDispatcher (sy_life s);
       sy_refused := sy_refused s |}.

(** The next step of the main task, if it does not wait. *)
Definition sys_main (rd : RdCall → bool) (now : Z) (s : system) : outcome system :=
  let l := sy_life s in
  let goto m := Ret (sys_with_life (lf_with_main (lf_exited l) m l) s) in
  match lf_main l with
  | MainCheck => goto (if lf_token l then MainShutdown else MainJoin)
  | MainJoin =>
      match lf_exited l with
      | S n => Ret (sys_with_life (lf_with_main n MainCheck l) s)
      | O => if decide (running (sy_workers s) = O) then goto MainCheck else Ret s
      end
  | MainShutdown => Ret (sys_abort s)
  | MainDrained => sys_finish rd now s
  | MainDispatcher => if receiver_dropped (sy_stream s) then goto MainCommitter else Ret s
  | MainCommitter => if cw_exited (sy_commit s) then goto MainDone else Ret s
  | MainDone => Ret s
  end.

(** ** The system *)

Inductive system_event :=
| SyLoop (e : loop_event)                          (* the receiving task *)
| SyDispatch (c : client)                          (* the dispatcher *)
| SyWorker (i : nat) (ev : worker_event)           (* worker [i] *)
| SyCommit (rd : RdCall → bool) (tick : bool) (d : N)
| SyWait (d : N)                                   (* time passes for the committer *)
| SyPreRebalance (rd : RdCall → bool) (r : Rebalance)
| SyPostRebalance (r : Rebalance)
| SyDlq (delivered : bool)                         (* the dead-letter producer *)
| SySignal                                         (* the signal task *)
| SyApiStop                                        (* [Consumer.stop] *)
| SyMain (rd : RdCall → bool) (now : Z).           (* the main task *)

Definition system_step (s : system) (ev : system_event) : outcome system :=
  match ev with
  | SyLoop e =>
      Ret (match loop_step true e (sy_stream s) with
           | Some st => sys_with_stream st s
           | None => s
           end)
  | SyDispatch c => Ret (sys_dispatch c s)
  | SyWorker i ev => sys_worker i ev s
  | SyCommit rd tick d => Ret (sys_commit rd tick d s)
  | SyWait d => Ret (sys_with_commit (cw_wait d (sy_commit s)) (sy_context s) s)
  | SyPreRebalance rd r => Ret (sys_pre_rebalance rd r s)
  | SyPostRebalance r => Ret (sys_post_rebalance r s)
  | SyDlq delivered => Ret (sys_dlq delivered s)
  | SySignal => sys_signal s
  | SyApiStop => Ret (sys_with_life (lf_with_token true (sy_life s)) s)
  | SyMain rd now => sys_main rd now s
  end.

Definition system_run (evs : list system_event) (s : system) : outcome system :=
  ofold system_step s evs.

(** The start of a runtime: the stream has been opened, every topic of a worker
    has an empty open queue, and nothing has been handled or committed. *)
Record system_init (s : system) : Prop := {
  in_stream : sy_stream s = run (task_spawn None);
  in_topics : NoDup topics;
  in_queues : ∀ tp, tp ∈ topics → ∃ e, dispatcher (sy_disp s) !! tp = Some e ∧
    ch_buffer (sender e) = [] ∧ ch_closed (sender e) = false;
  in_workers : Forall (λ t, match t with
    | SingleTask w sleeping => w = idle_worker [] ∧ sleeping = false
    | BatchTask _ w todo => accumulators (bw_acc w) = ∅ ∧ bw_stopped w = false ∧ bw_batches w = [] ∧
                            bw_received w = [] ∧ todo = []
    end) (sy_workers s);
  in_length : length (sy_workers s) = length topics;
  in_log : we_log (sy_env s) = [];
  in_tracker : partitions (we_offsets (sy_env s)) = ∅;
  in_calls : cw_trace (sy_commit s) = [] ∧ cw_exited (sy_commit s) = false;
  in_life : sy_life s = {| lf_token := token s; lf_exited := 0; lf_main := MainCheck; lf_signal := SigWaiting |};
  in_refused : sy_refused s = []
}.

End pipeline.
Arguments system : clear implicits.
