(* ===== verification/PipelineProofs.v ===== *)
(** * Invariants of the running runtime

    Where the messages are and what the committed offsets cover, kept by every
    step of every task. *)

From stdpp Require Import base gmap sets list strings.
From S2P Require Import Prelude F64 Metrics FromStr Failure Message Shutdown Runner Dlq OffsetTracker OffsetProofs Retry Commit Queue Dispatcher Execution PoolState Worker Batch BatchSteps FanOut Pool Context Config Builder Task Pipeline.

(** The message a single-message worker holds. *)
Definition held (w : worker) : list OwnedMessage := option_list (worker_message (wk_state w)).

(** What a worker has taken from its queue, in order. *)
Definition taken_by (t : worker_task) : list OwnedMessage :=
  match t with
  | SingleTask w _ => wk_fanned w ++ held w
  | BatchTask _ w todo => bw_received w ++ to_add todo
  end.

(** What a worker that has not ended knows of its batches. *)
Definition task_inv (t : worker_task) : Prop :=
  match t with
  | SingleTask _ _ => True
  | BatchTask _ w todo => task_stopped t = false → steps_inv w todo
  end.

Section proofs.
Context {KafkaError Source R : Type} `{DlqRouter R} (router : R) (to_rfc3339 : Z → string).
Context {HOs : HashOrder string} {HOk : HashOrder TopicPartitionKey} {HOz : HashOrder Z}.
Context (handlers : gmap string PythonHandler) (topics : list string).

Abbreviation env := (worker_env (T := OffsetTracker)).
Abbreviation sys := (system KafkaError Source).

(** ** What one step of a worker moves *)

Lemma handle_result_senders r ctx msg jitter now (e : env) a e' :
  handle_execution_result router to_rfc3339 r ctx msg jitter now e = Ret (a, e') →
  same_senders (we_queues e) (we_queues e').
Proof.
  assert (r = ResOk ∨ r ≠ ResOk) as [->|Hr] by (destruct r; auto).
  - simpl. destruct (tracker_ack _ _ _ _); [|done]. simpl. intros [= <- <-]. apply queue_ack_senders.
  - rewrite handle_failed_result by done. cbv zeta.
    destruct (handle_execution_failure _ _ _ _ _ _ _ _) as [[a1 e1]|] eqn:E; [|done].
    simpl. intros [= <- <-]. apply handle_failure_cases in E as (rc & _ & _ & _ & Hc); [|done].
    destruct Hc as [(d & _ & _ & Hq & _)|(_ & _ & Hq & _)]; rewrite Hq; [done|apply queue_ack_senders].
Qed.

Lemma process_message_flow i t msg w (e : env) w' e' :
  process_message router to_rfc3339 handlers i t msg w e = Ret (w', e') →
  wk_rx w' = wk_rx w ∧ wk_fanned w' ++ held w' = wk_fanned w ++ [msg] ∧
  same_senders (we_queues e) (we_queues e') ∧
  ∃ r, we_log e' = we_log e ++ [(msg, r)] ∧
       tracker_step (log_op (msg, r)) (we_offsets e) = Ret (we_offsets e').
Proof.
  intros Hp. pose proof Hp as (r & Hl & Ht)%process_message_tracker.
  pose proof Hp as (h & r' & a & e1 & Hh & Hc)%process_message_inv. apply handle_result_senders in Hh.
  split_and!; [| |by destruct Hc as [(_ & _ & ->)|(_ & ->)]|by eauto];
    revert Hp; unfold process_message; destruct (handler_for_topic _ _); [|done| |done];
    cbn [obind]; destruct (handle_execution_result _ _ _ _ _ _ _) as [[a1 e2]|]; try done;
    cbn [obind fst snd]; intros Hp; repeat case_match; simplify_eq/=; try done;
    unfold held; simpl; by rewrite ?app_nil_r.
Qed.

(** A step moves messages from the receiver to the worker, in order, handles only
    messages the worker took, and leaves the channels alone. *)
Definition task_flow (t : worker_task) (rx : list OwnedMessage) (e : env)
    (t' : worker_task) (rx' : list OwnedMessage) (e' : env) : Prop :=
  taken_by t' ++ rx' = taken_by t ++ rx ∧ taken_by t `prefix_of` taken_by t' ∧
  same_senders (we_queues e) (we_queues e') ∧ task_inv t' ∧
  ∃ new, we_log e' = we_log e ++ new ∧ Forall (λ x, x.1 ∈ taken_by t') new ∧
    (∀ tp, Forall (λ m, topic m = tp) (taken_by t') →
       tracker_run (log_op <$> new) (we_offsets e) = Ret (we_offsets e')).

Lemma task_flow_quiet t rx e t' rx' e' :
  taken_by t' ++ rx' = taken_by t ++ rx → taken_by t `prefix_of` taken_by t' → task_inv t' →
  we_queues e' = we_queues e → we_log e' = we_log e → we_offsets e' = we_offsets e →
  task_flow t rx e t' rx' e'.
Proof.
  intros H1 H2 H3 H4 H5 H6. split_and!; [done|done|by rewrite H4|done|].
  exists []. rewrite app_nil_r. split_and!; [done|done|]. intros _ _. simpl. by rewrite H6.
Qed.

Lemma single_act_flow i b st w sleeping e w' sl' e' :
  single_act router to_rfc3339 handlers i b st w sleeping e = Ret (w', sl', e') →
  task_flow (SingleTask w sleeping) (wk_rx w) e (SingleTask w' sl') (wk_rx w') e'.
Proof.
  assert (Hsame : ∀ w1, wk_fanned w1 ++ held w1 = wk_fanned w ++ held w → wk_rx w1 = wk_rx w →
    task_flow (SingleTask w sleeping) (wk_rx w) e (SingleTask w1 sl') (wk_rx w1) e).
  { intros w1 E1 E2. apply task_flow_quiet; cbn [taken_by]; rewrite ?E1, ?E2; done. }
  destruct st as [take|t|]; cbn [single_act].
  - unfold worker_poll. destruct (wk_stopped w); [intros [= <- <- <-]; by apply Hsame|].
    destruct (wk_state w) as [|msg] eqn:Ew; [|intros [= <- <- <-]; by apply Hsame].
    destruct (poll_for_work b take (wk_rx w)) as [msg rest| |] eqn:Ep; intros [= <- <- <-];
      [|by apply Hsame; [unfold held; rewrite Ew|]|by apply Hsame].
    assert (wk_rx w = msg :: rest) as Er
      by (unfold poll_for_work in Ep; repeat case_match; simplify_eq; congruence).
    apply task_flow_quiet; try done; cbn [taken_by wk_fanned wk_rx]; unfold held; rewrite Ew; simpl; rewrite app_nil_r.
    + by rewrite Er, <- app_assoc.
    + by apply prefix_app_r.
  - destruct sleeping; [intros [= <- <- <-]; by apply Hsame|]. unfold worker_process.
    destruct (wk_stopped w); [intros [= <- <- <-]; by apply Hsame|].
    destruct (wk_state w) as [|msg] eqn:Ew; [intros [= <- <- <-]; by apply Hsame|].
    destruct (process_message _ _ _ _ _ _ _ _) as [[w1 e1]|] eqn:E; [|done]. cbn [obind fst snd]. intros [= <- <- <-].
    apply process_message_flow in E as (F1 & F2 & F3 & r & F4 & F5).
    assert (wk_fanned w ++ held w = wk_fanned w ++ [msg]) as Eh by (unfold held; by rewrite Ew).
    split_and!; cbn [taken_by]; [by rewrite F1, F2, Eh|by rewrite F2, Eh|done|done|].
    exists [(msg, r)]. split_and!; [done| |].
    + apply Forall_singleton. cbn [fst]. rewrite F2. set_solver.
    + intros _ _. cbn [fmap list_fmap tracker_run]. by rewrite F5.
  - destruct sleeping; [|intros [= <- <- <-]; by apply Hsame]. unfold worker_wake.
    destruct b; intros [= <- <- <-]; [|by apply Hsame]. by apply task_flow_quiet.
Qed.

Lemma batch_act_task_flow now h cb jitter a todo (w w' : batch_worker (T := OffsetTracker)) rx :
  steps_inv w (a :: todo) → batch_act router to_rfc3339 h (λ _, cb) jitter now a w = Ret w' →
  task_flow (BatchTask h w (a :: todo)) rx (bw_env w) (BatchTask h w' todo) rx (bw_env w').
Proof.
  intros I Ha. apply (batch_act_flow _ _ _ _ _ _ _ _ _ _ I) in Ha as (I' & Hr & _ & new & Hl & Hin & Hs & Ht).
  unfold task_flow. cbn [taken_by]. rewrite Hr. split_and!; [done..|by intros _|].
  exists new. split_and!; [done| |].
  - eapply Forall_impl; [exact Hin|]. intros x Hx. apply elem_of_app. by left.
  - intros tp Htp. apply (Ht tp). by apply Forall_app in Htp as [? _].
Qed.

Lemma steps_inv_env e w todo : steps_inv (bw_with_env e w) todo ↔ steps_inv w todo.
Proof. split; intros [? ? ? ?]; by split. Qed.

Lemma batch_task_act_flow b closed st h w todo rx w' todo' rx' :
  task_inv (BatchTask h w todo) → bw_stopped w = false →
  batch_task_act router to_rfc3339 b closed st h w todo rx = Ret (w', todo', rx') →
  task_flow (BatchTask h w todo) rx (bw_env w) (BatchTask h w' todo') rx' (bw_env w').
Proof.
  intros I Hs. specialize (I Hs).
  assert (task_flow (BatchTask h w todo) rx (bw_env w) (BatchTask h w todo) rx (bw_env w)) as Hsame
    by (apply task_flow_quiet; [done|done|by intros _|done..]).
  destruct st as [now br|now cb jitter]; cbn [batch_task_act].
  - destruct todo as [|a todo]; [|intros [= <- <- <-]; exact Hsame].
    destruct (branch_event b closed now br rx) as [[ev rest]|] eqn:Eb; [|intros [= <- <- <-]; exact Hsame].
    destruct (batch_begin ev w) as [w1 acts] eqn:E. intros [= <- <- <-].
    destruct (batch_begin_inv _ _ _ _ I E) as (I' & E1 & E2 & E3 & _ & E5).
    assert ((match ev with BMessage _ m => [m] | _ => [] end) ++ rest = rx) as Erx.
    { unfold branch_event in Eb. repeat case_match; by simplify_eq/=. }
    apply task_flow_quiet; rewrite ?E2; [| |by intros _|done..]; cbn [taken_by]; rewrite E1, E5.
    + cbn [to_add omap list_omap app]. by rewrite <- Erx, app_nil_r, <- !app_assoc.
    + apply prefix_app, prefix_nil.
  - destruct todo as [|a todo]; [intros [= <- <- <-]; exact Hsame|].
    destruct (batch_act _ _ _ _ _ _ _ _) as [w1|] eqn:E; [|done]. cbn [obind]. intros [= <- <- <-].
    by apply (batch_act_task_flow now _ cb jitter).
Qed.

(** ** The invariant *)

Definition on_topic (tp : string) (l : list OwnedMessage) : list OwnedMessage :=
  filter (λ m, topic m = tp) l.

(** Where the messages given to topic [tp] are, for its worker. *)
Record topic_flow (s : sys) (tp : string) (t : worker_task) : Prop := {
  tf_took : taken_by t `sublist_of` on_topic tp (ss_handled (sy_stream s));
  tf_entry : ∃ e, dispatcher (sy_disp s) !! tp = Some e ∧ ch_closed (sender e) = task_stopped t ∧
    (task_stopped t = false →
       (taken_by t ++ ch_buffer (sender e)) `sublist_of` on_topic tp (ss_handled (sy_stream s)) ∧
       taken_by t ++ ch_buffer (sender e) ++ on_topic tp (sy_refused s) ≡ₚ
         on_topic tp (ss_handled (sy_stream s)))
}.

(** Every offset given to the broker client was the cursor of its partition at
    some point of the history of the tracker. *)
Definition stored_were_cursors (t0 : OffsetTracker) (log : list (OwnedMessage * ExecutionResult))
    (tr : rd_trace) : Prop :=
  ∀ tp p o, RdStoreOffset tp p o ∈ tr →
    ∃ l1 l2 t, log = l1 ++ l2 ∧ tracker_run (log_op <$> l1) t0 = Ret t ∧ highest_contiguous tp p t = Some o.

Record system_inv (t0 : OffsetTracker) (s : sys) : Prop := {
  sv_stream : stream_inv (λ _ _, true) (sy_stream s);
  sv_task : ss_task (sy_stream s) = TaskNext ∨ ss_task (sy_stream s) = TaskEnd;
  sv_topic : ∀ i tp t, topics !! i = Some tp → sy_workers s !! i = Some t →
    topic_flow s tp t ∧ task_inv t;
  sv_log : ∀ m r, (m, r) ∈ we_log (sy_env s) → m ∈ ss_handled (sy_stream s);
  sv_tracker : tracker_run (log_op <$> we_log (sy_env s)) t0 = Ret (we_offsets (sy_env s));
  sv_calls : stored_were_cursors t0 (we_log (sy_env s)) (cw_trace (sy_commit s))
}.

Lemma init_system_inv s : system_init topics s → system_inv (we_offsets (sy_env s)) s.
Proof.
  intros [Est Hn Hq Hw _ Hl Ht Hc _ Hr]. split.
  - rewrite Est. eapply (task_step_inv _ TvStart); [apply spawn_inv|reflexivity].
  - rewrite Est. by left.
  - intros i tp t Hi Hti. pose proof (Forall_lookup_1 _ _ _ _ Hw Hti) as Ht0. cbn beta in Ht0.
    destruct (Hq tp) as (e & He & Hb & Hcl); [by eapply list_elem_of_lookup_2|].
    assert (taken_by t = [] ∧ task_stopped t = false ∧ task_inv t) as (E1 & E2 & E3).
    { destruct t as [w sl|h w todo]; [by destruct Ht0 as [-> _]|].
      destruct Ht0 as (A & B & C & D & ->). unfold taken_by. rewrite D. split_and!; [done|done|].
      intros _. split; [by exists [], []| |done|].
      - intros p. rewrite C, D. unfold buffered. by rewrite A.
      - intros p b. by rewrite A. }
    split; [|done]. split; rewrite E1; [apply sublist_nil_l|]. exists e. rewrite Hb, Hr, Est, E2.
    split_and!; [done..|]. intros _. split; [apply sublist_nil_l|done].
  - rewrite Hl. intros m r []%not_elem_of_nil.
  - by rewrite Hl.
  - destruct Hc as [-> _]. intros tp p o []%not_elem_of_nil.
Qed.

Lemma stored_extend t0 log new tr : stored_were_cursors t0 log tr → stored_were_cursors t0 (log ++ new) tr.
Proof.
  intros Hs tp p o Hin. destruct (Hs tp p o Hin) as (l1 & l2 & t & -> & Ht). exists l1, (l2 ++ new), t.
  by rewrite <- app_assoc.
Qed.

(** New offsets that are cursors now. *)
Lemma stored_now t0 t log tr tr' :
  tracker_run (log_op <$> log) t0 = Ret t → stored_were_cursors t0 log tr →
  (∀ tp p o, RdStoreOffset tp p o ∈ tr' →
     RdStoreOffset tp p o ∈ tr ∨ highest_contiguous tp p t = Some o) →
  stored_were_cursors t0 log tr'.
Proof.
  intros Ht Hs Hn tp p o [Hin|Hc]%Hn; [by apply Hs|]. exists log, [], t. by rewrite app_nil_r.
Qed.

(** A step that leaves the workers, the queues and the history alone. *)
Lemma frame_inv t0 s s' :
  system_inv t0 s → sy_workers s' = sy_workers s → sy_disp s' = sy_disp s → sy_refused s' = sy_refused s →
  we_log (sy_env s') = we_log (sy_env s) → we_offsets (sy_env s') = we_offsets (sy_env s) →
  stream_inv (λ _ _, true) (sy_stream s') → ss_handled (sy_stream s') = ss_handled (sy_stream s) →
  ss_task (sy_stream s') = TaskNext ∨ ss_task (sy_stream s') = TaskEnd →
  stored_were_cursors t0 (we_log (sy_env s)) (cw_trace (sy_commit s')) →
  system_inv t0 s'.
Proof.
  intros [I1 I2 I3 I4 I5 I6] Ew Ed Er El Eo Hi Hh Ht Hc.
  split; rewrite ?Ew, ?El, ?Eo; try done; [|by rewrite Hh].
  intros i tp t Hi' Hw. destruct (I3 i tp t Hi' Hw) as [[T1 T2] T3]. split; [|done].
  split; by rewrite ?Hh, ?Ed, ?Er.
Qed.

Lemma stream_only_inv t0 st s :
  system_inv t0 s → stream_inv (λ _ _, true) st → ss_handled st = ss_handled (sy_stream s) →
  ss_task st = TaskNext ∨ ss_task st = TaskEnd → system_inv t0 (sys_with_stream st s).
Proof. intros I Hi Hh Ht. eapply frame_inv; [exact I|done..|apply (sv_calls _ _ I)]. Qed.

Lemma commit_only_inv t0 w c s :
  system_inv t0 s → stored_were_cursors t0 (we_log (sy_env s)) (cw_trace w) →
  system_inv t0 (sys_with_commit w c s).
Proof. intros I Hc. eapply frame_inv; [exact I|try done..]; [apply (sv_stream _ _ I)|apply (sv_task _ _ I)]. Qed.

Lemma life_only_inv t0 l s : system_inv t0 s → system_inv t0 (sys_with_life l s).
Proof.
  intros I. eapply frame_inv; [exact I|try done..];
    [apply (sv_stream _ _ I)|apply (sv_task _ _ I)|apply (sv_calls _ _ I)].
Qed.

(** ** The dispatcher *)

Lemma loop_step_task e (st st' : stream_state KafkaError Source) :
  loop_step true e st = Some st' → ss_handled st' = ss_handled st ∧ ss_task st' = ss_task st.
Proof. unfold loop_step. intros Hs. repeat (case_match; simplify_eq/=; try done). Qed.

(** What one send does to the buffer of its queue. *)
Lemma send_buffer m qm e :
  qm !! topic m = Some e →
  ∃ e', (send m qm).2 !! topic m = Some e' ∧ ch_closed (sender e') = ch_closed (sender e) ∧
    ch_buffer (sender e') = ch_buffer (sender e) ++ (if is_ok_result (send m qm).1 then [m] else []) ∧
    (is_ok_result (send m qm).1 = true → ch_closed (sender e) = false).
Proof.
  intros He. unfold send. rewrite He. destruct (try_acquire_semaphore (metadata e)) as [[] meta]; simpl.
  - destruct (try_send m (sender e)) as [c|[]] eqn:Et; simpl; rewrite lookup_insert_eq; eexists;
      (split; [done|]); simpl; rewrite ?app_nil_r; try done.
    apply try_send_ok in Et as (Ec & _ & ->). done.
  - exists e. by rewrite app_nil_r.
Qed.

Lemma on_topic_snoc tp l m : on_topic tp (l ++ [m]) = on_topic tp l ++ (if decide (topic m = tp) then [m] else []).
Proof. unfold on_topic. rewrite filter_app. by f_equal. Qed.

(** The dispatcher gives one message to its queue, or refuses it. *)
Lemma dispatch_flow c m s s' tp t ch :
  topic_flow s tp t → sy_stream s' = taken (Ok m) ch (sy_stream s) →
  sy_disp s' = run_item c (Ok m) (sy_disp s) →
  sy_refused s' = sy_refused s ++ refused (KafkaError := KafkaError) (Source := Source) (Ok m) (dispatcher (sy_disp s)) →
  topic_flow s' tp t.
Proof.
  intros [T1 (e & He & Hc & T2)] Est Ed Er.
  assert (ss_handled (sy_stream s') = ss_handled (sy_stream s) ++ [m]) as Eh by (by rewrite Est).
  split; rewrite Eh, on_topic_snoc.
  { by apply sublist_inserts_r. }
  rewrite Ed, Er, run_item_queues. destruct (decide (topic m = tp)) as [<-|Hne].
  - destruct (send_buffer m _ e He) as (e' & He' & Hc' & Hb & Hok). exists e'.
    split_and!; [done|congruence|]. intros Hs. destruct (T2 Hs) as [S1 S2]. rewrite Hb. unfold refused.
    destruct (is_ok_result _); cbn [app]; rewrite ?app_nil_r.
    + split; [rewrite app_assoc; by apply sublist_app|]. rewrite <- S2. solve_Permutation.
    + split; [by apply sublist_inserts_r|]. rewrite on_topic_snoc, decide_True by done.
      rewrite <- S2. solve_Permutation.
  - exists e. rewrite send_other by done. split_and!; [done..|]. intros Hs. rewrite app_nil_r.
    assert (on_topic tp (sy_refused s ++ refused (KafkaError := KafkaError) (Source := Source) (Ok m) (dispatcher (sy_disp s)))
            = on_topic tp (sy_refused s)) as ->; [|by apply T2].
    unfold refused. destruct (is_ok_result _); [by rewrite app_nil_r|].
    by rewrite on_topic_snoc, decide_False, app_nil_r.
Qed.

Lemma sys_dispatch_inv t0 c s : system_inv t0 s → system_inv t0 (sys_dispatch c s).
Proof.
  intros I. pose proof I as [I1 I2 I3 I4 I5 I6]. unfold sys_dispatch.
  destruct (ss_task (sy_stream s)) eqn:Et; try done.
  destruct (ss_channel (sy_stream s)) as [|item ch] eqn:Ec.
  { destruct (loop_ended _); [|done]. apply stream_only_inv; [done| |done|by right].
    by apply task_end_inv. }
  destruct item as [m|er].
  2: { pose proof (si_ok _ _ I1) as O. unfold in_channel in O. rewrite Ec in O. simpl in O.
       match type of O with _ = _ <$> ?l => by destruct l end. }
  split; cbn [sy_stream sy_workers sy_env sy_commit]; try done.
  - refine (task_step_inv _ TvProcessed (task_with (TaskProcess m) ch (ss_handled (sy_stream s) ++ [m]) (sy_stream s)) _ _ _).
    + apply (task_step_inv _ TvNext (sy_stream s)); [done|]. unfold task_step. by rewrite Et, Ec.
    + done.
  - intros i tp t Hi Hw. destruct (I3 i tp t Hi Hw) as [Hf Hk]. split; [|done].
    by eapply (dispatch_flow c m s _ tp t ch).
  - intros m' r Hin. apply elem_of_app. left. by eapply I4.
Qed.

(** ** The workers *)

Lemma sublist_taken (l1 l2 k : list OwnedMessage) : l1 `prefix_of` l2 → l2 `sublist_of` k → l1 `sublist_of` k.
Proof. intros [r ->]. etrans; [|done]. by apply sublist_inserts_r. Qed.

Lemma set_receiver_lookup tp rx qm tp' :
  set_receiver tp rx qm !! tp' =
    if decide (tp = tp') then
      (λ e, {| sender := {| ch_capacity := ch_capacity (sender e); ch_buffer := rx;
                            ch_closed := ch_closed (sender e) |}; metadata := metadata e |}) <$> qm !! tp'
    else qm !! tp'.
Proof.
  unfold set_receiver. destruct (decide (tp = tp')) as [->|]; [apply lookup_alter_eq|by apply lookup_alter_ne].
Qed.

Lemma queue_close_lookup tp qm tp' :
  queue_close tp qm !! tp' =
    if decide (tp = tp') then
      (λ e, {| sender := ch_close (sender e); metadata := metadata e |}) <$> qm !! tp'
    else qm !! tp'.
Proof.
  unfold queue_close. destruct (decide (tp = tp')) as [->|]; [apply lookup_alter_eq|by apply lookup_alter_ne].
Qed.

(** The entry of a queue after a step of the worker of [tp]. *)
Lemma step_entry tp (rx : list OwnedMessage) (stopped : bool) qm qm' e tp' :
  qm !! tp' = Some e → same_senders qm qm' →
  let qm2 := set_receiver tp rx qm' in
  let qm3 := if stopped then queue_close tp qm2 else qm2 in
  ∃ e', qm3 !! tp' = Some e' ∧
    (tp ≠ tp' → sender e' = sender e) ∧
    (tp = tp' → ch_closed (sender e') = (stopped || ch_closed (sender e)) ∧
       (stopped = false → ch_buffer (sender e') = rx)).
Proof.
  intros He Hs qm2 qm3. specialize (Hs tp'). rewrite He in Hs.
  destruct (qm' !! tp') as [e1|] eqn:E1; [|done]. simpl in Hs. injection Hs as Hs. subst qm3 qm2.
  destruct stopped; rewrite ?queue_close_lookup, ?set_receiver_lookup, E1;
    destruct (decide (tp = tp')); simpl; eexists; (split; [done|]); simpl; rewrite ?Hs; done.
Qed.

Lemma worker_step_inv t0 i tp t t' rx' e' s :
  NoDup topics → system_inv t0 s → topics !! i = Some tp → sy_workers s !! i = Some t →
  task_stopped t = false →
  task_flow t (receiver_buffer tp (dispatcher (sy_disp s))) (we_with_queues (dispatcher (sy_disp s)) (sy_env s))
    t' rx' e' →
  system_inv t0 (worker_step i tp rx' t' e' s).
Proof.
  intros Hnd [I1 I2 I3 I4 I5 I6] Hi Hw Hs (F1 & F2 & F3 & F4 & new & Hl & Hin & Ht).
  cbn [we_with_queues we_log we_offsets we_queues] in *.
  destruct (I3 i tp t Hi Hw) as [[T1 (e0 & He & Hc & T2)] _]. destruct (T2 Hs) as [S1 S2].
  unfold receiver_buffer in F1. rewrite He in F1.
  assert (taken_by t' `sublist_of` on_topic tp (ss_handled (sy_stream s))) as Hsub.
  { eapply sublist_taken; [|exact S1]. rewrite <- F1. by apply prefix_app_r. }
  split; cbn [worker_step sy_stream sy_workers sy_env sy_commit]; try done.
  - intros j tp' t1 Hj Ht1. destruct (decide (i = j)) as [<-|Hij].
    + rewrite list_lookup_insert_eq in Ht1 by (by eapply lookup_lt_Some).
      rewrite Hi in Hj. injection Hj as <-. injection Ht1 as <-. split; [|done].
      destruct (step_entry tp rx' (task_stopped t') _ _ _ _ He F3) as (e2 & He2 & _ & Heq).
      destruct (Heq eq_refl) as [Hc2 Hb2]. split; [done|]. exists e2. split; [done|]. split.
      { by rewrite Hc2, Hc, Hs, orb_false_r. }
      intros Hs'. by rewrite Hb2, app_assoc, F1, <- app_assoc by done.
    + rewrite list_lookup_insert_ne in Ht1 by done.
      destruct (I3 j tp' t1 Hj Ht1) as [[U1 (e1 & He1 & Hc1 & U2)] U3].
      destruct (step_entry tp rx' (task_stopped t') _ _ _ _ He1 F3) as (e2 & He2 & Hne & _).
      split; [|done]. split; [done|]. exists e2. rewrite Hne; [done|]. intros ->. apply Hij. by eapply NoDup_lookup.
  - rewrite Hl. intros m r [Hm|Hm]%elem_of_app; [by eapply I4|].
    rewrite Forall_forall in Hin. specialize (Hin _ Hm). simpl in Hin.
    pose proof (elem_of_submseteq _ _ _ Hin (sublist_submseteq _ _ Hsub)) as Hf.
    by apply list_elem_of_filter in Hf as [_ Hf].
  - rewrite Hl, fmap_app, tracker_run_app, I5. apply (Ht tp). apply Forall_forall. intros m Hm.
    pose proof (elem_of_submseteq _ _ _ Hm (sublist_submseteq _ _ Hsub)) as Hf.
    by apply list_elem_of_filter in Hf as [? _].
  - rewrite Hl. by apply stored_extend.
Qed.

Lemma sys_worker_inv t0 i ev s s' :
  NoDup topics → system_inv t0 s →
  sys_worker router to_rfc3339 handlers topics i ev s = Ret s' → system_inv t0 s'.
Proof.
  intros Hnd I Hr. unfold sys_worker in Hr.
  destruct (topics !! i) as [tp|] eqn:Hi; [|by simplify_eq].
  destruct (sy_workers s !! i) as [t|] eqn:Hw; [|by simplify_eq].
  destruct (task_stopped t) eqn:Hs; [by simplify_eq|].
  pose proof (proj2 (sv_topic _ _ I i tp t Hi Hw)) as Hinv.
  destruct t as [w sl|h w todo], ev as [st|st]; try by simplify_eq.
  - destruct (single_act _ _ _ _ _ _ _ _ _) as [[[w' sl'] e']|] eqn:E; [|done].
    cbn [obind fst snd] in Hr. injection Hr as <-. apply single_act_flow in E.
    by eapply worker_step_inv.
  - destruct (batch_task_act _ _ _ _ _ _ _ _ _) as [[[w' todo'] rx']|] eqn:E; [|done].
    cbn [obind fst snd] in Hr. injection Hr as <-.
    apply batch_task_act_flow in E; [by eapply worker_step_inv| |done].
    intros _. apply steps_inv_env. by apply Hinv.
Qed.

(** ** The other tasks *)

Lemma sys_stop_inv t0 s s' : system_inv t0 s → sys_stop s = Ret s' → system_inv t0 s'.
Proof.
  unfold sys_stop. intros I. destruct (task_stop (sy_stream s)) as [st|] eqn:E; [|done]. cbn [obind]. intros [= <-].
  pose proof (task_stop_spec _ _ E) as (_ & _ & E3 & _ & E5 & _).
  apply stream_only_inv; [done| |done|rewrite E3; apply (sv_task _ _ I)].
  by eapply task_stop_inv; [apply (sv_stream _ _ I)|].
Qed.

Lemma sys_signal_inv t0 s s' : system_inv t0 s → sys_signal s = Ret s' → system_inv t0 s'.
Proof.
  intros I. unfold sys_signal. destruct (lf_signal (sy_life s)).
  - intros [= <-]. by apply life_only_inv.
  - destruct (begin_draining _); [|done]. intros [= <-]. apply life_only_inv, commit_only_inv; [done|].
    apply (sv_calls _ _ I).
  - intros [= <-]. by apply life_only_inv.
  - destruct (sys_stop s) as [s1|] eqn:E; [|done]. intros [= <-]. apply life_only_inv. by eapply sys_stop_inv.
  - by intros [= <-].
Qed.

Lemma sys_commit_inv t0 rd tick d s : system_inv t0 s → system_inv t0 (sys_commit rd tick d s).
Proof.
  intros I. apply commit_only_inv; [done|].
  eapply stored_now; [apply (sv_tracker _ _ I)|apply (sv_calls _ _ I)|]. intros tp p o Hin.
  apply committer_turn_stores in Hin as [Hin|[_ Hc]]; auto.
Qed.

Lemma sys_pre_rebalance_inv t0 rd r s : system_inv t0 s → system_inv t0 (sys_pre_rebalance rd r s).
Proof.
  intros I. unfold sys_pre_rebalance. destruct (pre_rebalance _ _ _ _ _) as [c tr] eqn:E.
  apply commit_only_inv; [done|]. cbn [cw_trace cw_with_trace].
  eapply stored_now; [apply (sv_tracker _ _ I)|apply (sv_calls _ _ I)|]. intros tp p o Hin.
  destruct r as [tpl|tpl|]; [by injection E as <- <-; left| |by injection E as <- <-; left].
  unfold pre_rebalance in E.
  destruct (revoke_all rd (we_offsets (sy_env s)) tpl (sy_context s) (cw_trace (sy_commit s))) as (E1 & _).
  rewrite E in E1. cbn [snd] in E1. subst tr.
  apply elem_of_app in Hin as [Hin|[_ Hc]%elem_of_revoke_calls]; auto.
Qed.

Lemma sys_post_rebalance_inv t0 r s : system_inv t0 s → system_inv t0 (sys_post_rebalance r s).
Proof.
  intros I. apply commit_only_inv; [done|]. cbn [cw_trace cw_with_trace].
  eapply stored_now; [apply (sv_tracker _ _ I)|apply (sv_calls _ _ I)|]. intros tp p o Hin. left.
  destruct r as [tpl|tpl|]; cbn [post_rebalance] in Hin; try done.
  rewrite assign_all in Hin. apply elem_of_app in Hin as [Hin|Hin]; [done|].
  apply list_elem_of_omap in Hin as (k & _ & Hk). by destruct (seek_to _ _ k).
Qed.

Lemma sys_dlq_inv t0 d s : system_inv t0 s → system_inv t0 (sys_dlq d s).
Proof.
  intros I. eapply frame_inv; [exact I|try done..];
    [apply (sv_stream _ _ I)|apply (sv_task _ _ I)|apply (sv_calls _ _ I)].
Qed.

(** [graceful_shutdown] commits without storing. *)
Lemma graceful_stores rd t tr tp p o :
  RdStoreOffset tp p o ∈ tracker_graceful_shutdown rd t tr → RdStoreOffset tp p o ∈ tr.
Proof.
  unfold tracker_graceful_shutdown. revert tr. induction (all_partitions t) as [|k ks IH]; intros tr; [done|].
  cbn [foldl]. intros Hin%IH. unfold graceful_partition in Hin. unfold drop_future, commit in Hin.
  repeat case_match; cbn [snd] in Hin; try done.
  apply elem_of_app in Hin as [Hin|Hin%list_elem_of_singleton]; done.
Qed.

Lemma sys_finish_inv t0 rd now s s' :
  system_inv t0 s → sys_finish router to_rfc3339 rd now s = Ret s' → system_inv t0 s'.
Proof.
  intros I. unfold sys_finish. destruct (if decide _ then _ else _) as [c|]; [|done]. cbn [obind].
  apply sys_stop_inv. eapply frame_inv; [exact I|try done..];
    [apply (sv_stream _ _ I)|apply (sv_task _ _ I)|].
  cbn [sy_commit cw_trace cw_with_coord cw_with_trace].
  eapply stored_now; [apply (sv_tracker _ _ I)|apply (sv_calls _ _ I)|]. intros tp p o Hin.
  left. by eapply graceful_stores.
Qed.

Lemma abort_stopped t : task_stopped (abort_worker t) = true.
Proof. by destruct t. Qed.

Lemma abort_taken t : taken_by (abort_worker t) `prefix_of` taken_by t.
Proof. destruct t; [done|]. cbn. apply prefix_app, prefix_nil. Qed.

Lemma sys_abort_inv t0 s : system_inv t0 s → length (sy_workers s) = length topics → system_inv t0 (sys_abort topics s).
Proof.
  intros [I1 I2 I3 I4 I5 I6] Hlen. split; try done.
  intros i tp t Hi Hw. cbn [sys_abort sy_workers] in Hw. rewrite list_lookup_fmap in Hw.
  destruct (sy_workers s !! i) as [t1|] eqn:E; [|done]. injection Hw as <-.
  destruct (I3 i tp t1 Hi E) as [[T1 (e & He & Hc & T2)] T3].
  split; [|by destruct t1; [|intros [=]]].
  split; [eapply sublist_taken; [apply abort_taken|done]|].
  cbn [sys_abort sy_disp cd_with_queues dispatcher]. rewrite queue_close_all, decide_True, He by (by eapply list_elem_of_lookup_2).
  eexists. split; [done|]. rewrite abort_stopped. by split.
Qed.

Lemma sys_main_inv t0 rd now s s' :
  system_inv t0 s → length (sy_workers s) = length topics →
  sys_main router to_rfc3339 topics rd now s = Ret s' → system_inv t0 s'.
Proof.
  intros I Hlen. unfold sys_main. destruct (lf_main (sy_life s)).
  - intros [= <-]. by apply life_only_inv.
  - destruct (lf_exited _); [case_decide|]; intros [= <-]; try done; by apply life_only_inv.
  - intros [= <-]. by apply sys_abort_inv.
  - by apply sys_finish_inv.
  - destruct (receiver_dropped _); intros [= <-]; [by apply life_only_inv|done].
  - destruct (cw_exited _); intros [= <-]; [by apply life_only_inv|done].
  - by intros [= <-].
Qed.

(** ** Runs *)

Abbreviation step := (system_step router to_rfc3339 handlers topics).
Abbreviation runs := (system_run router to_rfc3339 handlers topics).

(** Only the workers handle messages; the others leave the workers, or abort them. *)
Lemma system_step_cases ev (s s' : sys) :
  step s ev = Ret s' →
  (∃ i wev, sys_worker router to_rfc3339 handlers topics i wev s = Ret s') ∨
  (we_log (sy_env s') = we_log (sy_env s) ∧ we_offsets (sy_env s') = we_offsets (sy_env s) ∧
   (sy_workers s' = sy_workers s ∨ sy_workers s' = abort_worker <$> sy_workers s)).
Proof.
  destruct ev as [e|c|i ev|rd tick d|d|rd r|r|dl| | |rd now]; simpl; intros Hs;
    [|..|by left; eauto| | | | | | | |]; right.
  - injection Hs as <-. destruct (loop_step _ _ _); auto.
  - injection Hs as <-. unfold sys_dispatch. repeat case_match; auto.
  - injection Hs as <-. auto.
  - injection Hs as <-. auto.
  - injection Hs as <-. unfold sys_pre_rebalance. destruct (pre_rebalance _ _ _ _ _). auto.
  - injection Hs as <-. auto.
  - injection Hs as <-. auto.
  - unfold sys_signal, sys_stop in Hs. destruct (lf_signal _); try (injection Hs as <-; by auto).
    + destruct (begin_draining _); [|done]. injection Hs as <-. auto.
    + destruct (task_stop _); [|done]. injection Hs as <-. auto.
  - injection Hs as <-. auto.
  - unfold sys_main, sys_finish, sys_stop in Hs. destruct (lf_main _); try (repeat case_match; simplify_eq; by auto).
    + destruct (if decide _ then _ else _); [|done]. cbn [obind] in Hs.
      destruct (task_stop _); [|done]. injection Hs as <-. auto.
Qed.

Lemma sys_worker_length i ev (s s' : sys) :
  sys_worker router to_rfc3339 handlers topics i ev s = Ret s' → length (sy_workers s') = length (sy_workers s).
Proof.
  unfold sys_worker. intros Hs. destruct (topics !! i), (sy_workers s !! i) as [t|]; try (by injection Hs as <-).
  destruct (task_stopped t); [by injection Hs as <-|].
  destruct t, ev; try (by injection Hs as <-);
    [destruct (single_act _ _ _ _ _ _ _ _ _)|destruct (batch_task_act _ _ _ _ _ _ _ _ _)]; try done;
    injection Hs as <-; apply length_insert.
Qed.

(** The workers of a system stay the same tasks. *)
Lemma system_step_workers ev (s s' : sys) : step s ev = Ret s' → length (sy_workers s') = length (sy_workers s).
Proof.
  intros [(i & wev & Hs)|(_ & _ & [->| ->])]%system_step_cases; [by eapply sys_worker_length|done|apply length_fmap].
Qed.

Lemma system_step_inv t0 ev (s s' : sys) :
  NoDup topics → length (sy_workers s) = length topics → system_inv t0 s → step s ev = Ret s' → system_inv t0 s'.
Proof.
  intros Hnd Hlen I. destruct ev as [e|c|i ev|rd tick d|d|rd r|r|dl| | |rd now]; simpl.
  - intros [= <-]. destruct (loop_step true e (sy_stream s)) as [st|] eqn:E; [|done].
    pose proof (loop_step_task _ _ _ E) as [H1 H2]. apply stream_only_inv; [done| |done|].
    + by eapply loop_step_inv; [apply (sv_stream _ _ I)|].
    + rewrite H2. apply (sv_task _ _ I).
  - intros [= <-]. by apply sys_dispatch_inv.
  - by apply sys_worker_inv.
  - intros [= <-]. by apply sys_commit_inv.
  - intros [= <-]. apply commit_only_inv; [done|]. apply (sv_calls _ _ I).
  - intros [= <-]. by apply sys_pre_rebalance_inv.
  - intros [= <-]. by apply sys_post_rebalance_inv.
  - intros [= <-]. by apply sys_dlq_inv.
  - by apply sys_signal_inv.
  - intros [= <-]. by apply life_only_inv.
  - by apply sys_main_inv.
Qed.

Lemma system_run_inv evs (s0 s : sys) :
  system_init topics s0 → runs evs s0 = Ret s →
  system_inv (we_offsets (sy_env s0)) s ∧ length (sy_workers s) = length topics.
Proof.
  intros Hi. apply (ofold_inv (λ s, system_inv (we_offsets (sy_env s0)) s ∧ length (sy_workers s) = length topics)).
  - intros a ev a' _ [Ha Hl] Hs. split; [by eapply system_step_inv; [apply Hi|..]|].
    by rewrite (system_step_workers _ _ _ Hs).
  - split; [by apply init_system_inv|apply Hi].
Qed.

End proofs.
