(* ===== verification/PipelineRuntime.v ===== *)
(** * The running runtime: what becomes of the messages

    The system of a runtime that [RuntimeBuilder::build] has assembled, and the
    two end-to-end properties: every received message is in one place, and a
    committed offset covers handled messages only. *)

From stdpp Require Import base gmap sets list strings.
From S2P Require Import Prelude F64 Metrics FromStr Failure Message Shutdown Runner Dlq OffsetTracker OffsetProofs Retry Commit Queue Dispatcher Execution PoolState Worker Batch BatchSteps FanOut Pool Context Config Builder Task Pipeline PipelineProofs.

(** ** What a worker has settled *)

(** Of partition [p]: the messages a worker is done with, and those it has taken
    and not settled. *)
Definition settled (p : Z) (t : worker_task) : list OwnedMessage :=
  match t with
  | SingleTask w _ => filter (λ m, partition m = p) (wk_fanned w)
  | BatchTask _ w _ => batch_of p (bw_batches w).*1
  end.

Definition inside (p : Z) (t : worker_task) : list OwnedMessage :=
  match t with
  | SingleTask w _ => filter (λ m, partition m = p) (held w)
  | BatchTask _ w todo =>
      batch_of p (pending todo) ++ buffered p (accumulators (bw_acc w)) ++
      filter (λ m, partition m = p) (to_add todo)
  end.

Lemma taken_split p t :
  task_inv t → task_stopped t = false →
  filter (λ m, partition m = p) (taken_by t) = settled p t ++ inside p t.
Proof.
  destruct t as [w sl|h w todo]; cbn [taken_by settled inside]; intros Hi Hs; rewrite filter_app; [done|].
  by rewrite (sp_conserve _ _ (Hi Hs)), <- !app_assoc.
Qed.

Section runtime.
Context {KafkaError Source : Type} (to_rfc3339 : Z → string).
Context {HOs : HashOrder string} {HOk : HashOrder TopicPartitionKey} {HOz : HashOrder Z}.

Definition worker_topics (rt : Runtime) : list string := map pw_topic (rn_workers rt).

Definition runtime_handlers (rt : Runtime) : gmap string PythonHandler := fh_handler <$> rn_handlers rt.

(** A worker task begins: a batch worker whose handler has no batch policy panics. *)
Definition start_worker (e : worker_env (T := OffsetTracker)) (w : PoolWorker) : outcome worker_task :=
  match pw_kind w with
  | KindSingle => Ret (SingleTask (idle_worker []) false)
  | KindBatch h => let? b := batch_worker_start h (pw_id w) e in Ret (BatchTask h b [])
  end.

Definition start_workers (e : worker_env (T := OffsetTracker)) (ws : list PoolWorker) : outcome (list worker_task) :=
  foldr (λ w acc, let? t := start_worker e w in let? ts := acc in Ret (t :: ts)) (Ret []) ws.

(** What [RuntimeBuilder::build] has started, at the instant [clock]: the
    dispatcher has opened its stream, on a runner without a coordinator, and
    populated its handles with the client [c]. *)
Definition runtime_system (c : client) (clock : Z) (rt : Runtime)
    : outcome (system KafkaError Source) :=
  let e := {| we_retry := rn_retry rt; we_queues := dispatcher (rn_dispatcher rt);
              we_offsets := rn_tracker rt; we_dlq := dlq_producer_new;
              we_states := rn_states rt; we_sink := shared_sink_new; we_log := [] |} in
  let? ws := start_workers e (rn_workers rt) in
  Ret {| sy_stream := run (task_spawn None);
         sy_disp := (populate_partitions c (rn_dispatcher rt)).2;
         sy_workers := ws;
         sy_env := e;
         sy_commit := offset_committer_new (rn_tracker rt) (rn_coordinator rt) clock;
         sy_context := rn_context rt;
         sy_life := {| lf_token := rn_token rt; lf_exited := 0; lf_main := MainCheck; lf_signal := SigWaiting |};
         sy_refused := [] |}.

Definition runtime_run (rt : Runtime) (evs : list system_event) :
    system KafkaError Source → outcome (system KafkaError Source) :=
  system_run (rn_router rt) to_rfc3339 (runtime_handlers rt) (worker_topics rt) evs.

Lemma start_workers_spec e ws ts :
  start_workers e ws = Ret ts → Forall2 (λ w t, start_worker e w = Ret t) ws ts.
Proof.
  revert ts. induction ws as [|w ws IH]; intros ts; simpl; [intros [= <-]; constructor|].
  destruct (start_worker e w) as [t|] eqn:E; [|done]. cbn [obind].
  destruct (start_workers e ws) as [ts'|] eqn:E'; simpl in E' |- *; rewrite ?E'; [|done].
  cbn [obind]. intros [= <-]. constructor; [done|]. by apply IH.
Qed.

Lemma runtime_system_init kafka env_mode env cfg calls rt c clock s :
  build kafka env (py_run env_mode cfg calls) = Ret (Ok rt) →
  runtime_system c clock rt = Ret s →
  system_init (worker_topics rt) s.
Proof.
  intros Hb Hr. destruct (build_pool _ _ _ _ _ _ Hb) as (_ & _ & Hn & Hq & _).
  destruct (build_fields _ _ _ _ Hb) as (_ & _ & Ht & _).
  unfold runtime_system in Hr. destruct (start_workers _ _) as [ws|] eqn:E; [|done]. cbn [obind] in Hr.
  injection Hr as <-. apply start_workers_spec in E. split; try done.
  - intros tp Htp. destruct (Hq tp Htp) as (e & He & (_ & Hbuf & Hcl & _) & _). exists e.
    cbn [sy_disp]. by rewrite populate_queues.
  - apply Forall_forall. intros t Hin. apply list_elem_of_lookup in Hin as (i & Hi).
    destruct (Forall2_lookup_r _ _ _ _ _ E Hi) as (w & _ & Hw). unfold start_worker in Hw.
    destruct (pw_kind w) as [|h]; [by injection Hw as <-|].
    unfold batch_worker_start in Hw. destruct (h_batch_policy h); [|done]. by injection Hw as <-.
  - cbn [sy_workers]. unfold worker_topics. rewrite length_map. symmetry. by eapply Forall2_length.
Qed.

(** Where the messages received for the topic of a worker are: those it has taken,
    those in its queue, those the queue refused, those in the channel, and what the
    receiving task holds. *)
Lemma runtime_accounts kafka env_mode env cfg calls rt c clock s0 evs s i t :
  build kafka env (py_run env_mode cfg calls) = Ret (Ok rt) →
  runtime_system c clock rt = Ret s0 →
  runtime_run rt evs s0 = Ret s →
  sy_workers s !! i = Some t → task_stopped t = false →
  ∃ tp e rest, worker_topics rt !! i = Some tp ∧ dispatcher (sy_disp s) !! tp = Some e ∧
    let st := sy_stream s in
    let got := on_topic tp (from_borrowed <$> ss_received st) in
    taken_by t ++ ch_buffer (sender e) ++ on_topic tp (sy_refused s) ++
      on_topic tp (in_channel st) ++ on_topic tp rest ≡ₚ got ∧
    (taken_by t ++ ch_buffer (sender e) ++ on_topic tp (in_channel st) ++ on_topic tp rest) `sublist_of` got ∧
    (receiver_dropped st = false → (length rest ≤ 1)%nat ∧ (loop_ended st = false → rest = in_hand st)) ∧
    ∀ p, filter (λ m, partition m = p) (taken_by t) = settled p t ++ inside p t.
Proof.
  intros Hb Hr0 Hr Hw Hs. pose proof (runtime_system_init _ _ _ _ _ _ _ _ _ Hb Hr0) as Hi.
  destruct (system_run_inv _ _ _ _ _ _ _ Hi Hr) as [I Hlen].
  destruct (worker_topics rt !! i) as [tp|] eqn:Ht.
  2: { exfalso. apply lookup_ge_None in Ht. apply lookup_lt_Some in Hw. lia. }
  destruct (sv_topic _ _ _ I i tp t Ht Hw) as [[_ (e & He & _ & T2)] Hinv]. destruct (T2 Hs) as [S1 S2].
  destruct (si_flow _ _ (sv_stream _ _ _ I)) as (rest & F1 & F2).
  exists tp, e, rest. split_and!; [done..|]. cbn zeta.
  rewrite F1. unfold on_topic in *. rewrite !filter_app. split_and!; [| |done|].
  - rewrite <- S2. solve_Permutation.
  - pose proof (sublist_app _ _ _ _ S1 (reflexivity (filter (λ m, topic m = tp) (in_channel (sy_stream s) ++ rest)))) as S.
    rewrite filter_app, <- !app_assoc in S. exact S.
  - intros p. by apply taken_split.
Qed.

(** Every handled message was received. *)
Lemma logged_received kafka env_mode env cfg calls rt c clock s0 evs s m r :
  build kafka env (py_run env_mode cfg calls) = Ret (Ok rt) →
  runtime_system c clock rt = Ret s0 →
  runtime_run rt evs s0 = Ret s →
  (m, r) ∈ we_log (sy_env s) → ∃ b, m = from_borrowed b ∧ b ∈ ss_received (sy_stream s).
Proof.
  intros Hb Hr0 Hr Hm. pose proof (runtime_system_init _ _ _ _ _ _ _ _ _ Hb Hr0) as Hi.
  destruct (system_run_inv _ _ _ _ _ _ _ Hi Hr) as [I _].
  destruct (si_flow _ _ (sv_stream _ _ _ I)) as (rest & F1 & _).
  apply (sv_log _ _ _ I) in Hm. apply list_elem_of_fmap. rewrite F1. set_solver.
Qed.

(** ** The properties *)


(** C1: From the broker to the commit: a committed offset covers only messages that
    were received and handled.  In every run of a runtime built after any calls of
    the program, in every interleaving of the receiving task, the dispatcher, the
    workers of either kind, the committer, the rebalance callbacks, the signal and
    the main task: an offset that any of them gives to the broker client for
    committing covers, from the first message handled on, only offsets of messages
    that the broker delivered to this process and for which a handler returned
    successfully. *)
Theorem committed_messages_were_received kafka env_mode env cfg calls rt c clock s0 evs s tp p o :
  build kafka env (py_run env_mode cfg calls) = Ret (Ok rt) →
  runtime_system c clock rt = Ret s0 →
  runtime_run rt evs s0 = Ret s →
  Forall (λ b, 0 ≤ b_offset b < 2 ^ 63) (ss_received (sy_stream s)) →
  RdStoreOffset tp p o ∈ cw_trace (sy_commit s) →
  ∃ b, first_ack (events_of (tp, p) (log_op <$> we_log (sy_env s))) = Some b ∧ b ≤ o ∧
    ∀ x, b ≤ x ≤ o →
      ∃ m, m ∈ ss_received (sy_stream s) ∧ b_topic m = tp ∧ b_partition m = p ∧ b_offset m = x ∧
           (from_borrowed m, ResOk) ∈ we_log (sy_env s).
Proof.
  intros Hb Hr0 Hr Hoff Hin. pose proof (runtime_system_init _ _ _ _ _ _ _ _ _ Hb Hr0) as Hi.
  destruct (system_run_inv _ _ _ _ _ _ _ Hi Hr) as [I _].
  pose proof (λ m r, logged_received _ _ _ _ _ _ _ _ _ _ _ m r Hb Hr0 Hr) as Hgot.
  destruct (sv_calls _ _ _ I tp p o Hin) as (l1 & l2 & t & El & Ht & Hc).
  destruct (log_cursor_covers _ _ _ tp p o (in_tracker _ _ Hi) Ht) as (b & B1 & B2 & B3); [|done|].
  { apply Forall_forall. intros [m r] Hm. destruct (Hgot m r) as (b & -> & Hrec).
    { rewrite El. apply elem_of_app. by left. }
    by apply (proj1 (Forall_forall (λ b, 0 ≤ b_offset b < 2 ^ 63) (ss_received (sy_stream s)))). }
  exists b. split_and!; [|done|].
  - rewrite El, fmap_app. unfold events_of in *. rewrite omap_app. by apply first_ack_app.
  - intros x Hx. destruct (B3 x Hx) as (m & Hm & E1 & E2 & E3).
    assert ((m, ResOk) ∈ we_log (sy_env s)) as Hm' by (rewrite El; apply elem_of_app; by left).
    destruct (Hgot _ _ Hm') as (m' & -> & Hrec). by exists m'.
Qed.

End runtime.

(** ** Witnesses *)

Abbreviation demo_message o :=
  {| b_topic := "a"; b_partition := 0; b_offset := o; b_key := None; b_payload := None;
     b_timestamp := TsNotAvailable; b_headers := None |}.

Abbreviation demo_recv o := (SyLoop (LvRecv (RecvOk (demo_message o)))).
Abbreviation demo_arrive o := [demo_recv o; SyLoop LvSend; SyDispatch good_client].
Abbreviation demo_single st := (SyWorker 0 (WeSingle st)).
Abbreviation demo_batch_step st := (SyWorker 0 (WeBatch st)).

(** Offset 5 is handled, 6 fails and waits for its retry, 7 is in the queue, 8
    in the channel and 9 in hand. *)
Definition demo_single_events : list system_event :=
  demo_arrive 5 ++ demo_arrive 6 ++
  [demo_single (StepPoll true); demo_single (StepProcess (demo_turn PyReturned));
   demo_single (StepPoll true); demo_single (StepProcess (demo_turn timeout_error))] ++
  demo_arrive 7 ++ [demo_recv 8; SyLoop LvSend; demo_recv 9].

Abbreviation demo_take := [demo_batch_step (StepBranch 0 BrMessage)].
Abbreviation demo_act := (demo_batch_step (StepAct 0 (λ _, {| py_outcome := PyReturned; py_duration := 1 |}) (λ _, f64_half))).

(** A batch of two: 5 and 6 are handled and committed, 7 is in the buffer. *)
Definition demo_batch_events : list system_event :=
  demo_arrive 5 ++ demo_arrive 6 ++ demo_arrive 7 ++
  demo_take ++ [demo_act; demo_act; demo_act] ++ demo_take ++ [demo_act; demo_act; demo_act] ++
  [SyCommit (λ _, true) false 1] ++ demo_take ++ [demo_act; demo_act; demo_act].

Definition demo_single_calls : list py_call := [CallAddHandler "a" None None None None None None].
Definition demo_batch_calls : list py_call :=
  [CallAddHandler "a" (Some "batch_sync") (Some 2) None None None None].

Abbreviation demo_start rt :=
  (runtime_system (KafkaError := string) (Source := string) good_client 0 rt).

Abbreviation demo_runtime_run evs rt s0 :=
  (runtime_run (KafkaError := string) (Source := string) (λ _, "now") (HOs := hash_order_canonical string)
     (HOk := hash_order_canonical TopicPartitionKey) (HOz := hash_order_canonical Z) rt evs s0).

(** What is seen of the runtime and of its first worker at the end. *)
Definition demo_seen (rt : Runtime) (s : system string string) (t : worker_task) :=
  (worker_topics rt, task_stopped t, (offset <$> settled 0 t, offset <$> inside 0 t),
   (offset <$> in_channel (sy_stream s), b_offset <$> ss_received (sy_stream s)),
   cw_trace (sy_commit s)).

(** What [seen] shows of a built runtime, its start, its end and its first worker. *)
Definition demo_outcome {A : Type} (seen : Runtime → system string string → system string string → worker_task → A)
    (evs : list system_event) (b : outcome (result Runtime RuntimeError)) : option A :=
  match b with
  | Ret (Ok rt) =>
      match demo_start rt with
      | Ret s0 =>
          match demo_runtime_run evs rt s0 with
          | Ret s => match sy_workers s with t :: _ => Some (seen rt s0 s t) | [] => None end
          | Panic => None
          end
      | Panic => None
      end
  | _ => None
  end.

Lemma demo_outcome_inv {A : Type} (seen : Runtime → system string string → system string string → worker_task → A) evs b r :
  demo_outcome seen evs b = Some r →
  ∃ rt s0 (s : system string string) t, b = Ret (Ok rt) ∧ demo_start rt = Ret s0 ∧
    demo_runtime_run evs rt s0 = Ret s ∧ sy_workers s !! 0%nat = Some t ∧ seen rt s0 s t = r.
Proof.
  intros F. destruct b as [[rt|]|]; [|discriminate F|discriminate F].
  unfold demo_outcome in F. destruct (demo_start rt) as [s0|] eqn:E0; [|discriminate F].
  destruct (demo_runtime_run evs rt s0) as [s|] eqn:Er; [|discriminate F].
  destruct (sy_workers s) as [|t ts] eqn:Ew; [discriminate F|]. injection F as F.
  exists rt, s0, s, t. rewrite Ew.
  exact (conj eq_refl (conj E0 (conj Er (conj eq_refl F)))).
Qed.

Abbreviation demo_end := (demo_outcome (λ rt _ s t, demo_seen rt s t)).

Lemma demo_single_eq :
  demo_end demo_single_events (demo_build demo_single_calls) =
    Some (["a"], false, ([5], [6]), ([8], [5; 6; 7; 8; 9]), []).
Proof. vm_compute. reflexivity. Qed.

Lemma demo_batch_eq :
  demo_end demo_batch_events (demo_build demo_batch_calls) =
    Some (["a"], false, ([5; 6], [7]), ([], [5; 6; 7]), [RdStoreOffset "a" 0 6; RdCommitState Async]).
Proof. vm_compute. reflexivity. Qed.


Lemma committed_messages_were_received_witness :
  ∃ rt (s : system string string), demo_build demo_batch_calls = Ret (Ok rt) ∧
    RdStoreOffset "a" 0 6 ∈ cw_trace (sy_commit s) ∧
    ∃ b, b ≤ 6 ∧ ∀ x, b ≤ x ≤ 6 → ∃ m, m ∈ ss_received (sy_stream s) ∧
      b_offset m = x ∧ (from_borrowed m, ResOk) ∈ we_log (sy_env s).
Proof.
  destruct (demo_outcome_inv _ _ _ _ demo_batch_eq) as (rt & s0 & s & t & E & E0 & Er & Ew & Es).
  cbv beta in Es. unfold demo_seen in Es. injection Es as F1 F2 F3 F4 F5 F6 F7.
  assert (RdStoreOffset "a" 0 6 ∈ cw_trace (sy_commit s)) as Hin by (rewrite F7; left).
  destruct (committed_messages_were_received (HOs := hash_order_canonical string)
    (HOk := hash_order_canonical TopicPartitionKey) (HOz := hash_order_canonical Z) (λ _, "now") demo_kafka None
    (Some "8") demo_py_config demo_batch_calls rt good_client 0 s0 demo_batch_events s "a" 0 6
    E E0 Er) as (b & _ & Hb & H); [|exact Hin|].
  - apply Forall_forall. intros m Hm%(list_elem_of_fmap_2 b_offset). rewrite F6 in Hm.
    repeat (apply elem_of_cons in Hm as [->|Hm]; [lia|]). by apply not_elem_of_nil in Hm.
  - exists rt, s. split; [exact E|]. split; [exact Hin|]. exists b. split; [exact Hb|].
    intros x Hx. destruct (H x Hx) as (m & H1 & _ & _ & H2 & H3). exists m. exact (conj H1 (conj H2 H3)).
Defined.
