(* ===== verification/PipelineLetters.v ===== *)
(** * The running runtime: dead letters

    Where the letters of the dead-letter channel come from, and that a message a
    worker is done with was handled with success or has a letter, kept by every
    step of every task, the background task of the producer included. *)

From stdpp Require Import base gmap sets list strings pretty.
From S2P Require Import Prelude F64 Metrics FromStr Failure Message Shutdown Runner Dlq OffsetTracker OffsetProofs Retry Commit Queue Dispatcher Execution PoolState Worker Batch BatchSteps Letters FanOut Pool Context Config Builder Task Pipeline PipelineProofs PipelineRuntime.

(** The messages a worker is done with. *)
Definition done_by (t : worker_task) : list OwnedMessage :=
  match t with SingleTask w _ => wk_fanned w | BatchTask _ w _ => batched w end.

Lemma settled_done p t m : m ∈ settled p t → m ∈ done_by t.
Proof.
  destruct t as [w sl|h w todo]; cbn [settled done_by]; [by intros [_ ?]%list_elem_of_filter|].
  intros (b & Hb & Hm)%elem_of_batch_of. unfold batched. apply list_elem_of_join. exists b. split; [done|].
  apply list_elem_of_fmap. by exists (p, b).
Qed.

Section letters.
Context {KafkaError Source R : Type} `{DlqRouter R} (router : R) (to_rfc3339 : Z → string).
Context {HOs : HashOrder string} {HOk : HashOrder TopicPartitionKey} {HOz : HashOrder Z}.
Context (handlers : gmap string PythonHandler) (topics : list string).

Abbreviation env := (worker_env (T := OffsetTracker)).
Abbreviation sys := (system KafkaError Source).
Abbreviation dlq s := (we_dlq (sy_env s)).
Abbreviation log s := (we_log (sy_env s)).
Abbreviation step_letters := (letter_step router to_rfc3339).
Abbreviation has_letter := (letter_of router to_rfc3339).

(** ** The workers *)

Lemma single_act_letters i b st w sleeping (e : env) w' sl' e' :
  single_act router to_rfc3339 handlers i b st w sleeping e = Ret (w', sl', e') →
  step_letters (wk_fanned w) (wk_fanned w') e e'.
Proof.
  destruct st as [take|t|]; cbn [single_act].
  - destruct (worker_poll i b take w e) as [w1 e1] eqn:E. intros [= <- <- <-]. unfold worker_poll in E.
    repeat case_match; simplify_eq/=; by apply letter_step_quiet.
  - destruct sleeping; [intros [= <- <- <-]; by apply letter_step_quiet|]. unfold worker_process.
    destruct (wk_stopped w); [intros [= <- <- <-]; by apply letter_step_quiet|].
    destruct (wk_state w) as [|msg]; [intros [= <- <- <-]; by apply letter_step_quiet|].
    destruct (process_message _ _ _ _ _ _ _ _) as [[w1 e1]|] eqn:E; [|done]. cbn [obind fst snd]. intros [= <- <- <-].
    by eapply process_message_letters.
  - destruct sleeping; [|intros [= <- <- <-]; by apply letter_step_quiet].
    destruct (worker_wake i b w e) as [w1 e1] eqn:E. intros [= <- <- <-]. unfold worker_wake in E.
    destruct b; simplify_eq/=; by apply letter_step_quiet.
Qed.

Lemma batch_task_act_letters tp b closed st h w todo rx w' todo' rx' :
  task_inv (BatchTask h w todo) → bw_stopped w = false → Forall (λ m, topic m = tp) (bw_received w) →
  batch_task_act router to_rfc3339 b closed st h w todo rx = Ret (w', todo', rx') →
  step_letters (batched w) (batched w') (bw_env w) (bw_env w').
Proof.
  intros I Hs Htp. specialize (I Hs). destruct st as [now br|now cb jitter]; cbn [batch_task_act].
  - destruct todo as [|a todo]; [|intros [= <- <- <-]; by apply letter_step_quiet].
    destruct (branch_event b closed now br rx) as [[ev rest]|]; [|intros [= <- <- <-]; by apply letter_step_quiet].
    destruct (batch_begin ev w) as [w1 acts] eqn:E. intros [= <- <- <-].
    destruct (batch_begin_inv _ _ _ _ I E) as (_ & _ & E2 & _ & E4 & _).
    assert (batched w1 = batched w) as -> by (unfold batched; by rewrite E4).
    apply letter_step_quiet; by rewrite E2.
  - destruct todo as [|a todo]; [intros [= <- <- <-]; by apply letter_step_quiet|].
    destruct (batch_act _ _ _ _ _ _ _ _) as [w1|] eqn:E; [|done]. cbn [obind]. intros [= <- <- <-].
    by apply (batch_act_letters _ _ _ _ _ tp _ _ _ _ _ I Htp E).
Qed.

(** ** The system *)

(** What a step of the system logs and offers, like [letter_step]; the flush at
    the end offers letters of earlier failures. *)
Definition sys_letters (s s' : sys) : Prop :=
  ∃ new xs, log s' = log s ++ new ∧ extends xs (dlq s) (dlq s') ∧
    (∀ x, x ∈ xs → (∃ m r, (m, r) ∈ new ∧ r ≠ ResOk ∧ has_letter m r x) ∨
                   (∃ m r, (m, r) ∈ log s ∧ r ≠ ResOk ∧ flush_letter_of router to_rfc3339 m x)) ∧
    (∀ i t', sy_workers s' !! i = Some t' → ∃ t, sy_workers s !! i = Some t ∧
       ∀ m, m ∈ done_by t' → m ∈ done_by t ∨ accounted router to_rfc3339 new xs m) ∧
    (∀ m r, (m, r) ∈ new → r ≠ ResOk → category (result_reason r) ≠ Retryable →
       ∃ x, x ∈ xs ∧ has_letter m r x).

(** A step that handles nothing. *)
Lemma sys_letters_frame xs (s s' : sys) :
  log s' = log s → extends xs (dlq s) (dlq s') →
  (∀ x, x ∈ xs → ∃ m r, (m, r) ∈ log s ∧ r ≠ ResOk ∧ flush_letter_of router to_rfc3339 m x) →
  sy_workers s' = sy_workers s → sys_letters s s'.
Proof.
  intros El Ed Hx Ew. exists [], xs. rewrite app_nil_r, Ew. split_and!; [done|done|by right; apply Hx| |].
  - intros i t Ht. exists t. by split; [|left].
  - by intros m r []%not_elem_of_nil.
Qed.

Lemma sys_letters_quiet (s s' : sys) :
  sy_env s' = sy_env s → sy_workers s' = sy_workers s → sys_letters s s'.
Proof.
  intros E Ew. apply (sys_letters_frame []); rewrite ?E; [done|apply posts_extends, posts_nil| |done].
  by intros x []%not_elem_of_nil.
Qed.

Lemma worker_letters t0 i ev (s s' : sys) :
  system_inv topics t0 s → sys_worker router to_rfc3339 handlers topics i ev s = Ret s' → sys_letters s s'.
Proof.
  intros I Hr. unfold sys_worker in Hr.
  destruct (topics !! i) as [tp|] eqn:Hi; [|injection Hr as <-; by apply sys_letters_quiet].
  destruct (sy_workers s !! i) as [t|] eqn:Hw; [|injection Hr as <-; by apply sys_letters_quiet].
  destruct (task_stopped t) eqn:Hs; [injection Hr as <-; by apply sys_letters_quiet|].
  destruct (sv_topic _ _ _ I i tp t Hi Hw) as [[T1 _] Hinv].
  assert (Hgen : ∀ rx t' e e', we_log e = log s → we_dlq e = dlq s →
    step_letters (done_by t) (done_by t') e e' → sys_letters s (worker_step i tp rx t' e' s)).
  { intros rx t' e e' El Ed (new & xs & S1 & S2 & S3 & S4 & S5). exists new, xs.
    cbn [worker_step sy_env sy_workers]. rewrite S1, <- El, <- Ed.
    split_and!; [done|by apply posts_extends|by left; apply S3| |done].
    intros j t1 Hj. destruct (decide (i = j)) as [<-|Hij].
    - rewrite list_lookup_insert_eq in Hj by (by eapply lookup_lt_Some). injection Hj as <-. by exists t.
    - rewrite list_lookup_insert_ne in Hj by done. exists t1. split; [done|]. by left. }
  destruct t as [w sl|h w todo], ev as [st|st]; try (injection Hr as <-; by apply sys_letters_quiet).
  - destruct (single_act _ _ _ _ _ _ _ _ _) as [[[w' sl'] e']|] eqn:E; [|done].
    cbn [obind fst snd] in Hr. injection Hr as <-. apply single_act_letters in E.
    by eapply Hgen; [..|exact E].
  - destruct (batch_task_act _ _ _ _ _ _ _ _ _) as [[[w' todo'] rx']|] eqn:E; [|done].
    cbn [obind fst snd] in Hr. injection Hr as <-.
    apply (batch_task_act_letters tp) in E; [by eapply Hgen; [..|exact E]| |done|].
    + intros _. apply steps_inv_env. by apply Hinv.
    + apply Forall_forall. intros m Hm. cbn [taken_by] in T1.
      assert (m ∈ on_topic tp (ss_handled (sy_stream s))) as [? _]%list_elem_of_filter; [|done].
      eapply elem_of_submseteq; [|apply sublist_submseteq, T1]. apply elem_of_app. by left.
Qed.

(** ** The flush at the end *)

(** A failed offset of the tracker is the one of a failure that was handled. *)
Lemma failed_in_log t0 l : ∀ t k ps o, partitions t0 = ∅ → tracker_run (log_op <$> l) t0 = Ret t →
  partitions t !! k = Some ps → o ∈ failed_offsets ps →
  ∃ m r, (m, r) ∈ l ∧ r ≠ ResOk ∧ (topic m, partition m) = k ∧ offset m = o.
Proof.
  induction l as [|[m r] l IH] using rev_ind; intros t k ps o Ht0 Hr Hk Ho.
  { injection Hr as <-. by rewrite Ht0, lookup_empty in Hk. }
  rewrite fmap_app in Hr. cbn [fmap list_fmap] in Hr. rewrite tracker_run_snoc in Hr.
  destruct (tracker_run _ t0) as [t1|]; [|done]. cbn [obind] in Hr.
  assert (Hold : ∀ ps1, partitions t1 !! k = Some ps1 → o ∈ failed_offsets ps1 →
    ∃ m' r', (m', r') ∈ l ++ [(m, r)] ∧ r' ≠ ResOk ∧ (topic m', partition m') = k ∧ offset m' = o).
  { intros ps1 H1 H2. destruct (IH t1 k ps1 o Ht0 eq_refl H1 H2) as (m' & r' & Hin & Hrest).
    exists m', r'. split; [|done]. apply elem_of_app. by left. }
  rewrite (tracker_step_lookup _ _ _ k Hr) in Hk. unfold log_op in Hk. destruct (is_ok (m, r).2) eqn:Eok; cbn [fst snd] in *.
  - cbn [op_event] in Hk. case_decide as E; [|by eapply Hold]. injection Hk as <-.
    cbn [ps_ack failed_offsets] in Ho. apply elem_of_difference in Ho as [Ho _]. unfold entry_or_default in Ho.
    destruct (partitions t1 !! k) as [ps1|] eqn:E1; [by eapply Hold|]. cbn in Ho. set_solver.
  - cbn [op_event] in Hk. case_decide as E; [|by eapply Hold].
    destruct (partitions t1 !! k) as [ps1|] eqn:E1; [|done]. injection Hk as <-.
    cbn [ps_step flip ps_mark_failed_reason ps_mark_failed failed_offsets] in Ho.
    apply elem_of_union in Ho as [->%elem_of_singleton|Ho]; [|by eapply Hold].
    exists m, r. split_and!; [apply elem_of_app; right; by apply list_elem_of_singleton|by intros ->|done|done].
Qed.

Lemma posts_foldl {A : Type} (g : A → DlqRecord) (f : SharedDlqProducer → A → SharedDlqProducer) l :
  (∀ a p, posts [g a] p (f p a)) → ∀ p, posts (g <$> l) p (foldl f p l).
Proof.
  intros Hf. induction l as [|a l IH]; intros p; cbn [fmap list_fmap foldl]; [apply posts_nil|].
  by apply (posts_app [g a] (g <$> l) _ (f p a)).
Qed.

Lemma flush_posts now t p :
  ∃ xs, posts xs p (tracker_flush_failed_to_dlq to_rfc3339 router now t p) ∧
    ∀ x, x ∈ xs → ∃ k o ps, partitions t !! k = Some ps ∧ o ∈ failed_offsets ps ∧
      ∃ md, original md = {| om_topic := k.1; om_partition := k.2; om_offset := o |} ∧
            x = letter_record router to_rfc3339 md [] None.
Proof.
  rewrite flush_as_requests.
  set (md := λ q : TopicPartitionKey * Z,
    flush_metadata q.1 (match partitions t !! q.1 with Some s => flush_reason s | None => "unknown" end) now q.2).
  exists ((λ q, letter_record router to_rfc3339 (md q) [] None) <$> flush_requests t). split.
  - apply posts_foldl. intros q p1. apply produce_async_posts.
  - intros x ([k o] & -> & Hq)%list_elem_of_fmap. apply elem_of_flush_requests in Hq as (ps & Hk & Ho).
    exists k, o, ps. split_and!; [done|done|]. by exists (md (k, o)).
Qed.

Lemma finish_letters t0 rd now (s s' : sys) :
  partitions t0 = ∅ → system_inv topics t0 s →
  sys_finish router to_rfc3339 rd now s = Ret s' → sys_letters s s'.
Proof.
  intros Ht0 I. unfold sys_finish. destruct (if decide _ then _ else _) as [c|]; [|done]. cbn [obind].
  unfold sys_stop. destruct (task_stop _) as [st|]; [|done]. cbn [obind]. intros [= <-].
  destruct (flush_posts now (we_offsets (sy_env s)) (dlq s)) as (xs & Hp & Hx).
  apply (sys_letters_frame xs); [done|by apply posts_extends| |done].
  intros x ([tp p] & o & ps & Hk & Ho & md & Emd & ->)%Hx.
  destruct (failed_in_log _ _ _ _ _ _ Ht0 (sv_tracker _ _ _ I) Hk Ho) as (m & r & Hin & Hr & Ek & Eo).
  exists m, r. split_and!; [done|done|]. exists md. split; [|done]. rewrite Emd. unfold origin. by simplify_eq/=.
Qed.

(** ** Every step *)

Abbreviation step := (system_step router to_rfc3339 handlers topics).
Abbreviation runs := (system_run router to_rfc3339 handlers topics).

Lemma abort_done t : done_by (abort_worker t) = done_by t.
Proof. by destruct t. Qed.

Lemma main_letters t0 rd now (s s' : sys) :
  partitions t0 = ∅ → system_inv topics t0 s →
  sys_main router to_rfc3339 topics rd now s = Ret s' → sys_letters s s'.
Proof.
  intros Ht0 I. unfold sys_main. destruct (lf_main (sy_life s)).
  3: { intros [= <-]. exists [], []. rewrite app_nil_r.
       split_and!; [done|apply posts_extends, posts_nil|by intros x []%not_elem_of_nil| |by intros m r []%not_elem_of_nil].
       intros i t' Ht'. cbn [sys_abort sy_workers] in Ht'. rewrite list_lookup_fmap in Ht'.
       destruct (sy_workers s !! i) as [t|]; [|done]. injection Ht' as <-. exists t. split; [done|].
       rewrite abort_done. by left. }
  3: by eapply finish_letters.
  all: intros Hr; repeat case_match; simplify_eq; by apply sys_letters_quiet.
Qed.

Lemma system_step_letters t0 ev (s s' : sys) :
  partitions t0 = ∅ → system_inv topics t0 s → step s ev = Ret s' → sys_letters s s'.
Proof.
  intros Ht0 I Hs. destruct ev as [e|c|i ev|rd tick d|d|rd r|r|dl| | |rd now]; cbn [system_step] in Hs.
  - injection Hs as <-. destruct (loop_step _ _ _); by apply sys_letters_quiet.
  - injection Hs as <-. unfold sys_dispatch. repeat case_match; by apply sys_letters_quiet.
  - by eapply worker_letters.
  - injection Hs as <-. by apply sys_letters_quiet.
  - injection Hs as <-. by apply sys_letters_quiet.
  - injection Hs as <-. unfold sys_pre_rebalance. destruct (pre_rebalance _ _ _ _ _). by apply sys_letters_quiet.
  - injection Hs as <-. by apply sys_letters_quiet.
  - injection Hs as <-. apply (sys_letters_frame []); [done|apply do_produce_extends|by intros x []%not_elem_of_nil|done].
  - unfold sys_signal, sys_stop in Hs. destruct (lf_signal _); try (injection Hs as <-; by apply sys_letters_quiet).
    + destruct (begin_draining _); [|done]. injection Hs as <-. by apply sys_letters_quiet.
    + destruct (task_stop _); [|done]. injection Hs as <-. by apply sys_letters_quiet.
  - injection Hs as <-. by apply sys_letters_quiet.
  - by eapply main_letters.
Qed.

(** ** The invariants *)

(** Every letter accepted is that of a failure that was handled. *)
Record letters_inv (s : sys) : Prop := {
  li_chan : chan_ok (dlq s);
  li_origin : ∀ x, x ∈ letters (dlq s) → ∃ m r, (m, r) ∈ log s ∧ r ≠ ResOk ∧
    (has_letter m r x ∨ flush_letter_of router to_rfc3339 m x)
}.

(** What a worker is done with, and every failure that is not retryable, is
    accounted for. *)
Record fates_inv (s : sys) : Prop := {
  fi_done : ∀ i t m, sy_workers s !! i = Some t → m ∈ done_by t →
    accounted router to_rfc3339 (log s) (letters (dlq s)) m;
  fi_failed : ∀ m r, (m, r) ∈ log s → r ≠ ResOk → category (result_reason r) ≠ Retryable →
    ∃ x, x ∈ letters (dlq s) ∧ has_letter m r x
}.

Lemma accounted_mono new1 new2 xs1 xs2 m :
  new1 ⊆ new2 → xs1 ⊆ xs2 → accounted router to_rfc3339 new1 xs1 m → accounted router to_rfc3339 new2 xs2 m.
Proof. intros Hn Hx [Hm|(r & x & Hm & Hr & Hin & Hl)]; [left; auto|right; exists r, x; auto]. Qed.

Lemma letters_step_inv (s s' : sys) : sys_letters s s' → letters_inv s → letters_inv s'.
Proof.
  intros (new & xs & El & Ed & Hx & _) [C O]. destruct (Ed C) as (C' & ys & Hl & Hs & _). split; [done|].
  intros x. rewrite Hl, El. intros [Hin|Hin]%elem_of_app.
  - destruct (O x Hin) as (m & r & Hm & Hrest). exists m, r. split; [|done]. apply elem_of_app. by left.
  - assert (x ∈ xs) as Hin' by (by eapply elem_of_submseteq; [|apply sublist_submseteq, Hs]).
    destruct (Hx x Hin') as [(m & r & Hm & Hr & Hlx)|(m & r & Hm & Hr & Hlx)]; exists m, r;
      (split; [apply elem_of_app; auto|auto]).
Qed.

Lemma fates_step_inv (s s' : sys) :
  sys_letters s s' → chan_ok (dlq s) → has_room (dlq s') = true → fates_inv s → fates_inv s'.
Proof.
  intros (new & xs & El & Ed & Hx & Hw & Hf) C Hroom [D F].
  destruct (Ed C) as (_ & ys & Hl & _ & Hys). rewrite (Hys Hroom) in Hl. split.
  - intros i t' m Ht' Hm. destruct (Hw i t' Ht') as (t & Ht & Hd). rewrite Hl, El.
    destruct (Hd m Hm) as [Hold|Hnew]; [apply (D i t m Ht) in Hold; revert Hold|revert Hnew];
      apply accounted_mono; intros y Hy; apply elem_of_app; auto.
  - rewrite El, Hl. intros m r [Hin|Hin]%elem_of_app Hr Hc.
    + destruct (F m r Hin Hr Hc) as (x & Hin' & Hlx). exists x. split; [|done]. apply elem_of_app. by left.
    + destruct (Hf m r Hin Hr Hc) as (x & Hin' & Hlx). exists x. split; [|done]. apply elem_of_app. by right.
Qed.

(** The channel has room after every step of a run. *)
Fixpoint uncongested (evs : list system_event) (s : sys) : bool :=
  match evs with
  | [] => true
  | ev :: evs =>
      match step s ev with
      | Ret s' => has_room (dlq s') && uncongested evs s'
      | Panic => true
      end
  end.

Lemma init_letters s : system_init topics s → dlq s = dlq_producer_new → letters_inv s ∧ fates_inv s.
Proof.
  intros Hi Hd. pose proof (in_log _ _ Hi) as Hl. split; split; rewrite ?Hd, ?Hl.
  - split; [done|]. simpl. lia.
  - by intros x []%not_elem_of_nil.
  - intros i t m Ht Hm. exfalso. pose proof (Forall_lookup_1 _ _ _ _ (in_workers _ _ Hi) Ht) as Hw. cbn beta in Hw.
    destruct t as [w sl|h w todo]; [destruct Hw as [-> _]|destruct Hw as (_ & _ & Hb & _)].
    + by apply not_elem_of_nil in Hm.
    + cbn [done_by] in Hm. unfold batched in Hm. rewrite Hb in Hm. by apply not_elem_of_nil in Hm.
  - by intros m r []%not_elem_of_nil.
Qed.

Lemma system_run_letters evs t0 : ∀ s s' : sys,
  NoDup topics → partitions t0 = ∅ → runs evs s = Ret s' →
  length (sy_workers s) = length topics → system_inv topics t0 s → letters_inv s →
  letters_inv s' ∧ (uncongested evs s = true → fates_inv s → fates_inv s').
Proof.
  induction evs as [|ev evs IH]; intros s s' Hnd Ht0 Hr Hlen I L; cbn [uncongested].
  { injection Hr as <-. by split. }
  unfold system_run in Hr. cbn [ofold] in Hr. destruct (step s ev) as [s1|] eqn:E; [|done]. cbn [obind] in Hr.
  pose proof (system_step_letters _ _ _ _ Ht0 I E) as Hs.
  destruct (IH s1 s') as [L' F'].
  - done.
  - done.
  - exact Hr.
  - by rewrite (system_step_workers _ _ _ _ _ _ _ E).
  - by eapply system_step_inv.
  - by eapply letters_step_inv.
  - split; [done|]. intros [Hroom Hun]%andb_true_iff F. apply F'; [done|].
    eapply fates_step_inv; [exact Hs|apply L|done|done].
Qed.

End letters.

(** ** The runtime *)

Section runtime.
Context {KafkaError Source : Type} (to_rfc3339 : Z → string).
Context {HOs : HashOrder string} {HOk : HashOrder TopicPartitionKey} {HOz : HashOrder Z}.

(** The record names the message: the topic and the partition it is sent to, and
    the first three headers. *)
Definition names_message (router : DefaultDlqRouter) (m : OwnedMessage) (x : DlqRecord) : Prop :=
  dr_topic x = Dlq.dlq_topic_prefix router +:+ topic m ∧ dr_partition x = partition m ∧
  take 3 (dr_headers x) =
    [("dlq.original_topic", bytes_of_string (topic m));
     ("dlq.partition", bytes_of_string (pretty (partition m)));
     ("dlq.offset", bytes_of_string (pretty (offset m)))].

(** It carries the message and the reason of the failure. *)
Definition carries_message (m : OwnedMessage) (r : ExecutionResult) (x : DlqRecord) : Prop :=
  dr_payload x = default [] (payload m) ∧ dr_key x = key m ∧
  dr_headers x !! 3%nat = Some ("dlq.reason", bytes_of_string (reason_to_string (result_reason r))).

(** It carries neither. *)
Definition empty_letter (x : DlqRecord) : Prop := dr_payload x = [] ∧ dr_key x = None.

Lemma letter_of_content (router : DefaultDlqRouter) m r x :
  letter_of router to_rfc3339 m r x → names_message router m x ∧ carries_message m r x.
Proof.
  intros (md & Eo & Er & ->). unfold names_message, carries_message. cbn. rewrite Eo, Er. done.
Qed.

Lemma flush_letter_of_content (router : DefaultDlqRouter) m x :
  flush_letter_of router to_rfc3339 m x → names_message router m x ∧ empty_letter x.
Proof. intros (md & Eo & ->). unfold names_message, empty_letter. cbn. rewrite Eo. done. Qed.

Abbreviation dlq s := (we_dlq (sy_env s)).
Abbreviation log s := (we_log (sy_env s)).

(** Neither is in a built runtime before its first step. *)
Lemma runtime_letters kafka env_mode env cfg calls rt c clock (s0 : system KafkaError Source) evs s :
  build kafka env (py_run env_mode cfg calls) = Ret (Ok rt) →
  runtime_system c clock rt = Ret s0 →
  runtime_run to_rfc3339 rt evs s0 = Ret s →
  letters_inv (rn_router rt) to_rfc3339 s ∧
  (uncongested (rn_router rt) to_rfc3339 (runtime_handlers rt) (worker_topics rt) evs s0 = true →
   fates_inv (rn_router rt) to_rfc3339 s).
Proof.
  intros Hb Hr0 Hr. pose proof (runtime_system_init _ _ _ _ _ _ _ _ _ Hb Hr0) as Hi.
  assert (dlq s0 = dlq_producer_new) as Hd.
  { unfold runtime_system in Hr0. destruct (start_workers _ _); [|done]. by injection Hr0 as <-. }
  destruct (init_letters (rn_router rt) to_rfc3339 _ s0 Hi Hd) as [L F].
  destruct (system_run_letters (rn_router rt) to_rfc3339 (runtime_handlers rt) (worker_topics rt) evs
    (we_offsets (sy_env s0)) s0 s) as [L' F']; [apply Hi|apply Hi|exact Hr|apply Hi|by apply init_system_inv|done|].
  split; [done|]. intros Hu. by apply F'.
Qed.

(** ** The properties *)

(** C7: A dead letter is always that of a failure.  In every run of a built
    runtime, with the background task of the producer among its tasks, every
    record given to the broker and every letter in the channel names the topic,
    the partition and the offset of a message that was received and for which a
    call failed; it goes to the topic of that name behind the prefix and to the
    same partition; and it carries the payload, the key and the reason, or, when
    it was written by the flush at the end, an empty payload and no key. *)
Theorem dead_letters_are_failures kafka env_mode env cfg calls rt c clock s0 evs s x :
  build kafka env (py_run env_mode cfg calls) = Ret (Ok rt) →
  runtime_system (KafkaError := KafkaError) (Source := Source) c clock rt = Ret s0 →
  runtime_run to_rfc3339 rt evs s0 = Ret s →
  x ∈ broker_records (dlq s) ++ (build_record <$> send_chan (dlq s)) →
  ∃ b r, b ∈ ss_received (sy_stream s) ∧ (from_borrowed b, r) ∈ log s ∧ r ≠ ResOk ∧
    names_message (rn_router rt) (from_borrowed b) x ∧
    (carries_message (from_borrowed b) r x ∨ empty_letter x).
Proof.
  intros Hb Hr0 Hr Hx. destruct (runtime_letters _ _ _ _ _ _ _ _ _ _ _ Hb Hr0 Hr) as [L _].
  destruct (li_origin _ _ _ L x Hx) as (m & r & Hm & Hf & Hc).
  destruct (logged_received _ _ _ _ _ _ _ _ _ _ _ _ _ _ Hb Hr0 Hr Hm) as (b & -> & Hrec).
  exists b, r. destruct Hc as [Hc|Hc]; [apply letter_of_content in Hc|apply flush_letter_of_content in Hc];
    destruct Hc; auto 10.
Qed.


End runtime.

(** ** Witnesses *)

(** Offset 5 is handled; 6 and 7 fail for good, the letter of 6 is delivered and
    that of 7 is in the channel; 8 is in the queue. *)
Definition demo_letter_events : list system_event :=
  demo_arrive 5 ++ demo_arrive 6 ++ demo_arrive 7 ++ demo_arrive 8 ++
  [demo_single (StepPoll true); demo_single (StepProcess (demo_turn PyReturned));
   demo_single (StepPoll true); demo_single (StepProcess (demo_turn value_error)); SyDlq true;
   demo_single (StepPoll true); demo_single (StepProcess (demo_turn value_error))].

Abbreviation demo_fail_act :=
  (demo_batch_step (StepAct 0 (λ _, {| py_outcome := timeout_error; py_duration := 1 |}) (λ _, f64_half))).

(** A batch of two fails; 7 is in the buffer. *)
Definition demo_failed_batch_events : list system_event :=
  demo_arrive 5 ++ demo_arrive 6 ++ demo_arrive 7 ++
  demo_take ++ [demo_fail_act; demo_fail_act; demo_fail_act] ++
  demo_take ++ [demo_fail_act; demo_fail_act; demo_fail_act] ++
  [SyDlq true] ++ demo_take ++ [demo_fail_act; demo_fail_act; demo_fail_act].

Abbreviation demo_uncongested evs rt s0 :=
  (uncongested (KafkaError := string) (Source := string) (rn_router rt) (λ _, "now")
     (HOs := hash_order_canonical string) (HOk := hash_order_canonical TopicPartitionKey)
     (HOz := hash_order_canonical Z) (runtime_handlers rt) (worker_topics rt) evs s0).

Definition demo_letters_seen (rt : Runtime) (s0 s : system string string) (evs : list system_event) (t : worker_task) :=
  (worker_topics rt, task_stopped t, (offset <$> settled 0 t, offset <$> inside 0 t), demo_uncongested evs rt s0,
   (dr_topic <$> broker_records (we_dlq (sy_env s)), length (send_chan (we_dlq (sy_env s)))),
   b_offset <$> ss_received (sy_stream s)).

Abbreviation demo_letters_end evs := (demo_outcome (λ rt s0 s t, demo_letters_seen rt s0 s evs t) evs).

Lemma demo_letter_eq :
  demo_letters_end demo_letter_events (demo_build demo_single_calls) =
    Some (["a"], false, ([5; 6; 7], []), true, (["dlq.a"], 1%nat), [5; 6; 7; 8]).
Proof. vm_compute. reflexivity. Qed.

Lemma demo_failed_batch_eq :
  demo_letters_end demo_failed_batch_events (demo_build demo_batch_calls) =
    Some (["a"], false, ([5; 6], [7]), true, (["dlq.a"], 1%nat), [5; 6; 7]).
Proof. vm_compute. reflexivity. Qed.

Lemma demo_letters_inv evs b tps st se ins u tops n offs :
  demo_letters_end evs b = Some (tps, st, (se, ins), u, (tops, n), offs) →
  ∃ rt s0 (s : system string string) t, b = Ret (Ok rt) ∧ demo_start rt = Ret s0 ∧
    demo_runtime_run evs rt s0 = Ret s ∧ sy_workers s !! 0%nat = Some t ∧
    worker_topics rt = tps ∧ offset <$> settled 0 t = se ∧ offset <$> inside 0 t = ins ∧
    demo_uncongested evs rt s0 = u ∧ dr_topic <$> broker_records (we_dlq (sy_env s)) = tops.
Proof.
  intros (rt & s0 & s & t & E & E0 & Er & Ew & Es)%demo_outcome_inv. unfold demo_letters_seen in Es.
  injection Es as F1 _ F2 F3 F4 F5 _ _. exists rt, s0, s, t. done.
Qed.

Lemma dead_letters_are_failures_witness :
  ∃ rt (s : system string string) x, demo_build demo_single_calls = Ret (Ok rt) ∧
    broker_records (we_dlq (sy_env s)) = [x] ∧ dr_topic x = "dlq.a" ∧
    ∃ b r, b ∈ ss_received (sy_stream s) ∧ (from_borrowed b, r) ∈ we_log (sy_env s) ∧ r ≠ ResOk ∧
      dr_partition x = b_partition b.
Proof.
  destruct (demo_letters_inv _ _ _ _ _ _ _ _ _ _ demo_letter_eq) as
    (rt & s0 & s & t & E & E0 & Er & Ew & F1 & F3 & F4 & F5 & F6).
  destruct (broker_records (we_dlq (sy_env s))) as [|x [|]] eqn:Ex; [discriminate F6| |discriminate F6].
  injection F6 as F6.
  destruct (dead_letters_are_failures (HOs := hash_order_canonical string)
    (HOk := hash_order_canonical TopicPartitionKey) (HOz := hash_order_canonical Z) (λ _, "now") demo_kafka None
    (Some "8") demo_py_config demo_single_calls rt good_client 0 s0 demo_letter_events s x E E0 Er)
    as (b & r & H1 & H2 & H3 & (_ & H4 & _) & _).
  { rewrite Ex. left. }
  exists rt, s, x. split; [exact E|]. split; [exact Ex|]. split; [exact F6|]. exists b, r.
  exact (conj H1 (conj H2 (conj H3 H4))).
Defined.


(** The message 6 has its letter when the shutdown begins, and gets an empty one. *)
Definition demo_repeated_events : list system_event :=
  demo_arrive 5 ++ demo_arrive 6 ++
  [demo_single (StepPoll true); demo_single (StepProcess (demo_turn PyReturned));
   demo_single (StepPoll true); demo_single (StepProcess (demo_turn value_error)); SyDlq true;
   SySignal; SySignal; SySignal; SyMain (λ _, true) 0; SyMain (λ _, true) 0; SyMain (λ _, true) 0].

(** A letter stays a failure to the tracker, so the shutdown sends one more. *)
Lemma shutdown_repeats_dead_letters :
  demo_outcome (λ _ _ s _, ((λ x, list_to_map (M := gmap string _) (dr_headers x) !! "dlq.offset") <$> letters (we_dlq (sy_env s)),
                            (λ x, offset x.1) <$> we_log (sy_env s)))
    demo_repeated_events (demo_build demo_single_calls) =
  Some ([Some (bytes_of_string "6"); Some (bytes_of_string "6")], [5; 6]).
Proof. vm_compute. reflexivity. Qed.
