(* ===== verification/PipelineOrder.v ===== *)
(** * The running runtime: the order of the calls

    The calls made for the messages of a partition are, in every run of the
    system, one message after the other in the order in which they were received,
    each once, and again only after a failure that is to be retried. *)

From stdpp Require Import base gmap sets list strings pretty.
From S2P Require Import Prelude F64 Metrics FromStr Failure Message Shutdown Runner Dlq OffsetTracker OffsetProofs Retry Commit Queue Dispatcher Execution PoolState Worker Batch BatchSteps Letters FanOut Pool Context Config Builder Task Pipeline PipelineProofs PipelineRuntime PipelineLetters.

(** ** Messages and the calls made for them *)

Definition retried (r : ExecutionResult) : Prop := r ≠ ResOk ∧ category (result_reason r) = Retryable.

(** The calls [l] were made for the messages [ms]: a call is for the next message,
    or for the last one again when its failure was retryable. *)
Inductive handles : list OwnedMessage → list (OwnedMessage * ExecutionResult) → Prop :=
| handles_none : handles [] []
| handles_next ms l m r : handles ms l → handles (ms ++ [m]) (l ++ [(m, r)])
| handles_again ms l m r r' :
    handles (ms ++ [m]) (l ++ [(m, r)]) → retried r →
    handles (ms ++ [m]) ((l ++ [(m, r)]) ++ [(m, r')]).

Lemma handles_batch (f : OwnedMessage → ExecutionResult) batch : ∀ ms l,
  handles ms l → handles (ms ++ batch) (l ++ ((λ m, (m, f m)) <$> batch)).
Proof.
  induction batch as [|m batch IH]; intros ms l Hl; cbn [fmap list_fmap]; [by rewrite !app_nil_r|].
  rewrite (cons_middle m), (cons_middle (m, f m)), !app_assoc. apply IH. by constructor.
Qed.

(** The calls of some of the messages, told by the message. *)
Lemma handles_filter (P : OwnedMessage → Prop) `{!∀ m, Decision (P m)} ms l :
  handles ms l → handles (filter P ms) (filter (λ x, P x.1) l).
Proof.
  induction 1 as [|ms l m r Hl IH|ms l m r r' Hl IH Hr]; [constructor|..];
    rewrite ?(filter_app _ _ [(m, _)]), ?(filter_app _ _ [m]), ?filter_cons, ?filter_nil in *; cbn [fst] in *;
    destruct (decide (P m)); rewrite ?app_nil_r in *; by try constructor.
Qed.

(** The messages of the calls that succeeded: each message has one at most. *)
Definition successes (l : list (OwnedMessage * ExecutionResult)) : list OwnedMessage :=
  fst <$> filter (λ x, is_ok x.2 = true) l.

Lemma successes_snoc l m r : successes (l ++ [(m, r)]) = successes l ++ (if is_ok r then [m] else []).
Proof. unfold successes. rewrite filter_app, fmap_app, filter_cons, filter_nil. cbn [snd]. by destruct (is_ok r). Qed.

Lemma is_ok_false r : r ≠ ResOk → is_ok r = false.
Proof. by destruct r. Qed.

Lemma handles_successes ms l :
  handles ms l → successes l `sublist_of` ms ∧
  (∀ l' m r, l = l' ++ [(m, r)] → r ≠ ResOk → ∃ ms', ms = ms' ++ [m] ∧ successes l `sublist_of` ms').
Proof.
  induction 1 as [|ms l m r Hl [IH _]|ms l m r r' Hl [_ IH] [Hr _]].
  - split; [done|]. by intros [|] ? ? ?.
  - rewrite successes_snoc. split; [apply sublist_app; [done|]; destruct (is_ok _); [done|apply sublist_nil_l]|].
    intros l' m' r' [_ [= <- <-]]%app_inj_tail Hr. exists ms. by rewrite is_ok_false, app_nil_r.
  - destruct (IH l m r eq_refl Hr) as (ms' & [E1 E2]%app_inj_tail & Hs). subst ms'. rewrite successes_snoc.
    split; [apply sublist_app; [done|]; destruct (is_ok _); [done|apply sublist_nil_l]|].
    intros l2 m2 r2 [_ [= <- <-]]%app_inj_tail Hr2. exists ms. by rewrite is_ok_false, app_nil_r.
Qed.

Lemma filter_every {A : Type} (P : A → Prop) `{!∀ x, Decision (P x)} l : Forall P l → filter P l = l.
Proof. induction 1 as [|x l Hx _ IH]; [done|]. by rewrite filter_cons, decide_True, IH. Qed.

Lemma filter_sublist_mono {A : Type} (P : A → Prop) `{!∀ x, Decision (P x)} l1 l2 :
  l1 `sublist_of` l2 → filter P l1 `sublist_of` filter P l2.
Proof.
  induction 1 as [|x l1 l2 _ IH|x l1 l2 _ IH]; [done|..]; rewrite ?filter_cons;
    case_decide; [by constructor|done|by constructor|done].
Qed.

Lemma batch_filter p (l : list (Z * list OwnedMessage)) :
  (∀ q, Forall (λ m, partition m = q) (batch_of q l)) →
  filter (λ m, partition m = p) (mjoin l.*2) = batch_of p l.
Proof.
  induction l as [|[q b] l IH]; intros Hl; [done|]. change (mjoin ((q, b) :: l).*2) with (b ++ mjoin l.*2).
  rewrite filter_app, batch_of_cons, IH.
  - f_equal. specialize (Hl q). rewrite batch_of_cons, decide_True in Hl by done. apply Forall_app in Hl as [Hb _].
    case_decide as E; [by apply filter_every; subst|].
    apply filter_none. eapply Forall_impl; [exact Hb|]. cbn. congruence.
  - intros r. specialize (Hl r). rewrite batch_of_cons in Hl. by apply Forall_app in Hl as [_ ?].
Qed.

Section order.
Context {KafkaError Source R : Type} `{DlqRouter R} (router : R) (to_rfc3339 : Z → string).
Context {HOs : HashOrder string} {HOk : HashOrder TopicPartitionKey} {HOz : HashOrder Z}.
Context (handlers : gmap string PythonHandler) (topics : list string).

Abbreviation env := (worker_env (T := OffsetTracker)).
Abbreviation sys := (system KafkaError Source).
Abbreviation log s := (we_log (sy_env s)).

(** ** What a worker knows of the calls of its topic *)

(** The calls [l] are those for the messages a worker is done with, and maybe for
    the one it holds: a worker that has not ended has called for that one in vain. *)
Definition single_order (w : worker) (l : list (OwnedMessage * ExecutionResult)) : Prop :=
  handles (wk_fanned w) l ∨
  ∃ m l' r, wk_state w = WProcessing m ∧ l = l' ++ [(m, r)] ∧ handles (wk_fanned w ++ [m]) l ∧
    (wk_stopped w = false → retried r).

Definition task_order (t : worker_task) (l : list (OwnedMessage * ExecutionResult)) : Prop :=
  match t with
  | SingleTask w _ => single_order w l
  | BatchTask _ w _ => handles (batched w) l ∧
      ∀ p, filter (λ m, partition m = p) (batched w) = batch_of p (bw_batches w).*1 ∧
           batch_of p (bw_batches w).*1 `prefix_of` filter (λ m, partition m = p) (bw_received w)
  end.

(** A step makes the calls [new]. *)
Definition order_step (t t' : worker_task) (e e' : env) : Prop :=
  ∃ new, we_log e' = we_log e ++ new ∧ ∀ l, task_order t l → task_order t' (l ++ new).

Lemma order_step_quiet t t' e e' :
  we_log e' = we_log e → (∀ l, task_order t l → task_order t' l) → order_step t t' e e'.
Proof. intros El Ho. exists []. rewrite app_nil_r. split; [done|]. intros l. rewrite app_nil_r. apply Ho. Qed.

(** One call, and what the worker does after it. *)
Lemma process_message_order i t msg w (e : env) w' e' :
  process_message router to_rfc3339 handlers i t msg w e = Ret (w', e') →
  ∃ r, we_log e' = we_log e ++ [(msg, r)] ∧
    ((wk_state w' = WIdle ∧ wk_fanned w' = wk_fanned w ++ [msg]) ∨
     (wk_state w' = WProcessing msg ∧ wk_fanned w' = wk_fanned w ∧ (wk_stopped w' = false → retried r))).
Proof.
  unfold process_message. destruct (handler_for_topic handlers (topic msg)) as [h|]; [|done]. cbn [obind].
  set (r := (invoke_mode_with_timeout h (message_context i msg) msg (tn_callback t)).1). clearbody r.
  destruct (handle_execution_result _ _ r _ _ _ _ _) as [[a e2]|] eqn:E; [|done]. cbn [obind fst snd]. intros Hp.
  exists r. pose proof E as Hl. apply handle_result_tracker in Hl as [Hl _]; [|done..].
  apply handle_result_letters in E.
  split; [by repeat case_match; simplify_eq/=|].
  destruct E as [(_ & -> & _)|[(Hr & (d & ->) & Hc & _)|(_ & -> & _)]];
    repeat case_match; simplify_eq/=; auto; right; split_and!; done.
Qed.

Lemma single_act_order i b st w sleeping (e : env) w' sl' e' :
  single_act router to_rfc3339 handlers i b st w sleeping e = Ret (w', sl', e') →
  order_step (SingleTask w sleeping) (SingleTask w' sl') e e'.
Proof.
  destruct st as [take|t|]; cbn [single_act].
  - destruct (worker_poll i b take w e) as [w1 e1] eqn:E. intros [= <- <- <-]. unfold worker_poll in E.
    destruct (wk_stopped w); [simplify_eq; by apply order_step_quiet|].
    destruct (wk_state w) as [|msg] eqn:Ew; [|simplify_eq; by apply order_step_quiet].
    assert (Hidle : ∀ l, single_order w l → handles (wk_fanned w) l).
    { intros l [?|(m & l' & r & Hm & _)]; [done|congruence]. }
    destruct (poll_for_work _ _ _); simplify_eq/=; apply order_step_quiet; try done; intros l Hl; left; by apply Hidle.
  - destruct sleeping; [intros [= <- <- <-]; by apply order_step_quiet|]. unfold worker_process.
    destruct (wk_stopped w) eqn:Es; [intros [= <- <- <-]; by apply order_step_quiet|].
    destruct (wk_state w) as [|msg] eqn:Ew; [intros [= <- <- <-]; by apply order_step_quiet|].
    destruct (process_message _ _ _ _ _ _ _ _) as [[w1 e1]|] eqn:E; [|done]. cbn [obind fst snd]. intros [= <- <- <-].
    apply process_message_order in E as (r & El & Hc). exists [(msg, r)]. split; [done|]. intros l Hl.
    assert (handles (wk_fanned w ++ [msg]) (l ++ [(msg, r)])) as Hh.
    { destruct Hl as [Hl|(m & l' & r0 & Hm & -> & Hl & Hret)]; [by constructor|].
      assert (m = msg) as -> by congruence. apply handles_again; auto. }
    destruct Hc as [(_ & Ef)|(Hw & Ef & Hret)]; [left; by rewrite Ef|right].
    exists msg, l, r. rewrite Ef. done.
  - destruct sleeping; [|intros [= <- <- <-]; by apply order_step_quiet].
    destruct (worker_wake i b w e) as [w1 e1] eqn:E. intros [= <- <- <-]. unfold worker_wake in E.
    destruct b; simplify_eq/=; apply order_step_quiet; try done.
    intros l [Hl|(m & l' & r & Hm & El & Hh & Hret)]; [by left|right]. by exists m, l', r.
Qed.

(** A flush calls once for every message of its batch. *)
Lemma flush_batch_order h calls jitter now w pb w' :
  flush_partition_batch router to_rfc3339 h calls jitter now w pb = Ret w' →
  ∃ new, we_log (bw_env w') = we_log (bw_env w) ++ new ∧ ∀ l, handles (batched w) l → handles (batched w') (l ++ new).
Proof.
  intros Hf. destruct (flush_batch_effect _ _ _ _ _ _ _ _ _ Hf) as (_ & _ & _ & _ & [[_ ->]|[Hne [res Hb]]]).
  { exists []. rewrite app_nil_r. split; [done|]. intros l. by rewrite app_nil_r. }
  exists ((λ m, (m, (batch_entry res m).2)) <$> pb.2). split.
  - revert Hf. unfold flush_partition_batch. destruct pb as [p [|first batch]]; [done|]. cbn [snd].
    destruct (invoke_mode_batch _ _ _) as [res'|]; [|done]. cbn [obind].
    set (e1 := we_with_sink _ _).
    destruct (handle_batch_result_inline _ _ _ _ _ _ _ _ e1) as [e'|] eqn:Eh; [|done]. intros [= <-].
    cbn [bw_batches] in Hb. apply app_inv_head in Hb. injection Hb as ->.
    assert (we_log e' = we_log e1) as El; [|cbn [bw_env we_with_states we_log]; by rewrite El].
    unfold handle_batch_result_inline in Eh. destruct res as [os|reason];
      [by apply ack_offsets_dlq in Eh as [-> _]|by apply fail_messages_flow in Eh as [-> _]].
  - intros l Hl. unfold batched in *. rewrite Hb, !fmap_app, join_app. cbn [fmap list_fmap fst snd].
    change (mjoin [pb.2]) with (pb.2 ++ []). rewrite app_nil_r. by apply handles_batch.
Qed.

Lemma batch_act_order h calls jitter now a w w' :
  batch_act router to_rfc3339 h calls jitter now a w = Ret w' →
  ∃ new, we_log (bw_env w') = we_log (bw_env w) ++ new ∧ ∀ l, handles (batched w) l → handles (batched w') (l ++ new).
Proof.
  assert (∀ w1 : batch_worker (T := OffsetTracker), bw_env w1 = bw_env w → bw_batches w1 = bw_batches w → ∃ new, we_log (bw_env w1) = we_log (bw_env w) ++ new ∧
    ∀ l, handles (batched w) l → handles (batched w1) (l ++ new)) as Hsame.
  { intros w1 E1 E2. exists []. rewrite E1, app_nil_r. split; [done|]. intros l. rewrite app_nil_r. unfold batched. by rewrite E2. }
  destruct a as [pb|p|m|]; cbn [batch_act].
  - apply flush_batch_order.
  - intros [->|(first & rest & b & _ & _ & Hf)]%flush_if_full_cases; [by apply Hsame|].
    by apply flush_batch_order in Hf.
  - intros [= <-]. by apply Hsame.
  - intros [= <-]. by apply Hsame.
Qed.

(** What was given to the handler are the first messages received of a partition. *)
Lemma batched_prefix (w : batch_worker (T := OffsetTracker)) todo p :
  steps_inv w todo →
  filter (λ m, partition m = p) (batched w) = batch_of p (bw_batches w).*1 ∧
  batch_of p (bw_batches w).*1 `prefix_of` filter (λ m, partition m = p) (bw_received w).
Proof.
  intros I. unfold batched. rewrite batch_filter.
  - split; [done|]. rewrite (sp_conserve _ _ I). by apply prefix_app_r.
  - intros q. apply Forall_forall. intros m Hm.
    assert (m ∈ filter (λ m, partition m = q) (bw_received w)) as [? _]%list_elem_of_filter; [|done].
    rewrite (sp_conserve _ _ I). apply elem_of_app. by left.
Qed.

Lemma batch_task_act_order b closed st h w todo rx w' todo' rx' :
  task_inv (BatchTask h w todo) → bw_stopped w = false →
  batch_task_act router to_rfc3339 b closed st h w todo rx = Ret (w', todo', rx') →
  order_step (BatchTask h w todo) (BatchTask h w' todo') (bw_env w) (bw_env w').
Proof.
  intros I Hs. specialize (I Hs). destruct st as [now br|now cb jitter]; cbn [batch_task_act].
  - destruct todo as [|a todo]; [|intros [= <- <- <-]; by apply order_step_quiet].
    destruct (branch_event b closed now br rx) as [[ev rest]|]; [|intros [= <- <- <-]; by apply order_step_quiet].
    destruct (batch_begin ev w) as [w1 acts] eqn:E. intros [= <- <- <-].
    destruct (batch_begin_inv _ _ _ _ I E) as (_ & E1 & E2 & _ & E4 & _).
    apply order_step_quiet; [by rewrite E2|]. unfold task_order, batched. by rewrite E1, E4.
  - destruct todo as [|a todo]; [intros [= <- <- <-]; by apply order_step_quiet|].
    destruct (batch_act _ _ _ _ _ _ _ _) as [w1|] eqn:E; [|done]. cbn [obind]. intros [= <- <- <-].
    pose proof (batch_act_flow _ _ _ _ _ _ _ _ _ _ I E) as (I' & _).
    apply batch_act_order in E as (new & El & Hl). exists new. split; [done|]. intros l [Ho _]. split; [by apply Hl|].
    intros p. by eapply batched_prefix.
Qed.

(** ** The system *)

(** The calls made for the messages of a topic. *)
Definition calls_of (tp : string) (l : list (OwnedMessage * ExecutionResult)) : list (OwnedMessage * ExecutionResult) :=
  filter (λ x, topic x.1 = tp) l.

Definition order_inv (s : sys) : Prop :=
  ∀ i tp t, topics !! i = Some tp → sy_workers s !! i = Some t → task_order t (calls_of tp (log s)).

Lemma calls_of_app tp l1 l2 : calls_of tp (l1 ++ l2) = calls_of tp l1 ++ calls_of tp l2.
Proof. apply filter_app. Qed.

(** The worker of one topic has taken a step. *)
Lemma worker_step_order t0 i tp t t' rx' e e' (s : sys) :
  NoDup topics → system_inv topics t0 s → topics !! i = Some tp → sy_workers s !! i = Some t →
  task_stopped t = false → we_log e = log s →
  task_flow t (receiver_buffer tp (dispatcher (sy_disp s))) e t' rx' e' →
  order_step t t' e e' → taken_by t' `sublist_of` on_topic tp (ss_handled (sy_stream s)) →
  order_inv s → order_inv (worker_step i tp rx' t' e' s).
Proof.
  intros Hnd I Hi Hw Hs El (_ & _ & _ & _ & new & Hl & Hin & _) (new' & Hl' & Ho) Hsub O.
  assert (new' = new) as -> by (rewrite Hl in Hl'; by apply app_inv_head in Hl').
  assert (Forall (λ x, topic x.1 = tp) new) as Htp.
  { eapply Forall_impl; [exact Hin|]. intros x Hx. cbn beta in Hx.
    pose proof (elem_of_submseteq _ _ _ Hx (sublist_submseteq _ _ Hsub)) as Hf.
    by apply list_elem_of_filter in Hf as [? _]. }
  intros j tp' t1 Hj Ht1. cbn [worker_step sy_workers sy_env] in *. rewrite Hl, El, calls_of_app.
  destruct (decide (i = j)) as [<-|Hij].
  - rewrite list_lookup_insert_eq in Ht1 by (by eapply lookup_lt_Some). injection Ht1 as <-.
    rewrite Hi in Hj. injection Hj as <-. unfold calls_of at 2. rewrite filter_every by done. apply Ho. by apply (O i).
  - rewrite list_lookup_insert_ne in Ht1 by done. unfold calls_of at 2. rewrite filter_none.
    + rewrite app_nil_r. by apply (O j).
    + eapply Forall_impl; [exact Htp|]. cbn beta. intros x <- E. apply Hij. eapply NoDup_lookup; [done|exact Hi|by rewrite E].
Qed.

(** What a worker has taken is of its topic and was received, in order. *)
Lemma task_flow_sublist t0 i tp t t' rx' e e' (s : sys) :
  system_inv topics t0 s → topics !! i = Some tp → sy_workers s !! i = Some t → task_stopped t = false →
  task_flow t (receiver_buffer tp (dispatcher (sy_disp s))) e t' rx' e' →
  taken_by t' `sublist_of` on_topic tp (ss_handled (sy_stream s)).
Proof.
  intros I Hi Hw Hs (F1 & _). destruct (sv_topic _ _ _ I i tp t Hi Hw) as [[_ (e0 & He & _ & T2)] _].
  destruct (T2 Hs) as [S1 _]. unfold receiver_buffer in F1. rewrite He in F1.
  eapply sublist_taken; [|exact S1]. rewrite <- F1. by apply prefix_app_r.
Qed.

Lemma sys_worker_order t0 i ev (s s' : sys) :
  NoDup topics → system_inv topics t0 s →
  sys_worker router to_rfc3339 handlers topics i ev s = Ret s' → order_inv s → order_inv s'.
Proof.
  intros Hnd I Hr O. unfold sys_worker in Hr.
  destruct (topics !! i) as [tp|] eqn:Hi; [|by simplify_eq].
  destruct (sy_workers s !! i) as [t|] eqn:Hw; [|by simplify_eq].
  destruct (task_stopped t) eqn:Hs; [by simplify_eq|].
  pose proof (proj2 (sv_topic _ _ _ I i tp t Hi Hw)) as Hinv.
  destruct t as [w sl|h w todo], ev as [st|st]; try by simplify_eq.
  - destruct (single_act _ _ _ _ _ _ _ _ _) as [[[w' sl'] e']|] eqn:E; [|done].
    cbn [obind fst snd] in Hr. injection Hr as <-.
    pose proof (single_act_order _ _ _ _ _ _ _ _ _ E) as Ho. apply single_act_flow in E as Hf.
    eapply worker_step_order; [done|exact I|done|done|done|..|exact Ho| |done];
      [done|exact Hf|by eapply task_flow_sublist].
  - destruct (batch_task_act _ _ _ _ _ _ _ _ _) as [[[w' todo'] rx']|] eqn:E; [|done].
    cbn [obind fst snd] in Hr. injection Hr as <-.
    assert (task_inv (BatchTask h (bw_with_env (we_with_queues (dispatcher (sy_disp s)) (sy_env s)) w) todo)) as Hi2
      by (intros _; apply steps_inv_env; by apply Hinv).
    pose proof (batch_task_act_order _ _ _ _ _ _ _ _ _ _ Hi2 Hs E) as Ho.
    apply batch_task_act_flow in E as Hf; [|done|done].
    eapply worker_step_order; [done|exact I|done|done|done|..|exact Ho| |done];
      [done|exact Hf|by eapply task_flow_sublist].
Qed.

Lemma abort_order t l : task_order t l → task_order (abort_worker t) l.
Proof.
  destruct t as [w sl|h w todo]; [|done]. intros [Hl|(m & l' & r & Hm & El & Hh & _)]; [by left|right].
  by exists m, l', r.
Qed.

Abbreviation step := (system_step router to_rfc3339 handlers topics).
Abbreviation runs := (system_run router to_rfc3339 handlers topics).

Lemma system_step_order t0 ev (s s' : sys) :
  NoDup topics → system_inv topics t0 s → step s ev = Ret s' → order_inv s → order_inv s'.
Proof.
  intros Hnd I Hs O. apply system_step_cases in Hs as [(i & wev & Hs)|(El & _ & Ew)]; [by eapply sys_worker_order|].
  intros i tp t Hi Ht. rewrite El. destruct Ew as [Ew|Ew]; rewrite Ew in Ht; [by apply (O i)|].
  rewrite list_lookup_fmap in Ht. destruct (sy_workers s !! i) as [t1|] eqn:E; [|done]. injection Ht as <-.
  apply abort_order. by apply (O i).
Qed.

Lemma system_run_order evs (s0 s : sys) :
  system_init topics s0 → runs evs s0 = Ret s → order_inv s.
Proof.
  intros Hi Hr. refine (proj2 (proj2 (ofold_inv (λ s, system_inv topics (we_offsets (sy_env s0)) s ∧
    length (sy_workers s) = length topics ∧ order_inv s) _ evs _ s0 s _ Hr))).
  - intros a ev a' _ (I & L & O) Hs. split_and!.
    + by eapply system_step_inv; [apply (in_topics _ _ Hi)|..].
    + by rewrite (system_step_workers _ _ _ _ _ _ _ Hs).
    + by eapply system_step_order; [apply (in_topics _ _ Hi)|..].
  - split_and!; [by apply init_system_inv|apply Hi|]. intros i tp t _ Ht. rewrite (in_log _ _ Hi).
    pose proof (Forall_lookup_1 _ _ _ _ (in_workers _ _ Hi) Ht) as Hw. cbn beta in Hw.
    destruct t as [w sl|h w todo]; [destruct Hw as [-> _]; left; constructor|destruct Hw as (_ & _ & Hb & Hrec & _)].
    unfold task_order, batched. rewrite Hb, Hrec. split; [constructor|done].
Qed.

End order.

(** ** The runtime *)

Section runtime.
Context {KafkaError Source : Type} (to_rfc3339 : Z → string).
Context {HOs : HashOrder string} {HOk : HashOrder TopicPartitionKey} {HOz : HashOrder Z}.

(** The messages and the calls of one partition. *)
Definition in_partition (tp : string) (p : Z) (m : OwnedMessage) : Prop := topic m = tp ∧ partition m = p.

#[export] Instance in_partition_dec tp p m : Decision (in_partition tp p m).
Proof. unfold in_partition. apply _. Defined.

Definition partition_calls (tp : string) (p : Z) (s : system KafkaError Source) : list (OwnedMessage * ExecutionResult) :=
  filter (λ x, in_partition tp p x.1) (we_log (sy_env s)).

Definition partition_received (tp : string) (p : Z) (s : system KafkaError Source) : list OwnedMessage :=
  filter (in_partition tp p) (from_borrowed <$> ss_received (sy_stream s)).

Lemma calls_of_partition tp p l :
  filter (λ x : OwnedMessage * ExecutionResult, in_partition tp p x.1) l = filter (λ x, partition x.1 = p) (calls_of tp l).
Proof.
  unfold calls_of. rewrite list_filter_filter. apply list_filter_iff. intros x. unfold in_partition. tauto.
Qed.

Lemma topic_partition tp p (l : list OwnedMessage) :
  filter (λ m, partition m = p) (on_topic tp l) = filter (in_partition tp p) l.
Proof. unfold on_topic. rewrite list_filter_filter. apply list_filter_iff. intros x. unfold in_partition. tauto. Qed.

(** What a worker knows of one partition. *)
Lemma task_order_partition t l p :
  task_order t l →
  ∃ ms, handles ms (filter (λ x, partition x.1 = p) l) ∧ ms `prefix_of` filter (λ m, partition m = p) (taken_by t) ∧
    settled p t `prefix_of` ms ∧ (length ms ≤ S (length (settled p t)))%nat.
Proof.
  destruct t as [w sl|h w todo]; cbn [task_order taken_by settled].
  - intros [Hl|(m & l' & r & Hm & _ & Hl & _)]; apply (handles_filter (λ m, partition m = p)) in Hl.
    + eexists. split; [exact Hl|]. rewrite filter_app. split_and!; [by apply prefix_app_r|done|lia].
    + eexists. split; [exact Hl|]. unfold held. rewrite Hm. cbn [worker_message option_list]. split; [done|].
      rewrite filter_app. split; [by apply prefix_app_r|]. rewrite length_app, filter_cons, filter_nil.
      case_decide; cbn [length]; lia.
  - intros [Hl Hp]. apply (handles_filter (λ m, partition m = p)) in Hl. destruct (Hp p) as [E Hpre].
    rewrite E in Hl. eexists. split; [exact Hl|]. rewrite filter_app. split_and!; [by apply prefix_app_r|done|lia].
Qed.

(** C4: A partition is processed in order, each message once.  In every run of a
    built runtime, for a worker of either kind that runs or has ended, the calls
    made for the messages of a partition of its topic are those for some messages
    received of the partition, one message after the other in the order in which
    they were received; a message is called for again only right after a retryable
    failure, before the next one is; these messages are the ones the worker is
    done with and at most one more; and those that succeeded are among them, in
    this order, each once. *)
Theorem partitions_are_processed_in_order kafka env_mode env cfg calls rt c clock s0 evs s i tp t p :
  build kafka env (py_run env_mode cfg calls) = Ret (Ok rt) →
  runtime_system c clock rt = Ret s0 →
  runtime_run to_rfc3339 rt evs s0 = Ret s →
  worker_topics rt !! i = Some tp → sy_workers s !! i = Some t →
  ∃ ms, handles ms (partition_calls tp p s) ∧ ms `sublist_of` partition_received tp p s ∧
    settled p t `prefix_of` ms ∧ (length ms ≤ S (length (settled p t)))%nat ∧
    successes (partition_calls tp p s) `sublist_of` ms.
Proof.
  intros Hb Hr0 Hr Ht Hw. pose proof (runtime_system_init _ _ _ _ _ _ _ _ _ Hb Hr0) as Hi.
  destruct (system_run_inv _ _ _ _ _ _ _ Hi Hr) as [I _].
  pose proof (system_run_order _ _ _ _ _ _ _ Hi Hr i tp t Ht Hw) as O.
  destruct (task_order_partition _ _ p O) as (ms & Hh & Hp & Hs & Hl).
  exists ms. unfold partition_calls. rewrite calls_of_partition.
  split_and!; [done| |done|done|by apply (handles_successes _ _ Hh)].
  destruct (sv_topic _ _ _ I i tp t Ht Hw) as [[T1 _] _].
  destruct (si_flow _ _ (sv_stream _ _ _ I)) as (rest & F & _).
  unfold partition_received. rewrite F, filter_app. apply sublist_inserts_r. rewrite <- topic_partition.
  destruct Hp as [k Hk]. transitivity (filter (λ m, partition m = p) (taken_by t)); [rewrite Hk; by apply sublist_inserts_r|].
  by apply filter_sublist_mono.
Qed.

End runtime.

(** ** Witness *)

(** Offset 5 is handled; 6 fails, is tried again and is handled. *)
Definition demo_retry_events : list system_event :=
  demo_arrive 5 ++ demo_arrive 6 ++
  [demo_single (StepPoll true); demo_single (StepProcess (demo_turn PyReturned));
   demo_single (StepPoll true); demo_single (StepProcess (demo_turn timeout_error));
   demo_single StepWake; demo_single (StepProcess (demo_turn PyReturned))].

Definition demo_calls_seen (rt : Runtime) (s0 s : system string string) (t : worker_task) :=
  (worker_topics rt, (λ x, (offset x.1, is_ok x.2)) <$> partition_calls "a" 0 s, offset <$> settled 0 t).

Lemma demo_retry_eq :
  demo_outcome demo_calls_seen demo_retry_events (demo_build demo_single_calls) =
    Some (["a"], [(5, true); (6, false); (6, true)], [5; 6]).
Proof. vm_compute. reflexivity. Qed.

Lemma partitions_are_processed_in_order_witness :
  ∃ rt (s : system string string) ms, demo_build demo_single_calls = Ret (Ok rt) ∧
    (λ x, (offset x.1, is_ok x.2)) <$> partition_calls "a" 0 s = [(5, true); (6, false); (6, true)] ∧
    handles ms (partition_calls "a" 0 s) ∧ ms `sublist_of` partition_received "a" 0 s ∧
    successes (partition_calls "a" 0 s) `sublist_of` ms.
Proof.
  destruct (demo_outcome_inv _ _ _ _ demo_retry_eq) as (rt & s0 & s & t & E & E0 & Er & Ew & Es).
  unfold demo_calls_seen in Es. injection Es as F1 F2 F3.
  destruct (partitions_are_processed_in_order (HOs := hash_order_canonical string)
    (HOk := hash_order_canonical TopicPartitionKey) (HOz := hash_order_canonical Z) (λ _, "now") demo_kafka None
    (Some "8") demo_py_config demo_single_calls rt good_client 0 s0 demo_retry_events s 0 "a" t 0
    E E0 Er) as (ms & H1 & H2 & _ & _ & H3); [by rewrite F1|exact Ew|].
  exists rt, s, ms. exact (conj E (conj F2 (conj H1 (conj H2 H3)))).
Defined.
