(* ===== verification/PipelineCommit.v ===== *)
(** * The running runtime: what is handled gets committed

    The throttle of the committer in every run of the system, and that two turns
    of the committer, each an interval after the last, store the cursor of every
    committable partition. *)

From stdpp Require Import base gmap sets list strings pretty.
From S2P Require Import Prelude F64 Metrics FromStr Failure Message Shutdown Runner Dlq OffsetTracker OffsetProofs Retry Commit Queue Dispatcher Execution PoolState Worker Batch BatchSteps FanOut Pool Context Config Builder Task Pipeline PipelineProofs PipelineRuntime.

(** ** The calls of one cycle *)

Section cycle.
Context {HOk : HashOrder TopicPartitionKey} (rd : RdCall → bool) (config : CommitConfig).

(** The offset is given to the broker client, and a commit follows when it took it. *)
Definition commit_calls (k : TopicPartitionKey) (o : Z) : rd_trace :=
  RdStoreOffset k.1 k.2 o :: (if rd (RdStoreOffset k.1 k.2 o) then [RdCommitState Async] else []).

Lemma commit_partition_calls k o tr : commit_partition rd k o tr = tr ++ commit_calls k o.
Proof.
  unfold commit_partition, commit_calls, await, store_offset, commit. cbn [fut_ok fut_calls].
  destruct (rd _); cbn [snd]; by rewrite <- ?app_assoc.
Qed.

Lemma commit_all_calls l tr :
  foldl (λ tr c, commit_partition rd c.1 c.2 tr) tr l = tr ++ (l ≫= λ c, commit_calls c.1 c.2).
Proof.
  revert tr. induction l as [|c l IH]; intros tr; cbn [foldl mbind list_bind]; [by rewrite app_nil_r|].
  by rewrite IH, commit_partition_calls, <- app_assoc.
Qed.

Lemma turn_extends tick d w : ∃ l, cw_trace (committer_turn rd config tick d w) = cw_trace w ++ l.
Proof.
  assert (∃ l, cw_trace w = cw_trace w ++ l) as Hsame by (exists []; by rewrite app_nil_r).
  unfold committer_turn, process_ready_partitions, process_partition.
  repeat (case_match; cbn [after_cycle cw_trace snd]; try exact Hsame);
    rewrite ?commit_all_calls, ?commit_partition_calls; by eexists.
Qed.

(** A cycle over all partitions. *)
Lemma ready_turn tick d w tp p o :
  cw_exited w = false → cs_should_commit config (cw_clock w) (cw_state w) = true →
  is_done (cw_coord w) = true ∨ (signal_pending w = None ∧ tick = true) →
  should_commit tp p (cw_tracker w) = true → highest_contiguous tp p (cw_tracker w) = Some o →
  ∃ l1 l2, cw_trace (committer_turn rd config tick d w) = cw_trace w ++ l1 ++ commit_calls (tp, p) o ++ l2.
Proof.
  intros He Hsc Hready Hs Hc.
  assert (cw_trace (committer_turn rd config tick d w) =
    cw_trace w ++ (ready_partitions (cw_tracker w) ≫= λ c, commit_calls c.1 c.2)) as ->.
  { unfold committer_turn, process_ready_partitions. rewrite He, Hsc.
    destruct Hready as [->|[-> ->]]; [|destruct (is_done _)]; cbn [after_cycle cw_trace snd negb];
      apply commit_all_calls. }
  assert ((tp, p, o) ∈ ready_partitions (cw_tracker w)) as Hin.
  { unfold ready_partitions. apply list_elem_of_omap. exists (tp, p). cbn [fst snd]. rewrite Hs, Hc. split; [|done].
    apply elem_of_hash_keys. unfold highest_contiguous in Hc. destruct (partitions _ !! (tp, p)); [eauto|done]. }
  apply list_elem_of_split in Hin as (l1 & l2 & ->).
  exists (l1 ≫= λ c, commit_calls c.1 c.2), (l2 ≫= λ c, commit_calls c.1 c.2).
  by rewrite bind_app, bind_cons.
Qed.

(** After an interval the throttle is open. *)
Lemma interval_opens d w :
  throttle_inv w → from_millis (commit_interval_ms config) ≤ Z.of_N d →
  cs_should_commit config (cw_clock (cw_wait d w)) (cw_state (cw_wait d w)) = true.
Proof.
  intros [_ Hl] Hd. unfold cs_should_commit. cbn [cw_wait cw_clock cw_state].
  destruct (last_commit (cw_state w)) as [l|]; [|done]. specialize (Hl l eq_refl).
  apply orb_true_iff. left. apply Z.leb_le. unfold saturating_sub. lia.
Qed.

(** Two turns, each after a wait of [d], with the tracker unchanged. *)
Definition two_turns (d : N) (w : committer_world) : committer_world :=
  committer_turn rd config true 0 (cw_wait d (committer_turn rd config true 0 (cw_wait d w))).

Lemma turn_throttle tick d w : throttle_inv w → throttle_inv (committer_turn rd config tick d w).
Proof. intros Ht. by apply (cw_step_throttle rd config (CwTurn tick d) w). Qed.

Lemma two_turns_store d w tp p o :
  throttle_inv w → from_millis (commit_interval_ms config) ≤ Z.of_N d → cw_exited w = false →
  should_commit tp p (cw_tracker w) = true → highest_contiguous tp p (cw_tracker w) = Some o →
  ∃ l1 l2, cw_trace (two_turns d w) = cw_trace w ++ l1 ++ commit_calls (tp, p) o ++ l2.
Proof.
  intros Ht Hd He Hs Hc. unfold two_turns. set (w1 := committer_turn rd config true 0 (cw_wait d w)).
  assert (Hnow : is_done (cw_coord w) = true ∨ signal_pending (cw_wait d w) = None →
    ∃ l1 l2, cw_trace w1 = cw_trace w ++ l1 ++ commit_calls (tp, p) o ++ l2).
  { intros Hr. apply (ready_turn true 0 (cw_wait d w) tp p o); try done; [by apply interval_opens|].
    destruct Hr; auto. }
  assert (Hlater : ∀ l1 l2, cw_trace w1 = cw_trace w ++ l1 ++ commit_calls (tp, p) o ++ l2 →
    ∃ l1 l2, cw_trace (committer_turn rd config true 0 (cw_wait d w1)) = cw_trace w ++ l1 ++ commit_calls (tp, p) o ++ l2).
  { intros l1 l2 E. destruct (turn_extends true 0 (cw_wait d w1)) as (l & ->). exists l1, (l2 ++ l).
    cbn [cw_wait cw_trace]. by rewrite E, <- !app_assoc. }
  destruct (is_done (cw_coord w)) eqn:Edone; [destruct Hnow as (l1 & l2 & E); [auto|by eapply Hlater]|].
  destruct (signal_pending (cw_wait d w)) as [c|] eqn:Esig; [|destruct Hnow as (l1 & l2 & E); [auto|by eapply Hlater]].
  assert (w1 = after_cycle (cw_wait d w) (w_version c) false (cw_clock (cw_wait d w) + Z.of_N 0)
    (process_partition rd config (cw_clock (cw_wait d w)) (cw_clock (cw_wait d w) + Z.of_N 0) (cw_tracker w) (w_value c)
       (cw_state w) (cw_trace w))) as E1.
  { unfold w1, committer_turn. rewrite Esig. cbn [cw_wait cw_exited cw_coord cw_tracker cw_state cw_trace].
    by rewrite He, Edone. }
  destruct (turn_extends true 0 (cw_wait d w)) as (l & E). fold w1 in E. cbn [cw_wait cw_trace] in E.
  destruct (ready_turn true 0 (cw_wait d w1) tp p o) as (l1 & l2 & ->).
  - by rewrite E1.
  - apply interval_opens; [|done]. apply turn_throttle. destruct Ht as [Hm Hl]. split; [done|].
    cbn [cw_wait cw_clock cw_state]. intros l0 Hl0. specialize (Hl l0 Hl0). lia.
  - right. split; [|done]. rewrite E1. unfold signal_pending in *. cbn [cw_wait after_cycle cw_tracker cw_seen] in *.
    destruct (commit_tx (cw_tracker w)) as [c'|]; [|done]. destruct (cw_seen w <? w_version c')%nat; [|done].
    injection Esig as ->. by rewrite Nat.ltb_irrefl.
  - by rewrite E1.
  - by rewrite E1.
  - exists (l ++ l1), l2. cbn [cw_wait cw_trace]. by rewrite E, <- !app_assoc.
Qed.

End cycle.

(** ** The committer in the running runtime *)

Section system.
Context {KafkaError Source R : Type} `{DlqRouter R} (router : R) (to_rfc3339 : Z → string).
Context {HOs : HashOrder string} {HOk : HashOrder TopicPartitionKey} {HOz : HashOrder Z}.
Context (handlers : gmap string PythonHandler) (topics : list string).

Abbreviation sys := (system KafkaError Source).
Abbreviation step := (system_step router to_rfc3339 handlers topics).

(** Only the committer and the passing of time move its clock and its throttle. *)
Lemma system_step_throttle ev (s s' : sys) :
  step s ev = Ret s' → throttle_inv (sy_commit s) → throttle_inv (sy_commit s').
Proof.
  intros Hs [Hm Hl]. assert (Hsame : ∀ w, cw_state w = cw_state (sy_commit s) → cw_clock w = cw_clock (sy_commit s) →
    throttle_inv w) by (intros w E1 E2; split; by rewrite ?E1, ?E2).
  destruct ev as [e|c|i ev|rd tick d|d|rd r|r|dl| | |rd now]; cbn [system_step] in Hs.
  - injection Hs as <-. destruct (loop_step _ _ _); by apply Hsame.
  - injection Hs as <-. unfold sys_dispatch. repeat case_match; by apply Hsame.
  - unfold sys_worker in Hs. destruct (topics !! i), (sy_workers s !! i) as [t|]; try (injection Hs as <-; by apply Hsame).
    destruct (task_stopped t); [injection Hs as <-; by apply Hsame|].
    destruct t, ev; try (injection Hs as <-; by apply Hsame);
      [destruct (single_act _ _ _ _ _ _ _ _ _)|destruct (batch_task_act _ _ _ _ _ _ _ _ _)]; try done;
      injection Hs as <-; by apply Hsame.
  - injection Hs as <-. apply turn_throttle. by split.
  - injection Hs as <-. split; [done|]. cbn. intros l Hl0. specialize (Hl l Hl0). lia.
  - injection Hs as <-. unfold sys_pre_rebalance. destruct (pre_rebalance _ _ _ _ _). by apply Hsame.
  - injection Hs as <-. by apply Hsame.
  - injection Hs as <-. by apply Hsame.
  - unfold sys_signal, sys_stop in Hs. destruct (lf_signal _); try (injection Hs as <-; by apply Hsame).
    + destruct (begin_draining _); [|done]. injection Hs as <-. by apply Hsame.
    + destruct (task_stop _); [|done]. injection Hs as <-. by apply Hsame.
  - injection Hs as <-. by apply Hsame.
  - unfold sys_main, sys_finish, sys_stop in Hs. destruct (lf_main _); try (repeat case_match; simplify_eq; by apply Hsame).
    destruct (if decide _ then _ else _); [|done]. cbn [obind] in Hs.
    destruct (task_stop _); [|done]. injection Hs as <-. by apply Hsame.
Qed.

(** Two turns of the committer, each [d] nanoseconds after the last. *)
Definition commit_soon (rd : RdCall → bool) (d : N) : list system_event :=
  [SyWait d; SyCommit rd true 0; SyWait d; SyCommit rd true 0].

Lemma turn_tracker rd config tick (d : N) w :
  cw_tracker (committer_turn rd config tick d w) = cw_tracker w.
Proof. by destruct (committer_turn_cases rd config tick d w) as [->|(-> & _)]. Qed.

Lemma commit_soon_run rd d (s : sys) :
  ∃ s', system_run router to_rfc3339 handlers topics (commit_soon rd d) s = Ret s' ∧
    sy_commit s' = two_turns rd commit_config_default d (sys_committer (sy_commit s) s).
Proof.
  eexists. split; [reflexivity|]. unfold two_turns.
  set (w1 := committer_turn rd commit_config_default true 0 (cw_wait d (sys_committer (sy_commit s) s))).
  assert (sys_committer (cw_wait d w1) s = cw_wait d w1) as E.
  { assert (cw_tracker w1 = we_offsets (sy_env s)) as Et by apply turn_tracker.
    unfold sys_committer. rewrite <- Et. by destruct w1. }
  rewrite <- E. reflexivity.
Qed.

End system.

Section runtime.
Context {KafkaError Source : Type} (to_rfc3339 : Z → string).
Context {HOs : HashOrder string} {HOk : HashOrder TopicPartitionKey} {HOz : HashOrder Z}.

Abbreviation log s := (we_log (sy_env s)).

Lemma runtime_throttle c clock rt (s0 : system KafkaError Source) evs s :
  runtime_system c clock rt = Ret s0 → runtime_run to_rfc3339 rt evs s0 = Ret s → throttle_inv (sy_commit s).
Proof.
  intros Hr0 Hr. refine (ofold_inv (λ s, throttle_inv (sy_commit s)) _ evs _ s0 s _ Hr).
  - intros a ev a' _ Ha Hs. by eapply system_step_throttle.
  - unfold runtime_system in Hr0. destruct (start_workers _ _); [|done]. by injection Hr0 as <-.
Qed.

(** The events of a partition in the history of the handled messages. *)
Definition handled_events (tp : string) (p : Z) (s : system KafkaError Source) : list ps_event :=
  events_of (tp, p) (log_op <$> log s).

Definition terminal_failure (tp : string) (p : Z) (x : OwnedMessage * ExecutionResult) : bool :=
  bool_decide (topic x.1 = tp ∧ partition x.1 = p) && negb (is_ok x.2) &&
  bool_decide (category (result_reason x.2) = Terminal).

Lemma handled_not_terminal tp p (s : system KafkaError Source) :
  existsb (terminal_failure tp p) (log s) = false →
  has_terminal (ps_run (drop_fails (handled_events tp p s))) = false.
Proof.
  intros Hn. apply run_not_terminal. intros o r Hin Hc.
  assert (∀ evs, PFail o (Some r) ∈ drop_fails evs → PFail o (Some r) ∈ evs) as Hdrop.
  { induction evs as [|[o'|o' r'] evs IH]; [done|done|]. intros Hd. right. by apply IH. }
  apply Hdrop in Hin. unfold handled_events, events_of in Hin.
  apply list_elem_of_omap in Hin as (op & (x & -> & Hx)%list_elem_of_fmap & Hop).
  assert (existsb (terminal_failure tp p) (log s) = true); [|congruence].
  apply existsb_exists. exists x. split; [by apply list_elem_of_In|]. unfold terminal_failure, log_op in *.
  destruct (is_ok x.2); cbn [op_event] in Hop; [by case_decide|]. case_decide as E; [|done].
  injection Hop as <- <-. injection E as -> ->. by rewrite !bool_decide_true by done.
Qed.

(** C5: What is handled gets committed.  In every reachable state of a built
    runtime whose committer has not exited: when the last outcome of every offset
    of a partition from the first acknowledged one up to [n] is an acknowledgement
    and no failure of the partition was terminal, then two turns of the committer,
    with an interval before each, give the broker client an offset of at least [n]
    for that partition, and commit it when the client took it, whatever the other
    partitions and the answers of the client are, and even when a shutdown is over. *)
Theorem handled_offsets_get_committed kafka env_mode env cfg calls rt c clock s0 evs s rd d tp p b n :
  build kafka env (py_run env_mode cfg calls) = Ret (Ok rt) →
  runtime_system c clock rt = Ret s0 →
  runtime_run to_rfc3339 rt evs s0 = Ret s →
  Forall (λ b, 0 ≤ b_offset b < 2 ^ 63) (ss_received (sy_stream s)) →
  cw_exited (sy_commit s) = false →
  first_ack (handled_events tp p s) = Some b →
  (∀ o, b ≤ o ≤ n → ack_last o (handled_events tp p s) = true) →
  existsb (terminal_failure tp p) (log s) = false →
  from_millis (commit_interval_ms commit_config_default) ≤ Z.of_N d →
  ∃ s' o l1 l2, runtime_run to_rfc3339 rt (commit_soon rd d) s = Ret s' ∧ n ≤ o ∧
    cw_trace (sy_commit s') = cw_trace (sy_commit s) ++ l1 ++ commit_calls rd (tp, p) o ++ l2.
Proof.
  intros Hb Hr0 Hr Hoff He Hfirst Hall Hterm Hd.
  pose proof (runtime_system_init _ _ _ _ _ _ _ _ _ Hb Hr0) as Hi.
  destruct (system_run_inv _ _ _ _ _ _ _ Hi Hr) as [I _].
  assert (Forall op_ok (log_op <$> log s)) as Hok.
  { apply Forall_fmap, Forall_forall. intros [m r] Hm.
    destruct (logged_received _ _ _ _ _ _ _ _ _ _ _ _ _ _ Hb Hr0 Hr Hm) as (bm & -> & Hrec).
    unfold log_op. cbn. destruct (is_ok r); [|done].
    by apply (proj1 (Forall_forall (λ b, 0 ≤ b_offset b < 2 ^ 63) (ss_received (sy_stream s)))). }
  destruct (acked_prefix_state _ _ _ _ _ _ _ Hok (in_tracker _ _ Hi) (sv_tracker _ _ _ I) Hfirst Hall) as (Hs & Hn & Hpos).
  destruct (commit_soon_run (rn_router rt) to_rfc3339 (runtime_handlers rt) (worker_topics rt) rd d s) as (s' & Hrun & Hw).
  set (w := sys_committer (sy_commit s) s) in Hw.
  set (ps := ps_run (drop_fails (events_of (tp, p) (log_op <$> log s)))) in *.
  destruct (two_turns_store rd commit_config_default d w tp p (committed_offset ps)) as (l1 & l2 & E).
  - by apply (runtime_throttle _ _ _ _ _ _ Hr0 Hr).
  - done.
  - done.
  - unfold should_commit. cbn [w sys_committer cw_with_tracker cw_tracker]. rewrite Hs. unfold ps_should_commit.
    assert (has_terminal ps = false) as -> by (by apply handled_not_terminal). apply orb_true_iff. right. by apply Z.leb_le.
  - unfold highest_contiguous. cbn [w sys_committer cw_with_tracker cw_tracker]. by rewrite Hs.
  - exists s', (committed_offset ps), l1, l2. split_and!; [exact Hrun|done|]. by rewrite Hw, E.
Qed.

End runtime.

(** ** Witness *)

(** Offsets 5 and 6 are handled; nothing has been committed. *)
Definition demo_handled_events : list system_event :=
  demo_arrive 5 ++ demo_arrive 6 ++
  [demo_single (StepPoll true); demo_single (StepProcess (demo_turn PyReturned));
   demo_single (StepPoll true); demo_single (StepProcess (demo_turn PyReturned))].

(** What the property asks of the partition. *)
Definition demo_ready_seen (s : system string string) :=
  (b_offset <$> ss_received (sy_stream s), cw_exited (sy_commit s), first_ack (handled_events "a" 0 s),
   forallb (λ o, ack_last o (handled_events "a" 0 s)) [5; 6],
   existsb (terminal_failure "a" 0) (we_log (sy_env s)), cw_trace (sy_commit s)).

Abbreviation demo_ready_end := (demo_outcome (λ _ _ s _, demo_ready_seen s)).

Lemma demo_handled_eq :
  demo_ready_end demo_handled_events (demo_build demo_single_calls) = Some ([5; 6], false, Some 5, true, false, []).
Proof. vm_compute. reflexivity. Qed.

Lemma handled_offsets_get_committed_witness :
  ∃ rt (s s' : system string string) o, demo_build demo_single_calls = Ret (Ok rt) ∧
    cw_trace (sy_commit s) = [] ∧
    demo_runtime_run (commit_soon (λ _, true) 100000000) rt s = Ret s' ∧ 6 ≤ o ∧
    RdStoreOffset "a" 0 o ∈ cw_trace (sy_commit s').
Proof.
  destruct (demo_outcome_inv _ _ _ _ demo_handled_eq) as (rt & s0 & s & t & E & E0 & Er & _ & Es).
  cbv beta in Es. unfold demo_ready_seen in Es. injection Es as F1 F2 F3 F4 F5 F6.
  destruct (handled_offsets_get_committed (HOs := hash_order_canonical string)
    (HOk := hash_order_canonical TopicPartitionKey) (HOz := hash_order_canonical Z) (λ _, "now") demo_kafka None
    (Some "8") demo_py_config demo_single_calls rt good_client 0 s0 demo_handled_events s (λ _, true) 100000000
    "a" 0 5 6 E E0 Er) as (s' & o & l1 & l2 & Hr & Hn & Ht); [|exact F2|exact F3| |exact F5|done|].
  - apply Forall_forall. intros m Hm%(list_elem_of_fmap_2 b_offset). rewrite F1 in Hm.
    repeat (apply elem_of_cons in Hm as [->|Hm]; [lia|]). by apply not_elem_of_nil in Hm.
  - intros x Hx. apply (proj1 (forallb_forall (λ o, ack_last o (handled_events "a" 0 s)) [5; 6]) F4). assert (x = 5 ∨ x = 6) as [->| ->] by lia; simpl; auto.
  - exists rt, s, s', o. split; [exact E|]. split; [exact F6|]. split; [exact Hr|]. split; [exact Hn|].
    rewrite Ht. apply elem_of_app. right. apply elem_of_app. right. left.
Defined.
