(* ===== verification/PipelineShutdown.v ===== *)
(** * The running runtime: how it ends

    Every step of the running runtime is a step of the shutdown protocol
    ([rt_step]) or none, so what the protocol promises holds of the runtime. *)

From stdpp Require Import base gmap sets list strings relations.
From S2P Require Import Prelude F64 Metrics FromStr Failure Message Shutdown Runner Dlq OffsetTracker OffsetProofs Retry Commit Queue Dispatcher Execution PoolState Worker Batch BatchSteps FanOut Pool Context Config Builder Task Pipeline PipelineProofs PipelineRuntime.

(** The state of the shutdown protocol that a state of the runtime is in. *)
Definition rt_of {KafkaError Source : Type} (s : system KafkaError Source) : rt_state :=
  {| rt_coord := cw_coord (sy_commit s); rt_token := lf_token (sy_life s);
     rt_workers := running (sy_workers s); rt_exited := lf_exited (sy_life s);
     rt_runner_stopped := ss_signal (sy_stream s);
     rt_dispatcher_done := receiver_dropped (sy_stream s);
     rt_committer_done := cw_exited (sy_commit s);
     rt_main := lf_main (sy_life s); rt_signal := lf_signal (sy_life s) |}.

(** ** Lemmas *)

Lemma running_insert ts i t t' :
  ts !! i = Some t → task_stopped t = false →
  running ts = ((if task_stopped t' then 1 else 0) + running (<[i := t']> ts))%nat.
Proof.
  unfold running. revert i. induction ts as [|t0 ts IH]; intros [|i] Hi Hs; simpl in Hi; try done.
  - injection Hi as ->. change (<[0%nat := t']> (t :: ts)) with (t' :: ts). rewrite !filter_cons.
    destruct (decide (task_stopped t = false)); [|done].
    destruct (decide (task_stopped t' = false)) as [E|E]; [by rewrite E|].
    by rewrite (not_false_is_true _ E).
  - change (<[S i := t']> (t0 :: ts)) with (t0 :: <[i := t']> ts). rewrite !filter_cons.
    specialize (IH i Hi Hs). destruct (decide _); simpl; lia.
Qed.

Lemma running_aborted ts : running (abort_worker <$> ts) = O.
Proof.
  unfold running. induction ts as [|t ts IH]; [done|]. cbn [fmap list_fmap]. rewrite filter_cons, decide_False; [done|].
  by rewrite abort_stopped.
Qed.

Section shutdown.
Context {KafkaError Source R : Type} `{DlqRouter R} (router : R) (to_rfc3339 : Z → string).
Context {HOs : HashOrder string} {HOk : HashOrder TopicPartitionKey} {HOz : HashOrder Z}.
Context (handlers : gmap string PythonHandler) (topics : list string).

Abbreviation sys := (system KafkaError Source).

(** What the protocol needs to know of the tasks. *)
Record end_inv (s : sys) : Prop := {
  ev_loop : ss_loop (sy_stream s) ≠ LoopNone;
  ev_ended : loop_ended (sy_stream s) = true →
    ss_signal (sy_stream s) = true ∨ receiver_dropped (sy_stream s) = true;
  ev_stop : ∀ i h w todo, sy_workers s !! i = Some (BatchTask h w todo) → bw_stopped w = false →
    ActStop ∈ todo → token s = true
}.

(** A worker ends only when its token is cancelled. *)
Lemma single_act_stops i b st w sleeping e w' sl' e' :
  single_act router to_rfc3339 handlers i b st w sleeping e = Ret (w', sl', e') →
  wk_stopped w = false → wk_stopped w' = true → b = true.
Proof.
  intros Ha Hs Hs'. destruct b; [done|]. exfalso. destruct st as [take|t|]; simpl in Ha.
  - unfold worker_poll in Ha. rewrite Hs in Ha. destruct (wk_state w); [|simplify_eq; congruence].
    unfold poll_for_work in Ha. destruct (wk_rx w); simplify_eq/=; congruence.
  - destruct sleeping; [simplify_eq; congruence|]. unfold worker_process in Ha. rewrite Hs in Ha.
    destruct (wk_state w) as [|msg]; [simpl in Ha; simplify_eq; congruence|].
    destruct (process_message _ _ _ _ _ _ _ _) as [[w1 e1]|] eqn:E; [|done]. simpl in Ha. simplify_eq.
    apply process_message_keeps in E as (_ & E & _); [congruence|done|done].
  - destruct sleeping; simpl in Ha; simplify_eq; congruence.
Qed.

(** What a step of a batch worker leaves to do, and whether it ends. *)
Lemma batch_task_act_stops b closed st h (w : batch_worker (T := OffsetTracker)) todo rx w' todo' rx' :
  batch_task_act router to_rfc3339 b closed st h w todo rx = Ret (w', todo', rx') →
  task_inv (BatchTask h w todo) → bw_stopped w = false → closed = false →
  (bw_stopped w' = true → ActStop ∈ todo) ∧ (ActStop ∈ todo' → ActStop ∈ todo ∨ b = true).
Proof.
  intros Ha Hi Hs Hc. destruct st as [now br|now cb jitter]; simpl in Ha.
  - destruct todo as [|a todo]; [|simplify_eq; split; [congruence|auto]].
    destruct (branch_event _ _ _ _ _) as [[ev rest]|] eqn:Eb; [|simplify_eq; split; [congruence|auto]].
    destruct (batch_begin ev w) as [w1 acts] eqn:E. simplify_eq.
    destruct (batch_begin_inv _ _ _ _ (Hi Hs) E) as (_ & _ & _ & Est & _). split; [congruence|].
    intros Hin. right. destruct b; [done|]. exfalso.
    assert (Hd : ∀ (w1 w2 : batch_worker (T := OffsetTracker)) acts, begin_drain w1 = (w2, acts) → ActStop ∉ acts).
    { intros w1 w2 acts Ed. unfold begin_drain in Ed. destruct (flush_all _). injection Ed as _ <-.
      intros (x & Hx & _)%list_elem_of_fmap. done. }
    destruct br, rx as [|m rx]; simpl in Eb; try done; simplify_eq/=.
    + destruct (deadline_ready _ _); [|simplify_eq; by apply not_elem_of_nil in Hin].
      destruct (acc_is_empty _); [simplify_eq; by apply not_elem_of_nil in Hin|]. by eapply Hd.
    + destruct (deadline_ready _ _); [|simplify_eq; by apply not_elem_of_nil in Hin].
      destruct (acc_is_empty _); [simplify_eq; by apply not_elem_of_nil in Hin|]. by eapply Hd.
    + destruct (begin_pressure m w) as [w2 a2] eqn:Ep. simplify_eq. unfold begin_pressure in Ep.
      assert (ActStop ∈ a2) as H2 by (unfold message_actions in Hin; set_solver).
      repeat case_match; simplify_eq; try by apply not_elem_of_nil in H2. by eapply Hd.
  - destruct todo as [|a todo]; [simplify_eq; split; [congruence|auto]|].
    destruct (batch_act _ _ _ _ _ _ _ _) as [w1|] eqn:E; [|done]. simpl in Ha. simplify_eq.
    apply (batch_act_flow _ _ _ _ _ _ _ _ _ _ (Hi Hs)) in E as (_ & _ & Est & _).
    split; [|intros Hin; left; by right]. rewrite Est. destruct a; try congruence. intros _. by left.
Qed.

Lemma task_stop_signal (st st' : stream_state KafkaError Source) :
  task_stop st = Ret st' → ss_loop st ≠ LoopNone →
  ss_signal st' = true ∧ ss_loop st' = ss_loop st ∧ ss_task st' = ss_task st.
Proof.
  unfold task_stop, runner_stop. intros Hs Hl.
  destruct (ss_coord st) as [co|]; [destruct (begin_draining co); [|done]|];
    simpl in Hs; injection Hs as <-; simpl; (split; [|done]); by destruct (ss_loop st).
Qed.

(** ** Every step refines the protocol *)

Abbreviation step := (system_step router to_rfc3339 handlers topics).

Definition is_api_stop (ev : system_event) : bool := match ev with SyApiStop => true | _ => false end.

Lemma worker_refines api t0 i ev (s s' : sys) :
  system_inv topics t0 s → end_inv s → sys_worker router to_rfc3339 handlers topics i ev s = Ret s' →
  rtc (rt_step api) (rt_of s) (rt_of s') ∧ end_inv s'.
Proof.
  intros I [J1 J2 J3] Hr. unfold sys_worker in Hr.
  destruct (topics !! i) as [tp|] eqn:Hi; [|by simplify_eq].
  destruct (sy_workers s !! i) as [t|] eqn:Hw; [|by simplify_eq].
  destruct (task_stopped t) eqn:Hs; [by simplify_eq|].
  destruct (sv_topic _ _ _ I i tp t Hi Hw) as [[_ (e0 & He & Hc & _)] Hinv].
  assert (Hgen : ∀ t' rx' e', (task_stopped t' = true → token s = true) →
    (∀ h w todo, t' = BatchTask h w todo → bw_stopped w = false → ActStop ∈ todo → token s = true) →
    rtc (rt_step api) (rt_of s) (rt_of (worker_step i tp rx' t' e' s)) ∧ end_inv (worker_step i tp rx' t' e' s)).
  { intros t' rx' e' Hst Htodo. split; [|split; [exact J1|exact J2|]].
    - pose proof (running_insert _ _ _ t' Hw Hs) as Hn. destruct (task_stopped t') eqn:Es'.
      + apply rtc_once. assert (rt_of (worker_step i tp rx' t' e' s) =
          rt_with_workers (running (<[i := t']> (sy_workers s))) (S (rt_exited (rt_of s))) (rt_main (rt_of s)) (rt_of s)) as ->.
        { unfold rt_of, worker_step. cbn [sy_life sy_stream sy_workers sy_commit]. by rewrite Es'. }
        apply rs_worker_exit; [by apply Hst|]. exact Hn.
      + assert (rt_of (worker_step i tp rx' t' e' s) = rt_of s) as ->; [|done].
        unfold rt_of, worker_step. cbn [sy_life sy_stream sy_workers sy_commit]. rewrite Es'.
        simpl in Hn. by rewrite Hn.
    - cbn [worker_step sy_workers]. intros j h w todo Hj. destruct (decide (i = j)) as [<-|Hij].
      + rewrite list_lookup_insert_eq in Hj by (by eapply lookup_lt_Some). injection Hj as ->. by eapply Htodo.
      + rewrite list_lookup_insert_ne in Hj by done. by apply (J3 j h). }
  destruct t as [w sl|h w todo], ev as [st|st]; try by simplify_eq.
  - destruct (single_act _ _ _ _ _ _ _ _ _) as [[[w' sl'] e']|] eqn:E; [|done].
    cbn [obind fst snd] in Hr. injection Hr as <-. apply Hgen; [|done].
    intros Hs'. by eapply single_act_stops.
  - destruct (batch_task_act _ _ _ _ _ _ _ _ _) as [[[w' todo'] rx']|] eqn:E; [|done].
    cbn [obind fst snd] in Hr. injection Hr as <-.
    apply batch_task_act_stops in E as [E1 E2]; [|intros _; apply steps_inv_env; by apply Hinv|done|].
    2: { unfold receiver_closed. by rewrite He, Hc. }
    apply Hgen.
    + intros Hs'. by apply (J3 i h w todo), E1.
    + intros ? ? ? [= <- <- <-] _ Hin. destruct (E2 Hin) as [Hin'|Hb]; [|done]. by apply (J3 i h w todo).
Qed.

Lemma end_inv_frame (s s' : sys) :
  end_inv s → ss_loop (sy_stream s') = ss_loop (sy_stream s) ∧ ss_task (sy_stream s') = ss_task (sy_stream s) →
  (ss_signal (sy_stream s) = true → ss_signal (sy_stream s') = true) →
  sy_workers s' = sy_workers s → (token s = true → token s' = true) → end_inv s'.
Proof.
  intros [J1 J2 J3] [El Et] Eg Ew Htok. split.
  - by rewrite El.
  - unfold loop_ended, receiver_dropped in *. rewrite El, Et. intros He. destruct (J2 He); auto.
  - rewrite Ew. eauto.
Qed.

Lemma stop_refines (s s' : sys) :
  sys_stop s = Ret s' → end_inv s →
  sy_life s' = sy_life s ∧ end_inv s' ∧
  rt_of s' = rt_with_signal (rt_coord (rt_of s)) (rt_token (rt_of s)) true (rt_signal (rt_of s)) (rt_of s).
Proof.
  unfold sys_stop. intros Hs J. destruct (task_stop (sy_stream s)) as [st|] eqn:E; [|done].
  cbn [obind] in Hs. injection Hs as <-. destruct (task_stop_signal _ _ E (ev_loop _ J)) as (E1 & E2 & E3).
  split_and!; [done| |].
  - apply (end_inv_frame s); done.
  - unfold rt_of, rt_with_signal. cbn. unfold receiver_dropped. by rewrite E1, E3.
Qed.

Lemma loop_step_ended e (st st' : stream_state KafkaError Source) :
  loop_step true e st = Some st' → ss_loop st ≠ LoopNone →
  ss_loop st' ≠ LoopNone ∧ ss_signal st' = ss_signal st ∧ ss_task st' = ss_task st ∧
  (loop_ended st' = true → ss_signal st' = true ∨ receiver_dropped st' = true).
Proof.
  unfold loop_step, broadcast_ready, loop_ended, receiver_dropped. cbn [negb andb]. intros Hs Hl.
  destruct (ss_loop st) eqn:El, e; try done; repeat (case_match; try done); simplify_eq/=;
    rewrite ?orb_false_r in *; split_and!; auto; congruence.
Qed.

Lemma step_refines api t0 ev (s s' : sys) :
  NoDup topics → length (sy_workers s) = length topics →
  system_inv topics t0 s → end_inv s → step s ev = Ret s' → (is_api_stop ev = true → api = true) →
  rtc (rt_step api) (rt_of s) (rt_of s') ∧ end_inv s'.
Proof.
  intros Hnd Hlen I J Hs Hapi. destruct ev as [e|c|i ev|rd tick d|d|rd r|r|dl| | |rd now]; simpl in Hs.
  - injection Hs as <-. destruct (loop_step true e (sy_stream s)) as [st|] eqn:E; [|by split].
    destruct (loop_step_ended _ _ _ E (ev_loop _ J)) as (E1 & E2 & E3 & E4). split.
    + assert (rt_of (sys_with_stream st s) = rt_of s) as ->; [|done].
      unfold rt_of. cbn. unfold receiver_dropped. by rewrite E2, E3.
    + split; [done|done|apply (ev_stop _ J)].
  - injection Hs as <-. unfold sys_dispatch. destruct (ss_task (sy_stream s)) eqn:Et; try by split.
    destruct (ss_channel (sy_stream s)) as [|item ch].
    + destruct (loop_ended (sy_stream s)) eqn:El; [|by split]. split.
      * apply rtc_once. assert (receiver_dropped (sy_stream s) = false) as Hd by (unfold receiver_dropped; by rewrite Et).
        apply (rs_dispatcher api (rt_of s)); [|done].
        destruct (ev_ended _ J El) as [|Hd']; [done|congruence].
      * split; [apply (ev_loop _ J)|by right|apply (ev_stop _ J)].
    + split; [|split; [apply (ev_loop _ J)| |apply (ev_stop _ J)]].
      * match goal with |- rtc _ _ ?r => assert (r = rt_of s) as ->; [|done] end.
        unfold rt_of. cbn. unfold receiver_dropped. by rewrite Et.
      * intros El. destruct (ev_ended _ J El) as [|Hd]; [by left|].
        unfold receiver_dropped in Hd. by rewrite Et in Hd.
  - by eapply worker_refines.
  - injection Hs as <-. split; [|by apply (end_inv_frame s)].
    set (w := sys_committer (sy_commit s) s).
    assert (Hk : cw_coord (committer_turn rd commit_config_default tick d w) = cw_coord w ∧
      (cw_exited (committer_turn rd commit_config_default tick d w) = cw_exited w ∨
       cw_exited w = false ∧ is_done (cw_coord w) = true ∧ cw_exited (committer_turn rd commit_config_default tick d w) = true)).
    { unfold committer_turn. destruct (cw_exited w) eqn:Ex; [auto|]. destruct (is_done (cw_coord w)) eqn:Ed; [auto|].
      repeat case_match; simpl; auto. }
    destruct Hk as [K1 [K2|(K2 & K3 & K4)]].
    + assert (rt_of (sys_commit rd tick d s) = rt_of s) as ->; [|done].
      unfold rt_of, sys_commit. cbn [sys_with_commit sy_commit sy_stream sy_life sy_workers]. fold w. by rewrite K1, K2.
    + apply rtc_once. assert (rt_of (sys_commit rd tick d s) = rt_with_tasks (rt_dispatcher_done (rt_of s)) true (rt_of s)) as ->.
      { unfold rt_of, sys_commit. cbn [sys_with_commit sy_commit sy_stream sy_life sy_workers]. fold w. by rewrite K1, K4. }
      by apply rs_committer.
  - injection Hs as <-. split; [done|by apply (end_inv_frame s)].
  - injection Hs as <-. unfold sys_pre_rebalance. destruct (pre_rebalance _ _ _ _ _).
    split; [done|by apply (end_inv_frame s)].
  - injection Hs as <-. split; [done|by apply (end_inv_frame s)].
  - injection Hs as <-. split; [done|by apply (end_inv_frame s)].
  - unfold sys_signal in Hs. destruct (lf_signal (sy_life s)) eqn:G.
    + injection Hs as <-. split; [|by apply (end_inv_frame s)]. apply rtc_once. by apply (rs_signal api (rt_of s)).
    + destruct (begin_draining _) as [[c tokens]|] eqn:E; [|done]. injection Hs as <-.
      split; [|by apply (end_inv_frame s)]. apply rtc_once. by apply (rs_drain api (rt_of s) c tokens).
    + injection Hs as <-. split; [|by apply (end_inv_frame s)]. apply rtc_once. by apply (rs_cancel api (rt_of s)).
    + destruct (sys_stop s) as [s1|] eqn:E; [|done]. injection Hs as <-.
      destruct (stop_refines _ _ E J) as (E1 & E2 & E3). split; [|by apply (end_inv_frame s1); [..|unfold token; rewrite E1]].
      apply rtc_once. assert (rt_of (sys_with_life (lf_with_signal SigDone (sy_life s)) s1) =
        rt_with_signal (rt_coord (rt_of s)) (rt_token (rt_of s)) true SigDone (rt_of s)) as ->.
      { assert (rt_of (sys_with_life (lf_with_signal SigDone (sy_life s)) s1) =
          rt_with_signal (rt_coord (rt_of s1)) (rt_token (rt_of s)) (rt_runner_stopped (rt_of s1)) SigDone
            (rt_with_workers (rt_workers (rt_of s1)) (rt_exited (rt_of s)) (rt_main (rt_of s)) (rt_of s1))) as -> by done.
        by rewrite E3. }
      by apply rs_stop_runner.
    + injection Hs as <-. by split.
  - injection Hs as <-. split; [|by apply (end_inv_frame s)].
    destruct (lf_token (sy_life s)) eqn:T.
    + assert (rt_of (sys_with_life (lf_with_token true (sy_life s)) s) = rt_of s) as ->; [|done].
      unfold rt_of. cbn. by rewrite T.
    + apply rtc_once. apply (rs_api_stop api (rt_of s)); [by apply Hapi|done].
  - unfold sys_main in Hs. destruct (lf_main (sy_life s)) eqn:G; cbv zeta in Hs.
    + injection Hs as <-. split; [|by apply (end_inv_frame s)]. apply rtc_once.
      destruct (lf_token (sy_life s)) eqn:T; [by apply (rs_check_stop api (rt_of s))|by apply (rs_check_run api (rt_of s))].
    + destruct (lf_exited (sy_life s)) as [|k] eqn:E.
      * case_decide as Hw; injection Hs as <-; [|by split]. split; [|by apply (end_inv_frame s)].
        apply rtc_once. assert (rt_of (sys_with_life (lf_with_main 0 MainCheck (sy_life s)) s) =
          rt_with_main MainCheck (rt_of s)) as ->. { unfold rt_of, rt_with_main. cbn. by rewrite E. }
        by apply rs_join_empty.
      * injection Hs as <-. split; [|by apply (end_inv_frame s)]. apply rtc_once. by apply (rs_join api (rt_of s) k).
    + injection Hs as <-. split.
      * apply rtc_once. assert (rt_of (sys_abort topics s) = rt_with_workers 0 0 MainDrained (rt_of s)) as ->.
        { unfold rt_of, sys_abort, rt_with_workers. cbn [sy_workers sy_life sy_stream sy_commit]. by rewrite running_aborted. }
        by apply rs_abort_workers.
      * split; [apply (ev_loop _ J)|apply (ev_ended _ J)|]. intros i h w todo Hw Hst.
        cbn [sys_abort sy_workers] in Hw. rewrite list_lookup_fmap in Hw.
        destruct (sy_workers s !! i) as [t|]; [|done]. injection Hw as Hw.
        pose proof (abort_stopped t) as Ha. rewrite Hw in Ha. simpl in Ha. congruence.
    + unfold sys_finish in Hs.
      destruct (if decide (phase (cw_coord (sy_commit s)) = Draining) then _ else _) as [c|] eqn:Ec; [|done]. cbn [obind] in Hs.
      set (s1 := {| sy_life := lf_with_main _ MainDispatcher _ |}) in Hs.
      assert (end_inv s1) as J1 by (by apply (end_inv_frame s)).
      destruct (stop_refines _ _ Hs J1) as (E1 & E2 & E3). split; [|done].
      apply rtc_once. apply (rs_finish api (rt_of s)); [done|]. rewrite E3. unfold finish_shutdown.
      cbn [rt_coord rt_of]. rewrite Ec. by cbn [obind].
    + destruct (receiver_dropped (sy_stream s)) eqn:Hd; injection Hs as <-; [|by split].
      split; [|by apply (end_inv_frame s)]. apply rtc_once. by apply (rs_await_dispatcher api (rt_of s)).
    + destruct (cw_exited (sy_commit s)) eqn:Hd; injection Hs as <-; [|by split].
      split; [|by apply (end_inv_frame s)]. apply rtc_once. by apply (rs_await_committer api (rt_of s)).
    + injection Hs as <-. by split.
Qed.

Lemma run_refines_inv api evs (s0 s : sys) :
  system_init topics s0 → (api = false → SyApiStop ∉ evs) →
  system_run router to_rfc3339 handlers topics evs s0 = Ret s →
  end_inv s ∧ rtc (rt_step api) (rt_of s0) (rt_of s).
Proof.
  intros Hi Hapi Hr.
  assert (end_inv s0) as J0.
  { split.
    - by rewrite (in_stream _ _ Hi).
    - by rewrite (in_stream _ _ Hi).
    - intros i h w todo Hw _ Hin. pose proof (Forall_lookup_1 _ _ _ _ (in_workers _ _ Hi) Hw) as Ht. cbn beta iota in Ht.
      destruct Ht as (_ & _ & _ & _ & ->). by apply not_elem_of_nil in Hin. }
  refine (proj2 (proj2 (ofold_inv (λ s, system_inv topics (we_offsets (sy_env s0)) s ∧ length (sy_workers s) = length topics ∧
    end_inv s ∧ rtc (rt_step api) (rt_of s0) (rt_of s)) _ evs _ s0 s _ Hr))).
  - intros a ev a' Hin (I & L & J & Hrt) Hs.
    assert (is_api_stop ev = true → api = true) as Ha.
    { destruct ev; try done. intros _. destruct api; [done|]. by destruct (Hapi eq_refl). }
    destruct (step_refines api _ _ _ _ (in_topics _ _ Hi) L I J Hs Ha) as [Hst J'].
    split_and!; [|by rewrite (system_step_workers _ _ _ _ _ _ _ Hs)|done|by etrans].
    by eapply system_step_inv; [apply (in_topics _ _ Hi)|..].
  - split_and!; [by apply init_system_inv|apply Hi|done|done].
Qed.

Lemma run_refines api evs (s0 s : sys) :
  system_init topics s0 → (api = false → SyApiStop ∉ evs) →
  system_run router to_rfc3339 handlers topics evs s0 = Ret s →
  rtc (rt_step api) (rt_of s0) (rt_of s).
Proof. intros Hi Hapi Hr. by apply (run_refines_inv api evs s0 s). Qed.

End shutdown.

(** ** The property *)

Section runtime.
Context {KafkaError Source : Type} (to_rfc3339 : Z → string).
Context {HOs : HashOrder string} {HOk : HashOrder TopicPartitionKey} {HOz : HashOrder Z}.

Abbreviation sys := (system KafkaError Source).

Lemma running_all ts : Forall (λ t, task_stopped t = false) ts → running ts = length ts.
Proof.
  unfold running. induction 1 as [|t ts Ht _ IH]; [done|]. rewrite filter_cons, decide_True by done. simpl. by rewrite IH.
Qed.

Lemma running_none ts : running ts = O → Forall (λ t, task_stopped t = true) ts.
Proof.
  unfold running. induction ts as [|t ts IH]; [constructor|]. rewrite filter_cons.
  destruct (decide (task_stopped t = false)) as [E|E]; [done|]. intros Hr.
  constructor; [by apply not_false_is_true|by apply IH].
Qed.

(** A token that [Consumer.stop] has cancelled before the start is one that it
    cancels first thing after it. *)
Lemma rt_of_start kafka env_mode env cfg calls rt c clock (s0 : sys) api :
  build kafka env (py_run env_mode cfg calls) = Ret (Ok rt) →
  runtime_system c clock rt = Ret s0 → (api = false → CallStop ∉ calls) →
  rtc (rt_step api) (rt_init (drain_timeout_secs (rn_config rt)) (length (rn_workers rt))) (rt_of s0).
Proof.
  intros Hb Hr Hapi. pose proof (runtime_system_init _ _ _ _ _ _ _ _ _ Hb Hr) as Hi.
  assert (running (sy_workers s0) = length (rn_workers rt)) as Hw.
  { rewrite running_all; [rewrite (in_length _ _ Hi); apply length_map|].
    eapply Forall_impl; [apply (in_workers _ _ Hi)|]. intros [w sl|h w todo]; [by intros [-> _]|by intros (_ & ? & _)]. }
  destruct (build_fields _ _ _ _ Hb) as (Hco & Htk & _).
  unfold runtime_system in Hr. destruct (start_workers _ _) as [ws|]; [|done]. cbn [obind] in Hr.
  injection Hr as <-. unfold rt_of. cbn in Hw |- *. rewrite Hw, Hco.
  destruct (rn_token rt) eqn:Et; [|done]. symmetry in Htk. apply py_run_token in Htk.
  apply rtc_once. apply (rs_api_stop api); [|done]. destruct api; [done|]. by destruct (Hapi eq_refl).
Qed.

(** Only the signal task moves the signal. *)
Lemma system_step_signal (router : DefaultDlqRouter) handlers topics ev (s s' : sys) :
  system_step router to_rfc3339 handlers topics s ev = Ret s' → ev ≠ SySignal →
  lf_signal (sy_life s') = lf_signal (sy_life s).
Proof.
  destruct ev as [e|c|i ev|rd tick d|d|rd r|r|dl| | |rd now]; simpl; intros Hs Hne; try done.
  - injection Hs as <-. by destruct (loop_step _ _ _).
  - injection Hs as <-. unfold sys_dispatch. by repeat case_match.
  - unfold sys_worker in Hs. destruct (topics !! i), (sy_workers s !! i) as [t|]; try (by injection Hs as <-).
    destruct (task_stopped t); [by injection Hs as <-|].
    destruct t, ev; try (by injection Hs as <-);
      [destruct (single_act _ _ _ _ _ _ _ _ _)|destruct (batch_task_act _ _ _ _ _ _ _ _ _)]; try done;
      by injection Hs as <-.
  - by injection Hs as <-.
  - by injection Hs as <-.
  - injection Hs as <-. unfold sys_pre_rebalance. by destruct (pre_rebalance _ _ _ _ _).
  - by injection Hs as <-.
  - by injection Hs as <-.
  - by injection Hs as <-.
  - unfold sys_main, sys_finish, sys_stop in Hs. destruct (lf_main _); try (repeat case_match; by simplify_eq).
    destruct (if decide _ then _ else _); [|done]. cbn [obind] in Hs.
    destruct (task_stop _); [|done]. by injection Hs as <-.
Qed.

Lemma runtime_unsignalled rt evs (s0 s : sys) :
  runtime_run to_rfc3339 rt evs s0 = Ret s → SySignal ∉ evs →
  lf_signal (sy_life s) = lf_signal (sy_life s0).
Proof.
  intros Hr Hn. refine (ofold_inv (λ s, lf_signal (sy_life s) = lf_signal (sy_life s0)) _ evs _ s0 s eq_refl Hr).
  intros a ev a' Hin Ha Hs. rewrite <- Ha. apply (system_step_signal _ _ _ _ _ _ Hs). by intros ->.
Qed.

(** C20: The running runtime ends as its shutdown protocol does.  In every run of a
    runtime built after any calls of the program, in every interleaving of its
    tasks, what is seen of the phases, the token and the tasks is a run of the
    protocol (of the one without [Consumer.stop] when it was called neither before
    nor after the start).  So once the token is cancelled only finitely many
    protocol steps are left, and when [Runtime::run] has returned every worker has
    ended, the dispatcher has closed its stream, the committer has exited, and the
    coordinator is in its last phase.  Without a signal it never returns, however
    often [Consumer.stop] was called: the coordinator stays in its first phase and
    the committer never ends. *)
Theorem runtime_refines_shutdown_protocol kafka env_mode env cfg calls rt c clock (s0 : sys) evs s api :
  build kafka env (py_run env_mode cfg calls) = Ret (Ok rt) →
  runtime_system c clock rt = Ret s0 →
  runtime_run to_rfc3339 rt evs s0 = Ret s →
  (api = false → (CallStop ∉ calls) ∧ (SyApiStop ∉ evs)) →
  rtc (rt_step api) (rt_init (drain_timeout_secs (rn_config rt)) (length (rn_workers rt))) (rt_of s) ∧
  (token s = true → sn (rt_step api) (rt_of s)) ∧
  (lf_main (sy_life s) = MainDone →
     Forall (λ t, task_stopped t = true) (sy_workers s) ∧ receiver_dropped (sy_stream s) = true ∧
     cw_exited (sy_commit s) = true ∧ phase (cw_coord (sy_commit s)) = Done) ∧
  (SySignal ∉ evs →
     phase (cw_coord (sy_commit s)) = Running ∧ cw_exited (sy_commit s) = false ∧ lf_main (sy_life s) ≠ MainDone).
Proof.
  intros Hb Hr0 Hr Hapi. pose proof (runtime_system_init _ _ _ _ _ _ _ _ _ Hb Hr0) as Hi.
  pose proof (rt_of_start _ _ _ _ _ _ _ _ _ api Hb Hr0 (λ H, proj1 (Hapi H))) as Hst.
  pose proof (run_refines _ _ _ _ api _ _ _ Hi (λ H, proj2 (Hapi H)) Hr) as Href.
  pose proof (transitivity Hst Href) as H. clear Hst Href.
  destruct (ended_inv_reachable _ _ _ _ H) as (E1 & E2 & E3 & E4). cbn [rt_of rt_main rt_workers rt_dispatcher_done
    rt_committer_done rt_coord] in *.
  split_and!; [done|intros Ht; by apply rt_terminates| |].
  - intros M. rewrite M in *. split_and!; [apply running_none, E1; set_solver|apply E2; set_solver|by apply E3|by apply E4, E3].
  - intros Hn. apply (unsignalled_reachable _ _ _ _ H). cbn [rt_of rt_signal].
    rewrite (runtime_unsignalled _ _ _ _ Hr Hn), (in_life _ _ Hi). simpl. lia.
Qed.

End runtime.

(** ** Witness *)

(** The batch run, then a signal, and every task ends. *)
Definition demo_shutdown_events : list system_event :=
  demo_batch_events ++ [SySignal; SySignal; SySignal; SySignal] ++
  [SyMain (λ _, true) 0; SyMain (λ _, true) 0; SyMain (λ _, true) 0; SyLoop LvSignal; SyDispatch good_client;
   SyMain (λ _, true) 0; SyCommit (λ _, true) false 1; SyMain (λ _, true) 0].

Abbreviation demo_ended := (demo_outcome (λ _ _ s _, lf_main (sy_life s)) demo_shutdown_events).

Lemma demo_ended_eq : demo_ended (demo_build demo_batch_calls) = Some MainDone.
Proof. vm_compute. reflexivity. Qed.

Lemma demo_no_api_stop : false = false → (CallStop ∉ demo_batch_calls) ∧ (SyApiStop ∉ demo_shutdown_events).
Proof.
  intros _. split; [intros Hin; by apply list_elem_of_singleton in Hin|]. intros Hin. assert (existsb is_api_stop demo_shutdown_events = true) as E.
  { apply existsb_exists. exists SyApiStop. split; [by apply list_elem_of_In|done]. }
  vm_compute in E. discriminate E.
Qed.

Lemma runtime_refines_shutdown_protocol_witness :
  ∃ rt (s : system string string), demo_build demo_batch_calls = Ret (Ok rt) ∧
    rtc (rt_step false) (rt_init (drain_timeout_secs (rn_config rt)) (length (rn_workers rt))) (rt_of s) ∧
    Forall (λ t, task_stopped t = true) (sy_workers s) ∧ phase (cw_coord (sy_commit s)) = Done.
Proof.
  destruct (demo_outcome_inv _ _ _ _ demo_ended_eq) as (rt & s0 & s & t & E & E0 & Er & _ & Em). cbv beta in Em.
  destruct (runtime_refines_shutdown_protocol (HOs := hash_order_canonical string)
    (HOk := hash_order_canonical TopicPartitionKey) (HOz := hash_order_canonical Z) (λ _, "now") demo_kafka None
    (Some "8") demo_py_config demo_batch_calls rt good_client 0 s0 demo_shutdown_events s false
    E E0 Er demo_no_api_stop) as (H1 & _ & H2 & _).
  destruct (H2 Em) as (H3 & _ & _ & H4). exists rt, s. exact (conj E (conj H1 (conj H3 H4))).
Defined.
