(* ===== verification/PipelineSafe.v ===== *)
(** * The running runtime: no task panics

    Every task of a runtime, in every interleaving, meets only states in which its
    code is defined: a handler for its topic, offsets it may acknowledge, attempts
    within the retry policy, phases in their order. *)

From stdpp Require Import base gmap sets list strings relations.
From S2P Require Import Prelude F64 Metrics FromStr Failure Message Shutdown Runner Dlq OffsetTracker OffsetProofs Retry Commit Queue Dispatcher Execution PoolState Worker Batch BatchSteps FanOut Pool Context Config Builder Task Pipeline PipelineProofs PipelineRuntime PipelineShutdown.

(** ** The retry coordinator *)

(** Every message is within the attempts of the policy. *)
Definition retry_ok (p : RetryPolicy) (rc : RetryCoordinator) : Prop :=
  default_policy rc = p ∧ ∀ k, ∃ n, rc_state rc !! k = state_after (max_attempts p) n.

(** A random draw that gives a delay for every attempt that is retried. *)
Definition draw_ok (p : RetryPolicy) (j : f64) : Prop :=
  ∀ n : nat, Z.of_nat n + 1 < max_attempts p → is_ret (next_delay (schedule p) (Z.of_nat n) j) = true.

Lemma retry_new_ok p : retry_ok p (retry_coordinator_new p).
Proof. split; [done|]. intros k. by exists 0%nat. Qed.

Lemma record_success_ok p k rc : retry_ok p rc → retry_ok p (record_success k rc).
Proof.
  intros [Hp Hs]. split; [done|]. intros k'. simpl. destruct (decide (k' = k)) as [->|].
  - exists 0%nat. apply lookup_delete_eq.
  - rewrite lookup_delete_ne by done. apply Hs.
Qed.

Lemma record_failure_ok p k reason j rc :
  0 ≤ max_attempts p < 2 ^ 64 → draw_ok p j → retry_ok p rc →
  ∃ r, record_failure k reason j rc = Ret r ∧ retry_ok p r.2.
Proof.
  intros HM Hj [Hp Hs]. destruct (decide (category reason = Retryable)) as [Hc|Hc].
  - destruct (Hs k) as [n Hn]. subst p.
    destruct (record_failure_step k reason j rc n Hc HM Hn) as (d & rc' & Hr & Hp & Hn' & _); [by apply Hj|].
    exists (d, rc'). split; [done|]. split; [done|]. intros k'. cbn [snd]. destruct (decide (k = k')) as [<-|Hne].
    + by eexists.
    + destruct (record_failure_other k k' _ _ _ _ _ Hr Hne) as [-> _]. apply Hs.
  - exists (to_dlq, rc). unfold record_failure. by rewrite bool_decide_false.
Qed.

(** ** The steps of the workers *)

Section workers.
Context {R : Type} `{DlqRouter R} (router : R) (to_rfc3339 : Z → string).
Context {HOs : HashOrder string} {HOk : HashOrder TopicPartitionKey} {HOz : HashOrder Z}.
Context (handlers : gmap string PythonHandler) (p : RetryPolicy).
Hypothesis attempts_ok : 0 ≤ max_attempts p < 2 ^ 64.

Abbreviation env := (worker_env (T := OffsetTracker)).

Lemma handle_result_ok r ctx msg j now (e : env) :
  0 ≤ ctx_offset ctx → draw_ok p j → retry_ok p (we_retry e) →
  ∃ a, handle_execution_result router to_rfc3339 r ctx msg j now e = Ret a ∧ retry_ok p (we_retry a.2).
Proof.
  intros Ho Hj Hr. assert (r = ResOk ∨ r ≠ ResOk) as [->|Hne] by (destruct r; auto).
  - simpl. unfold tracker_ack. rewrite decide_True by done. simpl. eexists. split; [done|].
    by apply record_success_ok.
  - rewrite handle_failed_result by done. cbv zeta. unfold handle_execution_failure.
    rewrite failure_of_reason by done. cbn [obind].
    edestruct (record_failure_ok p (ctx_key ctx) (result_reason r) j) as ([[[retry dlq] delay] rc] & Hf & Hrc);
      [done|exact Hj|exact Hr|].
    cbn [we_retry we_with_offsets]. rewrite Hf. cbn [obind fst snd] in *.
    repeat case_match; eexists; (split; [done|]); done.
Qed.

Lemma process_message_ok i t msg w (e : env) :
  is_Some (handlers !! topic msg) → 0 ≤ offset msg → draw_ok p (tn_jitter t) → retry_ok p (we_retry e) →
  ∃ r, process_message router to_rfc3339 handlers i t msg w e = Ret r ∧ retry_ok p (we_retry r.2).
Proof.
  intros [h Hh] Ho Hj Hr. unfold process_message, handler_for_topic. rewrite Hh. cbn [obind].
  edestruct (handle_result_ok (invoke_mode_with_timeout h (message_context i msg) msg (tn_callback t)).1
    (message_context i msg) msg (tn_jitter t) (tn_now t)) as ([a e1] & Ha & Hre); [exact Ho|exact Hj| |].
  2: { rewrite Ha. cbn [obind fst snd] in *. repeat case_match; eexists; (split; [done|]); done. }
  exact Hr.
Qed.

(** What the outside decides in a step of a worker. *)
Definition step_ok (ev : worker_event) : Prop :=
  match ev with
  | WeSingle (StepProcess t) => draw_ok p (tn_jitter t)
  | WeBatch (StepAct _ _ jitter) => ∀ o, draw_ok p (jitter o)
  | _ => True
  end.

Lemma single_act_ok i b st w sleeping (e : env) :
  step_ok (WeSingle st) → retry_ok p (we_retry e) →
  (∀ m, m ∈ held w → is_Some (handlers !! topic m) ∧ 0 ≤ offset m) →
  ∃ r, single_act router to_rfc3339 handlers i b st w sleeping e = Ret r ∧ retry_ok p (we_retry r.2).
Proof.
  intros Hst Hr Hw. destruct st as [take|t|]; cbn [single_act].
  - assert (we_retry (worker_poll i b take w e).2 = we_retry e) as E
      by (unfold worker_poll; by repeat case_match).
    destruct (worker_poll i b take w e) as [w1 e1]. eexists. split; [done|]. cbn [snd] in *. by rewrite E.
  - destruct sleeping; [eexists; split; [done|]; done|]. unfold worker_process.
    destruct (wk_stopped w); [eexists; split; [done|]; done|].
    destruct (wk_state w) as [|msg] eqn:Ew; [eexists; split; [done|]; done|].
    destruct (Hw msg) as [Hh Ho]; [unfold held; rewrite Ew; by left|].
    edestruct (process_message_ok i (turn_cancelled b false t) msg w e) as (r & -> & Hre); [done..|].
    cbn [obind]. eexists. split; [done|]. exact Hre.
  - destruct sleeping; [|by eexists]. unfold worker_wake. destruct b; by eexists.
Qed.

Lemma ack_offsets_ok tp q os : ∀ e : env,
  Forall (λ o, 0 ≤ o) os → retry_ok p (we_retry e) →
  ∃ e', ofold (ack_offset tp q) e os = Ret e' ∧ retry_ok p (we_retry e').
Proof.
  induction os as [|o os IH]; intros e Ho Hr; [by exists e|]. apply Forall_cons in Ho as [Ho Hos].
  cbn [ofold]. unfold ack_offset at 1. simpl. unfold tracker_ack. rewrite decide_True by done. cbn [obind].
  apply IH; [done|]. by apply record_success_ok.
Qed.

Lemma fail_messages_ok tp q reason jitter now batch : ∀ e : env,
  (∀ o, draw_ok p (jitter o)) → retry_ok p (we_retry e) →
  ∃ e', ofold (fail_message router to_rfc3339 tp q reason jitter now) e batch = Ret e' ∧ retry_ok p (we_retry e').
Proof.
  induction batch as [|m batch IH]; intros e Hj Hr; [by exists e|]. cbn [ofold]. unfold fail_message at 1.
  destruct (record_failure_ok p (tp, q, offset m) reason (jitter (offset m)) (we_retry e))
    as ([[[retry dlq] delay] rc] & -> & Hrc); [done..|].
  cbn [obind fst snd] in *. destruct (dlq || retry); cbn [obind]; by apply IH.
Qed.

Lemma flush_batch_ok h cb jitter now (w : batch_worker (T := OffsetTracker)) pb :
  h_mode h = BatchSync → Forall (λ m, 0 ≤ offset m) pb.2 → (∀ o, draw_ok p (jitter o)) →
  retry_ok p (we_retry (bw_env w)) →
  ∃ w', flush_partition_batch router to_rfc3339 h cb jitter now w pb = Ret w' ∧ retry_ok p (we_retry (bw_env w')).
Proof.
  intros Hm Ho Hj Hr. unfold flush_partition_batch. destruct pb as [q [|first batch]]; cbn [fst snd] in *; [by exists w|].
  unfold invoke_mode_batch. rewrite Hm. cbn [obind]. unfold handle_batch_result_inline.
  unfold invoke_batch at 1. destruct (py_outcome _).
  - edestruct (ack_offsets_ok (topic first) q (offset <$> first :: batch)) as (e' & Ha & Hre).
    3: { rewrite Ha. cbn [obind]. eexists. split; [done|]. exact Hre. }
    + by apply Forall_fmap.
    + exact Hr.
  - edestruct (fail_messages_ok (topic first) q (classify err) jitter now (first :: batch)) as (e' & Ha & Hre).
    3: { rewrite Ha. cbn [obind]. eexists. split; [done|]. exact Hre. }
    + done.
    + exact Hr.
  - edestruct (fail_messages_ok (topic first) q (ReasonTerminal HandlerPanic) jitter now (first :: batch)) as (e' & Ha & Hre).
    3: { rewrite Ha. cbn [obind]. eexists. split; [done|]. exact Hre. }
    + done.
    + exact Hr.
Qed.

Lemma batch_act_ok h cb jitter now a todo (w : batch_worker (T := OffsetTracker)) :
  h_mode h = BatchSync → steps_inv w (a :: todo) → Forall (λ m, 0 ≤ offset m) (bw_received w) →
  (∀ o, draw_ok p (jitter o)) → retry_ok p (we_retry (bw_env w)) →
  ∃ w', batch_act router to_rfc3339 h cb jitter now a w = Ret w' ∧ retry_ok p (we_retry (bw_env w')).
Proof.
  intros Hm I Ho Hj Hr. rewrite Forall_forall in Ho.
  destruct a as [pb|q|m|]; cbn [batch_act]; [| |by eexists|by eexists].
  - apply flush_batch_ok; [done| |done..]. apply Forall_forall. intros m Hin. apply Ho.
    eapply (pending_received w (ActFlush pb :: todo)); [done| |exact Hin]. by left.
  - unfold flush_if_full. destruct (would_fill_partition q (bw_acc w)); [|by exists w].
    unfold flush_partition. destruct (accumulators (bw_acc w) !! q) as [b|] eqn:Eb; [|by eexists].
    destruct (buf_is_empty b); [by eexists|]. destruct (buf_messages b) as [|first rest] eqn:Em; [by eexists|].
    apply flush_batch_ok; [done| |done..]. cbn [snd]. apply Forall_forall. intros m Hin. apply Ho.
    assert (m ∈ filter (λ m, partition m = q) (bw_received w)) as Hf; [|by apply list_elem_of_filter in Hf as [_ ?]].
    rewrite (sp_conserve _ _ I), !elem_of_app. right. right. unfold buffered. rewrite Eb. simpl. by rewrite Em.
Qed.

Lemma batch_task_act_ok b closed st h w todo rx :
  step_ok (WeBatch st) → h_mode h = BatchSync → steps_inv w todo → Forall (λ m, 0 ≤ offset m) (bw_received w) →
  retry_ok p (we_retry (bw_env w)) →
  ∃ r, batch_task_act router to_rfc3339 b closed st h w todo rx = Ret r ∧ retry_ok p (we_retry (bw_env r.1.1)).
Proof.
  intros Hst Hm I Ho Hr. destruct st as [now br|now cb jitter]; cbn [batch_task_act].
  - destruct todo as [|a todo]; [|by eexists].
    destruct (branch_event b closed now br rx) as [[ev rest]|]; [|by eexists].
    destruct (batch_begin ev w) as [w1 acts] eqn:E. eexists. split; [done|]. cbn [fst].
    destruct (batch_begin_inv _ _ _ _ I E) as (_ & _ & -> & _). done.
  - destruct todo as [|a todo]; [by eexists|].
    destruct (batch_act_ok h (λ _, cb) jitter now a todo w) as (w' & -> & Hre); [done..|].
    cbn [obind]. by eexists.
Qed.

End workers.

(** ** The system *)

(** What the outside decides in an event: the offsets of a broker are not
    negative, and the draws give delays. *)
Definition event_ok (p : RetryPolicy) (ev : system_event) : Prop :=
  match ev with
  | SyLoop (LvRecv (RecvOk b)) => 0 ≤ b_offset b
  | SyWorker _ ev => step_ok p ev
  | _ => True
  end.

Section system.
Context {KafkaError Source R : Type} `{DlqRouter R} (router : R) (to_rfc3339 : Z → string).
Context {HOs : HashOrder string} {HOk : HashOrder TopicPartitionKey} {HOz : HashOrder Z}.
Context (handlers : gmap string PythonHandler) (topics : list string) (p : RetryPolicy).
Hypothesis attempts_ok : 0 ≤ max_attempts p < 2 ^ 64.
Hypothesis topics_handled : ∀ tp, tp ∈ topics → is_Some (handlers !! tp).

Abbreviation sys := (system KafkaError Source).

Record safe_inv (s : sys) : Prop := {
  sf_received : Forall (λ b, 0 ≤ b_offset b) (ss_received (sy_stream s));
  sf_coord : ss_coord (sy_stream s) = None;
  sf_retry : retry_ok p (we_retry (sy_env s));
  sf_batch : ∀ i h w todo, sy_workers s !! i = Some (BatchTask h w todo) → h_mode h = BatchSync
}.

(** A worker has messages of its topic only. *)
Lemma taken_ok t0 s i tp t m :
  system_inv topics t0 s → safe_inv s → topics !! i = Some tp → sy_workers s !! i = Some t →
  m ∈ taken_by t → topic m = tp ∧ 0 ≤ offset m.
Proof.
  intros I F Hi Hw Hm. destruct (sv_topic _ _ _ I i tp t Hi Hw) as [[T _] _].
  destruct (si_flow _ _ (sv_stream _ _ _ I)) as (rest & Hf & _).
  apply sublist_submseteq in T. apply (elem_of_submseteq _ _ _ Hm) in T.
  apply list_elem_of_filter in T as [Ht Hh]. split; [done|].
  assert (m ∈ from_borrowed <$> ss_received (sy_stream s)) as Hin by (rewrite Hf; set_solver).
  apply list_elem_of_fmap in Hin as (b & -> & Hb). pose proof (sf_received _ F) as Ho.
  rewrite Forall_forall in Ho. by apply Ho.
Qed.

Lemma stop_stream_ok s st' :
  ss_coord st' = None → ss_received st' = ss_received (sy_stream s) → safe_inv s →
  ∃ s', sys_stop (sys_with_stream st' s) = Ret s' ∧ safe_inv s'.
Proof.
  intros Hc Hr [F1 F2 F3 F4]. unfold sys_stop, task_stop. cbn [sys_with_stream sy_stream]. rewrite Hc. cbn [runner_stop obind].
  eexists. split; [done|]. split; cbn [sys_with_stream sy_stream ss_received ss_coord]; by rewrite ?Hr.
Qed.

Lemma stop_ok s : safe_inv s → ∃ s', sys_stop s = Ret s' ∧ safe_inv s'.
Proof.
  intros [F1 F2 F3 F4]. unfold sys_stop, task_stop. rewrite F2. cbn [runner_stop obind].
  eexists. split; [done|]. by split.
Qed.

Lemma loop_received e (st st' : stream_state KafkaError Source) :
  loop_step true e st = Some st' →
  ss_coord st' = ss_coord st ∧
  (ss_received st' = ss_received st ∨ ∃ b, e = LvRecv (RecvOk b) ∧ ss_received st' = ss_received st ++ [b]).
Proof.
  unfold loop_step. intros Hs. repeat (case_match; simplify_eq/=; try done);
    (split; [done|]); solve [by left | right; by eexists].
Qed.

Lemma worker_ok t0 i ev s :
  system_inv topics t0 s → safe_inv s → step_ok p ev →
  ∃ s', sys_worker router to_rfc3339 handlers topics i ev s = Ret s' ∧ safe_inv s'.
Proof.
  intros I F Hev. pose proof F as [F1 F2 F3 F4]. unfold sys_worker.
  destruct (topics !! i) as [tp|] eqn:Hi; [|by eexists].
  destruct (sy_workers s !! i) as [t|] eqn:Hw; [|by eexists].
  pose proof (taken_ok t0 s i tp t) as Hm. destruct (task_stopped t) eqn:Hs; [by eexists|].
  assert (Hins : ∀ t' rx e, retry_ok p (we_retry e) →
    (∀ h w todo, t' = BatchTask h w todo → h_mode h = BatchSync) → safe_inv (worker_step i tp rx t' e s)).
  { intros t' rx e Hr Ht. split; cbn [worker_step sy_stream sy_env sy_workers]; [done..|].
    intros j h w todo. destruct (decide (i = j)) as [<-|].
    - rewrite list_lookup_insert_eq by (by apply lookup_lt_Some in Hw). intros [= ->]. by eapply Ht.
    - rewrite list_lookup_insert_ne by done. apply F4. }
  destruct t as [w sl|h w todo], ev as [st|st]; try by eexists.
  - edestruct (single_act_ok router to_rfc3339 handlers p attempts_ok i (token s) st
      (wk_with_rx (receiver_buffer tp (dispatcher (sy_disp s))) w) sl (we_with_queues (dispatcher (sy_disp s)) (sy_env s)))
      as ([[w1 sl1] e1] & -> & Hre); [done|done| |].
    { intros m Hin. destruct (Hm m) as [Ht Ho]; try done; [cbn [taken_by]; apply elem_of_app; by right|].
      split; [|done]. rewrite Ht. apply topics_handled. by eapply list_elem_of_lookup_2. }
    cbn [obind]. eexists. split; [done|]. apply Hins; [exact Hre|done].
  - destruct (sv_topic _ _ _ I i tp _ Hi Hw) as [_ Hk]. specialize (Hk Hs).
    edestruct (batch_task_act_ok router to_rfc3339 p attempts_ok (token s)
      (receiver_closed tp (dispatcher (sy_disp s))) st h (bw_with_env (we_with_queues (dispatcher (sy_disp s)) (sy_env s)) w)
      todo (receiver_buffer tp (dispatcher (sy_disp s)))) as ([[w1 todo1] rx1] & -> & Hre).
    + done.
    + by eapply F4.
    + by apply steps_inv_env.
    + apply Forall_forall. intros m Hin. apply (Hm m); try done. cbn [taken_by]. apply elem_of_app. by left.
    + done.
    + cbn [obind]. eexists. split; [done|]. apply Hins; [exact Hre|]. intros ??? [= <- _ _]. by eapply F4.
Qed.

Lemma abort_handlers (ts : list worker_task) (i : nat) h w todo :
  (abort_worker <$> ts) !! i = Some (BatchTask h w todo) → ∃ w' todo', ts !! i = Some (BatchTask h w' todo').
Proof.
  rewrite list_lookup_fmap. destruct (ts !! i) as [[]|]; simpl; intros E; simplify_eq; eauto.
Qed.

Lemma finish_ok rd now s : safe_inv s → ∃ s', sys_finish router to_rfc3339 rd now s = Ret s' ∧ safe_inv s'.
Proof.
  intros F. unfold sys_finish.
  assert (∃ c, (if decide (phase (cw_coord (sy_commit s)) = Draining)
     then coord_run [CBeginFinalizing; CSetDone] (cw_coord (sy_commit s)) else Ret (cw_coord (sy_commit s))) = Ret c) as [c ->].
  { destruct (decide _) as [E|]; [|by eexists]. simpl. unfold begin_finalizing. rewrite decide_True by done. by eexists. }
  cbn [obind]. apply stop_ok. destruct F as [F1 F2 F3 F4]. by split.
Qed.

Lemma system_step_ok t0 ev s :
  system_inv topics t0 s → safe_inv s → event_ok p ev →
  (lf_signal (sy_life s) = SigReceived → phase (cw_coord (sy_commit s)) = Running) →
  ∃ s', system_step router to_rfc3339 handlers topics s ev = Ret s' ∧ safe_inv s'.
Proof.
  intros I F Hev Hph. pose proof F as [F1 F2 F3 F4].
  destruct ev as [e|c|i ev|rd tick d|d|rd r|r|dl| | |rd now]; cbn [system_step].
  - eexists. split; [done|]. destruct (loop_step true e (sy_stream s)) as [st|] eqn:E; [|done].
    destruct (loop_received _ _ _ E) as [Hc Hr]. split; cbn [sys_with_stream sy_stream]; [|congruence|done..].
    destruct Hr as [->|(b & -> & ->)]; [done|]. apply Forall_app. split; [done|]. by apply Forall_singleton.
  - eexists. split; [done|]. unfold sys_dispatch. destruct (ss_task (sy_stream s)); try done.
    destruct (ss_channel (sy_stream s)); [destruct (loop_ended _); [|done]|]; by split.
  - by eapply worker_ok.
  - eexists. split; [done|]. by split.
  - eexists. split; [done|]. by split.
  - eexists. split; [done|]. unfold sys_pre_rebalance. destruct (pre_rebalance _ _ _ _ _). by split.
  - eexists. split; [done|]. by split.
  - eexists. split; [done|]. by split.
  - unfold sys_signal. destruct (lf_signal (sy_life s)) eqn:Es.
    + eexists. split; [done|]. by split.
    + unfold begin_draining. rewrite (Hph eq_refl), decide_True by done. cbn [obind]. eexists. split; [done|]. by split.
    + eexists. split; [done|]. by split.
    + destruct (stop_ok s F) as (s' & -> & F'). cbn [obind]. eexists. split; [done|]. by destruct F'; split.
    + by eexists.
  - eexists. split; [done|]. by split.
  - unfold sys_main. destruct (lf_main (sy_life s)).
    + destruct (lf_token _); (eexists; split; [done|]; by split).
    + destruct (lf_exited _); [|eexists; split; [done|]; by split].
      destruct (decide _); (eexists; split; [done|]; by split).
    + eexists. split; [done|]. split; [done|done|done|]. intros j h w todo Hj.
      apply abort_handlers in Hj as (w' & todo' & Hj). by eapply F4.
    + by apply finish_ok.
    + destruct (receiver_dropped _); (eexists; split; [done|]; by split).
    + destruct (cw_exited _); (eexists; split; [done|]; by split).
    + by eexists.
Qed.

End system.

(** ** A runtime that was built *)

Section runtime.
Context {KafkaError Source : Type} (to_rfc3339 : Z → string).
Context {HOs : HashOrder string} {HOk : HashOrder TopicPartitionKey} {HOz : HashOrder Z}.

Abbreviation sys := (system KafkaError Source).

Lemma all_batch_mode (handlers : gmap string PythonHandler) t h :
  all_batch handlers = true → handlers !! t = Some h → h_mode h = BatchSync.
Proof.
  unfold all_batch. rewrite forallb_forall. intros Hall Hh.
  assert ((t, h) ∈ hash_iter handlers) as Hin by (rewrite hash_iter_perm; by apply elem_of_map_to_list).
  apply list_elem_of_In, Hall in Hin. by apply bool_decide_eq_true in Hin.
Qed.

(** The workers of a runtime have handlers of their kind. *)
Lemma runtime_workers kafka env pc rt :
  build kafka env pc = Ret (Ok rt) →
  (∀ tp, tp ∈ worker_topics rt → is_Some (runtime_handlers rt !! tp)) ∧
  (∀ w h, w ∈ rn_workers rt → pw_kind w = KindBatch h → h_mode h = BatchSync).
Proof.
  intros Hb. destruct (build_inv _ _ _ _ Hb) as (d & qm & _ & Hm & Hp & _).
  destruct (worker_pool_new_spec _ _ _ _ _ _ Hp) as (Ht & _ & Hk & _). split.
  - intros tp Hin. unfold worker_topics in Hin. rewrite Ht in Hin. apply (subseteq_take _ _ _) in Hin.
    apply elem_of_hash_keys in Hin. unfold runtime_handlers. rewrite lookup_fmap, Hm, handler_map_lookup.
    destruct Hin as [m ->]. by eexists.
  - intros w h Hin Hw. rewrite Forall_forall in Hk. specialize (Hk w Hin). unfold kind_for in Hk. rewrite Hw in Hk.
    destruct (all_batch _) eqn:Ea; [|done].
    destruct ((fh_handler <$> rn_handlers rt) !! pw_topic w) as [h'|] eqn:Eh; [|done]. injection Hk as ->.
    by eapply all_batch_mode.
Qed.

Lemma runtime_safe_start kafka env_mode env cfg calls rt c clock (s0 : sys) :
  build kafka env (py_run env_mode cfg calls) = Ret (Ok rt) → runtime_system c clock rt = Ret s0 →
  safe_inv (default_policy (rn_retry rt)) s0.
Proof.
  intros Hb Hr. destruct (runtime_workers _ _ _ _ Hb) as [_ Hw].
  assert (rn_retry rt = retry_coordinator_new (default_policy (rn_retry rt))) as Hrc.
  { unfold build in Hb. destruct (runtime_config _) as [config|]; [|done]. destruct (ka_dlq kafka); [|done]. cbn [negb] in Hb.
    destruct (runner_new _ _); [|done]. destruct (register_topics _); [|done]. cbn [obind] in Hb.
    destruct (worker_pool_new _ _ _ _); [|done]. cbn [obind] in Hb. by injection Hb as <-. }
  unfold runtime_system in Hr. destruct (start_workers _ _) as [ws|] eqn:E; [|done]. cbn [obind] in Hr.
  injection Hr as <-. apply start_workers_spec in E. split; cbn [sy_stream sy_env sy_workers we_retry]; [by apply Forall_nil|done| |].
  - rewrite Hrc at 2. apply retry_new_ok.
  - intros i h w todo Hi. destruct (Forall2_lookup_r _ _ _ _ _ E Hi) as (pw & Hpw & Hst). unfold start_worker in Hst.
    destruct (pw_kind pw) as [|h'] eqn:Ek; [done|]. destruct (batch_worker_start _ _ _); [|done]. cbn [obind] in Hst.
    injection Hst as -> _ _. eapply Hw; [|exact Ek]. by eapply list_elem_of_lookup_2.
Qed.

Lemma runtime_stays_safe kafka env_mode env cfg calls rt c clock (s0 : sys) evs :
  build kafka env (py_run env_mode cfg calls) = Ret (Ok rt) → runtime_system c clock rt = Ret s0 →
  0 ≤ max_attempts (default_policy (rn_retry rt)) < 2 ^ 64 →
  Forall (event_ok (default_policy (rn_retry rt))) evs →
  ∃ s, runtime_run to_rfc3339 rt evs s0 = Ret s ∧ safe_inv (default_policy (rn_retry rt)) s.
Proof.
  intros Hb Hr0 HM. pose proof (runtime_system_init _ _ _ _ _ _ _ _ _ Hb Hr0) as Hi.
  destruct (runtime_workers _ _ _ _ Hb) as [Hh _].
  induction evs as [|ev evs IH] using rev_ind; intros Hev.
  { exists s0. split; [done|]. by eapply runtime_safe_start. }
  apply Forall_app in Hev as [Hevs Hev]. rewrite Forall_singleton in Hev. destruct (IH Hevs) as (s & Hs & Fs). clear IH.
  unfold runtime_run, system_run in *. rewrite ofold_app, Hs. cbn [obind ofold].
  destruct (system_run_inv _ _ _ _ _ _ _ Hi Hs) as [I _].
  destruct (system_step_ok (rn_router rt) to_rfc3339 (runtime_handlers rt) (worker_topics rt) _ HM Hh
    (we_offsets (sy_env s0)) ev s I Fs Hev) as (s' & -> & F'); [|by exists s'].
  intros Hsig. assert (∀ P : Prop, true = false → P) as Hno by done.
  pose proof (rt_of_start _ _ _ _ _ _ _ _ _ true Hb Hr0 (Hno _)) as H1.
  pose proof (run_refines (rn_router rt) to_rfc3339 (runtime_handlers rt) (worker_topics rt) true evs s0 s Hi (Hno _) Hs) as H2.
  apply (unsignalled_reachable _ _ _ _ (transitivity H1 H2)). cbn [rt_of rt_signal]. rewrite Hsig. simpl. lia.
Qed.


End runtime.

(** ** Witness *)

Definition demo_policy (b : outcome (result Runtime RuntimeError)) : option RetryPolicy :=
  match b with Ret (Ok rt) => Some (default_policy (rn_retry rt)) | _ => None end.

Lemma demo_policy_eq : demo_policy (demo_build demo_single_calls) = Some retry_policy_default.
Proof. vm_compute. reflexivity. Qed.

Lemma demo_draw_ok : draw_ok retry_policy_default f64_half.
Proof.
  intros n Hn. simpl in Hn. destruct n as [|[|n]]; [vm_compute; reflexivity..|lia].
Qed.

Lemma demo_events_ok : Forall (event_ok retry_policy_default) demo_single_events.
Proof.
  unfold demo_single_events. repeat (apply Forall_cons; split); try apply Forall_nil; try exact I;
    try exact demo_draw_ok; simpl; try lia; done.
Qed.

