(* ===== verification/PipelineLive.v ===== *)
(** * The running runtime: a signal can always end it

    From every state that a runtime reaches, its tasks can go on until the main
    task returns once a signal has come: no interleaving leads into a deadlock. *)

From stdpp Require Import base gmap sets list strings relations.
From S2P Require Import Prelude F64 Metrics FromStr Failure Message Shutdown Runner Dlq OffsetTracker OffsetProofs Retry Commit Queue Dispatcher Execution PoolState Worker Batch BatchSteps FanOut Pool Context Config Builder Task Pipeline PipelineProofs PipelineRuntime PipelineShutdown PipelineSafe.

(** A call that returns. *)
Definition quiet_call : Callback := λ _, {| py_outcome := PyReturned; py_duration := 0 |}.

(** [Runtime::run] has returned. *)
Definition returned {KafkaError Source : Type} (s : system KafkaError Source) : bool :=
  match lf_main (sy_life s) with MainDone => true | _ => false end.

(** A signal task that has passed the cancellation has cancelled the token. *)
Definition cancelled_inv (s : rt_state) : Prop :=
  (signal_rank (rt_signal s) ≤ 1)%nat → rt_token s = true.

Lemma cancelled_step api s s' : rt_step api s s' → cancelled_inv s → cancelled_inv s'.
Proof.
  unfold cancelled_inv. intros Hst Hc. destruct Hst; simpl in *; try done; try (intros; lia); rewrite ?H in *; simpl in *; auto.
  destruct (finish_shutdown_spec _ _ H0) as (_ & _ & -> & _ & _ & -> & _). done.
Qed.

Lemma cancelled_reachable api secs n s : rtc (rt_step api) (rt_init secs n) s → cancelled_inv s.
Proof.
  intros Hr. assert (cancelled_inv (rt_init secs n)) as H0 by (unfold cancelled_inv; simpl; lia).
  induction Hr; [done|]. eauto using cancelled_step.
Qed.

Section live.
Context {KafkaError Source : Type} (to_rfc3339 : Z → string).
Context {HOs : HashOrder string} {HOk : HashOrder TopicPartitionKey} {HOz : HashOrder Z}.

Abbreviation sys := (system KafkaError Source).

(** A runtime that was started, and a draw that gives delays. *)
Context (kafka : kafka_answers) (env_mode env : option string) (cfg : PyConsumerConfig) (calls : list py_call).
Context (rt : Runtime) (c : client) (clock : Z) (s0 : sys) (j0 : f64).
Abbreviation policy := (default_policy (rn_retry rt)).
Hypothesis built : build kafka env (py_run env_mode cfg calls) = Ret (Ok rt).
Hypothesis started : runtime_system c clock rt = Ret s0.
Hypothesis attempts_ok : 0 ≤ max_attempts policy < 2 ^ 64.
Hypothesis draw : draw_ok policy j0.
Hypothesis not_stopped : CallStop ∉ calls.

Abbreviation step := (system_step (rn_router rt) to_rfc3339 (runtime_handlers rt) (worker_topics rt)).
Abbreviation runs evs s := (runtime_run to_rfc3339 rt evs s).

(** Events without [Consumer.stop]. *)
Definition allowed (ev : system_event) : Prop := event_ok policy ev ∧ ev ≠ SyApiStop.

Definition live (s : sys) : Prop := ∃ evs, Forall allowed evs ∧ runs evs s0 = Ret s.

(** What is known of a live state. *)
Lemma live_facts s :
  live s → system_inv (worker_topics rt) (we_offsets (sy_env s0)) s ∧
    length (sy_workers s) = length (worker_topics rt) ∧ safe_inv policy s ∧
    (sig_inv (rt_of s) ∧ cancelled_inv (rt_of s)) ∧ end_inv s.
Proof.
  intros (evs & Ha & Hr). pose proof (runtime_system_init _ _ _ _ _ _ _ _ _ built started) as Hi.
  destruct (system_run_inv _ _ _ _ _ _ _ Hi Hr) as [I L].
  assert (Forall (event_ok policy) evs) as Hev by (eapply Forall_impl; [exact Ha|]; by intros ev [? _]).
  assert (SyApiStop ∉ evs) as Hapi.
  { intros Hin. rewrite Forall_forall in Ha. by destruct (Ha _ Hin). }
  destruct (runtime_stays_safe to_rfc3339 _ _ _ _ _ _ _ _ _ _ built started attempts_ok Hev) as (s1 & Hr1 & F).
  rewrite Hr in Hr1. injection Hr1 as <-.
  pose proof (rt_of_start _ _ _ _ _ _ _ _ _ false built started (λ _, not_stopped)) as H1.
  destruct (run_refines_inv _ _ _ _ false _ _ _ Hi (λ _, Hapi) Hr) as [J H2].
  split; [done|]. split; [done|]. split; [done|]. split.
  - split; [eapply sig_inv_rtc; [exact (transitivity H1 H2)|apply rt_init_inv]|].
    exact (cancelled_reachable _ _ _ _ (transitivity H1 H2)).
  - exact J.
Qed.

Lemma live_step s ev : live s → allowed ev → ∃ s', step s ev = Ret s' ∧ live s'.
Proof.
  intros (evs & Ha & Hr) Hev. assert (Forall allowed (evs ++ [ev])) as Hall by (apply Forall_app; split; [done|by apply Forall_singleton]).
  assert (Forall (event_ok policy) (evs ++ [ev])) as Hok by (eapply Forall_impl; [exact Hall|]; by intros ? [? _]).
  destruct (runtime_stays_safe to_rfc3339 _ _ _ _ _ _ _ _ _ _ built started attempts_ok Hok) as (s' & Hr' & _).
  assert (step s ev = Ret s') as Hs.
  { unfold runtime_run, system_run in *. rewrite ofold_app, Hr in Hr'. cbn [obind ofold] in Hr'.
    destruct (step s ev); [by cbn [obind] in Hr'|done]. }
  exists s'. split; [done|]. by exists (evs ++ [ev]).
Qed.

(** The tasks can go on, by events of some kind, until [P]. *)
Section going.
Context (good : system_event → Prop).
Hypothesis good_allowed : ∀ ev, good ev → allowed ev.

Definition can_by (P : sys → Prop) (s : sys) : Prop := ∃ evs s', Forall good evs ∧ runs evs s = Ret s' ∧ P s'.

Lemma can_by_now (P : sys → Prop) s : P s → can_by P s.
Proof. intros H. by exists [], s. Qed.

Lemma can_by_step (P : sys → Prop) s ev :
  live s → good ev → (∀ s', step s ev = Ret s' → live s' → can_by P s') → can_by P s.
Proof.
  intros Hl Hg Hk. destruct (live_step s ev Hl (good_allowed _ Hg)) as (s1 & Hs & Hl1).
  destruct (Hk s1 Hs Hl1) as (evs & s2 & Ha & Hr & HP). exists (ev :: evs), s2. split_and!; [by constructor| |done].
  unfold runtime_run, system_run in *. cbn [ofold]. by rewrite Hs.
Qed.

Lemma can_by_bind (P Q : sys → Prop) s :
  live s → can_by P s → (∀ s', live s' → P s' → can_by Q s') → can_by Q s.
Proof.
  intros (evs & Ha & Hr) (e1 & s1 & G1 & R1 & HP) Hk. destruct (Hk s1) as (e2 & s2 & G2 & R2 & HQ); [|done|].
  - exists (evs ++ e1). split; [apply Forall_app; split; [done|eapply Forall_impl; [exact G1|done]]|].
    unfold runtime_run, system_run in *. by rewrite ofold_app, Hr.
  - exists (e1 ++ e2), s2. split_and!; [by apply Forall_app| |done].
    unfold runtime_run, system_run in *. by rewrite ofold_app, R1.
Qed.

End going.

Abbreviation can := (can_by allowed).

Lemma can_now (P : sys → Prop) s : P s → can P s.
Proof. apply can_by_now. Qed.

Lemma can_step (P : sys → Prop) s ev :
  live s → allowed ev → (∀ s', step s ev = Ret s' → live s' → can P s') → can P s.
Proof. by apply can_by_step. Qed.

Lemma can_bind (P Q : sys → Prop) s :
  live s → can P s → (∀ s', live s' → P s' → can Q s') → can Q s.
Proof. by apply can_by_bind. Qed.

(** ** A cancelled worker ends *)

Definition joining (s : sys) : Prop := lf_main (sy_life s) = MainJoin ∧ token s = true.
Definition joinable (s : sys) : Prop := joining s ∧ lf_exited (sy_life s) ≠ O.

Lemma worker_step_at i tp rx t e (s : sys) t0 :
  sy_workers s !! i = Some t0 → joining s →
  joining (worker_step i tp rx t e s) ∧ sy_workers (worker_step i tp rx t e s) !! i = Some t ∧
  (task_stopped t = true → joinable (worker_step i tp rx t e s)).
Proof.
  intros Hi [Hm Ht]. assert (joining (worker_step i tp rx t e s)) as J by (split; [exact Hm|exact Ht]).
  split_and!; [done| |].
  - cbn [worker_step sy_workers]. apply list_lookup_insert_eq. by eapply lookup_lt_Some.
  - intros Hs. split; [done|]. cbn [worker_step sy_life lf_exited lf_with_main]. by rewrite Hs.
Qed.

Lemma worker_topic s i t : live s → sy_workers s !! i = Some t → ∃ tp, worker_topics rt !! i = Some tp.
Proof.
  intros Hl Hi. destruct (live_facts _ Hl) as (_ & L & _). apply lookup_lt_is_Some. rewrite <- L. by eapply lookup_lt_Some.
Qed.

Lemma single_step_can (P : sys → Prop) s i w sl st :
  live s → joining s → sy_workers s !! i = Some (SingleTask w sl) → wk_stopped w = false →
  step_ok policy (WeSingle st) →
  (∀ s' rx e r, single_act (rn_router rt) to_rfc3339 (runtime_handlers rt) i true st (wk_with_rx rx w) sl e = Ret r →
     live s' → joining s' → sy_workers s' !! i = Some (SingleTask r.1.1 r.1.2) →
     (wk_stopped r.1.1 = true → joinable s') → can P s') →
  can P s.
Proof.
  intros Hl J Hi Hs Hok Hk. destruct (worker_topic _ _ _ Hl Hi) as [tp Htp].
  apply (can_step P s (SyWorker i (WeSingle st)) Hl); [by split|]. intros s' Hst Hl'.
  cbn [system_step] in Hst. unfold sys_worker in Hst. rewrite Htp, Hi in Hst. cbn [task_stopped] in Hst.
  rewrite Hs, (proj2 J) in Hst. destruct (single_act _ _ _ _ _ _ _ _ _) as [r|] eqn:E; [|done].
  cbn [obind] in Hst. injection Hst as <-.
  destruct (worker_step_at i tp (wk_rx r.1.1) (SingleTask r.1.1 r.1.2) r.2 s _ Hi J) as (J' & Hi' & Hx).
  by eapply Hk.
Qed.

Lemma single_can_end s i w sl :
  live s → joining s → sy_workers s !! i = Some (SingleTask w sl) → wk_stopped w = false → can joinable s.
Proof.
  assert (Hwait : ∀ s w sl, live s → joining s → sy_workers s !! i = Some (SingleTask w sl) → wk_stopped w = false →
    sl = true ∨ wk_state w = WIdle → can joinable s).
  { clear s w sl. intros s w sl Hl J Hi Hs [->|Hidle].
    - apply (single_step_can _ s i w true StepWake Hl J Hi Hs Logic.I). intros s' rx e r Ha _ _ _ Hx.
      simpl in Ha. injection Ha as <-. by apply can_now, Hx.
    - apply (single_step_can _ s i w sl (StepPoll false) Hl J Hi Hs Logic.I). intros s' rx e r Ha _ _ _ Hx.
      simpl in Ha. unfold worker_poll, wk_with_rx in Ha. cbn [wk_stopped wk_state wk_rx] in Ha. rewrite Hs, Hidle in Ha.
      apply can_now, Hx. destruct rx; simpl in Ha; by injection Ha as <-. }
  intros Hl J Hi Hs. destruct sl; [by eapply Hwait; eauto|].
  destruct (wk_state w) as [|msg] eqn:Ew; [by eapply Hwait; eauto|].
  set (t := {| tn_cancelled_poll := true; tn_take_message := false; tn_callback := quiet_call;
    tn_jitter := j0; tn_now := 0; tn_queue_wait := 0; tn_call_elapsed := 0; tn_elapsed := 0;
    tn_cancelled_sleep := true; tn_cancelled_after := true |}).
  apply (single_step_can _ s i w false (StepProcess t) Hl J Hi Hs draw).
  intros s' rx e r Ha Hl' J' Hi' Hx. simpl in Ha.
  destruct (worker_process _ _ _ _ _ _ _ _) as [[w1 e1]|]; [|done]. simpl in Ha. injection Ha as <-. cbn [fst snd] in *.
  destruct (wk_stopped w1) eqn:Es; [by apply can_now, Hx|]. eapply Hwait; [done|done|exact Hi'|done|].
  unfold is_sleeping. rewrite Es. destruct (wk_state w1); auto.
Qed.

Lemma batch_step_can (P : sys → Prop) s i h w todo st :
  live s → joining s → sy_workers s !! i = Some (BatchTask h w todo) → bw_stopped w = false →
  step_ok policy (WeBatch st) →
  (∀ s' closed rx e r, batch_task_act (rn_router rt) to_rfc3339 true closed st h (bw_with_env e w) todo rx = Ret r →
     live s' → joining s' → sy_workers s' !! i = Some (BatchTask h r.1.1 r.1.2) →
     (bw_stopped r.1.1 = true → joinable s') → can P s') →
  can P s.
Proof.
  intros Hl J Hi Hs Hok Hk. destruct (worker_topic _ _ _ Hl Hi) as [tp Htp].
  apply (can_step P s (SyWorker i (WeBatch st)) Hl); [by split|]. intros s' Hst Hl'.
  cbn [system_step] in Hst. unfold sys_worker in Hst. rewrite Htp, Hi in Hst. cbn [task_stopped] in Hst.
  rewrite Hs, (proj2 J) in Hst. destruct (batch_task_act _ _ _ _ _ _ _ _ _) as [r|] eqn:E; [|done].
  cbn [obind] in Hst. injection Hst as <-.
  destruct (worker_step_at i tp r.2 (BatchTask h r.1.1 r.1.2) (bw_env r.1.1) s _ Hi J) as (J' & Hi' & Hx).
  by eapply Hk.
Qed.

(** The worker does what is left of its branch. *)
Lemma batch_can_go_on todo : ∀ s i h w,
  live s → joining s → sy_workers s !! i = Some (BatchTask h w todo) → bw_stopped w = false →
  can (λ s', joinable s' ∨
    (ActStop ∉ todo) ∧ joining s' ∧ ∃ w', sy_workers s' !! i = Some (BatchTask h w' []) ∧ bw_stopped w' = false) s.
Proof.
  induction todo as [|a todo IH]; intros s i h w Hl J Hi Hs.
  { apply can_now. right. split; [apply not_elem_of_nil|]. eauto. }
  apply (batch_step_can _ s i h w (a :: todo) (StepAct 0 quiet_call (λ _, j0)) Hl J Hi Hs (λ _, draw)).
  intros s' closed rx e r Ha Hl' J' Hi' Hx. cbn [batch_task_act] in Ha.
  destruct (batch_act _ _ _ _ _ _ _ _) as [w1|] eqn:E; [|done]. cbn [obind] in Ha. injection Ha as <-. cbn [fst snd] in *.
  destruct (live_facts _ Hl) as (I & _). destruct (worker_topic _ _ _ Hl Hi) as [tp Htp].
  destruct (sv_topic _ _ _ I i tp _ Htp Hi) as [_ Hinv]. specialize (Hinv Hs).
  apply (batch_act_flow _ _ _ _ _ _ _ _ _ _ (proj2 (steps_inv_env _ _ _) Hinv)) in E as (_ & _ & Est & _).
  destruct (bw_stopped w1) eqn:Es; [apply can_now; left; by apply Hx|].
  apply (can_bind _ _ s' Hl' (IH s' i h w1 Hl' J' Hi' Es)). intros s2 _ [Hj|(Hn & Hrest)]; apply can_now; [by left|right].
  split; [|done]. apply not_elem_of_cons. split; [|done]. intros <-. done.
Qed.

Lemma batch_can_end s i h w todo :
  live s → joining s → sy_workers s !! i = Some (BatchTask h w todo) → bw_stopped w = false → can joinable s.
Proof.
  intros Hl J Hi Hs. apply (can_bind _ _ s Hl (batch_can_go_on _ _ _ _ _ Hl J Hi Hs)).
  clear s Hl J Hi Hs. intros s Hl [Hj|(_ & J & w1 & Hi & Hs)]; [by apply can_now|].
  apply (batch_step_can _ s i h w1 [] (StepBranch 0 BrShutdown) Hl J Hi Hs Logic.I).
  intros s' closed rx e r Ha Hl' J' Hi' Hx. cbn [batch_task_act branch_event] in Ha.
  destruct (batch_begin _ _) as [w2 acts] eqn:E. injection Ha as <-. cbn [fst snd] in *.
  assert (ActStop ∈ acts) as Hstop.
  { cbn [batch_begin] in E. destruct (begin_drain (T := OffsetTracker) _) as [w3 a3]. injection E as _ <-. set_solver. }
  destruct (bw_stopped w2) eqn:Es; [by apply can_now, Hx|].
  apply (can_bind _ _ s' Hl' (batch_can_go_on _ _ _ _ _ Hl' J' Hi' Es)).
  intros s2 _ [Hj|[Hn _]]; [by apply can_now|done].
Qed.

(** The main task, which waits for a worker, can go on. *)
Lemma join_can_go_on s :
  live s → joining s → can (λ s', lf_main (sy_life s') = MainCheck ∧ token s' = true) s.
Proof.
  intros Hl J. assert (can (λ s', joining s' ∧ (lf_exited (sy_life s') ≠ O ∨ running (sy_workers s') = O)) s) as Hc.
  { destruct (decide (running (sy_workers s) = O)) as [|Hr]; [apply can_now; auto|].
    assert (∃ i t, sy_workers s !! i = Some t ∧ task_stopped t = false) as (i & t & Hi & Hs).
    { unfold running in Hr. destruct (filter _ (sy_workers s)) as [|t l] eqn:E; [done|].
      assert (t ∈ filter (λ t, task_stopped t = false) (sy_workers s)) as Hin by (rewrite E; by left).
      apply list_elem_of_filter in Hin as [Ht Hin]. apply list_elem_of_lookup in Hin as [i Hi]. eauto. }
    assert (can joinable s) as (evs & s' & Hg & Hr' & J' & Hx) by (destruct t; [by eapply single_can_end|by eapply batch_can_end]).
    exists evs, s'. auto. }
  apply (can_bind _ _ s Hl Hc). clear s Hl J Hc. intros s Hl [[Hm Ht] He].
  apply (can_step _ s (SyMain (λ _, true) 0) Hl); [by split|]. intros s' Hs _. apply can_now.
  simpl in Hs. unfold sys_main in Hs. rewrite Hm in Hs. cbv zeta in Hs.
  destruct (lf_exited (sy_life s)); [|by injection Hs as <-]. rewrite decide_True in Hs; [by injection Hs as <-|].
  by destruct He.
Qed.

(** ** The receiving task and the dispatcher end once the runner is stopped *)

Definition awaiting (m : main_status) (s : sys) : Prop := lf_main (sy_life s) = m ∧ ss_signal (sy_stream s) = true.

Lemma loop_can_end s :
  live s → awaiting MainDispatcher s → can (λ s', awaiting MainDispatcher s' ∧ loop_ended (sy_stream s') = true) s.
Proof.
  assert (Hend : ∀ s, live s → awaiting MainDispatcher s →
    ss_loop (sy_stream s) = LoopRecv ∨ (∃ m, ss_loop (sy_stream s) = LoopSend m) →
    can (λ s', awaiting MainDispatcher s' ∧ loop_ended (sy_stream s') = true) s).
  { clear s. intros s Hl [Hm Hg] Hp. apply (can_step _ s (SyLoop LvSignal) Hl); [by split|]. intros s' Hs _.
    apply can_now. simpl in Hs. unfold loop_step, broadcast_ready in Hs. rewrite Hg in Hs. simpl in Hs.
    destruct Hp as [E|[m E]]; rewrite E in Hs; by injection Hs as <-. }
  intros Hl Ha. pose proof (live_facts _ Hl) as (_ & _ & _ & _ & [Hn _ _]). destruct (ss_loop (sy_stream s)) as [| |m|ms|] eqn:E.
  - done.
  - apply Hend; eauto.
  - apply Hend; eauto.
  - apply (can_step _ s (SyLoop LvWake) Hl); [by split|]. intros s' Hs Hl'. simpl in Hs. unfold loop_step in Hs.
    rewrite E in Hs. injection Hs as <-. by apply Hend; [..|left].
  - apply can_now. split; [done|]. unfold loop_ended. by rewrite E.
Qed.

Lemma dispatcher_can_end s :
  live s → awaiting MainDispatcher s → loop_ended (sy_stream s) = true →
  can (λ s', lf_main (sy_life s') = MainDispatcher ∧ receiver_dropped (sy_stream s') = true) s.
Proof.
  remember (ss_channel (sy_stream s)) as ch eqn:Ec. revert s Ec. induction ch as [|item ch IH]; intros s Ec Hl [Hm Hg] Hd;
    pose proof (live_facts _ Hl) as (I & _); (destruct (sv_task _ _ _ I) as [Et|Et];
      [|apply can_now; split; [done|]; unfold receiver_dropped; by rewrite Et]);
    (apply (can_step _ s (SyDispatch good_client) Hl); [by split|]); intros s' Hs Hl'; simpl in Hs; unfold sys_dispatch in Hs;
    rewrite Et, <- Ec in Hs; [rewrite Hd in Hs|]; injection Hs as <-.
  - by apply can_now.
  - apply IH; try done.
Qed.

(** ** The runtime can end *)

Lemma signal_can_finish s : live s → can (λ s', token s' = true) s.
Proof.
  intros Hl. assert (Hrank : ∀ n s, live s → signal_rank (lf_signal (sy_life s)) = n → can (λ s', token s' = true) s).
  { clear s Hl. induction n as [n IH] using lt_wf_ind. intros s Hl Hn.
    destruct (decide (token s = true)) as [|Ht]; [by apply can_now|].
    pose proof (live_facts _ Hl) as (_ & _ & _ & [_ Hc] & _).
    apply (can_step _ s SySignal Hl); [by split|]. intros s' Hs Hl'. simpl in Hs. unfold sys_signal in Hs.
    destruct (lf_signal (sy_life s)) eqn:E.
    - injection Hs as <-. by apply (IH 3%nat); [simpl in Hn; lia|..].
    - destruct (begin_draining _); [|done]. cbn [obind] in Hs. injection Hs as <-. by apply (IH 2%nat); [simpl in Hn; lia|..].
    - injection Hs as <-. by apply can_now.
    - destruct Ht. apply Hc. simpl. rewrite E. simpl. lia.
    - destruct Ht. apply Hc. simpl. rewrite E. simpl. lia. }
  by eapply Hrank.
Qed.

(** The rest of the main task, from its last wait to the first. *)
Lemma committer_can_end s :
  live s → lf_main (sy_life s) = MainCommitter → can (λ s', returned s' = true) s.
Proof.
  intros Hl Hm.
  assert (can (λ s', lf_main (sy_life s') = MainCommitter ∧ cw_exited (sy_commit s') = true) s) as Hc.
  { destruct (cw_exited (sy_commit s)) eqn:Ex; [by apply can_now|].
    destruct (live_facts _ Hl) as (_ & _ & _ & [Hi _] & _).
    assert (is_done (cw_coord (sy_commit s)) = true) as Hd.
    { unfold is_done. apply bool_decide_eq_true. pose proof (si_token _ Hi) as K.
      pose proof (si_phase _ Hi) as P. pose proof (si_main _ Hi) as M. cbn [rt_of rt_main rt_token rt_coord rt_signal] in *.
      rewrite Hm in *. specialize (K (M ltac:(done) ltac:(done))). destruct P as [[_ []]|[P _]]; [lia|done]. }
    apply (can_step _ s (SyCommit (λ _, true) false 0) Hl); [by split|]. intros s' Hs _. simpl in Hs. injection Hs as <-.
    apply can_now. split; [done|]. unfold sys_commit, committer_turn, sys_committer.
    cbn [sys_with_commit sy_commit cw_with_tracker cw_exited cw_coord]. by rewrite Ex, Hd. }
  apply (can_bind _ _ s Hl Hc). clear s Hl Hm Hc. intros s Hl [Hm Hx].
  apply (can_step _ s (SyMain (λ _, true) 0) Hl); [by split|]. intros s' Hs _. apply can_now.
  simpl in Hs. unfold sys_main in Hs. rewrite Hm, Hx in Hs. by injection Hs as <-.
Qed.

Lemma dispatcher_wait_can_end s :
  live s → lf_main (sy_life s) = MainDispatcher → can (λ s', returned s' = true) s.
Proof.
  intros Hl Hm. assert (ss_signal (sy_stream s) = true) as Hg.
  { destruct (live_facts _ Hl) as (_ & _ & _ & [Hi _] & _). apply (si_runner _ Hi). cbn [rt_of rt_main]. rewrite Hm. intros []. }
  apply (can_bind _ _ s Hl (loop_can_end s Hl (conj Hm Hg))). clear s Hl Hm Hg. intros s Hl [Ha Hd].
  apply (can_bind _ _ s Hl (dispatcher_can_end s Hl Ha Hd)). clear s Hl Ha Hd. intros s Hl [Hm Hd].
  apply (can_step _ s (SyMain (λ _, true) 0) Hl); [by split|]. intros s' Hs Hl'. simpl in Hs. unfold sys_main in Hs.
  rewrite Hm, Hd in Hs. injection Hs as <-. by apply committer_can_end.
Qed.

Lemma shutdown_can_end s :
  live s → lf_main (sy_life s) = MainShutdown ∨ lf_main (sy_life s) = MainDrained →
  can (λ s', returned s' = true) s.
Proof.
  assert (Hdr : ∀ s, live s → lf_main (sy_life s) = MainDrained → can (λ s', returned s' = true) s).
  { clear s. intros s Hl Hm. apply (can_step _ s (SyMain (λ _, true) 0) Hl); [by split|]. intros s' Hs Hl'.
    apply dispatcher_wait_can_end; [done|]. simpl in Hs. unfold sys_main, sys_finish in Hs. rewrite Hm in Hs.
    destruct (if decide _ then _ else _); [|done]. cbn [obind] in Hs. unfold sys_stop in Hs.
    destruct (task_stop _); [|done]. by injection Hs as <-. }
  intros Hl [Hm|Hm]; [|by apply Hdr]. apply (can_step _ s (SyMain (λ _, true) 0) Hl); [by split|].
  intros s' Hs Hl'. apply Hdr; [done|]. simpl in Hs. unfold sys_main in Hs. rewrite Hm in Hs. by injection Hs as <-.
Qed.

Lemma main_can_end s : live s → token s = true → can (λ s', returned s' = true) s.
Proof.
  assert (Hck : ∀ s, live s → token s = true → lf_main (sy_life s) = MainCheck →
    can (λ s', returned s' = true) s).
  { clear s. intros s Hl Ht Hm. apply (can_step _ s (SyMain (λ _, true) 0) Hl); [by split|]. intros s' Hs Hl'.
    apply shutdown_can_end; [done|left]. simpl in Hs. unfold sys_main in Hs. unfold token in Ht. rewrite Hm, Ht in Hs.
    by injection Hs as <-. }
  intros Hl Ht. destruct (lf_main (sy_life s)) eqn:Hm.
  - by apply Hck.
  - apply (can_bind _ _ s Hl (join_can_go_on s Hl (conj Hm Ht))). intros s' Hl' [Hm' Ht']. by apply Hck.
  - apply shutdown_can_end; auto.
  - apply shutdown_can_end; auto.
  - by apply dispatcher_wait_can_end.
  - by apply committer_can_end.
  - apply can_now. unfold returned. by rewrite Hm.
Qed.

Lemma runtime_can_end s : live s → can (λ s', returned s' = true) s.
Proof. intros Hl. apply (can_bind _ _ s Hl (signal_can_finish s Hl)). intros s' Hl' Ht. by apply main_can_end. Qed.

End live.

(** ** The property *)

Section runtime.
Context {KafkaError Source : Type} (to_rfc3339 : Z → string).
Context {HOs : HashOrder string} {HOk : HashOrder TopicPartitionKey} {HOz : HashOrder Z}.

Abbreviation sys := (system KafkaError Source).


End runtime.

(** ** Witness *)

Lemma demo_single_no_stop : (CallStop ∉ demo_single_calls) ∧ (SyApiStop ∉ demo_single_events).
Proof.
  split; [intros Hin; by apply list_elem_of_singleton in Hin|]. intros Hin.
  assert (existsb is_api_stop demo_single_events = true) as E.
  { apply existsb_exists. exists SyApiStop. split; [by apply list_elem_of_In|done]. }
  vm_compute in E. discriminate E.
Qed.

