(* ===== verification/PipelineDrain.v ===== *)
(** * The running runtime: the backlog can be settled

    As long as no stop has reached the runtime, the tasks that serve messages can
    go on, with a callable of any behaviour, until every message that was received
    is settled: no message is stuck in a queue, in a retry or in a batch. *)

From stdpp Require Import base gmap sets list strings relations.
From S2P Require Import Prelude F64 Metrics FromStr Failure Message Shutdown Runner Dlq OffsetTracker OffsetProofs Retry Commit Queue Dispatcher Execution PoolState Worker Batch BatchSteps FanOut Pool Context Config Builder Task Pipeline PipelineProofs PipelineRuntime PipelineShutdown PipelineSafe PipelineLive.

(** ** The timers of a batch worker *)

(** A buffer with messages has a deadline. *)
Definition timed (a : BatchAccumulator) : Prop :=
  ∀ p b, accumulators a !! p = Some b → buf_messages b ≠ [] → buf_deadline b ≠ None.

Lemma add_timed now m a : timed a → timed (acc_add now m a).
Proof.
  intros T p b Hb Hm. unfold acc_add in Hb. cbn [with_accumulators accumulators] in Hb.
  apply lookup_insert_Some in Hb as [[<- <-]|[_ Hb]]; [|by eapply T]. unfold buf_add.
  destruct (accumulators a !! partition m) as [b|] eqn:E; simpl; [|done].
  destruct (buf_is_empty b) eqn:Eb; cbn [buf_deadline].
  - unfold start_timer. destruct (buf_deadline b) eqn:Ed; cbn [buf_deadline]; congruence.
  - apply (T _ _ E). intros Hn. apply buf_is_empty_true in Hn. congruence.
Qed.

Section timers.
Context {HO : HashOrder Z}.

Lemma flush_all_empties a p : buffered p (accumulators (flush_all a).2) = [].
Proof. unfold flush_all. cbn [snd with_accumulators accumulators]. apply buffered_drained. Qed.

Lemma flush_all_timed a : timed (flush_all a).2.
Proof.
  intros p b Hb Hm. unfold flush_all in Hb. cbn [snd with_accumulators accumulators] in Hb.
  rewrite lookup_fmap in Hb. destruct (accumulators a !! p); [|done]. by injection Hb as <-.
Qed.

(** Once the earliest deadline is over the worker flushes. *)
Lemma deadline_comes a :
  timed a → acc_is_empty a = false → ∃ now, deadline_ready now a = true.
Proof.
  intros T He. unfold acc_is_empty in He.
  assert (∃ p b, accumulators a !! p = Some b ∧ buf_messages b ≠ []) as (p & b & Hb & Hm).
  { destruct (existsb (λ x, negb (buf_is_empty x.2)) (hash_iter (accumulators a))) eqn:Ex.
    - apply existsb_exists in Ex as ([p b] & Hin & Hn). exists p, b. split.
      + apply elem_of_hash_iter. by apply list_elem_of_In.
      + intros Hm%buf_is_empty_true. cbn [snd] in Hn. by rewrite Hm in Hn.
    - exfalso. apply not_true_iff_false in He. apply He. apply forallb_forall. intros x Hx.
      destruct (buf_is_empty x.2) eqn:Eb; [done|]. apply not_true_iff_false in Ex. destruct Ex.
      apply existsb_exists. exists x. by rewrite Eb. }
  destruct (buf_deadline b) as [d|] eqn:Ed; [|by destruct (T _ _ Hb Hm)].
  destruct (next_deadline_le _ _ _ _ Hb Ed) as (d' & Hd & _). exists d'.
  unfold deadline_ready. rewrite Hd. by apply Z.leb_le.
Qed.

Lemma empty_buffers a p : acc_is_empty a = true → buffered p (accumulators a) = [].
Proof.
  unfold acc_is_empty, buffered. rewrite forallb_forall. intros He.
  destruct (accumulators a !! p) as [b|] eqn:E; [|done]. cbn.
  apply elem_of_hash_iter, list_elem_of_In, He in E. by apply buf_is_empty_true.
Qed.

End timers.

(** ** The steps of a batch worker keep its timers *)

Section steps.
Context {HO : HashOrder Z}.

Abbreviation bworker := (batch_worker (T := OffsetTracker)).

Lemma begin_drain_spec (w w1 : bworker) acts :
  begin_drain w = (w1, acts) →
  (∃ bs, acts = (ActFlush <$> bs)) ∧ bw_acc w1 = (flush_all (bw_acc w)).2 ∧ bw_stopped w1 = bw_stopped w.
Proof.
  unfold begin_drain. destruct (flush_all (bw_acc w)) as [bs a] eqn:E. intros [= <- <-]. split_and!; [by eexists|done..].
Qed.

Lemma no_stop_in_flushes (bs : list (Z * list OwnedMessage)) : ActStop ∉ (ActFlush <$> bs).
Proof. intros (b & Hb & _)%list_elem_of_fmap. done. Qed.

(** A message or a deadline does not stop the worker. *)
Lemma begin_goes_on ev (w w1 : bworker) todo :
  batch_begin ev w = (w1, todo) → match ev with BMessage _ _ | BDeadline _ => True | _ => False end →
  (ActStop ∉ todo) ∧ bw_stopped w1 = bw_stopped w.
Proof.
  intros Hb Hev. destruct ev as [now|now msg| |]; [..|done|done]; cbn [batch_begin] in Hb.
  - assert (w1 = w ∧ todo = [] ∨ begin_drain w = (w1, todo)) as [[-> ->]|Hd]
      by (repeat case_match; simplify_eq; auto); [split; [apply not_elem_of_nil|done]|].
    destruct (begin_drain_spec _ _ _ Hd) as ((bs & ->) & _ & Hs). split; [apply no_stop_in_flushes|done].
  - destruct (begin_pressure msg w) as [w2 acts] eqn:E. injection Hb as <- <-.
    assert ((ActStop ∉ acts) ∧ bw_stopped w2 = bw_stopped w) as [Ha Hs]; [|split; [|done]; unfold message_actions; set_solver].
    unfold begin_pressure in E.
    assert (w2 = w ∧ acts = [] ∨ begin_drain (bw_with_state InBackpressure w) = (w2, acts)) as [[-> ->]|Hd]
      by (repeat case_match; simplify_eq; auto); [split; [apply not_elem_of_nil|done]|].
    destruct (begin_drain_spec _ _ _ Hd) as ((bs & ->) & _ & Hs). split; [apply no_stop_in_flushes|done].
Qed.

Lemma begin_timed ev (w w1 : bworker) todo :
  batch_begin ev w = (w1, todo) → timed (bw_acc w) → timed (bw_acc w1).
Proof.
  intros Hb T. assert (Hd : ∀ (w w1 : bworker) acts, begin_drain w = (w1, acts) → timed (bw_acc w1)).
  { intros w2 w3 acts Hd. destruct (begin_drain_spec _ _ _ Hd) as (_ & -> & _). apply flush_all_timed. }
  destruct ev as [now|now msg|now|now]; cbn [batch_begin] in Hb.
  - repeat case_match; simplify_eq; eauto.
  - destruct (begin_pressure msg w) as [w2 acts] eqn:E. injection Hb as <- <-.
    unfold begin_pressure in E. repeat case_match; simplify_eq; eauto.
  - destruct (begin_drain w) eqn:E. simplify_eq. eauto.
  - destruct (begin_drain w) eqn:E. simplify_eq. eauto.
Qed.

Context {R : Type} `{DlqRouter R} (router : R) (to_rfc3339 : Z → string).

Lemma act_timed h cb jitter now a (w w' : bworker) :
  batch_act router to_rfc3339 h cb jitter now a w = Ret w' → timed (bw_acc w) → timed (bw_acc w').
Proof.
  destruct a as [pb|p|m|]; cbn [batch_act]; intros Ha T.
  - by destruct (flush_batch_effect _ _ _ _ _ _ _ _ _ Ha) as [-> _].
  - apply flush_if_full_cases in Ha as [->|(first & rest & b & Hb & _ & Hf)]; [done|].
    destruct (flush_batch_effect _ _ _ _ _ _ _ _ _ Hf) as [-> _]. intros q b' Hq Hm.
    cbn [bw_with_acc bw_acc with_accumulators accumulators] in Hq.
    apply lookup_insert_Some in Hq as [[_ <-]|[_ Hq]]; [done|by eapply T].
  - injection Ha as <-. by apply add_timed.
  - by injection Ha as <-.
Qed.

Lemma task_act_timed b closed st h (w : bworker) todo rx r :
  batch_task_act router to_rfc3339 b closed st h w todo rx = Ret r → timed (bw_acc w) → timed (bw_acc r.1.1).
Proof.
  destruct st as [now br|now cb jitter], todo as [|a todo]; cbn [batch_task_act]; try by intros [= <-].
  - destruct (branch_event _ _ _ _ _) as [[ev rest]|]; [|by intros [= <-]].
    destruct (batch_begin ev w) as [w1 acts] eqn:E. intros [= <-]. by eapply begin_timed.
  - destruct (batch_act _ _ _ _ _ _ _ _) as [w1|] eqn:E; [|done]. intros [= <-]. by eapply act_timed.
Qed.

End steps.

(** ** In every state of the runtime *)

Section system.
Context {KafkaError Source R : Type} `{DlqRouter R} (router : R) (to_rfc3339 : Z → string).
Context {HOs : HashOrder string} {HOk : HashOrder TopicPartitionKey} {HOz : HashOrder Z}.
Context (handlers : gmap string PythonHandler) (topics : list string).

Abbreviation sys := (system KafkaError Source).

Definition timed_task (t : worker_task) : Prop :=
  match t with SingleTask _ _ => True | BatchTask _ w _ => timed (bw_acc w) end.

Lemma system_step_timed ev (s s' : sys) :
  system_step router to_rfc3339 handlers topics s ev = Ret s' →
  Forall timed_task (sy_workers s) → Forall timed_task (sy_workers s').
Proof.
  intros Hs T. apply system_step_cases in Hs as [(i & wev & Hs)|(_ & _ & Ew)].
  - unfold sys_worker in Hs. destruct (topics !! i) as [tp|]; [|by simplify_eq].
    destruct (sy_workers s !! i) as [t|] eqn:Hw; [|by simplify_eq].
    pose proof (Forall_lookup_1 _ _ _ _ T Hw) as Ht. destruct (task_stopped t); [by simplify_eq|].
    destruct t as [w sl|h w todo], wev as [st|st]; try by simplify_eq.
    + destruct (single_act _ _ _ _ _ _ _ _ _) as [r|]; [|done]. injection Hs as <-. by apply Forall_insert.
    + destruct (batch_task_act _ _ _ _ _ _ _ _ _) as [r|] eqn:E; [|done]. injection Hs as <-.
      apply Forall_insert; [done|]. by apply task_act_timed in E.
  - destruct Ew as [->| ->]; [done|]. apply Forall_fmap. eapply Forall_impl; [exact T|]. by intros [].
Qed.

Lemma system_run_timed evs (s0 s : sys) :
  system_init topics s0 → system_run router to_rfc3339 handlers topics evs s0 = Ret s → Forall timed_task (sy_workers s).
Proof.
  intros Hi Hr. refine (ofold_inv (λ s : sys, Forall timed_task (sy_workers s)) _ evs _ s0 s _ Hr).
  - intros a ev a' _ T Hs. by eapply system_step_timed.
  - eapply Forall_impl; [exact (in_workers _ _ Hi)|]. intros [w sl|h w todo]; [done|]. intros (Ha & _).
    intros p b. by rewrite Ha.
Qed.

End system.

(** ** The tasks that serve messages *)

(** The steps of the dispatcher and of the workers, and the hand-over of a message
    that was received; every call of the callable answers [cb], and a draw is [j]. *)
Definition drain_event (cb : Callback) (j : f64) (ev : system_event) : Prop :=
  match ev with
  | SyLoop LvSend | SyDispatch _ => True
  | SyWorker _ (WeSingle (StepProcess t)) => tn_callback t = cb ∧ tn_jitter t = j
  | SyWorker _ (WeSingle _) => True
  | SyWorker _ (WeBatch (StepBranch _ b)) => b = BrMessage ∨ b = BrDeadline
  | SyWorker _ (WeBatch (StepAct _ cb' jitter)) => cb' = cb ∧ ∀ o, jitter o = j
  | _ => False
  end.

(** No stop has reached the tasks that serve messages. *)
Definition serving {KafkaError Source : Type} (s : system KafkaError Source) : bool :=
  negb (token s) && negb (ss_signal (sy_stream s)) && negb (receiver_dropped (sy_stream s)) &&
  forallb (λ t, negb (task_stopped t)) (sy_workers s).

Section drain.
Context {KafkaError Source : Type} (to_rfc3339 : Z → string).
Context {HOs : HashOrder string} {HOk : HashOrder TopicPartitionKey} {HOz : HashOrder Z}.

Abbreviation sys := (system KafkaError Source).

Context (kafka : kafka_answers) (env_mode env : option string) (cfg : PyConsumerConfig) (calls : list py_call).
Context (rt : Runtime) (c : client) (clock : Z) (s0 : sys) (cb : Callback) (j0 : f64).
Abbreviation policy := (default_policy (rn_retry rt)).
Hypothesis built : build kafka env (py_run env_mode cfg calls) = Ret (Ok rt).
Hypothesis started : runtime_system c clock rt = Ret s0.
Hypothesis attempts_ok : 0 ≤ max_attempts policy < 2 ^ 64.
Hypothesis draw : draw_ok policy j0.
Hypothesis not_stopped : CallStop ∉ calls.

Abbreviation topics := (worker_topics rt).
Abbreviation live := (live to_rfc3339 rt s0).
Abbreviation good := (drain_event cb j0).
Abbreviation can := (can_by to_rfc3339 rt good).
Abbreviation queue_of tp s := (receiver_buffer tp (dispatcher (sy_disp s))).

Lemma good_allowed ev : good ev → allowed rt ev.
Proof.
  intros Hg. split; [|by intros ->]. destruct ev as [e|?|? [[|t|]|[|now cb' jitter]]| | | | | | | |]; try done.
  - by destruct e.
  - destruct Hg as [_ <-]. exact draw.
  - destruct Hg as [_ Hj]. intros o. by rewrite Hj.
Qed.

Lemma go_now (P : sys → Prop) s : P s → can P s.
Proof. apply can_by_now. Qed.

Lemma go_step (P : sys → Prop) s ev :
  live s → good ev →
  (∀ s', system_step (rn_router rt) to_rfc3339 (runtime_handlers rt) topics s ev = Ret s' → live s' → can P s') → can P s.
Proof. eapply can_by_step; eauto using good_allowed. Qed.

Lemma go_bind (P Q : sys → Prop) s : live s → can P s → (∀ s', live s' → P s' → can Q s') → can Q s.
Proof. eapply can_by_bind; eauto using good_allowed. Qed.

Lemma go_mono (P Q : sys → Prop) s : can P s → (∀ s', P s' → Q s') → can Q s.
Proof. intros (evs & s' & Hg & Hr & HP) Hk. exists evs, s'. auto. Qed.

(** ** One worker *)

(** Worker [i] has [t] to go on from and [rx] in its queue. *)
Record at_worker (i : nat) (tp : string) (t : worker_task) (rx : list OwnedMessage) (s : sys) : Prop := {
  aw_live : live s;
  aw_token : token s = false;
  aw_topic : topics !! i = Some tp;
  aw_task : sy_workers s !! i = Some t;
  aw_running : task_stopped t = false;
  aw_queue : queue_of tp s = rx
}.

(** The other workers and the stream are as they were. *)
Record beside (i : nat) (s s' : sys) : Prop := {
  bs_stream : sy_stream s' = sy_stream s;
  bs_refused : sy_refused s' = sy_refused s;
  bs_token : token s' = token s;
  bs_workers : ∀ j, j ≠ i → sy_workers s' !! j = sy_workers s !! j;
  bs_queues : ∀ j tp, j ≠ i → topics !! j = Some tp → queue_of tp s' = queue_of tp s
}.

Lemma beside_refl i s : beside i s s.
Proof. by split. Qed.

Lemma beside_trans i s1 s2 s3 : beside i s1 s2 → beside i s2 s3 → beside i s1 s3.
Proof.
  intros [A1 A2 A3 A4 A5] [B1 B2 B3 B4 B5]. split; [congruence..| |].
  - intros j Hj. by rewrite B4, A4.
  - intros j tp Hj Ht. by rewrite (B5 j), (A5 j).
Qed.

Lemma topics_distinct : NoDup topics.
Proof. exact (in_topics _ _ (runtime_system_init _ _ _ _ _ _ _ _ _ built started)). Qed.

Lemma facts s :
  live s → system_inv topics (we_offsets (sy_env s0)) s ∧ length (sy_workers s) = length topics ∧
    safe_inv policy s ∧ end_inv s.
Proof.
  intros Hl. destruct (live_facts _ _ _ _ _ _ _ _ _ _ built started attempts_ok not_stopped s Hl) as (I & L & F & _ & J).
  auto.
Qed.

(** What a step of worker [i] leaves. *)
Lemma worker_moves i tp t rx s t' rx' e' :
  at_worker i tp t rx s → live (worker_step i tp rx' t' e' s) →
  same_senders (dispatcher (sy_disp s)) (we_queues e') → task_stopped t' = false →
  at_worker i tp t' rx' (worker_step i tp rx' t' e' s) ∧ beside i s (worker_step i tp rx' t' e' s).
Proof.
  intros [Hl Htok Ht Hw Hs Hq] Hl' Hsend Hs'. destruct (facts _ Hl) as (I & L & _).
  pose proof (lookup_lt_Some _ _ _ Hw) as Hlt.
  assert (Hent : ∀ j tp', topics !! j = Some tp' → ∃ e, dispatcher (sy_disp s) !! tp' = Some e).
  { intros j tp' Hj. assert (is_Some (sy_workers s !! j)) as [t1 H1]
      by (apply lookup_lt_is_Some; rewrite L; by eapply lookup_lt_Some).
    destruct (sv_topic _ _ _ I j tp' t1 Hj H1) as [[_ (e & He & _)] _]. eauto. }
  split; split; try done.
  - cbn [worker_step sy_workers]. by apply list_lookup_insert_eq.
  - destruct (Hent i tp Ht) as [e He]. destruct (step_entry tp rx' (task_stopped t') _ _ _ _ He Hsend) as (e2 & He2 & _ & Heq).
    unfold receiver_buffer. cbn [worker_step sy_disp cd_with_queues dispatcher]. rewrite He2. by apply Heq.
  - intros j Hj. cbn [worker_step sy_workers]. by apply list_lookup_insert_ne.
  - intros j tp' Hj Hj'. destruct (Hent j tp' Hj') as [e He].
    destruct (step_entry tp rx' (task_stopped t') _ _ _ _ He Hsend) as (e2 & He2 & Hne & _).
    unfold receiver_buffer. cbn [worker_step sy_disp cd_with_queues dispatcher]. rewrite He2, He, Hne; [done|].
    intros ->. apply Hj. by eapply NoDup_lookup; [exact topics_distinct|..].
Qed.

(** ** A single-message worker *)

Lemma single_goes (P : sys → Prop) s i tp w sl rx st :
  at_worker i tp (SingleTask w sl) rx s → good (SyWorker i (WeSingle st)) →
  (∀ s' r e, single_act (rn_router rt) to_rfc3339 (runtime_handlers rt) i false st (wk_with_rx rx w) sl e = Ret r →
     we_retry e = we_retry (sy_env s) → sy_env s' = r.2 →
     at_worker i tp (SingleTask r.1.1 r.1.2) (wk_rx r.1.1) s' → beside i s s' → can P s') → can P s.
Proof.
  intros A Hg Hk. pose proof A as [Hl Htok Ht Hw Hs Hq]. apply (go_step P s _ Hl Hg). intros s' Hst Hl'.
  cbn [system_step] in Hst. unfold sys_worker in Hst. rewrite Ht, Hw, Hs, Htok, Hq in Hst.
  destruct (single_act _ _ _ _ _ _ _ _ _) as [[[w1 sl1] e1]|] eqn:E; [|done].
  cbn [obind fst snd] in Hst. injection Hst as <-. pose proof (single_act_flow _ _ _ _ _ _ _ _ _ _ _ _ E) as (_ & _ & Hsend & _).
  assert (wk_stopped w1 = false) as Hs1.
  { destruct (wk_stopped w1) eqn:Es; [|done]. symmetry. by apply (single_act_stops _ _ _ _ _ _ _ _ _ _ _ _ E). }
  destruct (worker_moves i tp _ _ s (SingleTask w1 sl1) (wk_rx w1) e1 A Hl' Hsend Hs1) as [A' B].
  eapply Hk; [exact E|done|done|exact A'|exact B].
Qed.

Definition the_turn : turn :=
  {| tn_cancelled_poll := false; tn_take_message := true; tn_callback := cb; tn_jitter := j0; tn_now := 0;
     tn_queue_wait := 0; tn_call_elapsed := 0; tn_elapsed := 0; tn_cancelled_sleep := false;
     tn_cancelled_after := false |}.

Abbreviation attempts_of m s := (rc_state (we_retry (sy_env s)) !! (topic m, partition m, offset m)).

(** The worker is idle again, with its queue as it was. *)
Abbreviation idle_again i tp rx s :=
  (λ s', beside i s s' ∧ ∃ w, at_worker i tp (SingleTask w false) rx s' ∧ wk_state w = WIdle).

(** One call: the worker is idle, or sleeps before one of the attempts left. *)
Lemma single_calls (P : sys → Prop) s i tp w rx m n :
  at_worker i tp (SingleTask w false) rx s → wk_state w = WProcessing m →
  attempts_of m s = state_after (max_attempts policy) n →
  (∀ s' w' sl, at_worker i tp (SingleTask w' sl) rx s' → beside i s s' →
     wk_state w' = WIdle ∧ sl = false ∨
     wk_state w' = WProcessing m ∧ sl = true ∧ Z.of_nat n + 1 < max_attempts policy ∧
       attempts_of m s' = state_after (max_attempts policy) (S n) → can P s') → can P s.
Proof.
  intros A Hm Hn Hk. pose proof A as [Hl _ Ht Hw Hs _]. destruct (facts _ Hl) as (I & _ & F & _).
  destruct (runtime_workers _ _ _ _ built) as [Hh _].
  edestruct (taken_ok (runtime_handlers rt) topics policy attempts_ok Hh _ s i tp _ m I F Ht Hw) as [Htm Ho].
  { cbn [taken_by]. unfold held. rewrite Hm. apply elem_of_app. right. by left. }
  destruct (sf_retry _ _ F) as [Hpol _].
  apply (single_goes P s i tp w false rx (StepProcess the_turn) A (conj eq_refl eq_refl)).
  intros s' r e Ha He Hs' A' B. cbn [single_act] in Ha. unfold worker_process, wk_with_rx in Ha.
  cbn [wk_stopped wk_state] in Ha. simpl in Hs. rewrite Hs, Hm in Ha.
  assert (is_ret (handler_for_topic (runtime_handlers rt) (topic m)) = true) as Hret.
  { unfold handler_for_topic. rewrite Htm. by destruct (Hh tp) as [h ->]; [eapply list_elem_of_lookup_2|]. }
  destruct (process_turn (rn_router rt) to_rfc3339 (runtime_handlers rt) i (turn_cancelled false false the_turn) m
    {| wk_state := WProcessing m; wk_rx := rx; wk_stopped := false; wk_fanned := wk_fanned w |} e n)
    as (w1 & e1 & Hp & _ & _ & Hcase); rewrite ?He, ?Hpol; try done.
  { intros Hlt. by apply draw. }
  pose proof (process_message_keeps _ _ _ _ _ _ _ _ _ _ Hp eq_refl eq_refl) as (Hrx & Hs1 & _).
  rewrite Hp in Ha. cbn [obind fst snd] in Ha. injection Ha as <-. cbn [fst snd] in *. rewrite Hrx in A'.
  apply (Hk s' w1 _ A' B). unfold is_sleeping. rewrite Hs1. rewrite He, Hpol in Hcase.
  destruct Hcase as [->|(-> & _ & Hlt & Hn')]; [by left|right]. rewrite Hs'. done.
Qed.

Lemma single_settles d : ∀ s i tp w rx m n,
  at_worker i tp (SingleTask w false) rx s → wk_state w = WProcessing m →
  attempts_of m s = state_after (max_attempts policy) n → (Z.to_nat (max_attempts policy - Z.of_nat n) ≤ d)%nat →
  can (idle_again i tp rx s) s.
Proof.
  induction d as [|d IH]; intros s i tp w rx m n A Hm Hn Hd; apply (single_calls _ s i tp w rx m n A Hm Hn);
    intros s1 w1 sl A1 B1 [[Hi ->]|(Hw1 & -> & Hlt & Hn1)]; try (apply go_now; by eauto); [lia|].
  apply (single_goes _ s1 i tp w1 true rx StepWake A1 Logic.I). intros s2 r e Ha He Hs2 A2 B2.
  cbn [single_act worker_wake] in Ha. injection Ha as <-. cbn [fst snd] in *.
  eapply go_mono; [eapply (IH s2 i tp _ rx m (S n) A2)|].
  - exact Hw1.
  - by rewrite Hs2, He.
  - lia.
  - intros s3 (B3 & w3 & A3 & Hw3). split; [|by exists w3]. by eapply beside_trans; [eapply beside_trans|].
Qed.

(** Nothing is left for worker [i]. *)
Definition clear (i : nat) (s : sys) : Prop :=
  ∃ tp t, at_worker i tp t [] s ∧ ∀ p, inside p t = [].

(** The worker settles the message it has, awake or asleep. *)
Lemma single_rests s i tp w sl rx :
  at_worker i tp (SingleTask w sl) rx s → can (idle_again i tp rx s) s.
Proof.
  assert (Hawake : ∀ s w, at_worker i tp (SingleTask w false) rx s → can (idle_again i tp rx s) s).
  { clear s w. intros s w A. destruct (wk_state w) as [|m] eqn:Ew; [apply go_now; split; [apply beside_refl|by exists w]|].
    destruct (facts _ (aw_live _ _ _ _ _ A)) as (_ & _ & F & _).
    destruct (sf_retry _ _ F) as [_ Ha]. destruct (Ha (topic m, partition m, offset m)) as [n Hn].
    by eapply single_settles. }
  intros A. destruct sl; [|by eapply Hawake].
  apply (single_goes _ s i tp w true rx StepWake A Logic.I). intros s1 r e Ha _ _ A1 B1.
  cbn [single_act worker_wake] in Ha. injection Ha as <-. cbn [fst snd] in *.
  eapply go_mono; [eapply (Hawake s1 _ A1)|]. intros s2 [B2 ?]. split; [by eapply beside_trans|done].
Qed.

Lemma single_drains rx : ∀ s i tp w sl,
  at_worker i tp (SingleTask w sl) rx s → can (λ s', beside i s s' ∧ clear i s') s.
Proof.
  induction rx as [|m rx IH]; intros s i tp w sl A;
    eapply go_bind; try exact (aw_live _ _ _ _ _ A); try (eapply single_rests; exact A); intros s1 _ (B1 & w1 & A1 & Hw1).
  - apply go_now. split; [done|]. exists tp, (SingleTask w1 false). split; [done|]. intros p. cbn [inside].
    unfold held. by rewrite Hw1.
  - apply (single_goes _ s1 i tp w1 false (m :: rx) (StepPoll true) A1 Logic.I). intros s2 r e Ha _ _ A2 B2.
    pose proof (aw_running _ _ _ _ _ A1) as Hs1. cbn [task_stopped] in Hs1. simpl in Ha.
    unfold worker_poll, wk_with_rx in Ha. cbn [wk_stopped wk_state wk_rx poll_for_work andb negb] in Ha.
    rewrite Hs1, Hw1 in Ha. injection Ha as <-. cbn [fst snd wk_rx] in *.
    eapply go_mono; [eapply (IH s2 i tp _ _ A2)|]. intros s3 [B3 ?]. split; [|done].
    eapply beside_trans; [exact B1|]. by eapply beside_trans.
Qed.

(** ** A batch worker *)

Lemma batch_goes (P : sys → Prop) s i tp h w todo rx st :
  at_worker i tp (BatchTask h w todo) rx s → good (SyWorker i (WeBatch st)) →
  (∀ s' r e closed,
     batch_task_act (rn_router rt) to_rfc3339 false closed st h (bw_with_env e w) todo rx = Ret r →
     (bw_stopped r.1.1 = false → at_worker i tp (BatchTask h r.1.1 r.1.2) r.2 s' ∧ beside i s s') → can P s') →
  can P s.
Proof.
  intros A Hg Hk. pose proof A as [Hl Htok Ht Hw Hs Hq]. apply (go_step P s _ Hl Hg). intros s' Hst Hl'.
  destruct (facts _ Hl) as (I & _). destruct (sv_topic _ _ _ I i tp _ Ht Hw) as [_ Hinv].
  cbn [system_step] in Hst. unfold sys_worker in Hst. rewrite Ht, Hw, Hs, Htok, Hq in Hst.
  destruct (batch_task_act _ _ _ _ _ _ _ _ _) as [[[w1 todo1] rx1]|] eqn:E; [|done].
  cbn [obind fst snd] in Hst. injection Hst as <-. eapply Hk; [exact E|]. cbn [fst snd]. intros Hs1.
  eapply batch_task_act_flow in E as (_ & _ & Hsend & _); [|intros _; apply steps_inv_env; by apply Hinv|done].
  by apply (worker_moves i tp _ _ s (BatchTask h w1 todo1) rx1 (bw_env w1) A Hl' Hsend).
Qed.

(** The next part of the branch. *)
Lemma act_goes (P : sys → Prop) s i tp h w a todo rx :
  at_worker i tp (BatchTask h w (a :: todo)) rx s →
  (∀ s' w' e, batch_act (rn_router rt) to_rfc3339 h (λ _, cb) (λ _, j0) 0 a (bw_with_env e w) = Ret w' →
     at_worker i tp (BatchTask h w' todo) rx s' → beside i s s' → can P s') → can P s.
Proof.
  intros A Hk. pose proof A as [Hl Htok Ht Hw Hs _]. destruct (facts _ Hl) as (I & _ & _ & J).
  destruct (sv_topic _ _ _ I i tp _ Ht Hw) as [_ Hinv].
  apply (batch_goes P s i tp h w (a :: todo) rx (StepAct 0 cb (λ _, j0)) A (conj eq_refl (λ _, eq_refl))).
  intros s' r e closed Ha HA. cbn [batch_task_act] in Ha.
  destruct (batch_act _ _ _ _ _ _ _ _) as [w1|] eqn:E; [|done]. cbn [obind] in Ha. injection Ha as <-. cbn [fst snd] in *.
  pose proof (batch_act_flow _ _ _ _ _ _ _ _ _ _ (proj2 (steps_inv_env _ _ _) (Hinv Hs)) E) as (_ & _ & Est & _).
  destruct HA as [A' B]; [|by eapply Hk]. rewrite Est. destruct a; try exact Hs.
  exfalso. rewrite (ev_stop _ J i h w _ Hw Hs) in Htok; [done|by left].
Qed.

(** The rest of the branch; flushes leave the buffers alone. *)
Lemma acts_go todo : ∀ s i tp h w rx,
  at_worker i tp (BatchTask h w todo) rx s →
  can (λ s', beside i s s' ∧ ∃ w', at_worker i tp (BatchTask h w' []) rx s' ∧
    ((∃ bs, todo = (ActFlush <$> bs)) → bw_acc w' = bw_acc w)) s.
Proof.
  induction todo as [|a todo IH]; intros s i tp h w rx A.
  { apply go_now. split; [apply beside_refl|]. by exists w. }
  apply (act_goes _ s i tp h w a todo rx A). intros s1 w1 e Ha A1 B1.
  eapply go_mono; [apply (IH s1 i tp h w1 rx A1)|]. intros s2 (B2 & w2 & A2 & Hacc).
  split; [by eapply beside_trans|]. exists w2. split; [done|]. intros [[|b bs] Hbs]; [done|].
  injection Hbs as -> ->. rewrite Hacc by (by exists bs). cbn [batch_act] in Ha.
  by destruct (flush_batch_effect _ _ _ _ _ _ _ _ _ Ha) as [-> _].
Qed.

(** A branch is taken, and what it does is done. *)
Lemma branch_goes s i tp h w rx now b ev rx' :
  at_worker i tp (BatchTask h w []) rx s → b = BrMessage ∨ b = BrDeadline →
  (∀ closed, branch_event false closed now b rx = Some (ev, rx')) →
  can (λ s', beside i s s' ∧ ∃ e w1 todo w', batch_begin ev (bw_with_env e w) = (w1, todo) ∧
    at_worker i tp (BatchTask h w' []) rx' s' ∧ ((∃ bs, todo = (ActFlush <$> bs)) → bw_acc w' = bw_acc w1)) s.
Proof.
  intros A Hb He. pose proof (aw_running _ _ _ _ _ A) as Hs. cbn [task_stopped] in Hs.
  apply (batch_goes _ s i tp h w [] rx (StepBranch now b) A Hb). intros s1 r e closed Ha HA.
  cbn [batch_task_act] in Ha. rewrite He in Ha. destruct (batch_begin ev (bw_with_env e w)) as [w1 todo] eqn:E.
  injection Ha as <-. cbn [fst snd] in *. destruct HA as [A1 B1].
  { apply begin_goes_on in E as [_ ->]; [exact Hs|]. specialize (He closed). unfold branch_event in He.
    destruct Hb as [-> | ->]; [destruct rx|]; by simplify_eq/=. }
  eapply go_mono; [apply (acts_go todo s1 i tp h w1 rx' A1)|]. intros s2 (B2 & w2 & A2 & Hacc).
  split; [by eapply beside_trans|]. by exists e, w1, todo, w2.
Qed.

(** Messages left in the buffers are flushed at a deadline. *)
Lemma buffers_go s i tp h w :
  at_worker i tp (BatchTask h w []) [] s → can (λ s', beside i s s' ∧ clear i s') s.
Proof.
  intros A. destruct (acc_is_empty (bw_acc w)) eqn:Ee.
  { apply go_now. split; [apply beside_refl|]. exists tp, (BatchTask h w []). split; [done|]. intros p.
    cbn [inside pending to_add omap list_omap]. rewrite (empty_buffers _ p Ee). done. }
  assert (timed (bw_acc w)) as T.
  { destruct (aw_live _ _ _ _ _ A) as (evs & _ & Hr).
    pose proof (runtime_system_init _ _ _ _ _ _ _ _ _ built started) as Hi.
    pose proof (system_run_timed _ _ _ _ _ _ _ Hi Hr) as Hall.
    exact (Forall_lookup_1 _ _ _ _ Hall (aw_task _ _ _ _ _ A)). }
  destruct (deadline_comes _ T Ee) as [now Hnow].
  eapply go_mono; [apply (branch_goes s i tp h w [] now BrDeadline (BDeadline now) [] A); [by right|done]|].
  intros s1 (B1 & e & w1 & todo & w2 & Hb & A1 & Hacc). split; [done|]. exists tp, (BatchTask h w2 []).
  split; [done|]. intros p. cbn [inside pending to_add omap list_omap].
  cbn [batch_begin bw_with_env bw_acc] in Hb. rewrite Hnow, Ee in Hb.
  destruct (begin_drain_spec _ _ _ Hb) as (Hbs & Ha & _). rewrite (Hacc Hbs), Ha. cbn [bw_with_env bw_acc].
  rewrite flush_all_empties. done.
Qed.

Lemma batch_drains rx : ∀ s i tp h w,
  at_worker i tp (BatchTask h w []) rx s → can (λ s', beside i s s' ∧ clear i s') s.
Proof.
  induction rx as [|m rx IH]; intros s i tp h w A; [by eapply buffers_go|].
  eapply go_bind; [exact (aw_live _ _ _ _ _ A)| |].
  - apply (branch_goes s i tp h w (m :: rx) 0 BrMessage (BMessage 0 m) rx A); [by left|done].
  - intros s1 _ (B1 & e & w1 & todo & w2 & _ & A1 & _). eapply go_mono; [apply (IH s1 i tp h w2 A1)|].
    intros s2 [B2 ?]. split; [by eapply beside_trans|done].
Qed.

Lemma worker_drains s i tp t rx : at_worker i tp t rx s → can (λ s', beside i s s' ∧ clear i s') s.
Proof.
  intros A. destruct t as [w sl|h w todo]; [by eapply single_drains|].
  eapply go_bind; [exact (aw_live _ _ _ _ _ A)|apply acts_go; exact A|]. intros s1 _ (B1 & w1 & A1 & _).
  eapply go_mono; [by eapply batch_drains|]. intros s2 [B2 ?]. split; [by eapply beside_trans|done].
Qed.

(** ** All workers *)

Lemma clear_beside i j s s' : i ≠ j → live s' → beside i s s' → clear j s → clear j s'.
Proof.
  intros Hij Hl [_ _ B3 B4 B5] (tp & t & [_ A2 A3 A4 A5 A6] & Hin). exists tp, t. split; [|done].
  split; [done|congruence|done|by rewrite B4|done|by rewrite (B5 j)].
Qed.

Lemma workers_go s k :
  live s → token s = false → Forall (λ t, task_stopped t = false) (sy_workers s) → (k ≤ length topics)%nat →
  can (λ s', sy_stream s' = sy_stream s ∧ token s' = false ∧ sy_refused s' = sy_refused s ∧
    (∀ i, (i < k)%nat → clear i s') ∧ ∀ i, (k ≤ i)%nat → sy_workers s' !! i = sy_workers s !! i) s.
Proof.
  intros Hl Htok Hs. induction k as [|k IH]; intros Hk; [apply go_now; split_and!; try done; lia|].
  eapply go_bind; [exact Hl|apply IH; lia|]. intros s1 Hl1 (E1 & E2 & E3 & Hc & Hw). destruct (facts _ Hl) as (_ & L & _).
  destruct (lookup_lt_is_Some_2 (sy_workers s) k) as [t Ht]; [by rewrite L; lia|].
  destruct (lookup_lt_is_Some_2 topics k) as [tp Htp]; [lia|].
  assert (at_worker k tp t (queue_of tp s1) s1) as A.
  { split; try done; [by rewrite Hw|]. exact (Forall_lookup_1 _ _ _ _ Hs Ht). }
  eapply go_bind; [exact Hl1|exact (worker_drains _ _ _ _ _ A)|]. intros s2 Hl2 [B Hc2]. apply go_now.
  pose proof B as [B1 B2 B3 B4 _]. split_and!; [congruence..| |].
  - intros i Hi. destruct (decide (i = k)) as [->|]; [done|]. apply (clear_beside k i s1 s2); [done|done|done|apply Hc; lia].
  - intros i Hi. rewrite B4, Hw by lia. done.
Qed.

(** ** The stream *)

Lemma serving_spec (s : sys) :
  serving s = true ↔ token s = false ∧ ss_signal (sy_stream s) = false ∧ receiver_dropped (sy_stream s) = false ∧
    Forall (λ t, task_stopped t = false) (sy_workers s).
Proof.
  unfold serving. rewrite !andb_true_iff, !negb_true_iff, forallb_forall, Forall_forall.
  setoid_rewrite list_elem_of_In. setoid_rewrite negb_true_iff. tauto.
Qed.

(** The dispatcher has taken messages from the stream and nothing else has happened. *)
Record fed (given : list OwnedMessage) (s s' : sys) : Prop := {
  fd_serving : serving s' = true;
  fd_received : ss_received (sy_stream s') = ss_received (sy_stream s);
  fd_refused : ∃ l, sy_refused s' = sy_refused s ++ l ∧ l `sublist_of` given
}.

Lemma fed_trans g1 g2 s1 s2 s3 : fed g1 s1 s2 → fed g2 s2 s3 → fed (g1 ++ g2) s1 s3.
Proof.
  intros [_ A2 (l1 & A3 & A4)] [B1 B2 (l2 & B3 & B4)]. split; [done|congruence|]. exists (l1 ++ l2).
  split; [by rewrite B3, A3, app_assoc|by apply sublist_app].
Qed.

Lemma channel_goes ch : ∀ s, ss_channel (sy_stream s) = ch →
  live s → serving s = true →
  can (λ s', fed (in_channel (sy_stream s)) s s' ∧ ss_channel (sy_stream s') = [] ∧
    ss_loop (sy_stream s') = ss_loop (sy_stream s)) s.
Proof.
  induction ch as [|item ch IH]; intros s Ec Hl Hs.
  { apply go_now. split_and!; [|done|done]. split; [done|done|]. exists []. rewrite app_nil_r. split; [done|apply sublist_nil_l]. }
  apply (go_step _ s (SyDispatch c) Hl Logic.I). intros s1 Hst Hl1. cbn [system_step] in Hst.
  destruct (facts _ Hl) as (I & _). pose proof Hs as (Htok & Hg & Hd & Hw)%serving_spec.
  destruct (sv_task _ _ _ I) as [Et|Et]; [|unfold receiver_dropped in Hd; by rewrite Et in Hd].
  unfold sys_dispatch in Hst. rewrite Et, Ec in Hst.
  injection Hst as <-. set (s1 := {| sy_stream := taken item ch (sy_stream s) |}) in *.
  assert (fed (option_list (result_ok item)) s s1) as F.
  { split; [by apply serving_spec|done|]. exists (refused item (dispatcher (sy_disp s))). split; [done|].
    unfold refused. destruct item as [m|]; [|done]. cbn. destruct (is_ok_result _); [apply sublist_nil_l|done]. }
  eapply go_mono; [apply (IH s1 eq_refl Hl1 (fd_serving _ _ _ F))|]. intros s2 (F2 & E1 & E2). split_and!; [|done|exact E2].
  assert (in_channel (sy_stream s) = option_list (result_ok item) ++ in_channel (sy_stream s1)) as ->
    by (unfold in_channel; rewrite Ec; by destruct item). by eapply fed_trans.
Qed.

(** Also the message that the receiving task holds. *)
Lemma stream_goes s :
  live s → serving s = true →
  can (λ s', fed (in_channel (sy_stream s) ++ in_hand (sy_stream s)) s s' ∧ in_channel (sy_stream s') = [] ∧
    in_hand (sy_stream s') = []) s.
Proof.
  intros Hl Hs. eapply go_bind; [exact Hl|by apply (channel_goes _ s eq_refl)|].
  intros s1 Hl1 (F1 & Ec1 & El1). unfold in_hand at 1. rewrite <- El1.
  assert (in_hand (sy_stream s1) = [] → can (λ s', fed (in_channel (sy_stream s) ++ []) s s' ∧ in_channel (sy_stream s') = [] ∧
    in_hand (sy_stream s') = []) s1) as Hnone.
  { intros Hh. apply go_now. rewrite app_nil_r. unfold in_channel at 2. by rewrite Ec1. }
  destruct (ss_loop (sy_stream s1)) as [| |m|ms|] eqn:El; try (apply Hnone; unfold in_hand; by rewrite El).
  apply (go_step _ s1 (SyLoop LvSend) Hl1 Logic.I). intros s2 Hst Hl2. cbn [system_step] in Hst.
  pose proof (fd_serving _ _ _ F1) as Hs1. pose proof Hs1 as (Htok & Hg & Hd & Hw)%serving_spec.
  unfold loop_step, broadcast_ready in Hst. rewrite El, Hg, Hd, Ec1 in Hst. cbn [negb andb orb] in Hst.
  rewrite decide_True in Hst by (cbn; unfold RUN_CHANNEL_CAPACITY; lia). injection Hst as <-.
  set (s2 := sys_with_stream _ s1) in *.
  eapply go_mono; [apply (channel_goes _ s2 eq_refl Hl2); by apply serving_spec|].
  intros s3 (F3 & Ec3 & El3). split_and!; [|unfold in_channel; by rewrite Ec3|unfold in_hand; by rewrite El3].
  eapply fed_trans; [exact F1|]. by destruct F3 as [G1 G2 G3]; split.
Qed.

(** ** All together *)

(** With nothing in the stream, in the queues and inside the workers, every message
    is settled or was refused. *)
Lemma clear_settled s i tp b :
  live s → in_channel (sy_stream s) = [] → in_hand (sy_stream s) = [] → serving s = true →
  clear i s → topics !! i = Some tp → b ∈ ss_received (sy_stream s) → b_topic b = tp →
  let m := from_borrowed b in
  m ∈ sy_refused s ∨ ∃ t, sy_workers s !! i = Some t ∧ m ∈ settled (partition m) t.
Proof.
  intros Hl Ec Eh (_ & Hg & Hd & _)%serving_spec (tp' & t & [_ _ A3 A4 A5 A6] & Hin) Ht Hb Htp m.
  rewrite Ht in A3. injection A3 as <-. pose proof Hl as (evs & _ & Hr). destruct (facts _ Hl) as (_ & _ & _ & J).
  destruct (runtime_accounts _ _ _ _ _ _ _ _ _ _ _ _ _ _ built started Hr A4 A5)
    as (tp' & e & rest & Ht' & He & Hp & _ & Hrest & Hsplit).
  rewrite Ht in Ht'. injection Ht' as <-. unfold receiver_buffer in A6. rewrite He in A6.
  destruct (Hrest Hd) as [_ Hr2]. rewrite A6, Ec, Hr2, Eh in Hp.
  2: { destruct (loop_ended (sy_stream s)) eqn:El; [|done]. destruct (ev_ended _ J El); congruence. }
  assert (m ∈ on_topic tp (from_borrowed <$> ss_received (sy_stream s))) as Hgot.
  { apply list_elem_of_filter. split; [exact Htp|]. apply list_elem_of_fmap. by exists b. }
  cbn zeta in Hp. rewrite <- Hp, !elem_of_app in Hgot.
  destruct Hgot as [Hm|[Hm|[Hm|[Hm|Hm]]]]; try by apply not_elem_of_nil in Hm.
  - right. exists t. split; [done|]. assert (m ∈ filter (λ m', partition m' = partition m) (taken_by t)) as Hf
      by (by apply list_elem_of_filter). by rewrite Hsplit, Hin, app_nil_r in Hf.
  - left. by apply list_elem_of_filter in Hm as [_ Hm].
Qed.

Lemma backlog_goes s :
  live s → serving s = true →
  can (λ s', fed (in_channel (sy_stream s) ++ in_hand (sy_stream s)) s s' ∧
    ∀ i tp b, topics !! i = Some tp → b ∈ ss_received (sy_stream s') → b_topic b = tp →
      let m := from_borrowed b in
      m ∈ sy_refused s' ∨ ∃ t, sy_workers s' !! i = Some t ∧ m ∈ settled (partition m) t) s.
Proof.
  intros Hl Hs. eapply go_bind; [exact Hl|by apply stream_goes|].
  intros s1 Hl1 (F & Ec & Eh). destruct F as [F1 F2 F3]. pose proof F1 as (T & G & D & W)%serving_spec.
  eapply go_bind; [exact Hl1|by apply (workers_go s1 (length topics))|].
  intros s2 Hl2 (E1 & E2 & E3 & Hcl & Hw). apply go_now.
  assert (serving s2 = true) as Hs2.
  { apply serving_spec. rewrite E1. split_and!; [done..|]. apply Forall_forall. intros t [i Hi]%list_elem_of_lookup.
    destruct (decide (i < length topics)%nat) as [Hlt|Hge].
    - destruct (Hcl i Hlt) as (tp & t' & [_ _ _ A4 A5 _] & _). rewrite A4 in Hi. by injection Hi as <-.
    - rewrite Hw in Hi by lia. exact (Forall_lookup_1 _ _ _ _ W Hi). }
  split; [split; [done|by rewrite E1|by rewrite E3]|]. intros i tp b Ht Hb Htp.
  apply (clear_settled s2 i tp b Hl2); rewrite ?E1; try done; [apply Hcl; by eapply lookup_lt_Some|]. by rewrite <- E1.
Qed.

End drain.

(** ** The property *)

Section runtime.
Context {KafkaError Source : Type} (to_rfc3339 : Z → string).
Context {HOs : HashOrder string} {HOk : HashOrder TopicPartitionKey} {HOz : HashOrder Z}.

Abbreviation sys := (system KafkaError Source).

(** C6: The backlog of a running runtime can be settled, whatever the callable
    does.  For a runtime built after any calls of the program but [Consumer.stop], in
    every state that an interleaving of its tasks reaches before a stop comes to
    them, and for every behaviour of the callable (returning, raising or exceeding
    its timeout each time), the dispatcher and the workers can take steps after which
    they still serve and every message received for a topic with a worker is
    settled by that worker, or was refused by its queue; and nothing is refused on
    the way but messages that had not come to a queue.  So retries end, a batch
    that is not full is flushed at a deadline, and no message waits for another one. *)
Theorem backlog_can_be_settled kafka env_mode env cfg calls rt c clock (s0 : sys) cb j evs s :
  build kafka env (py_run env_mode cfg calls) = Ret (Ok rt) →
  runtime_system c clock rt = Ret s0 →
  0 ≤ max_attempts (default_policy (rn_retry rt)) < 2 ^ 64 →
  draw_ok (default_policy (rn_retry rt)) j →
  (CallStop ∉ calls) ∧ (SyApiStop ∉ evs) →
  Forall (event_ok (default_policy (rn_retry rt))) evs →
  runtime_run to_rfc3339 rt evs s0 = Ret s →
  serving s = true →
  ∃ evs' s' l, Forall (drain_event cb j) evs' ∧ runtime_run to_rfc3339 rt evs' s = Ret s' ∧ serving s' = true ∧
    ss_received (sy_stream s') = ss_received (sy_stream s) ∧
    sy_refused s' = sy_refused s ++ l ∧ l `sublist_of` in_channel (sy_stream s) ++ in_hand (sy_stream s) ∧
    ∀ i tp b, worker_topics rt !! i = Some tp → b ∈ ss_received (sy_stream s) → b_topic b = tp →
      let m := from_borrowed b in
      m ∈ sy_refused s' ∨ ∃ t, sy_workers s' !! i = Some t ∧ m ∈ settled (partition m) t.
Proof.
  intros Hb Hr0 HM Hj [Hc Hapi] Hev Hr Hs.
  assert (live to_rfc3339 rt s0 s) as Hl.
  { exists evs. split; [|done]. rewrite Forall_forall in Hev. apply Forall_forall. intros ev Hin.
    split; [by apply Hev|]. by intros ->. }
  destruct (backlog_goes to_rfc3339 _ _ _ _ _ _ _ _ s0 cb j Hb Hr0 HM Hj Hc s Hl Hs)
    as (evs' & s' & Hg & Hr' & [F1 F2 (l & F3 & F4)] & Hall).
  exists evs', s', l. split_and!; try done. intros i tp b Hi Hb' Htp. rewrite <- F2 in Hb'. by eapply Hall.
Qed.

End runtime.

(** ** Witness *)

(** A callable that always fails for a reason that may pass. *)
Definition failing_call : Callback := λ _, {| py_outcome := timeout_error; py_duration := 0 |}.

Definition demo_serving_seen (rt : Runtime) (s0 s : system string string) (t : worker_task) :=
  (worker_topics rt, serving s, (λ b, (b_topic b, b_offset b)) <$> ss_received (sy_stream s), offset <$> sy_refused s).

Lemma demo_serving_eq :
  demo_outcome demo_serving_seen demo_single_events (demo_build demo_single_calls) =
    Some (["a"], true, [("a", 5); ("a", 6); ("a", 7); ("a", 8); ("a", 9)], []).
Proof. vm_compute. reflexivity. Qed.

(** The worker sleeps before a retry, and messages wait in its queue, in the
    channel and with the receiving task; the callable never succeeds again. *)
Lemma backlog_can_be_settled_witness :
  ∃ rt (s s' : system string string) evs' l, demo_build demo_single_calls = Ret (Ok rt) ∧
    (λ b, (b_topic b, b_offset b)) <$> ss_received (sy_stream s') = [("a", 5); ("a", 6); ("a", 7); ("a", 8); ("a", 9)] ∧
    demo_runtime_run evs' rt s = Ret s' ∧ Forall (drain_event failing_call f64_half) evs' ∧
    sy_refused s' = sy_refused s ++ l ∧ offset <$> sy_refused s = [] ∧
    ∀ b, b ∈ ss_received (sy_stream s) → b_topic b = "a" →
      let m := from_borrowed b in
      m ∈ sy_refused s' ∨ ∃ t, sy_workers s' !! 0%nat = Some t ∧ m ∈ settled (partition m) t.
Proof.
  destruct (demo_outcome_inv _ _ _ _ demo_serving_eq) as (rt & s0 & s & t & E & E0 & Er & _ & Es).
  unfold demo_serving_seen in Es. injection Es as F1 F2 F3 F4.
  pose proof demo_policy_eq as Hp. rewrite E in Hp. cbn [demo_policy] in Hp. injection Hp as Hp.
  destruct (backlog_can_be_settled (HOs := hash_order_canonical string)
    (HOk := hash_order_canonical TopicPartitionKey) (HOz := hash_order_canonical Z) (λ _, "now") demo_kafka None
    (Some "8") demo_py_config demo_single_calls rt good_client 0 s0 failing_call f64_half demo_single_events s E E0)
    as (evs' & s' & l & Hg & Hr & _ & Hrec & Href & _ & Hall).
  - rewrite Hp. simpl. lia.
  - rewrite Hp. exact demo_draw_ok.
  - exact demo_single_no_stop.
  - rewrite Hp. exact demo_events_ok.
  - exact Er.
  - exact F2.
  - exists rt, s, s', evs', l. split; [exact E|]. split; [rewrite Hrec; exact F3|]. split; [exact Hr|]. split; [exact Hg|].
    split; [exact Href|]. split; [exact F4|]. intros b. apply (Hall 0%nat "a"). by rewrite F1.
Defined.
