(* ===== verification/Hooks.v ===== *)
(** * What the middleware does (src/middleware)

    The hooks of the three kinds of middleware: log records, metrics, and calls
    on Python objects.  A chain acts on a world made of these three. *)

From stdpp Require Import base gmap sets list strings pretty.
From S2P Require Import Prelude F64 Metrics Message Retry Execution Logging.

(** What a hook of a Python object is called with. *)
Inductive HookArg := HookDict (d : PyDict) | HookStr (s : string) | HookFloat (x : f64).

Record HookCall := { hc_class : string; hc_method : string; hc_args : list HookArg }.

(** [ctx_to_pydict] of middleware/callback.rs. *)
Definition hook_dict (ctx : ExecutionContext) : PyDict :=
  let d : PyDict :=
    <["worker_id" := PyInt (Z.of_nat (ctx_worker_id ctx))]>
    (<["offset" := PyInt (ctx_offset ctx)]>
    (<["partition" := PyInt (ctx_partition ctx)]>
    (<["topic" := PyStr (ctx_topic ctx)]> ∅))) in
  set_opt "trace_flags" (trace_flags (ctx_trace ctx))
  (set_opt "span_id" (span_id (ctx_trace ctx))
  (set_opt "trace_id" (trace_id (ctx_trace ctx)) d)).

(** ** The records of the logging middleware (middleware/logging.rs) *)

Definition ctx_fields (ctx : ExecutionContext) : string :=
  "handler_id=" +:+ ctx_topic ctx +:+ " topic=" +:+ ctx_topic ctx +:+
  " partition=" +:+ pretty (ctx_partition ctx) +:+ " offset=" +:+ pretty (ctx_offset ctx).

Definition before_message (ctx : ExecutionContext) : string :=
  "handler middleware: before: " +:+ ctx_fields ctx.

Definition after_message (ctx : ExecutionContext) (r : ExecutionResult) (elapsed : Z) : string :=
  "handler middleware: after: " +:+ ctx_fields ctx +:+
  " elapsed_ms=" +:+ pretty (as_millis elapsed) +:+ " result=" +:+ error_type_label r.

Definition error_message (ctx : ExecutionContext) (r : ExecutionResult) : string :=
  "handler middleware: error: " +:+ ctx_fields ctx +:+ " error_type=" +:+ error_type_label r.

(** ** The hooks *)

Section hooks.
Context {S : Type} `{MetricsSink S}.

(** The file and the line the [log] macros record, and the methods the Python
    objects have. *)
Context (log_file : option string) (log_line : Level → option Z).
Context (has_method : string → string → bool).

Record hook_world := {
  hw_log : list OwnedRecord;   (* given to the [log] crate, in order *)
  hw_sink : S;
  hw_python : list HookCall
}.

Definition log_emit (level : Level) (message : string) (w : hook_world) : hook_world :=
  {| hw_log := hw_log w ++
       [{| or_level := level; or_target := "_kafpy::middleware::logging"; or_message := message;
           or_file := log_file; or_line := log_line level |}];
     hw_sink := hw_sink w; hw_python := hw_python w |}.

Definition on_sink (f : S → S) (w : hook_world) : hook_world :=
  {| hw_log := hw_log w; hw_sink := f (hw_sink w); hw_python := hw_python w |}.

(** The calls of [PythonMiddleware]: no method, no call; an exception of the
    method is ignored. *)
Definition call_method (class method : string) (args : list HookArg) (w : hook_world) : hook_world :=
  if has_method class method then
    {| hw_log := hw_log w; hw_sink := hw_sink w;
       hw_python := hw_python w ++ [{| hc_class := class; hc_method := method; hc_args := args |}] |}
  else w.

(** [HandlerMiddleware] of each kind; the metrics middleware keeps the default
    [before], which does nothing. *)
Definition hook_before (ctx : ExecutionContext) (m : Middleware) (w : hook_world) : hook_world :=
  match m with
  | MwLogging => log_emit Info (before_message ctx) w
  | MwMetrics => w
  | MwPython class => call_method class "before" [HookDict (hook_dict ctx)] w
  end.

Definition hook_after (ctx : ExecutionContext) (r : ExecutionResult) (elapsed : Z) (m : Middleware)
    (w : hook_world) : hook_world :=
  match m with
  | MwLogging => log_emit Info (after_message ctx r elapsed) w
  | MwMetrics => on_sink (metrics_after ctx r elapsed) w
  | MwPython class =>
      call_method class "after"
        [HookDict (hook_dict ctx); HookStr (error_type_label r); HookFloat (f64_of_Z (as_millis elapsed))] w
  end.

Definition hook_on_error (ctx : ExecutionContext) (r : ExecutionResult) (m : Middleware)
    (w : hook_world) : hook_world :=
  match m with
  | MwLogging => log_emit Error (error_message ctx r) w
  | MwMetrics => on_sink (metrics_on_error ctx) w
  | MwPython class =>
      call_method class "on_error" [HookDict (hook_dict ctx); HookStr (error_type_label r)] w
  end.

(** The chain. *)
Definition run_before_all (ctx : ExecutionContext) (chain : list Middleware) (w : hook_world) : hook_world :=
  foldl (λ w m, hook_before ctx m w) w chain.

Definition run_after_all (ctx : ExecutionContext) (r : ExecutionResult) (elapsed : Z)
    (chain : list Middleware) (w : hook_world) : hook_world :=
  foldl (λ w m, hook_after ctx r elapsed m w) w (rev chain).

Definition run_on_error_all (ctx : ExecutionContext) (r : ExecutionResult) (chain : list Middleware)
    (w : hook_world) : hook_world :=
  foldl (λ w m, hook_on_error ctx r m w) w (rev chain).

(** [invoke_mode_with_timeout_override] with what its middleware does. *)
Definition invoke_hooked (h : PythonHandler) (ctx : ExecutionContext) (msg : OwnedMessage)
    (timeout : option Z) (callback : Callback) (w : hook_world) : ExecutionResult * hook_world :=
  let chain := build_middleware_chain <$> h_middleware h in
  let w := match chain with Some c => run_before_all ctx c w | None => w end in
  let effective_timeout := match timeout with Some t => Some t | None => handler_timeout h end in
  let result := run_with_timeout effective_timeout h ctx msg callback in
  let elapsed := elapsed_of effective_timeout (callback (handler_args h ctx msg)) in
  match chain with
  | Some c =>
      (result, if is_ok result then run_after_all ctx result elapsed c w
               else run_on_error_all ctx result c w)
  | None => (result, w)
  end.

(** ** Lemmas *)

(** What one class of middleware adds to the log and to the Python calls. *)
Definition when {A : Type} (b : bool) (a : A) : list A := if b then [a] else [].

Definition is_logging (name : string) : bool := bool_decide (name = "Logging").
Definition is_metrics (name : string) : bool := bool_decide (name = "Metrics").
Definition custom_with (method name : string) : bool :=
  negb (is_logging name) && negb (is_metrics name) && has_method name method.

Definition how_many (p : string → bool) (names : list string) : nat := length (List.filter p names).

(** The kind of a class, from its name. *)
Lemma middleware_of_spec name :
  middleware_of name =
    if is_logging name then MwLogging else if is_metrics name then MwMetrics else MwPython name.
Proof.
  unfold is_logging, is_metrics. destruct (decide (name = "Logging")) as [->|N1]; [done|].
  rewrite bool_decide_eq_false_2 by done. destruct (decide (name = "Metrics")) as [->|N2]; [done|].
  rewrite bool_decide_eq_false_2 by done. unfold middleware_of.
  repeat (case_match; subst; try done).
Qed.

Lemma iter_id (n : nat) (s : S) : Nat.iter n id s = s.
Proof. induction n as [|n IH]; simpl; [done|]. by rewrite IH. Qed.

(** Running one hook of every middleware of a chain, given by its three effects. *)
Lemma hooks_fold (f : hook_world → Middleware → hook_world) (rec : OwnedRecord) (g : S → S)
    (method : string) (args : list HookArg) (names : list string) w :
  (∀ name w, f w (middleware_of name) =
     {| hw_log := hw_log w ++ when (is_logging name) rec;
        hw_sink := if negb (is_logging name) && is_metrics name then g (hw_sink w) else hw_sink w;
        hw_python := hw_python w ++
          when (custom_with method name) {| hc_class := name; hc_method := method; hc_args := args |} |}) →
  foldl f w (middleware_of <$> names) =
    {| hw_log := hw_log w ++ replicate (how_many is_logging names) rec;
       hw_sink := Nat.iter (how_many is_metrics names) g (hw_sink w);
       hw_python := hw_python w ++
         ((λ name, {| hc_class := name; hc_method := method; hc_args := args |})
           <$> List.filter (custom_with method) names) |}.
Proof.
  intros Hf. induction names as [|name names IH] using rev_ind.
  { destruct w. simpl. by rewrite !app_nil_r. }
  rewrite fmap_app, foldl_app, IH. cbn [fmap list_fmap foldl]. rewrite Hf. cbn [hw_log hw_sink hw_python].
  unfold how_many. rewrite !List.filter_app, !length_app, replicate_add, fmap_app.
  rewrite <- !app_assoc. f_equal.
  - do 2 f_equal. simpl. by destruct (is_logging name).
  - rewrite Nat.add_comm, Nat.iter_add. simpl. unfold is_logging, is_metrics.
    destruct (decide (name = "Metrics")) as [->|]; [done|]. rewrite (bool_decide_eq_false_2 (name = "Metrics")) by done.
    by rewrite andb_false_r.
  - do 2 f_equal. simpl. by destruct (custom_with method name).
Qed.

Lemma hooks_fold_rev (f : hook_world → Middleware → hook_world) rec g method args names w :
  (∀ name w, f w (middleware_of name) =
     {| hw_log := hw_log w ++ when (is_logging name) rec;
        hw_sink := if negb (is_logging name) && is_metrics name then g (hw_sink w) else hw_sink w;
        hw_python := hw_python w ++
          when (custom_with method name) {| hc_class := name; hc_method := method; hc_args := args |} |}) →
  foldl f w (rev (middleware_of <$> names)) =
    {| hw_log := hw_log w ++ replicate (how_many is_logging names) rec;
       hw_sink := Nat.iter (how_many is_metrics names) g (hw_sink w);
       hw_python := hw_python w ++
         ((λ name, {| hc_class := name; hc_method := method; hc_args := args |})
           <$> rev (List.filter (custom_with method) names)) |}.
Proof.
  intros Hf. rewrite <- (map_rev middleware_of). change (map middleware_of) with (fmap (M := list) middleware_of).
  rewrite (hooks_fold _ _ _ _ _ _ _ Hf). unfold how_many. by rewrite !List.filter_rev, !length_rev.
Qed.

Definition middleware_record (level : Level) (message : string) : OwnedRecord :=
  {| or_level := level; or_target := "_kafpy::middleware::logging"; or_message := message;
     or_file := log_file; or_line := log_line level |}.

(** The effects of the hooks by kind. *)
Ltac hook_effect name w :=
  rewrite middleware_of_spec; unfold custom_with, when;
  destruct w, (is_logging name), (is_metrics name);
  cbn [hook_before hook_after hook_on_error negb andb]; unfold log_emit, on_sink, call_method, middleware_record;
  cbn [hw_log hw_sink hw_python]; rewrite ?app_nil_r;
  try (case_match; rewrite ?app_nil_r); reflexivity.


End hooks.
Arguments hook_world : clear implicits.
